(* ===== verification/_CoqProject ===== *)
-Q . S2P
Prelude.v
CNum.v
CStr.v
Bitmap.v
Base64.v
Router.v
Json.v
PlatTypes.v
World.v
Frame.v
ProtoConv.v
CfgEthernet.v
CfgInterfaces.v
CfgSwitch.v
Messages.v
CfgServices.v
CfgParse.v
Handlers.v
Dispatch.v
Replies.v
Connect.v
Events.v
State.v
Netlink.v
Gnma.v
Gnmi.v
Sample.v
PortList.v
MessageEffects.v
ParserEffects.v
EthernetSpec.v
RouterSpec.v
SwitchSpec.v
StateSpec.v
ConnectSpec.v
HandlerEffects.v
ConfigureSpec.v
HandlerSpecs.v
Safety.v
Log.v
Txq.v
Client.v
ClientSpec.v
Interleave.v
Est.v
EstSpec.v
Boot.v
BootSpec.v
JsonParser.v
JsonParserSpec.v
JsonTree.v
Notify.v
GnmaSet.v
GnmaGet.v
GnmaState.v
GnmaImpl.v
NotifySpec.v
GnmaSpec.v
GnmaAnswers.v
GnmaReadSpec.v
PlatState.v
PlatVlan.v
PlatPort.v
PlatAaa.v
PlatInit.v
PlatApply.v
PlatScript.v
Periodic.v
PlatReport.v
PlatSample.v
PlatSystem.v
PlatRouterSpec.v
PlatScriptSpec.v
PlatFilesSpec.v
PlatFrame.v
PlatCache.v
PlatApplySpec.v
PlatVlanSpec.v
PlatGnmiSpec.v
PlatReportSpec.v
