(* ===== verification/Prelude.v ===== *)
(** * A verification library for the OLS uCentral client

    The client (src/src/ucentral-client/) runs on a switch, keeps a websocket
    open to a uCentral gateway, and carries out the JSON-RPC commands of the
    gateway on the platform it was built for.  The library models it in the
    layers it is written in, from the bottom:

    - data: [bitmap.h], [base64.c], [router-utils.c], the configuration structs
      of [ucentral-platform.h];
    - the protocol layer, [proto.c]: parsing a configuration, building
      messages, the command handlers, the state report;
    - the client, [ucentral-client.c] with [ucentral-log.c],
      [ucentral-json-parser.c] and [est-client.c]: start-up, enrolment, the
      websocket callback and the queues between the threads;
    - the SONiC platform, [platform/brcm-sonic/plat-gnma.c]: the [plat_*]
      functions, with the cache of what the switch is configured to;
    - the switch layer, [gnma/gnma_common.c]: the [gnma_*] functions, as gNMI
      messages and readings of the documents of the device.

    Where two layers meet there is a class: [World.Platform] between the
    protocol layer and the platform, [Gnma.Gnma] between [plat-gnma.c] and
    [gnma_common.c] (implemented by [GnmaImpl.gnma_common]), [Gnmi.Gnmi] for the
    device, [Handlers.EstClient] between the handlers and the EST client.  What is outside the repository is a
    class too, its documented behaviour a second class of laws:
    [Json.CJson]/[CJsonLaws] (cJSON, with the instance [jtree] that satisfies
    the laws), [World.CLibc] and [CNum.CTarget] (address parsing; what an
    out-of-range conversion of a double stores), [Router.QSort],
    [Client.Lws] (libwebsockets), [Est.OpenSsl], [JsonParser]'s lejp with its
    parsing stack and paths ([JsonTree.LejpPaths]).

    ** The files

    Generic: this file (outcomes, the monad and its calculus, setters), [CNum],
    [CStr], [Bitmap], [Base64], [Router], [Json], [PlatTypes].

    The protocol layer, function by function of [proto.c]:
    [World] the file-scope variables and the platform interface; [ProtoConv]
    [proto_*_to_num] and [__get_port_list]; [CfgEthernet], [CfgInterfaces],
    [CfgSwitch], [CfgServices], [CfgParse] the [cfg_*_parse] functions of each
    section; [Messages] replies and requests; [Connect]
    [connect_send]; [Events] the event callbacks; [State] [state_fill] and all
    it calls; [Handlers] the handlers and [Dispatch] [script_handle],
    [generic_handle] and [proto_handle].

    The client: [Log] [uc_log]; [Txq] the transmit queue, with its nodes in a
    store; [Client] [callback_broker] and what it calls; [Interleave] the same
    accesses as steps of concurrent threads; [Est] [est-client.c]; [Boot] the
    start-up of [main], and [sigthread_cb] against its loop;
    [JsonParser] the lejp callback that builds the cJSON tree in a store.

    The SONiC platform: [PlatState] the cache; [PlatVlan], [PlatPort],
    [PlatAaa] the [config_*_apply] functions; [PlatInit] [plat_state_init];
    [PlatApply] [plat_config_apply], saving and restoring, the metrics file, the
    ring of log lines; [PlatScript] [plat_run_script]; [PlatReport]
    [plat_state_get] and all it calls; [Periodic] the [plat_*_poll] functions
    and their threads as steps; [PlatSystem] remote terminals, upgrades, the
    identity of the device, why it restarted, and [plat_config_destroy].

    The switch layer: [Gnma] the interface [gnma_common.h]; [Gnmi] the session
    with the device; [GnmaSet] the functions that set, [GnmaGet] those that
    read what was set, [GnmaState] those that read the state of the device,
    [Netlink] the interface addresses asked of the kernel; [GnmaImpl] the
    instance of the interface; [Notify] the subscription, from a notification
    of the device through the callbacks of [gnma_common.c] and [plat-gnma.c] to
    those of [proto.c].

    [Sample] and [PlatSample] are concrete environments for the evaluated
    witnesses; nothing else depends on them.

    ** State, effects and outcomes

    A function of the program is a value of [M S A], a function from the state
    [S] to [Ok a s] (returned [a]), [Err s] (returned its failure code; what it
    had written stays in [s]) or [Fault f] (undefined behaviour: a null pointer
    read, an index or a string copied out of its array, an uninitialised local,
    a double free, a char array read past its end).  Faults are modelled where
    the code can reach them; theorems that exclude them say so.  [wp] is the
    weakest precondition over the three outcomes, and its rules with the
    tactics below are how the functions are walked.

    What a layer does outwards is a trace, oldest first: [w_out] messages, log
    lines and platform calls of the protocol layer; [pl_calls] the settings of
    the switch with their return values; [gn_sent] the messages to the device;
    [c_trace] the calls of libwebsockets; [e_requests] HTTP requests.

    An outcome the code cannot predict is taken from a list in the state: the
    allocations to come ([w_heap], [gn_heap], ...; a head [false] is a failure,
    past the end of the list they succeed), file operations, how much of a text
    a file holds in the end ([w_disk], [e_disk]: a short write, or what
    [fclose] could not write out), HTTP requests.  Whether the thread of a
    script has ended before the handler that started it looks at it again is
    the platform's to say ([plat_script_done]).

    A conversion of a double to an integer type it does not fit is no fault: it
    stores what the target stores ([cvt_oor], arbitrary), as C leaves it to the
    implementation where it follows IEC 60559.  Where a theorem needs the value,
    it asks that the number fits ([u_fits], [s_fits]).
    A cJSON constructor takes one outcome for the node it returns.

    ** Groups of theorems

    Data: the encoder and decoder of base64 are inverse ([Base64]); the
    bitmap walk visits exactly the bits set ([Bitmap]); the difference of two
    route databases, applied, turns one into the other ([Router]).

    Protocol layer: [MessageEffects], [ParserEffects], [HandlerEffects] walk
    every function once for an arbitrary relation ([Frame]) and conclude that
    every message is a well-formed JSON-RPC one with the serial number of the
    device.  [EthernetSpec], [SwitchSpec], [RouterSpec] state what each section
    of a document configures;
    [ConfigureSpec] and [HandlerSpecs] the outcome of each command on every
    branch; [Safety] which commands cannot access memory they should not, and
    for which numbers their handling is the same on every target;
    [ConnectSpec], [StateSpec], [PortList] the connect message, the state
    report and the cached port list.

    Client: [ClientSpec] the queue refines a list of messages handed over and
    the callback empties it; [Interleave] no interleaving loses a wake-up;
    [Boot] a quit signal is not lost; [BootSpec] and [EstSpec] the outcome of
    an enrolment and what start-up reads; [JsonParserSpec] and [JsonTree] the
    reader is safe for every behaviour of lejp, terminates, and rebuilds a
    document from its events, every member under its own name, as long as the
    document is no deeper than the two stacks.

    SONiC platform: [PlatRouterSpec], [PlatVlanSpec] what is applied reconciles
    the switch with the configuration, whatever it held; [PlatCache] and
    [PlatApplySpec] the cache and the switch stay in agreement through
    [plat_config_apply], whatever the switch refuses, and what a success sets of
    802.1X, PoE and the unit; [PlatFrame] what it asks of the switch, stage by
    stage in order, and what a refusal leaves out; [PlatScriptSpec] which
    programs a script can run and that only one runs at a time; [PlatFilesSpec]
    round trips of the files and the order of the log ring; [PlatReportSpec]
    the state report asks and changes nothing, and which MAC addresses and
    gateways it holds (of a route, the first next hop); [Periodic] every
    interleaving of the service thread and the periodic threads, which exist
    apart from the structures they read, refines the automaton of one poll per
    report, a stop returns, and after it the threads of the report are at their
    end; [PlatSystem] the sessions of remote terminals are the children
    there are, how every download ends, and what the release of a configuration
    frees and forgets.

    Switch layer: [GnmaSpec] each setting is one message or none;
    [GnmaAnswers] every answer, from any document, has the type its caller
    relies on, and a question without an answer was shown a document it cannot
    stand ([trips]); [GnmaReadSpec] a query reads back what a setting wrote,
    under the path it was written to; [Netlink] the addresses read are those of
    the VLAN interfaces in what was received whole; [NotifySpec] a stream of
    notifications becomes exactly the events they are about;
    [PlatFrame] walks the platform layer for an arbitrary relation and
    [PlatGnmiSpec] composes [plat-gnma.c] with [gnma_common.c].

    ** Bounds and fuel

    Loops over lists are structural.  The others take fuel: the nested call of
    the logger has depth 1 ([is_recursion] admits no second); [writeable_loop]
    the number of queued nodes plus one; [txq_free] the number of nodes of the
    store; [feed] twice the length of the input, since [lejp_parse] consumes a
    byte or stops the loop; the decimal printer 20 digits for 64-bit values;
    [diff_loop] the sum of the two lengths; [flush_loop] 65, the capacity of
    the ring and one; [script_loop] the length of the script; [reap] twice the
    number of terminals, as each step passes an entry or removes one.
    [wait_for_file] is a loop the code does not bound: its theorem says when
    some fuel is enough.  That each is
    enough is proved where the loop is ([feed_terminates], [flush_sends_all],
    [router_diff_reconciles], ...), or is the structure of the caller.

    ** Conventions

    The text of a log line is its format string, the arguments of printf not
    expanded, except where the text is sent to the gateway and a theorem is
    about it.  UC_LOG_INFO and UC_LOG_DBG stay below the threshold the logger
    starts with and are left out of the protocol layer.  Messages a function of
    [proto.c] hands over are delivered to the client when the function returns;
    a callback does nothing the function could see.  A text that cJSON prints is
    kept as the item printed.

    ** Not modelled

    The gNMI connector (C++ over gRPC and generated protocol buffers) is the
    class [Gnmi]; the example platform returns constants; the tests and their
    mocks are not part of the client.  Of [ucentral-client.c], the dummy HTTP
    callback and most of [firstcontact], which is never called.  Of
    [gnma_common.c], only the reading of its configuration file, whose parsed
    content is a field of [Gnmi.gnmi]. Of
    [plat-gnma.c], the release of a state report ([plat_state_deinit]) and the
    system calls that start a program for a script ([spawnp]), whose outcome is
    a parameter of [PlatScript].  Memory is modelled where it is shared or freed
    twice ([Txq], [JsonParser], the configuration in [PlatSystem]); other leaks
    are not. *)

From Stdlib Require Export ZArith Lia.
From stdpp Require Export base list gmap strings option numbers sorting.

#[global] Open Scope Z_scope.

(** ** Field assignment

    [r <| f := v |>] is the record [r] with its field [f] set to [v].  A record
    type declares its eta-expansion once ([Eta]); the setter of a field is
    computed from it by abstracting the field's projection. *)
Class Eta (R : Type) := eta : R → R.
Class Setter {R T} (p : R → T) := set : T → R → R.
Arguments set {R T} p {_} v r /.

Ltac solve_setter :=
  match goal with
  | |- @Setter ?R ?T ?p =>
      let v := fresh "v" in let r := fresh "r" in
      intros v r;
      let e := constr:(_ : Eta R) in
      let t := eval cbv beta delta [eta] in (@eta R e r) in
      let t := eval hnf in t in
      let t := eval pattern (p r) in t in
      match t with ?g _ => let u := eval cbv beta in (g v) in exact u end
  end.

#[export] Hint Extern 0 (Setter _) => solve_setter : typeclass_instances.

#[warning="-postfix-notation-not-level-1"]
Notation "r <| f := v |>" := (set f v r)
  (at level 12, f at next level, v at level 200, left associativity,
   format "r  <|  f  :=  v  |>").

(** ** Faults and outcomes

    A C function of the program returns normally, returns a failure code, or
    does something the C standard leaves undefined.  The three are kept apart:
    [Ok] carries the value and the state left behind, [Err] is the early
    [return -1] (it carries the state too: what the function had already
    written stays written), [Fault] is undefined behaviour and has no state. *)
Inductive fault :=
  | NullDeref        (* a null pointer given to strcmp, strcpy, strlen *)
  | BufferOverflow   (* strcpy or an array store past the end of the object *)
  | OutOfBounds      (* an array or bitmap index outside the object *)
  | Uninitialised    (* a local is read before anything was stored in it *)
  | DoubleFree       (* an object is freed while another still owns it *)
  | Unterminated     (* a char array without a NUL is read as a string *)
  | UseAfterFree     (* an object is read or written after it was freed *)
  | InvalidPointer.  (* a number is read as a pointer and used *)

#[export] Instance fault_eq_dec : EqDecision fault.
Proof. solve_decision. Defined.

Inductive res (S A : Type) :=
  | Ok (a : A) (s : S)
  | Err (s : S)
  | Fault (f : fault).
Arguments Ok {S A} a s.
Arguments Err {S A} s.
Arguments Fault {S A} f.

Definition M (S A : Type) : Type := S → res S A.

#[export] Instance M_ret S : MRet (M S) := λ A a s, Ok a s.
#[export] Instance M_bind S : MBind (M S) := λ A B k m s,
  match m s with
  | Ok a s' => k a s'
  | Err s' => Err s'
  | Fault f => Fault f
  end.

Lemma bind_run {S A B} (m : M S A) (k : A → M S B) s a s' : m s = Ok a s' → (m ≫= k) s = k a s'.
Proof. intros E. unfold mbind, M_bind. by rewrite E. Qed.

Section ops.
Context {S : Type}.

Definition ret {A} (a : A) : M S A := λ s, Ok a s.
Definition fail {A} : M S A := λ s, Err s.
Definition faulty {A} (f : fault) : M S A := λ s, Fault f.
Definition gets {A} (f : S → A) : M S A := λ s, Ok (f s) s.
Definition modify (f : S → S) : M S unit := λ s, Ok tt (f s).

(** The result of a call whose failure the caller tests. *)
Definition try {A} (m : M S A) : M S (option A) := λ s,
  match m s with
  | Ok a s' => Ok (Some a) s'
  | Err s' => Ok None s'
  | Fault f => Fault f
  end.

(** [if (f()) ...]: the failure code of a call, as a boolean. *)
Definition attempt {A} (m : M S A) : M S bool := λ s,
  match m s with
  | Ok _ s' => Ok true s'
  | Err s' => Ok false s'
  | Fault f => Fault f
  end.

Definition when (b : bool) (m : M S unit) : M S unit :=
  if b then m else ret tt.

(** [if (b) return -1;] *)
Definition fail_if (b : bool) : M S unit := if b then fail else ret tt.

(** A read through a pointer the code does not test. *)
Definition deref {A} (o : option A) : M S A :=
  match o with Some a => ret a | None => faulty NullDeref end.

Definition of_option {A} (f : fault) (o : option A) : M S A :=
  match o with Some a => ret a | None => faulty f end.

Fixpoint for_each {A} (l : list A) (body : A → M S unit) : M S unit :=
  match l with
  | [] => ret tt
  | x :: l => λ s,
      match body x s with
      | Ok _ s' => for_each l body s'
      | Err s' => Err s'
      | Fault f => Fault f
      end
  end.

Fixpoint fold_m {A B} (f : B → A → M S B) (l : list A) (b : B) : M S B :=
  match l with
  | [] => ret b
  | x :: l => λ s,
      match f b x s with
      | Ok b' s' => fold_m f l b' s'
      | Err s' => Err s'
      | Fault e => Fault e
      end
  end.
End ops.

(** ** Weakest preconditions

    [wp m Q E F s]: run from [s], [m] returns with [Q], fails with [E] or
    faults with [F].  Every property of the parser and the handlers is proved
    through these rules. *)
Section wp.
Context {S : Type}.
Implicit Types (E : S → Prop) (F : fault → Prop).

Definition wp {A} (m : M S A) (Q : A → S → Prop) E F (s : S) : Prop :=
  match m s with
  | Ok a s' => Q a s'
  | Err s' => E s'
  | Fault f => F f
  end.

Lemma wp_ret {A} (a : A) Q E F s : Q a s → wp (ret a) Q E F s.
Proof. done. Qed.
Lemma wp_mret {A} (a : A) Q E F s : Q a s → wp (mret a) Q E F s.
Proof. done. Qed.
Lemma wp_fail {A} (Q : A → S → Prop) E F s : E s → wp fail Q E F s.
Proof. done. Qed.
Lemma wp_faulty {A} f (Q : A → S → Prop) E F s : F f → wp (faulty f) Q E F s.
Proof. done. Qed.
Lemma wp_gets {A} (f : S → A) Q E F s : Q (f s) s → wp (gets f) Q E F s.
Proof. done. Qed.
Lemma wp_modify f Q E F s : Q tt (f s) → wp (modify f) Q E F s.
Proof. done. Qed.

Lemma wp_bind {A B} (m : M S A) (k : A → M S B) Q E F s :
  wp m (λ a s', wp (k a) Q E F s') E F s → wp (m ≫= k) Q E F s.
Proof. unfold wp, mbind, M_bind. by destruct (m s). Qed.

Lemma wp_mono {A} (m : M S A) (Q Q' : A → S → Prop) E E' F F' s :
  wp m Q E F s →
  (∀ a s', Q a s' → Q' a s') → (∀ s', E s' → E' s') → (∀ f, F f → F' f) →
  wp m Q' E' F' s.
Proof. unfold wp. destruct (m s); auto. Qed.

Lemma wp_conj {A} (m : M S A) Q1 Q2 E1 E2 F1 F2 s :
  wp m Q1 E1 F1 s → wp m Q2 E2 F2 s →
  wp m (λ a s', Q1 a s' ∧ Q2 a s') (λ s', E1 s' ∧ E2 s') (λ f, F1 f ∧ F2 f) s.
Proof. unfold wp. destruct (m s); auto. Qed.

Lemma wp_attempt {A} (m : M S A) (Q : bool → S → Prop) E F s :
  wp m (λ _ s', Q true s') (λ s', Q false s') F s →
  wp (attempt m) Q E F s.
Proof. unfold wp, attempt. by destruct (m s). Qed.

Lemma wp_try {A} (m : M S A) (Q : option A → S → Prop) E F s :
  wp m (λ a s', Q (Some a) s') (λ s', Q None s') F s →
  wp (try m) Q E F s.
Proof. unfold wp, try. by destruct (m s). Qed.

Lemma wp_when (b : bool) m (Q : unit → S → Prop) E F s :
  (b = true → wp m Q E F s) → (b = false → Q tt s) → wp (when b m) Q E F s.
Proof. destruct b; intros H1 H2; [by apply H1|by apply H2]. Qed.

Lemma wp_fail_if (b : bool) (Q : unit → S → Prop) E F s :
  (b = true → E s) → (b = false → Q tt s) → wp (fail_if b) Q E F s.
Proof. destruct b; cbv; auto. Qed.

Lemma wp_deref {A} (o : option A) (Q : A → S → Prop) E F s :
  (∀ a, o = Some a → Q a s) → (o = None → F NullDeref) →
  wp (deref o) Q E F s.
Proof. destruct o; cbv; auto. Qed.

Lemma wp_of_option {A} f (o : option A) (Q : A → S → Prop) E F s :
  (∀ a, o = Some a → Q a s) → (o = None → F f) →
  wp (of_option f o) Q E F s.
Proof. destruct o; cbv; auto. Qed.

(** Loop rule: [I] holds of the part of the list already walked. *)
Lemma wp_for_each {A} (I : list A → S → Prop) l body Q E F s :
  I [] s →
  (∀ done x todo s', l = done ++ x :: todo → I done s' →
     wp (body x) (λ _, I (done ++ [x])) E F s') →
  (∀ s', I l s' → Q tt s') →
  wp (for_each l body) Q E F s.
Proof.
  intros H0 Hstep Hend.
  cut (∀ todo done s', l = done ++ todo → I done s' →
         wp (for_each todo body) Q E F s').
  { intros H. by apply (H l []). }
  induction todo as [|x todo IH]; intros done s' Hl HI.
  - apply Hend. by rewrite Hl, app_nil_r.
  - specialize (Hstep done x todo s' Hl HI). revert Hstep.
    unfold wp; simpl. destruct (body x s') as [u s''|s''|f]; auto.
    intros Hx. apply (IH (done ++ [x])); [|done].
    by rewrite Hl, <- app_assoc.
Qed.

(** The common case: an invariant that does not speak of the list. *)
Lemma wp_for_each_inv {A} (I : S → Prop) (l : list A) body Q E F s :
  I s →
  (∀ x s', x ∈ l → I s' → wp (body x) (λ _, I) E F s') →
  (∀ s', I s' → Q tt s') →
  wp (for_each l body) Q E F s.
Proof.
  intros H0 Hstep Hend. apply (wp_for_each (λ _, I)); auto.
  intros done x todo s' -> HI. apply Hstep; set_solver.
Qed.

Lemma wp_fold_m {A B} (I : list A → B → S → Prop) (f : B → A → M S B) l b Q E F s :
  I [] b s →
  (∀ done x todo b' s', l = done ++ x :: todo → I done b' s' →
     wp (f b' x) (I (done ++ [x])) E F s') →
  (∀ b' s', I l b' s' → Q b' s') →
  wp (fold_m f l b) Q E F s.
Proof.
  intros H0 Hstep Hend.
  cut (∀ todo done b' s', l = done ++ todo → I done b' s' →
         wp (fold_m f todo b') Q E F s').
  { intros H. by apply (H l []). }
  induction todo as [|x todo IH]; intros done b' s' Hl HI.
  - apply Hend. by rewrite Hl, app_nil_r in *.
  - specialize (Hstep done x todo b' s' Hl HI). revert Hstep.
    unfold wp; simpl. destruct (f b' x s') as [u s''|s''|e]; auto.
    intros Hx. apply (IH (done ++ [x])); [|done].
    by rewrite Hl, <- app_assoc.
Qed.
End wp.

(** Postconditions used throughout. *)
Abbreviation any_err := (λ _, True) (only parsing).
Abbreviation no_fault := (λ _ : fault, False) (only parsing).
Abbreviation any_fault := (λ _ : fault, True) (only parsing).

(** ** The proof step for monadic code

    [wp_step] applies the rule of the head construct; [wp_steps] repeats it.
    Case distinctions of the code ([if], [match]) are split by [wp_case]. *)
Create HintDb wp discriminated.

Ltac wp_rule :=
  lazymatch goal with
  | |- wp (mbind _ _) _ _ _ _ => apply wp_bind
  | |- wp (ret _) _ _ _ _ => apply wp_ret
  | |- wp (mret _) _ _ _ _ => apply wp_mret
  | |- wp fail _ _ _ _ => apply wp_fail
  | |- wp (faulty _) _ _ _ _ => apply wp_faulty
  | |- wp (gets _) _ _ _ _ => apply wp_gets
  | |- wp (modify _) _ _ _ _ => apply wp_modify
  | |- wp (attempt _) _ _ _ _ => apply wp_attempt
  | |- wp (try _) _ _ _ _ => apply wp_try
  | |- wp (when _ _) _ _ _ _ => apply wp_when; intros ?
  | |- wp (fail_if _) _ _ _ _ => apply wp_fail_if; intros ?
  | |- wp (deref _) _ _ _ _ => apply wp_deref; [intros ? ?|intros ?]
  | |- wp (of_option _ _) _ _ _ _ => apply wp_of_option; [intros ? ?|intros ?]
  end.

Ltac wp_case :=
  match goal with
  | |- wp (if ?b then _ else _) _ _ _ _ => destruct b eqn:?
  | |- wp (match ?x with _ => _ end) _ _ _ _ => destruct x eqn:?
  end.

Ltac wp_step := first [ wp_rule | wp_case ]; cbv beta; try done.
Ltac wp_steps := repeat wp_step.
