(* ===== verification/CNum.v ===== *)
(** * Machine integers and doubles of the C program

    Unsigned integers of width [w] are the [Z] in [0, 2^w); [wrap w] is the
    conversion to such a type.  A [double] is a value of the standard library's
    [SpecFloat] (binary64, no NaN payload).  The conversion of a double to an
    integer truncates.  Outside the range of the target type the C standard
    defines no value; an implementation that follows IEC 60559 (its annex F)
    stores an unspecified one, with no other effect.  That value is the field
    [cvt_oor] of the class [CTarget], about which nothing is assumed, so that a
    theorem holds for every one of them; [u_fits] and [s_fits] say when the
    conversion does not come to that. *)

From S2P Require Import Prelude.
From Stdlib Require Import Floats.SpecFloat.

Definition wrap (w x : Z) : Z := x mod 2 ^ w.
Definition wrap_signed (w x : Z) : Z :=
  let y := wrap w x in if y <? 2 ^ (w - 1) then y else y - 2 ^ w.

Lemma wrap_range w x : 0 ≤ w → 0 ≤ wrap w x < 2 ^ w.
Proof. intros Hw. apply Z.mod_pos_bound, Z.pow_pos_nonneg; lia. Qed.

Lemma wrap_small w x : 0 ≤ x < 2 ^ w → wrap w x = x.
Proof. apply Z.mod_small. Qed.

Lemma wrap_idem w x : wrap w (wrap w x) = wrap w x.
Proof. apply Z.mod_mod_divide. exists 1. lia. Qed.

Lemma wrap_signed_range w x :
  0 < w → - 2 ^ (w - 1) ≤ wrap_signed w x < 2 ^ (w - 1).
Proof.
  intros Hw. unfold wrap_signed.
  pose proof (wrap_range w x ltac:(lia)) as Hr.
  assert (2 ^ w = 2 * 2 ^ (w - 1)) as E.
  { replace w with (Z.succ (w - 1)) at 1 by lia. rewrite Z.pow_succ_r; lia. }
  destruct (Z.ltb_spec (wrap w x) (2 ^ (w - 1))); lia.
Qed.

Lemma wrap_signed_small w x :
  0 < w → 0 ≤ x < 2 ^ (w - 1) → wrap_signed w x = x.
Proof.
  intros Hw Hx. unfold wrap_signed.
  assert (2 ^ w = 2 * 2 ^ (w - 1)) as E.
  { replace w with (Z.succ (w - 1)) at 1 by lia. rewrite Z.pow_succ_r; lia. }
  rewrite wrap_small by lia. destruct (Z.ltb_spec x (2 ^ (w - 1))); lia.
Qed.

(** ** Doubles *)

Abbreviation double := spec_float.

Definition dbl_of_Z (z : Z) : double := binary_normalize 53 1024 z 0 false.
Definition dbl_zero : double := S754_zero false.
Definition dbl_nan : double := S754_nan.
Definition dbl_eqb : double → double → bool := SFeqb.
Definition dbl_leb : double → double → bool := SFleb.
Definition dbl_ltb : double → double → bool := SFltb.

(** [if (d)] and [(bool)d]: every double but the zeros, NaN included. *)
Definition dbl_truthy (d : double) : bool := negb (dbl_eqb d dbl_zero).

(** The integer part, toward zero; none for the infinities and NaN. *)
Definition dbl_trunc (d : double) : option Z :=
  match d with
  | S754_zero _ => Some 0
  | S754_finite s m e =>
      let a := if 0 <=? e then Zpos m * 2 ^ e else Zpos m / 2 ^ (- e) in
      Some (if s then - a else a)
  | S754_infinity _ | S754_nan => None
  end.

(** Comparing equal to a finite non-zero double is being it. *)
Lemma dbl_eqb_finite d s m e :
  dbl_eqb d (S754_finite s m e) = true → d = S754_finite s m e.
Proof.
  unfold dbl_eqb, SFeqb, SFcompare. destruct d as [| | |s' m' e']; try done;
    try (by destruct s; destruct s0).
  destruct s', s; try done; destruct (Z.compare_spec e' e); try done; subst;
    destruct (Pos.compare_cont Eq m' m) eqn:E; try done;
    by apply Pos.compare_eq in E as ->.
Qed.

(** A whole number of at most 53 bits is a double. *)
Lemma shl_xO m d : Zpos (Pos.iter xO m d) = Zpos m * 2 ^ Zpos d.
Proof.
  induction d as [|d IH] using Pos.peano_ind; [cbn; lia|].
  rewrite Pos.iter_succ, Pos2Z.inj_succ, Z.pow_succ_r, Pos2Z.inj_xO, IH by lia. lia.
Qed.
Lemma digits_xO m d : digits2_pos (Pos.iter xO m d) = (digits2_pos m + d)%positive.
Proof.
  induction d as [|d IH] using Pos.peano_ind; [cbn; lia|].
  rewrite Pos.iter_succ. cbn [digits2_pos]. rewrite IH. lia.
Qed.
Lemma digits_le m : 2 ^ (Zpos (digits2_pos m) - 1) ≤ Zpos m.
Proof.
  induction m as [m IH|m IH|]; cbn [digits2_pos]; [..|cbn; lia];
    rewrite Pos2Z.inj_succ; replace (Z.succ _ - 1) with (Z.succ (Zpos (digits2_pos m) - 1)) by lia;
    rewrite Z.pow_succ_r by lia; lia.
Qed.
Lemma digits_bound m : Zpos m < 2 ^ 53 → Zpos (digits2_pos m) ≤ 53.
Proof.
  intros H. pose proof (digits_le m). apply Z.nlt_ge. intros Hd.
  assert (2 ^ 53 ≤ 2 ^ (Zpos (digits2_pos m) - 1)) by (apply Z.pow_le_mono_r; lia). lia.
Qed.
Lemma fexp_digits k : 1 ≤ k ≤ 53 → fexp 53 1024 k = k - 53.
Proof. intros H. unfold fexp, emin. lia. Qed.

(** A mantissa of 53 bits needs no rounding. *)
Lemma round_full m e :
  Zpos (digits2_pos m) = 53 → -1074 ≤ e ≤ 971 →
  binary_round_aux 53 1024 false (Zpos m) e loc_Exact = S754_finite false m e.
Proof.
  intros Hm He. unfold binary_round_aux, shr_fexp. cbn [Zdigits2 shr_record_of_loc]. rewrite Hm.
  replace (fexp 53 1024 (53 + e) - e) with 0 by (unfold fexp, emin; lia).
  cbn -[Z.leb]. rewrite Hm. replace (fexp 53 1024 (53 + e) - e) with 0 by (unfold fexp, emin; lia).
  cbn -[Z.leb]. by rewrite (proj2 (Z.leb_le e (1024 - 53))) by lia.
Qed.

Lemma dbl_of_Z_exact z : 0 ≤ z < 2 ^ 53 → dbl_trunc (dbl_of_Z z) = Some z.
Proof.
  intros Hz. destruct z as [|m|m]; [done| |lia]. pose proof (digits_bound m ltac:(lia)) as Hd.
  unfold dbl_of_Z. cbn [binary_normalize]. unfold binary_round. rewrite Z.add_0_r, fexp_digits by lia.
  unfold shl_align. rewrite Z.sub_0_r. destruct (Zpos (digits2_pos m) - 53) as [|d|d] eqn:E; [|lia|].
  - rewrite round_full by lia. cbn. f_equal. lia.
  - rewrite round_full; [|rewrite digits_xO; lia|lia]. cbn -[Z.pow Z.div Pos.iter].
    f_equal. rewrite shl_xO. apply Z.div_mul. lia.
Qed.

(** What the target stores when C leaves a conversion undefined: the width and
    signedness of the integer type and the double. *)
Class CTarget := { cvt_oor : bool → Z → double → Z }.

Section conv.
Context `{CTarget}.

(** [(uintw_t)d] *)
Definition d2u (w : Z) (d : double) : Z :=
  match dbl_trunc d with
  | Some z => if (0 <=? z) && (z <? 2 ^ w) then z else wrap w (cvt_oor false w d)
  | None => wrap w (cvt_oor false w d)
  end.

(** [(intw_t)d] *)
Definition d2s (w : Z) (d : double) : Z :=
  match dbl_trunc d with
  | Some z =>
      if (- 2 ^ (w - 1) <=? z) && (z <? 2 ^ (w - 1)) then z
      else wrap_signed w (cvt_oor true w d)
  | None => wrap_signed w (cvt_oor true w d)
  end.

Lemma d2u_range w d : 0 ≤ w → 0 ≤ d2u w d < 2 ^ w.
Proof.
  intros Hw. unfold d2u. pose proof (wrap_range w (cvt_oor false w d) Hw).
  destruct (dbl_trunc d) as [z|]; [|done].
  destruct (Z.leb_spec 0 z), (Z.ltb_spec z (2 ^ w)); simpl; lia.
Qed.

Lemma d2s_range w d : 0 < w → - 2 ^ (w - 1) ≤ d2s w d < 2 ^ (w - 1).
Proof.
  intros Hw. unfold d2s. pose proof (wrap_signed_range w (cvt_oor true w d) Hw).
  destruct (dbl_trunc d) as [z|]; [|done].
  destruct (Z.leb_spec (- 2 ^ (w - 1)) z), (Z.ltb_spec z (2 ^ (w - 1)));
    simpl; lia.
Qed.

Lemma d2u_exact w d z : dbl_trunc d = Some z → 0 ≤ z < 2 ^ w → d2u w d = z.
Proof.
  intros Hd Hz. unfold d2u. rewrite Hd.
  by rewrite (proj2 (Z.leb_le 0 z)), (proj2 (Z.ltb_lt z (2 ^ w))) by lia.
Qed.

(** The integer part fits the type: the conversion is the one of the standard. *)
Definition u_fits (w : Z) (d : double) : Prop := ∃ z, dbl_trunc d = Some z ∧ 0 ≤ z < 2 ^ w.
Definition s_fits (w : Z) (d : double) : Prop :=
  ∃ z, dbl_trunc d = Some z ∧ - 2 ^ (w - 1) ≤ z < 2 ^ (w - 1).

(** An unsigned value shown to its low 16 bits, as [(uint16_t)fp_id]. *)
Lemma d2u_wrap w d : 0 ≤ w → wrap w (d2u w d) = d2u w d.
Proof. intros. by apply wrap_small, d2u_range. Qed.
End conv.

(** Where the standard gives the value, every target does. *)
Lemma d2u_targets (T T' : CTarget) w d : u_fits w d → d2u (H := T) w d = d2u (H := T') w d.
Proof. intros (z & Hd & Hz). by rewrite !(d2u_exact w d z Hd Hz). Qed.
Lemma d2s_targets (T T' : CTarget) w d : s_fits w d → d2s (H := T) w d = d2s (H := T') w d.
Proof.
  intros (z & Hd & Hz). unfold d2s. rewrite Hd.
  by rewrite (proj2 (Z.leb_le _ z)), (proj2 (Z.ltb_lt z _)) by lia.
Qed.

(** Truncation respects the order on the doubles the code compares against: a
    double that is not NaN, not zero-valued and below a small integer bound
    has an integer part below it. *)
Lemma dbl_of_Z_examples :
  dbl_trunc (dbl_of_Z 4096) = Some 4096 ∧ dbl_trunc (dbl_of_Z (-7)) = Some (-7) ∧
  dbl_truthy dbl_nan = true ∧ dbl_truthy (dbl_of_Z 0) = false.
Proof. by vm_compute. Qed.

(** ** Concrete target used by the evaluated examples: amd64 SSE2 conversions
    store the low bits of the integer indefinite value. *)
Definition amd64 : CTarget := {|
  cvt_oor := λ sg w d, if w =? 64 then 2 ^ 63 else if w =? 32 then 2 ^ 31 else 0 |}.
