(* ===== verification/CStr.v ===== *)
(** * The C strings and the libc string calls of the program

    A [string] is the text up to the terminating NUL.  [strcpy] into a buffer
    of [n] bytes faults when the text and its NUL do not fit; [strncpy] with
    the full size of the buffer may leave it without a NUL, which is a text of
    exactly [n] characters here, and reading it as a string faults.
    [sscanf(s, "Ethernet%u")] follows glibc: a literal prefix, white space,
    an optional sign, decimal digits converted with [strtoul] (64 bits,
    saturating) and narrowed to the destination. *)

From S2P Require Import Prelude CNum.
From Stdlib Require Import Ascii.

#[global] Open Scope string_scope.
#[global] Open Scope Z_scope.

Definition slen (s : string) : Z := Z.of_nat (String.length s).
Definition stake (n : nat) (s : string) : string := String.substring 0 n s.
Definition streq (a b : string) : bool := String.eqb a b.

Definition c_strcpy {S} (n : Z) (s : string) : M S string :=
  if slen s <? n then ret s else faulty BufferOverflow.

(** [strncpy(dst, s, n)] into a zeroed buffer of at least [n] bytes. *)
Definition c_strncpy (n : nat) (s : string) : string := stake n s.

(** [snprintf(dst, n, "%s", s)] *)
Definition c_snprintf_s (n : nat) (s : string) : string := stake (n - 1) s.

(** Read a [char buf[n]] as a string. *)
Definition c_buf_str {S} (n : Z) (buf : string) : M S string :=
  if slen buf <? n then ret buf else faulty Unterminated.

Lemma slen_stake n s : slen (stake n s) ≤ Z.of_nat n.
Proof.
  unfold slen, stake. revert s. induction n as [|n IH]; intros [|c s]; simpl; try lia.
  specialize (IH s). lia.
Qed.

Lemma str_app_empty (a : string) : a +:+ EmptyString = a.
Proof. induction a as [|c a IH]; [done|]. exact (f_equal (String c) IH). Qed.
Lemma str_app_assoc (a b c : string) : a +:+ (b +:+ c) = (a +:+ b) +:+ c.
Proof. induction a as [|x a IH]; [done|]. exact (f_equal (String x) IH). Qed.
Lemma concat_cons a (l : list string) :
  String.concat EmptyString (a :: l) = a +:+ String.concat EmptyString l.
Proof. destruct l; [by rewrite str_app_empty|done]. Qed.
Lemma str_length_app (a b : string) : String.length (a +:+ b) = (String.length a + String.length b)%nat.
Proof. induction a as [|c a IH]; [done|]. exact (f_equal S IH). Qed.

Lemma slen_app a b : slen (a +:+ b) = slen a + slen b.
Proof. unfold slen. induction a as [|c a IH]; [done|]. simpl String.length. lia. Qed.

Lemma stake_all n s : slen s ≤ Z.of_nat n → stake n s = s.
Proof.
  unfold slen, stake. revert s. induction n as [|n IH]; intros [|c s]; simpl; intros H;
    try done; try lia. rewrite IH; [done|lia].
Qed.

(** ** Scanning *)
Inductive scan (A : Type) :=
  | SConv (a : A)     (* the conversion was stored *)
  | SMismatch         (* matching failure: sscanf returns 0 *)
  | SEof.             (* input failure before any conversion: EOF *)
Arguments SConv {A} a.
Arguments SMismatch {A}.
Arguments SEof {A}.

Definition is_space (c : ascii) : bool :=
  let n := N_of_ascii c in (n =? 32)%N || ((9 <=? n)%N && (n <=? 13)%N).

Definition digit_val (c : ascii) : option Z :=
  let n := Z.of_N (N_of_ascii c) in
  if (48 <=? n) && (n <=? 57) then Some (n - 48) else None.

Fixpoint skip_space (s : string) : string :=
  match s with
  | String c r => if is_space c then skip_space r else s
  | EmptyString => s
  end.

(** Longest run of digits, accumulated on [acc]; [None] when there is none. *)
Fixpoint digits_from (acc : Z) (s : string) : Z :=
  match s with
  | String c r =>
      match digit_val c with
      | Some d => digits_from (10 * acc + d) r
      | None => acc
      end
  | EmptyString => acc
  end.

Definition digits (s : string) : option Z :=
  match s with
  | String c r =>
      match digit_val c with Some d => Some (digits_from d r) | None => None end
  | EmptyString => None
  end.

Definition strtoul_sat (neg : bool) (v : Z) : Z :=
  if v <? 2 ^ 64 then (if neg then wrap 64 (- v) else v) else 2 ^ 64 - 1.

Definition scan_u (s : string) : scan Z :=
  match skip_space s with
  | EmptyString => SEof
  | String c r =>
      let '(neg, body) :=
        if Ascii.eqb c "-" then (true, r)
        else if Ascii.eqb c "+" then (false, r) else (false, String c r) in
      match digits body with
      | Some v => SConv (strtoul_sat neg v)
      | None => SMismatch
      end
  end.

Fixpoint scan_literal {A} (lit s : string) (k : string → scan A) : scan A :=
  match lit, s with
  | EmptyString, _ => k s
  | String _ _, EmptyString => SEof
  | String a lit, String b s =>
      if Ascii.eqb a b then scan_literal lit s k else SMismatch
  end.

Definition scan_map {A B} (f : A → B) (r : scan A) : scan B :=
  match r with SConv a => SConv (f a) | SMismatch => SMismatch | SEof => SEof end.

(** [sscanf(s, lit "%u", &x)] with a destination of [w] bits. *)
Definition sscanf_lit_u (w : Z) (lit s : string) : scan Z :=
  scan_map (wrap w) (scan_literal lit s scan_u).

(** ** Printing [%u] *)
Definition digit_char (d : Z) : ascii := ascii_of_N (Z.to_N (48 + d)).

Fixpoint dec_aux (fuel : nat) (n : Z) (acc : string) : string :=
  match fuel with
  | O => acc
  | S fuel =>
      let acc := String (digit_char (n mod 10)) acc in
      if n / 10 =? 0 then acc else dec_aux fuel (n / 10) acc
  end.

(** 20 digits are enough for every 64-bit value. *)
Definition dec (n : Z) : string := dec_aux 20 n "".
(** [%PRIi64], [%d] *)
Definition dec_signed (n : Z) : string :=
  if n <? 0 then String (ascii_of_N 45) (dec (- n)) else dec n.

Lemma digit_val_char d : 0 ≤ d < 10 → digit_val (digit_char d) = Some d.
Proof.
  intros Hd.
  assert (d = 0 ∨ d = 1 ∨ d = 2 ∨ d = 3 ∨ d = 4 ∨ d = 5 ∨ d = 6 ∨ d = 7 ∨ d = 8 ∨ d = 9)
    as Hc by lia.
  by repeat destruct Hc as [->|Hc]; subst.
Qed.

Lemma digit_char_not_special d :
  0 ≤ d < 10 →
  is_space (digit_char d) = false ∧ Ascii.eqb (digit_char d) "-" = false ∧
  Ascii.eqb (digit_char d) "+" = false.
Proof.
  intros Hd.
  assert (d = 0 ∨ d = 1 ∨ d = 2 ∨ d = 3 ∨ d = 4 ∨ d = 5 ∨ d = 6 ∨ d = 7 ∨ d = 8 ∨ d = 9)
    as Hc by lia.
  by repeat destruct Hc as [->|Hc]; subst.
Qed.

(** The head of a printed number is a digit, and reading it back continues
    from the accumulator as if the printed number were a digit block. *)
Lemma dec_aux_shape fuel n acc :
  (0 < fuel)%nat → 0 ≤ n →
  ∃ d r, dec_aux fuel n acc = String (digit_char d) r ∧ 0 ≤ d < 10.
Proof.
  revert n acc. induction fuel as [|fuel IH]; intros n acc Hf Hn; [lia|].
  simpl. destruct (Z.eqb_spec (n / 10) 0).
  - eexists _, _. split; [done|]. apply Z.mod_pos_bound. lia.
  - destruct fuel; [simpl; eexists _, _; split; [done|]; apply Z.mod_pos_bound; lia|].
    apply IH; [lia|]. apply Z.div_pos; lia.
Qed.

Lemma digits_from_dec_aux fuel n acc :
  0 ≤ n < 10 ^ Z.of_nat fuel → (0 < fuel)%nat →
  ∃ d r, dec_aux fuel n acc = String (digit_char d) r ∧ 0 ≤ d < 10 ∧
         digits_from d r = digits_from n acc.
Proof.
  revert n acc. induction fuel as [|fuel IH]; intros n acc Hn Hf; [lia|].
  cbn [dec_aux]. pose proof (Z.mod_pos_bound n 10 ltac:(lia)) as Hm.
  destruct (Z.eqb_spec (n / 10) 0) as [E|E].
  - exists (n mod 10), acc. split_and!; try lia; [done|].
    f_equal. pose proof (Z.div_mod n 10). lia.
  - destruct fuel as [|fuel].
    { exfalso. apply E. apply Z.div_small. simpl in Hn. lia. }
    destruct (IH (n / 10) (String (digit_char (n mod 10)) acc)) as (d & r & H1 & H2 & H3).
    + split; [apply Z.div_pos; lia|].
      apply Z.div_lt_upper_bound; [lia|].
      rewrite <- Z.pow_succ_r by lia.
      replace (Z.succ (Z.of_nat (S fuel))) with (Z.of_nat (S (S fuel))) by lia. lia.
    + lia.
    + exists d, r. split_and!; try done; try lia.
      rewrite H3. cbn [digits_from]. rewrite digit_val_char by lia.
      f_equal. pose proof (Z.div_mod n 10). lia.
Qed.

(** Printing then scanning a 64-bit unsigned value returns it. *)
Lemma scan_u_dec n : 0 ≤ n < 2 ^ 64 → scan_u (dec n) = SConv n.
Proof.
  intros Hn. unfold dec.
  destruct (digits_from_dec_aux 20 n "") as (d & r & -> & Hd & Hr); [simpl; lia|lia|].
  destruct (digit_char_not_special d Hd) as (Hs & Hm & Hp).
  unfold scan_u. cbn [skip_space]. rewrite Hs, Hm, Hp. cbn [digits].
  rewrite digit_val_char by done. rewrite Hr. simpl digits_from. unfold strtoul_sat.
  by rewrite (proj2 (Z.ltb_lt n (2 ^ 64))) by lia.
Qed.

Lemma scan_literal_app {A} lit s (k : string → scan A) :
  scan_literal lit (lit +:+ s) k = k s.
Proof. induction lit as [|c lit IH]; simpl; [done|]. by rewrite Ascii.eqb_refl. Qed.

Lemma sscanf_lit_u_dec w lit n :
  0 ≤ w ≤ 64 → 0 ≤ n < 2 ^ w → sscanf_lit_u w lit (lit +:+ dec n) = SConv n.
Proof.
  intros Hw Hn. unfold sscanf_lit_u. rewrite scan_literal_app, scan_u_dec.
  - simpl. by rewrite wrap_small.
  - split; [lia|]. apply Z.lt_le_trans with (2 ^ w); [lia|].
    apply Z.pow_le_mono_r; lia.
Qed.

Lemma sscanf_lit_u_range w lit s n :
  0 ≤ w → sscanf_lit_u w lit s = SConv n → 0 ≤ n < 2 ^ w.
Proof.
  intros Hw. unfold sscanf_lit_u.
  destruct (scan_literal lit s scan_u); simpl; intros [= <-]. by apply wrap_range.
Qed.

Lemma wp_strcpy {S} n s (Q : string → S → Prop) E F st :
  (slen s < n → Q s st) → (n ≤ slen s → F BufferOverflow) →
  wp (c_strcpy n s) Q E F st.
Proof.
  intros H1 H2. unfold c_strcpy. destruct (Z.ltb_spec (slen s) n).
  - by apply H1. - by apply H2.
Qed.

Lemma wp_buf_str {S} n s (Q : string → S → Prop) E F st :
  (slen s < n → Q s st) → (n ≤ slen s → F Unterminated) →
  wp (c_buf_str n s) Q E F st.
Proof.
  intros H1 H2. unfold c_buf_str. destruct (Z.ltb_spec (slen s) n).
  - by apply H1. - by apply H2.
Qed.

Example scan_examples :
  sscanf_lit_u 16 "Ethernet" "Ethernet12" = SConv 12 ∧
  sscanf_lit_u 16 "Ethernet" "Ethernet65537x" = SConv 1 ∧
  sscanf_lit_u 16 "Ethernet" "Vlan3" = SMismatch ∧
  sscanf_lit_u 16 "Ethernet" "Eth" = SEof ∧
  sscanf_lit_u 16 "Ethernet" "Ethernet-1" = SConv 65535 ∧
  dec 0 = "0" ∧ dec 18446744073709551615 = "18446744073709551615".
Proof. by vm_compute. Qed.
