(* ===== verification/Bitmap.v ===== *)
(** * Bitmaps ([include/bitmap.h])

    A bitmap is the array of [uint32_t] words it is declared as.  The macros
    index the array without a check: [bit_ok] is the range in which they stay
    inside it.  [1 << (k % 32)] is taken on 32 bits, sign bit included. *)

From S2P Require Import Prelude CNum.

Abbreviation bitmap := (list Z).

Definition BITS_TO_UINT32 (nr : Z) : Z := (nr + 31) / 32.

(** [BITMAP_DECLARE] followed by [BITMAP_CLEAR]: all words zero. *)
Definition BITMAP_CLEAR (bits : Z) : bitmap :=
  replicate (Z.to_nat (BITS_TO_UINT32 bits)) 0.

(** [BITMAP_FILL]: all words all-ones or zero. *)
Definition BITMAP_FILL (bits : Z) (value : bool) : bitmap :=
  replicate (Z.to_nat (BITS_TO_UINT32 bits)) (if value then 2 ^ 32 - 1 else 0).

Definition word_of (k : Z) : nat := Z.to_nat (k / 32).
Definition bit_ok (A : bitmap) (k : Z) : bool :=
  (0 <=? k) && (k <? 32 * Z.of_nat (length A)).

Definition BITMAP_SET_BIT (A : bitmap) (k : Z) : bitmap :=
  alter (λ w, Z.lor w (Z.shiftl 1 (k mod 32))) (word_of k) A.

Definition BITMAP_CLEAR_BIT (A : bitmap) (k : Z) : bitmap :=
  alter (λ w, Z.land w (Z.lnot (Z.shiftl 1 (k mod 32)))) (word_of k) A.

(** A bit outside the array, which C reads past its end, is not set here; the
    code's own tests on indices it does not know go through [bit_test] below. *)
Definition BITMAP_TEST_BIT (A : bitmap) (k : Z) : bool :=
  negb (Z.land (default 0 (A !! word_of k)) (Z.shiftl 1 (k mod 32)) =? 0).

(** The scan loop of the two find macros: first index from [it] on, below
    [len], that satisfies the test; [len] when there is none.  [fuel] bounds
    the iterations. *)
Fixpoint find_loop (fuel : nat) (test : Z → bool) (it len : Z) : Z :=
  match fuel with
  | O => it
  | S fuel =>
      if it <? len then
        if test it then it else find_loop fuel test (it + 1) len
      else it
  end.

Definition BITMAP_FIND_FIRST_BIT_SET (A : bitmap) (len : Z) : Z :=
  find_loop (Z.to_nat len) (BITMAP_TEST_BIT A) 0 len.

Definition BITMAP_FIND_NEXT_BIT_SET (A : bitmap) (len bit : Z) : Z :=
  find_loop (Z.to_nat len) (λ it, BITMAP_TEST_BIT A it && (bit <=? it)) 0 len.

(** The bits [BITMAP_FOR_EACH_BIT_SET] gives to its body, in order. *)
Fixpoint for_each_loop (fuel : nat) (A : bitmap) (len bit : Z) : list Z :=
  match fuel with
  | O => []
  | S fuel =>
      if bit <? len then
        bit :: for_each_loop fuel A len (BITMAP_FIND_NEXT_BIT_SET A len (bit + 1))
      else []
  end.

Definition BITMAP_FOR_EACH_BIT_SET (A : bitmap) (len : Z) : list Z :=
  for_each_loop (Z.to_nat len) A len (BITMAP_FIND_FIRST_BIT_SET A len).

(** ** Checked accesses: what the macros do inside the monad *)
Definition bit_set {S} (A : bitmap) (k : Z) : M S bitmap :=
  if bit_ok A k then ret (BITMAP_SET_BIT A k) else faulty OutOfBounds.
Definition bit_test {S} (A : bitmap) (k : Z) : M S bool :=
  if bit_ok A k then ret (BITMAP_TEST_BIT A k) else faulty OutOfBounds.

(** ** Single bits *)
Lemma length_set_bit A k : length (BITMAP_SET_BIT A k) = length A.
Proof. apply length_alter. Qed.

Lemma test_bit_testbit A k :
  BITMAP_TEST_BIT A k = Z.testbit (default 0 (A !! word_of k)) (k mod 32).
Proof.
  unfold BITMAP_TEST_BIT. set (w := default 0 _).
  pose proof (Z.mod_pos_bound k 32 ltac:(lia)) as Hm.
  assert (Z.land w (Z.shiftl 1 (k mod 32)) =
          if Z.testbit w (k mod 32) then 2 ^ (k mod 32) else 0) as ->.
  { apply Z.bits_inj'. intros i Hi.
    rewrite Z.land_spec, Z.shiftl_1_l, Z.pow2_bits_eqb by lia.
    destruct (Z.eqb_spec (k mod 32) i) as [<-|Hne].
    - destruct (Z.testbit w (k mod 32)) eqn:E; simpl.
      + by rewrite Z.pow2_bits_true by lia.
      + by rewrite Z.bits_0.
    - rewrite andb_false_r. destruct (Z.testbit w (k mod 32)).
      + by rewrite Z.pow2_bits_false by lia.
      + by rewrite Z.bits_0. }
  destruct (Z.testbit w (k mod 32)); [|done].
  pose proof (Z.pow_pos_nonneg 2 (k mod 32)).
  destruct (Z.eqb_spec (2 ^ (k mod 32)) 0); [lia|done].
Qed.

(** Same word and same position in it: the same index. *)
Lemma word_pos_inj i j :
  0 ≤ i → 0 ≤ j → word_of i = word_of j → i mod 32 = j mod 32 → i = j.
Proof.
  unfold word_of. intros Hi Hj H1 H2.
  apply Z2Nat.inj in H1; [|apply Z.div_pos; lia..].
  rewrite (Z.div_mod i 32), (Z.div_mod j 32) by lia. lia.
Qed.

Lemma bit_ok_word A k : bit_ok A k = true → (word_of k < length A)%nat ∧ 0 ≤ k.
Proof.
  unfold bit_ok, word_of. intros [H1 H2]%andb_true_iff.
  apply Z.leb_le in H1. apply Z.ltb_lt in H2. split; [|done].
  assert (k / 32 < Z.of_nat (length A)) by (apply Z.div_lt_upper_bound; lia).
  pose proof (Z.div_pos k 32). lia.
Qed.

Lemma test_set_bit A i j :
  bit_ok A i = true → 0 ≤ j →
  BITMAP_TEST_BIT (BITMAP_SET_BIT A i) j = BITMAP_TEST_BIT A j || (j =? i).
Proof.
  intros [Hw Hi]%bit_ok_word Hj. rewrite !test_bit_testbit. unfold BITMAP_SET_BIT.
  destruct (decide (word_of i = word_of j)) as [E|E].
  - rewrite <- E. rewrite list_lookup_alter, decide_True by done.
    destruct (lookup_lt_is_Some_2 A (word_of i) Hw) as [w Hlw]. rewrite Hlw. simpl.
    pose proof (Z.mod_pos_bound i 32 ltac:(lia)).
    rewrite Z.lor_spec, Z.shiftl_1_l, Z.pow2_bits_eqb by lia. f_equal.
    destruct (Z.eqb_spec (i mod 32) (j mod 32)) as [Em|Em], (Z.eqb_spec j i); try done.
    + exfalso. by apply n, eq_sym, word_pos_inj.
    + congruence.
  - rewrite list_lookup_alter_ne by done.
    destruct (Z.eqb_spec j i); [congruence|]. by rewrite orb_false_r.
Qed.

Lemma test_clear_bit A i j :
  bit_ok A i = true → 0 ≤ j →
  BITMAP_TEST_BIT (BITMAP_CLEAR_BIT A i) j = BITMAP_TEST_BIT A j && negb (j =? i).
Proof.
  intros [Hw Hi]%bit_ok_word Hj. rewrite !test_bit_testbit. unfold BITMAP_CLEAR_BIT.
  destruct (decide (word_of i = word_of j)) as [E|E].
  - rewrite <- E. rewrite list_lookup_alter, decide_True by done.
    destruct (lookup_lt_is_Some_2 A (word_of i) Hw) as [w Hlw]. rewrite Hlw. simpl.
    pose proof (Z.mod_pos_bound i 32 ltac:(lia)).
    pose proof (Z.mod_pos_bound j 32 ltac:(lia)).
    rewrite Z.land_spec, Z.lnot_spec, Z.shiftl_1_l, Z.pow2_bits_eqb by lia.
    f_equal. f_equal.
    destruct (Z.eqb_spec (i mod 32) (j mod 32)) as [Em|Em], (Z.eqb_spec j i); try done.
    + exfalso. by apply n, eq_sym, word_pos_inj.
    + congruence.
  - rewrite list_lookup_alter_ne by done.
    destruct (Z.eqb_spec j i); [congruence|]. by rewrite andb_true_r.
Qed.

Lemma test_clear bits k : BITMAP_TEST_BIT (BITMAP_CLEAR bits) k = false.
Proof.
  rewrite test_bit_testbit. unfold BITMAP_CLEAR.
  destruct (replicate _ 0 !! word_of k) as [w|] eqn:E; simpl.
  - apply lookup_replicate in E as [-> _]. apply Z.bits_0.
  - apply Z.bits_0.
Qed.

Lemma length_clear bits : length (BITMAP_CLEAR bits) = Z.to_nat (BITS_TO_UINT32 bits).
Proof. apply length_replicate. Qed.

(** ** The scan and the iteration *)
Lemma find_loop_spec fuel test it len :
  it ≤ len → len - it ≤ Z.of_nat fuel →
  let r := find_loop fuel test it len in
  it ≤ r ≤ len ∧ (∀ j, it ≤ j < r → test j = false) ∧ (r < len → test r = true).
Proof.
  revert it. induction fuel as [|fuel IH]; intros it Hle Hf; simpl.
  - split_and!; intros; lia.
  - destruct (Z.ltb_spec it len); [|split_and!; intros; lia].
    destruct (test it) eqn:E; [split_and!; intros; try lia; done|].
    destruct (IH (it + 1)) as (H1 & H2 & H3); [lia..|].
    split_and!; try lia; [|done].
    intros j Hj. destruct (decide (j = it)) as [->|]; [done|]. apply H2; lia.
Qed.

Lemma find_first_spec A len :
  0 ≤ len →
  let r := BITMAP_FIND_FIRST_BIT_SET A len in
  0 ≤ r ≤ len ∧ (∀ j, 0 ≤ j < r → BITMAP_TEST_BIT A j = false) ∧
  (r < len → BITMAP_TEST_BIT A r = true).
Proof. intros. apply find_loop_spec; lia. Qed.

Lemma find_next_spec A len bit :
  0 ≤ bit ≤ len →
  let r := BITMAP_FIND_NEXT_BIT_SET A len bit in
  bit ≤ r ≤ len ∧ (∀ j, bit ≤ j < r → BITMAP_TEST_BIT A j = false) ∧
  (r < len → BITMAP_TEST_BIT A r = true).
Proof.
  intros Hb r.
  destruct (find_loop_spec (Z.to_nat len) (λ it, BITMAP_TEST_BIT A it && (bit <=? it)) 0 len)
    as (H1 & H2 & H3); [lia..|].
  fold (BITMAP_FIND_NEXT_BIT_SET A len bit) in H1, H2, H3. fold r in H1, H2, H3.
  assert (bit ≤ r) as Hr.
  { destruct (decide (r = len)) as [->|]; [lia|].
    specialize (H3 ltac:(lia)). apply andb_true_iff in H3 as [_ H3].
    by apply Z.leb_le in H3. }
  split_and!; try lia.
  - intros j Hj. specialize (H2 j ltac:(lia)).
    rewrite (proj2 (Z.leb_le bit j)) in H2 by lia. by rewrite andb_true_r in H2.
  - intros Hlt. by apply andb_true_iff in H3 as [H3 _].
Qed.

(** Specification of the iteration: the indices below [len] in increasing
    order, those that are set kept. *)
Definition bits_set (A : bitmap) (from len : Z) : list Z :=
  filter (λ k, BITMAP_TEST_BIT A k = true) (seqZ from (len - from)).

Lemma seqZ_split (a b c : Z) : a ≤ b ≤ c → seqZ a (c - a) = seqZ a (b - a) ++ seqZ b (c - b).
Proof.
  intros H. replace (c - a) with ((b - a) + (c - b)) by lia.
  rewrite seqZ_app by lia. f_equal. f_equal. lia.
Qed.

Lemma filter_none {A} (P : A → Prop) `{∀ x, Decision (P x)} (l : list A) :
  (∀ x, x ∈ l → ¬ P x) → filter P l = [].
Proof.
  induction l as [|x l IH]; intros Hn; [done|].
  rewrite filter_cons_False by (apply Hn; set_solver). apply IH. set_solver.
Qed.

Lemma bits_set_skip A a r len :
  a ≤ r ≤ len → (∀ j, a ≤ j < r → BITMAP_TEST_BIT A j = false) →
  bits_set A a len = bits_set A r len.
Proof.
  intros Hr Hf. unfold bits_set. rewrite (seqZ_split a r len) by lia.
  rewrite list.filter_app, (filter_none _ (seqZ a _)); [done|].
  intros x Hx%elem_of_seqZ. rewrite Hf by lia. done.
Qed.

Lemma bits_set_cons A r len :
  r < len → BITMAP_TEST_BIT A r = true → bits_set A r len = r :: bits_set A (r + 1) len.
Proof.
  intros Hr Ht. unfold bits_set. rewrite seqZ_cons by lia.
  rewrite filter_cons_True by done. f_equal. f_equal. f_equal; lia.
Qed.

Lemma for_each_loop_spec fuel A len bit :
  0 ≤ bit ≤ len → len - bit ≤ Z.of_nat fuel →
  (bit < len → BITMAP_TEST_BIT A bit = true) →
  for_each_loop fuel A len bit = bits_set A bit len.
Proof.
  revert bit. induction fuel as [|fuel IH]; intros bit Hb Hf Ht; simpl.
  - unfold bits_set. replace (len - bit) with 0 by lia. done.
  - destruct (Z.ltb_spec bit len) as [Hlt|Hge].
    + destruct (find_next_spec A len (bit + 1) ltac:(lia)) as (H1 & H2 & H3).
      rewrite IH by (lia || done). rewrite (bits_set_cons A bit) by auto.
      f_equal. symmetry. by apply bits_set_skip.
    + unfold bits_set. replace (len - bit) with 0 by lia. done.
Qed.

Lemma for_each_bit_set_eq A len :
  0 ≤ len → BITMAP_FOR_EACH_BIT_SET A len = bits_set A 0 len.
Proof.
  intros Hl. unfold BITMAP_FOR_EACH_BIT_SET.
  destruct (find_first_spec A len Hl) as (H1 & H2 & H3).
  rewrite for_each_loop_spec by (lia || done).
  symmetry. apply bits_set_skip; [lia|done].
Qed.

Lemma elem_of_for_each_bit_set A len k :
  0 ≤ len → k ∈ BITMAP_FOR_EACH_BIT_SET A len ↔ 0 ≤ k < len ∧ BITMAP_TEST_BIT A k = true.
Proof.
  intros Hl. rewrite for_each_bit_set_eq by done. unfold bits_set.
  rewrite list_elem_of_filter, elem_of_seqZ, Z.sub_0_r, Z.add_0_l. tauto.
Qed.

Lemma wp_bit_set {S} A k (Q : bitmap → S → Prop) E F s :
  (bit_ok A k = true → Q (BITMAP_SET_BIT A k) s) →
  (bit_ok A k = false → F OutOfBounds) → wp (bit_set A k) Q E F s.
Proof. unfold bit_set. destruct (bit_ok A k); intros H1 H2; [by apply H1|by apply H2]. Qed.

Lemma wp_bit_test {S} A k (Q : bool → S → Prop) E F s :
  (bit_ok A k = true → Q (BITMAP_TEST_BIT A k) s) →
  (bit_ok A k = false → F OutOfBounds) → wp (bit_test A k) Q E F s.
Proof. unfold bit_test. destruct (bit_ok A k); intros H1 H2; [by apply H1|by apply H2]. Qed.

(** ** The set a bitmap stands for *)

(** [bm], of the size declared for [n] bits, has exactly the bits of [X]. *)
Definition bits_are (n : Z) (bm : bitmap) (X : Z → Prop) : Prop :=
  length bm = length (BITMAP_CLEAR n) ∧ ∀ k, 0 ≤ k → BITMAP_TEST_BIT bm k = true ↔ X k.

Lemma bits_are_clear n : bits_are n (BITMAP_CLEAR n) (λ _, False).
Proof. split; [done|]. intros k _. by rewrite test_clear. Qed.

Lemma bits_are_set n bm X k :
  bits_are n bm X → bit_ok bm k = true → bits_are n (BITMAP_SET_BIT bm k) (λ j, X j ∨ j = k).
Proof.
  intros [Hl HX] Hk. split; [by rewrite length_set_bit|]. intros j Hj.
  rewrite test_set_bit, orb_true_iff, HX by done. by rewrite Z.eqb_eq.
Qed.

Lemma bits_are_proper n bm X Y : bits_are n bm X → (∀ k, X k ↔ Y k) → bits_are n bm Y.
Proof. intros [Hl HX] HY. split; [done|]. intros k Hk. by rewrite HX, HY. Qed.

(** The indexes it has room for. *)
Lemma bits_are_room n bm X k :
  bits_are n bm X → bit_ok bm k = true ↔ 0 ≤ k < 32 * Z.of_nat (length (BITMAP_CLEAR n)).
Proof.
  intros [Hl _]. unfold bit_ok. rewrite Hl, andb_true_iff, Z.leb_le, Z.ltb_lt. lia.
Qed.

(** C40: [BITMAP_FOR_EACH_BIT_SET] terminates and gives its body exactly the
    set bits below [len], each once and in increasing order, whatever the
    number of words; setting a bit adds that index and no other, clearing it
    takes it away. *)
Theorem for_each_bit_set_exact (A : bitmap) (len : Z) :
  0 ≤ len →
  BITMAP_FOR_EACH_BIT_SET A len = bits_set A 0 len ∧
  NoDup (BITMAP_FOR_EACH_BIT_SET A len) ∧
  (∀ i k, bit_ok A i = true →
     (k ∈ BITMAP_FOR_EACH_BIT_SET (BITMAP_SET_BIT A i) len ↔
      0 ≤ k < len ∧ (BITMAP_TEST_BIT A k = true ∨ k = i)) ∧
     (k ∈ BITMAP_FOR_EACH_BIT_SET (BITMAP_CLEAR_BIT A i) len ↔
      0 ≤ k < len ∧ BITMAP_TEST_BIT A k = true ∧ k ≠ i)).
Proof.
  intros Hl. split_and!.
  - by apply for_each_bit_set_eq.
  - rewrite for_each_bit_set_eq by done. apply list.NoDup_filter, NoDup_seqZ.
  - intros i k Hi. rewrite !elem_of_for_each_bit_set by done. split.
    + split.
      * intros [Hk Ht]. rewrite test_set_bit in Ht by (done || lia).
        apply orb_true_iff in Ht as [?|?%Z.eqb_eq]; auto.
      * intros [Hk Ht]. split; [done|]. rewrite test_set_bit by (done || lia).
        destruct Ht as [->| ->]; [done|]. rewrite Z.eqb_refl. apply orb_true_r.
    + split.
      * intros [Hk Ht]. rewrite test_clear_bit in Ht by (done || lia).
        apply andb_true_iff in Ht as [? ?%negb_true_iff%Z.eqb_neq]. auto.
      * intros (Hk & Ht & Hn). split; [done|].
        rewrite test_clear_bit by (done || lia). rewrite Ht. simpl.
        by apply negb_true_iff, Z.eqb_neq.
Qed.

Lemma for_each_bit_set_exact_witness :
  let A := BITMAP_SET_BIT (BITMAP_SET_BIT (BITMAP_CLEAR 100) 63) 2 in
  BITMAP_FOR_EACH_BIT_SET A 100 = [2; 63] ∧
  BITMAP_FOR_EACH_BIT_SET A 100 = bits_set A 0 100 ∧
  (31 ∈ BITMAP_FOR_EACH_BIT_SET (BITMAP_SET_BIT A 31) 100 ↔
   0 ≤ 31 < 100 ∧ (BITMAP_TEST_BIT A 31 = true ∨ 31 = 31)).
Proof.
  intros A. split; [by vm_compute|].
  destruct (for_each_bit_set_exact A 100 ltac:(lia)) as (H1 & _ & H2).
  split; [exact H1|]. destruct (H2 31 31 ltac:(by vm_compute)) as [H _]. exact H.
Defined.
