(* ===== verification/Base64.v ===== *)
(** * Base64 ([base64.c], [include/base64.h])

    Bytes and characters are [Z].  [base64_encode] and [base64_decode] are the
    loops of the C code: the encoder's state is the switch state [s] and the
    previous byte [l], the decoder's is the loop index and the output buffer
    with its write index [j].  The input characters are the unsigned values
    0..255; [in[i] < '+'] compares a signed [char], so characters from 128 on
    are negative there. *)

From S2P Require Import Prelude CNum.

Definition BASE64_PAD : Z := 61.      (* '=' *)
Definition BASE64DE_FIRST : Z := 43.  (* '+' *)
Definition BASE64DE_LAST : Z := 122.  (* 'z' *)

Definition BASE64_ENCODE_OUT_SIZE (s : Z) : Z := (s + 2) / 3 * 4 + 1.
Definition BASE64_DECODE_OUT_SIZE (s : Z) : Z := s / 4 * 3.

(** The encode table: 'A'..'Z', 'a'..'z', '0'..'9', '+', '/'. *)
Definition base64en_table : list Z :=
  seqZ 65 26 ++ seqZ 97 26 ++ seqZ 48 10 ++ [43; 47].
Definition base64en (i : Z) : Z := default 0 (base64en_table !! Z.to_nat i).

(** The decode table, in ASCII order. *)
Definition base64de_table : list Z :=
  replicate 43 255 ++ [62] ++ replicate 3 255 ++ [63] ++
  seqZ 52 10 ++ replicate 7 255 ++ seqZ 0 26 ++ replicate 6 255 ++
  seqZ 26 26 ++ replicate 5 255.
Definition base64de (c : Z) : Z := default 255 (base64de_table !! Z.to_nat c).

(** One iteration of the encoder: the characters it emits. *)
Definition encode_step (s l c : Z) : Z * list Z :=
  if s =? 0 then (1, [base64en (Z.land (Z.shiftr c 2) 63)])
  else if s =? 1 then
    (2, [base64en (Z.lor (Z.shiftl (Z.land l 3) 4) (Z.land (Z.shiftr c 4) 15))])
  else
    (0, [base64en (Z.lor (Z.shiftl (Z.land l 15) 2) (Z.land (Z.shiftr c 6) 3));
         base64en (Z.land c 63)]).

Definition encode_tail (s l : Z) : list Z :=
  if s =? 1 then [base64en (Z.shiftl (Z.land l 3) 4); BASE64_PAD; BASE64_PAD]
  else if s =? 2 then [base64en (Z.shiftl (Z.land l 15) 2); BASE64_PAD]
  else [].

Fixpoint encode_loop (s l : Z) (input : list Z) : list Z :=
  match input with
  | [] => encode_tail s l
  | c :: rest =>
      let '(s', out) := encode_step s l c in out ++ encode_loop s' c rest
  end.

(** The text written; the C function also stores a final NUL after it and
    returns its length. *)
Definition base64_encode (input : list Z) : list Z := encode_loop 0 0 input.

(** ** Decoder *)
(** [out[j] = v] and [out[j] |= v] on the buffer as written so far: [cur] is
    the value of the byte at index [j], [done] the bytes before it. *)
Record dec_state := { d_done : list Z; d_cur : Z }.

Definition signed_char (c : Z) : Z := if c <? 128 then c else c - 256.

Definition decode_char (c : Z) : option Z :=
  if (signed_char c <? BASE64DE_FIRST) || (BASE64DE_LAST <? signed_char c) then None
  else let v := base64de c in if v =? 255 then None else Some v.

Definition decode_step (i : Z) (c : Z) (st : dec_state) : dec_state :=
  let k := Z.land i 3 in
  if k =? 0 then {| d_done := d_done st; d_cur := Z.land (Z.shiftl c 2) 255 |}
  else if k =? 1 then
    {| d_done := d_done st ++ [Z.lor (d_cur st) (Z.land (Z.shiftr c 4) 3)];
       d_cur := Z.shiftl (Z.land c 15) 4 |}
  else if k =? 2 then
    {| d_done := d_done st ++ [Z.lor (d_cur st) (Z.land (Z.shiftr c 2) 15)];
       d_cur := Z.shiftl (Z.land c 3) 6 |}
  else
    {| d_done := d_done st ++ [Z.lor (d_cur st) c]; d_cur := 0 |}.

(** [None] is [return 0] on a character outside the alphabet; the bytes written
    by then are not part of the result (the returned length is 0). *)
Fixpoint decode_loop (i : Z) (input : list Z) (st : dec_state) : option (list Z) :=
  match input with
  | [] => Some (d_done st)
  | c :: rest =>
      if c =? BASE64_PAD then Some (d_done st)
      else
        match decode_char c with
        | None => None
        | Some v => decode_loop (i + 1) rest (decode_step i v st)
        end
  end.

(** The bytes of the result: the first [j] bytes of the output buffer. *)
Definition base64_decode (input : list Z) : list Z :=
  if negb (Z.land (Z.of_nat (length input)) 3 =? 0) then []
  else default [] (decode_loop 0 input {| d_done := []; d_cur := 0 |}).

(** ** Tables *)
Definition byte_ok (b : Z) : Prop := 0 ≤ b < 256.
Definition sextet_ok (v : Z) : Prop := 0 ≤ v < 64.

Definition forall_below (n : nat) (p : Z → bool) : bool :=
  forallb p (map Z.of_nat (seq 0 n)).

Lemma forall_below_spec n p x :
  forall_below n p = true → 0 ≤ x < Z.of_nat n → p x = true.
Proof.
  unfold forall_below. rewrite List.forallb_forall. intros H Hx. apply H.
  apply List.in_map_iff. exists (Z.to_nat x). split; [lia|].
  apply List.in_seq. lia.
Qed.

Lemma decode_encode_char v : sextet_ok v → decode_char (base64en v) = Some v.
Proof.
  intros Hv.
  pose proof (forall_below_spec 64
    (λ v, match decode_char (base64en v) with Some w => w =? v | None => false end) v
    ltac:(by vm_compute) Hv) as H. cbv beta in H.
  destruct (decode_char (base64en v)) as [w|]; [|done].
  apply Z.eqb_eq in H. by subst.
Qed.

Lemma base64en_not_pad v : sextet_ok v → (base64en v =? BASE64_PAD) = false.
Proof.
  intros Hv. apply negb_true_iff.
  apply (forall_below_spec 64 (λ v, negb (base64en v =? BASE64_PAD)) v); [|exact Hv].
  by vm_compute.
Qed.

(** ** Sextets of a group of three bytes *)
Lemma land_ones_small x n : 0 ≤ n → 0 ≤ x < 2 ^ n → Z.land x (Z.ones n) = x.
Proof. intros Hn Hx. rewrite Z.land_ones by lia. by apply Z.mod_small. Qed.

Lemma land_bound x n : 0 ≤ n → 0 ≤ Z.land x (Z.ones n) < 2 ^ n.
Proof. intros. rewrite Z.land_ones by lia. apply Z.mod_pos_bound, Z.pow_pos_nonneg; lia. Qed.

(** Disjoint bit fields add up. *)
Lemma lor_fields h l n : 0 ≤ n → 0 ≤ h → 0 ≤ l < 2 ^ n → Z.lor (Z.shiftl h n) l = h * 2 ^ n + l.
Proof.
  intros Hn Hh Hl. rewrite <- Z.shiftl_mul_pow2 by lia.
  symmetry. apply Z.add_nocarry_lor.
  apply Z.bits_inj'; intros i Hi. rewrite Z.land_spec, Z.bits_0.
  destruct (Z.lt_ge_cases i n).
  - by rewrite Z.shiftl_spec_low by lia.
  - rewrite <- (Z.mod_small l (2 ^ n)) by lia.
    rewrite Z.mod_pow2_bits_high by lia. apply andb_false_r.
Qed.

(** The arithmetic form of one encoder group. *)
Lemma enc0 a : byte_ok a → Z.land (Z.shiftr a 2) 63 = a / 4.
Proof.
  intros Ha. red in Ha. rewrite Z.shiftr_div_pow2 by lia. change (2 ^ 2) with 4.
  apply (land_ones_small _ 6); [lia|]. split; [apply Z.div_pos; lia|].
  apply Z.div_lt_upper_bound; lia.
Qed.

Lemma enc1 a b : byte_ok a → byte_ok b →
  Z.lor (Z.shiftl (Z.land a 3) 4) (Z.land (Z.shiftr b 4) 15) = a mod 4 * 16 + b / 16.
Proof.
  intros Ha Hb. red in Ha, Hb.
  change 3 with (Z.ones 2). change 15 with (Z.ones 4).
  rewrite lor_fields by (try apply land_bound; lia).
  rewrite !Z.land_ones, Z.shiftr_div_pow2 by lia. f_equal.
  apply Z.mod_small. split; [apply Z.div_pos; lia|].
  apply Z.div_lt_upper_bound; lia.
Qed.

Lemma enc2 b c : byte_ok b → byte_ok c →
  Z.lor (Z.shiftl (Z.land b 15) 2) (Z.land (Z.shiftr c 6) 3) = b mod 16 * 4 + c / 64.
Proof.
  intros Ha Hb. red in Ha, Hb.
  change 3 with (Z.ones 2). change 15 with (Z.ones 4).
  rewrite lor_fields by (try apply land_bound; lia).
  rewrite !Z.land_ones, Z.shiftr_div_pow2 by lia. f_equal.
  apply Z.mod_small. split; [apply Z.div_pos; lia|].
  apply Z.div_lt_upper_bound; lia.
Qed.

Lemma enc3 c : Z.land c 63 = c mod 64.
Proof. change 63 with (Z.ones 6). by rewrite Z.land_ones by lia. Qed.

Lemma enc1_tail a : Z.shiftl (Z.land a 3) 4 = a mod 4 * 16.
Proof. change 3 with (Z.ones 2). by rewrite Z.land_ones, Z.shiftl_mul_pow2 by lia. Qed.
Lemma enc2_tail b : Z.shiftl (Z.land b 15) 2 = b mod 16 * 4.
Proof. change 15 with (Z.ones 4). by rewrite Z.land_ones, Z.shiftl_mul_pow2 by lia. Qed.

Lemma enc2_tail_16 b : Z.shiftl (Z.land b 15) 4 = b mod 16 * 16.
Proof. change 15 with (Z.ones 4). by rewrite Z.land_ones, Z.shiftl_mul_pow2 by lia. Qed.
Lemma dec3_tail b : Z.shiftl (Z.land b 3) 6 = b mod 4 * 64.
Proof. change 3 with (Z.ones 2). by rewrite Z.land_ones, Z.shiftl_mul_pow2 by lia. Qed.

(** The four kinds of decoder step, arithmetically. *)
Lemma dec0 v : sextet_ok v → Z.land (Z.shiftl v 2) 255 = v * 4.
Proof.
  intros Hv. red in Hv. rewrite Z.shiftl_mul_pow2 by lia.
  apply (land_ones_small _ 8); lia.
Qed.

Lemma dec_lor h v n m : 0 ≤ n → 0 ≤ m → 0 ≤ h → sextet_ok v → v / 2 ^ n < 2 ^ m →
  Z.lor (h * 2 ^ m) (Z.land (Z.shiftr v n) (Z.ones m)) = h * 2 ^ m + v / 2 ^ n.
Proof.
  intros Hn Hm Hh Hv Hlt. red in Hv. rewrite <- Z.shiftl_mul_pow2 by lia.
  rewrite lor_fields; [|lia|lia|by apply land_bound].
  rewrite <- Z.shiftl_mul_pow2 by lia. f_equal.
  rewrite Z.shiftr_div_pow2 by lia. apply land_ones_small; [lia|].
  split; [|done]. apply Z.div_pos; [lia|]. apply Z.pow_pos_nonneg; lia.
Qed.

(** ** Groups *)

(** What the encoder writes for a whole group, as arithmetic on the bytes. *)
Lemma encode_group a b c rest :
  byte_ok a → byte_ok b → byte_ok c →
  ∀ l, encode_loop 0 l (a :: b :: c :: rest) =
    base64en (a / 4) :: base64en (a mod 4 * 16 + b / 16) ::
    base64en (b mod 16 * 4 + c / 64) :: base64en (c mod 64) :: encode_loop 0 c rest.
Proof.
  intros Ha Hb Hc l. cbn [encode_loop encode_step app Z.eqb Pos.eqb].
  by rewrite enc0, enc1, enc2, enc3 by done.
Qed.

Lemma encode_one a l :
  byte_ok a →
  encode_loop 0 l [a] =
    [base64en (a / 4); base64en (a mod 4 * 16); BASE64_PAD; BASE64_PAD].
Proof.
  intros Ha. cbn [encode_loop encode_step app Z.eqb Pos.eqb encode_tail].
  by rewrite enc0, enc1_tail by done.
Qed.

Lemma encode_two a b l :
  byte_ok a → byte_ok b →
  encode_loop 0 l [a; b] =
    [base64en (a / 4); base64en (a mod 4 * 16 + b / 16);
     base64en (b mod 16 * 4); BASE64_PAD].
Proof.
  intros Ha Hb. cbn [encode_loop encode_step app Z.eqb Pos.eqb encode_tail].
  by rewrite enc0, enc1, enc2_tail by done.
Qed.

(** The state of [encode_loop] between groups does not depend on [l]. *)
Lemma encode_loop_l l l' input : encode_loop 0 l input = encode_loop 0 l' input.
Proof. destruct input; [done|]. cbn [encode_loop encode_step Z.eqb]. done. Qed.

(** Induction on the input three bytes at a time. *)
Lemma triple_ind (P : list Z → Prop) :
  P [] → (∀ a, P [a]) → (∀ a b, P [a; b]) →
  (∀ a b c l, P l → P (a :: b :: c :: l)) → ∀ l, P l.
Proof.
  intros H0 H1 H2 H3 l.
  cut (∀ n l, (length l ≤ n)%nat → P l); [intros H; by apply (H (length l))|].
  clear l. induction n as [|n IH]; intros l Hl.
  - by destruct l; [|simpl in Hl; lia].
  - destruct l as [|a [|b [|c l]]]; auto. apply H3, IH. simpl in Hl. lia.
Qed.

Lemma decode_loop_char i v rest st :
  sextet_ok v →
  decode_loop i (base64en v :: rest) st = decode_loop (i + 1) rest (decode_step i v st).
Proof.
  intros Hv. cbn [decode_loop]. by rewrite base64en_not_pad, decode_encode_char by done.
Qed.

Lemma decode_loop_pad i rest st : decode_loop i (BASE64_PAD :: rest) st = Some (d_done st).
Proof. done. Qed.

Section steps.
Context (i : Z) (Hi : Z.land i 3 = 0) (Hp : 0 ≤ i).

Lemma land3_add k : 0 ≤ k < 4 → Z.land (i + k) 3 = k.
Proof using Hi Hp.
  intros Hk. change 3 with (Z.ones 2) in *. rewrite Z.land_ones in * by lia.
  change (2 ^ 2) with 4 in *. rewrite Z.add_mod, Hi, Z.add_0_l by lia.
  by rewrite !Z.mod_small by (rewrite ?Z.mod_small; lia).
Qed.

Lemma step0 v st : sextet_ok v →
  decode_step i v st = {| d_done := d_done st; d_cur := v * 4 |}.
Proof using Hi. intros Hv. unfold decode_step. rewrite Hi. simpl. by rewrite dec0. Qed.

Lemma step1 v st h : sextet_ok v → 0 ≤ h → d_cur st = h * 4 →
  decode_step (i + 1) v st =
    {| d_done := d_done st ++ [h * 4 + v / 16]; d_cur := v mod 16 * 16 |}.
Proof using Hi Hp.
  intros Hv Hh Hc. unfold decode_step. rewrite land3_add by lia. simpl.
  rewrite Hc. f_equal.
  - f_equal. f_equal. apply (dec_lor h v 4 2); try lia; [done|].
    red in Hv. change (2 ^ 2) with 4. apply Z.div_lt_upper_bound; lia.
  - apply enc2_tail_16.
Qed.

Lemma step2 v st h : sextet_ok v → 0 ≤ h → d_cur st = h * 16 →
  decode_step (i + 2) v st =
    {| d_done := d_done st ++ [h * 16 + v / 4]; d_cur := v mod 4 * 64 |}.
Proof using Hi Hp.
  intros Hv Hh Hc. unfold decode_step. rewrite land3_add by lia. simpl.
  rewrite Hc. f_equal.
  - f_equal. f_equal. apply (dec_lor h v 2 4); try lia; [done|].
    red in Hv. change (2 ^ 4) with 16. apply Z.div_lt_upper_bound; lia.
  - apply dec3_tail.
Qed.

Lemma step3 v st h : sextet_ok v → 0 ≤ h → d_cur st = h * 64 →
  decode_step (i + 3) v st = {| d_done := d_done st ++ [h * 64 + v]; d_cur := 0 |}.
Proof using Hi Hp.
  intros Hv Hh Hc. unfold decode_step. rewrite land3_add by lia. simpl.
  rewrite Hc. do 3 f_equal.
  rewrite <- (Z.shiftl_mul_pow2 h 6) at 1 by lia. by rewrite lor_fields.
Qed.
End steps.

Ltac field_arith :=
  unfold sextet_ok, byte_ok in *; simpl; first [reflexivity | Z.div_mod_to_equations; lia].

(** A whole group decodes to its three bytes. *)
Lemma decode_group i st a b c rest :
  Z.land i 3 = 0 → 0 ≤ i → byte_ok a → byte_ok b → byte_ok c →
  decode_loop i (base64en (a / 4) :: base64en (a mod 4 * 16 + b / 16) ::
    base64en (b mod 16 * 4 + c / 64) :: base64en (c mod 64) :: rest) st =
  decode_loop (i + 4) rest {| d_done := d_done st ++ [a; b; c]; d_cur := 0 |}.
Proof.
  intros Hi Hp Ha Hb Hc.
  rewrite !decode_loop_char by field_arith.
  rewrite <- !Z.add_assoc. simpl (1 + _). simpl (1 + _).
  rewrite (step0 i) by first [done | field_arith].
  rewrite (step1 i Hi Hp _ _ (a / 4)) by field_arith.
  rewrite (step2 i Hi Hp _ _ (b / 16)) by field_arith.
  rewrite (step3 i Hi Hp _ _ (c / 64)) by field_arith.
  f_equal. f_equal. simpl. rewrite <- !app_assoc. simpl.
  repeat f_equal; field_arith.
Qed.

(** A last group of one or two bytes, padded, gives back those bytes. *)
Lemma decode_one i st a :
  Z.land i 3 = 0 → 0 ≤ i → byte_ok a →
  decode_loop i [base64en (a / 4); base64en (a mod 4 * 16); BASE64_PAD; BASE64_PAD] st =
  Some (d_done st ++ [a]).
Proof.
  intros Hi Hp Ha.
  rewrite !decode_loop_char, decode_loop_pad by field_arith.
  rewrite (step0 i) by first [done | field_arith].
  rewrite (step1 i Hi Hp _ _ (a / 4)) by field_arith.
  simpl. repeat f_equal. field_arith.
Qed.

Lemma decode_two i st a b :
  Z.land i 3 = 0 → 0 ≤ i → byte_ok a → byte_ok b →
  decode_loop i [base64en (a / 4); base64en (a mod 4 * 16 + b / 16);
                 base64en (b mod 16 * 4); BASE64_PAD] st =
  Some (d_done st ++ [a; b]).
Proof.
  intros Hi Hp Ha Hb.
  rewrite !decode_loop_char, decode_loop_pad by field_arith.
  rewrite <- !Z.add_assoc. simpl (1 + _).
  rewrite (step0 i) by first [done | field_arith].
  rewrite (step1 i Hi Hp _ _ (a / 4)) by field_arith.
  rewrite (step2 i Hi Hp _ _ (b / 16)) by field_arith.
  simpl. rewrite <- !app_assoc. simpl. repeat f_equal; field_arith.
Qed.

Lemma decode_encode_loop input :
  Forall byte_ok input →
  ∀ i st l, Z.land i 3 = 0 → 0 ≤ i →
  decode_loop i (encode_loop 0 l input) st = Some (d_done st ++ input).
Proof.
  induction input as [|a|a b|a b c rest IH] using triple_ind;
    intros Hf i st l Hi Hp.
  - simpl. by rewrite app_nil_r.
  - inversion_clear Hf. by rewrite encode_one, decode_one.
  - inversion_clear Hf as [|?? Ha Hf']. inversion_clear Hf'.
    by rewrite encode_two, decode_two.
  - inversion_clear Hf as [|?? Ha Hf']. inversion_clear Hf' as [|?? Hb Hf''].
    inversion_clear Hf'' as [|?? Hc Hr].
    rewrite encode_group, decode_group, IH; try done.
    + simpl. by rewrite <- app_assoc.
    + change 3 with (Z.ones 2) in *. rewrite Z.land_ones in * by lia.
      change (2 ^ 2) with 4 in *. Z.div_mod_to_equations; lia.
    + lia.
Qed.

Lemma length_encode_loop input :
  Forall byte_ok input →
  ∀ l, Z.of_nat (length (encode_loop 0 l input)) = (Z.of_nat (length input) + 2) / 3 * 4.
Proof.
  induction input as [|a|a b|a b c rest IH] using triple_ind; intros Hf l; try done.
  inversion_clear Hf as [|?? Ha Hf']. inversion_clear Hf' as [|?? Hb Hf''].
  inversion_clear Hf'' as [|?? Hc Hr].
  rewrite encode_group by done.
  cbn [length]. rewrite !Nat2Z.inj_succ, IH by done.
  Z.div_mod_to_equations; lia.
Qed.

(** Decoding never writes past [BASE64_DECODE_OUT_SIZE]: the buffer index
    reached by the loop, the byte under construction included. *)
Fixpoint decode_extent (i : Z) (input : list Z) (st : dec_state) : Z :=
  let here := Z.of_nat (length (d_done st)) + (if Z.land i 3 =? 0 then 0 else 1) in
  match input with
  | [] => here
  | c :: rest =>
      if c =? BASE64_PAD then here
      else
        match decode_char c with
        | None => here
        | Some v => Z.max here (decode_extent (i + 1) rest (decode_step i v st))
        end
  end.

Lemma land3_mod i : Z.land i 3 = i mod 4.
Proof. change 3 with (Z.ones 2). by rewrite Z.land_ones by lia. Qed.

Lemma length_decode_step i v st :
  Z.of_nat (length (d_done (decode_step i v st))) =
  Z.of_nat (length (d_done st)) + (if i mod 4 =? 0 then 0 else 1).
Proof.
  unfold decode_step. rewrite land3_mod.
  destruct (Z.eqb_spec (i mod 4) 0), (Z.eqb_spec (i mod 4) 1), (Z.eqb_spec (i mod 4) 2);
    simpl; rewrite ?length_app; simpl; lia.
Qed.

Lemma decode_extent_bound input i st :
  0 ≤ i → Z.of_nat (length (d_done st)) = i / 4 * 3 + Z.max 0 (i mod 4 - 1) →
  decode_extent i input st ≤ (i + Z.of_nat (length input) + 3) / 4 * 3.
Proof.
  revert i st. induction input as [|c rest IH]; intros i st Hi Hd;
    cbn [decode_extent length]; rewrite land3_mod.
  - destruct (Z.eqb_spec (i mod 4) 0); Z.div_mod_to_equations; lia.
  - assert (Z.of_nat (length (d_done st)) + (if i mod 4 =? 0 then 0 else 1) ≤
            (i + Z.of_nat (S (length rest)) + 3) / 4 * 3) as Hh.
    { destruct (Z.eqb_spec (i mod 4) 0); Z.div_mod_to_equations; lia. }
    destruct (c =? BASE64_PAD); [done|].
    destruct (decode_char c) as [v|]; [|done].
    apply Z.max_lub; [done|].
    etrans; [apply IH|].
    + lia.
    + rewrite length_decode_step, Hd.
      destruct (Z.eqb_spec (i mod 4) 0); Z.div_mod_to_equations; lia.
    + apply Z.eq_le_incl. do 2 f_equal. lia.
Qed.

(** C39: decoding what [base64_encode] wrote gives back the input, for every
    byte string. *)
Theorem base64_roundtrip (input : list Z) :
  Forall byte_ok input → base64_decode (base64_encode input) = input.
Proof.
  intros Hf. unfold base64_decode, base64_encode.
  rewrite length_encode_loop by done. rewrite land3_mod.
  rewrite Z.mod_mul by lia. simpl. by rewrite decode_encode_loop by done.
Qed.

Lemma base64_roundtrip_witness :
  Forall byte_ok [104; 105; 255; 0] ∧
  base64_encode [104; 105; 255; 0] = [97; 71; 110; 47; 65; 65; 61; 61] ∧
  base64_decode (base64_encode [104; 105; 255; 0]) = [104; 105; 255; 0].
Proof.
  assert (Forall byte_ok [104; 105; 255; 0]) as Hf.
  { repeat constructor; unfold byte_ok; lia. }
  split; [exact Hf|]. split; [by vm_compute|]. exact (base64_roundtrip _ Hf).
Defined.

(** The sizes the header promises are enough. The encoder writes exactly
    4 characters per started group of 3 bytes, which with the final NUL is
    [BASE64_ENCODE_OUT_SIZE]; the decoder, on any input of a length it accepts
    (valid or not), never touches a byte at or past [BASE64_DECODE_OUT_SIZE]
    and returns at most that many. *)
Theorem base64_sizes (input : list Z) :
  (Forall byte_ok input →
     Z.of_nat (length (base64_encode input)) + 1 =
     BASE64_ENCODE_OUT_SIZE (Z.of_nat (length input))) ∧
  (Z.of_nat (length input) mod 4 = 0 →
     decode_extent 0 input {| d_done := []; d_cur := 0 |} ≤
     BASE64_DECODE_OUT_SIZE (Z.of_nat (length input))).
Proof.
  split.
  - intros Hf. unfold base64_encode, BASE64_ENCODE_OUT_SIZE.
    by rewrite length_encode_loop.
  - intros Hm. unfold BASE64_DECODE_OUT_SIZE.
    pose proof (decode_extent_bound input 0 {| d_done := []; d_cur := 0 |}
                  ltac:(lia) ltac:(done)) as H.
    etrans; [exact H|]. Z.div_mod_to_equations; lia.
Qed.

Lemma base64_sizes_witness :
  let t := [97; 71; 110; 47; 65; 65; 61; 61] in
  Forall byte_ok [104; 105] ∧ BASE64_ENCODE_OUT_SIZE 2 = 5 ∧
  decode_extent 0 t {| d_done := []; d_cur := 0 |} = 5 ∧
  decode_extent 0 t {| d_done := []; d_cur := 0 |} ≤ BASE64_DECODE_OUT_SIZE 8 ∧
  Z.of_nat (length (base64_encode [104; 105])) + 1 = 5.
Proof.
  assert (Forall byte_ok [104; 105]) as Hf.
  { repeat constructor; unfold byte_ok; lia. }
  intros t. split_and!; [exact Hf|done|by vm_compute| |].
  - apply (proj2 (base64_sizes t)). by vm_compute.
  - rewrite (proj1 (base64_sizes [104; 105]) Hf). by vm_compute.
Defined.
