(* ===== verification/Router.v ===== *)
(** * Route database ([router-utils.c], [include/router-utils.h])

    Addresses are the raw 32-bit [s_addr] values, compared as unsigned
    integers, exactly as the C comparison does (no byte swap).  The database
    keeps its used elements in [arr] ([len] is their number) and its capacity
    in [max].  The tagged union of [ucentral_router_fib_info] is an inductive
    type; [fib_type] is its enum value.

    [qsort] belongs to libc: it is a parameter [QSort] with the law libc
    documents (a sorted permutation; the order of equal keys is unspecified). *)

From S2P Require Import Prelude CNum.

Record fib_key := { prefix : Z; prefix_len : Z }.

Inductive fib_info :=
  | ROUTE_BLACKHOLE
  | ROUTE_UNREACHABLE
  | ROUTE_CONNECTED (vid : Z)
  | ROUTE_NH (vid gw : Z)
  | ROUTE_BROADCAST (vid : Z).

Record fib_node := { node_key : fib_key; node_info : fib_info }.

Record router := { r_arr : list fib_node; r_max : Z; r_sorted : bool }.
Definition r_len (r : router) : Z := Z.of_nat (length (r_arr r)).

#[export] Instance fib_key_eq_dec : EqDecision fib_key.
Proof. solve_decision. Defined.
#[export] Instance fib_info_eq_dec : EqDecision fib_info.
Proof. solve_decision. Defined.
#[export] Instance fib_node_eq_dec : EqDecision fib_node.
Proof. solve_decision. Defined.

#[export] Instance fib_key_countable : Countable fib_key.
Proof.
  refine (inj_countable' (λ k, (prefix k, prefix_len k))
            (λ p, {| prefix := p.1; prefix_len := p.2 |}) _).
  by intros [].
Defined.

(** The enum of [ucentral_router_fib_info]. *)
Definition fib_type (i : fib_info) : Z :=
  match i with
  | ROUTE_BLACKHOLE => 0
  | ROUTE_UNREACHABLE => 1
  | ROUTE_CONNECTED _ => 2
  | ROUTE_NH _ _ => 3
  | ROUTE_BROADCAST _ => 4
  end.

(** [if (a > b) return 1; if (a < b) return -1;] then continue. *)
Definition cmp_then (a b k : Z) : Z :=
  if b <? a then 1 else if a <? b then -1 else k.

Definition ucentral_router_fib_key_cmp (a b : fib_key) : Z :=
  cmp_then (prefix_len a) (prefix_len b) (cmp_then (prefix a) (prefix b) 0).

Definition ucentral_router_fib_info_cmp (a b : fib_info) : Z :=
  cmp_then (fib_type a) (fib_type b)
    match a, b with
    | ROUTE_CONNECTED va, ROUTE_CONNECTED vb => cmp_then va vb 0
    | ROUTE_BROADCAST va, ROUTE_BROADCAST vb => cmp_then va vb 0
    | ROUTE_NH va ga, ROUTE_NH vb gb => cmp_then va vb (cmp_then ga gb 0)
    | _, _ => 0
    end.

Definition fib_node_key_cmp_cb (na nb : fib_node) : Z :=
  ucentral_router_fib_key_cmp (node_key na) (node_key nb).

(** ** Operations *)

(** [calloc] of the array; [ok] is its outcome. *)
Definition ucentral_router_fib_db_alloc (ok : bool) (max : Z) : option router :=
  if ok then Some {| r_arr := []; r_max := max; r_sorted := true |} else None.

Definition ucentral_router_fib_db_free : router :=
  {| r_arr := []; r_max := 0; r_sorted := false |}.

Definition ucentral_router_fib_db_copy (ok : bool) (src : router) : option router :=
  match ucentral_router_fib_db_alloc ok (r_max src) with
  | None => None
  | Some dst =>
      Some {| r_arr := r_arr src; r_max := r_max dst; r_sorted := r_sorted src |}
  end.

Definition ucentral_router_fib_db_append (r : router) (n : fib_node) : option router :=
  if r_len r =? r_max r then None
  else Some {| r_arr := r_arr r ++ [n]; r_max := r_max r; r_sorted := false |}.

Class QSort := {
  qsort : (fib_node → fib_node → Z) → list fib_node → list fib_node }.

Definition node_le (a b : fib_node) : Prop := fib_node_key_cmp_cb a b ≤ 0.

Class QSortLaws `{QSort} : Prop := {
  qsort_perm l : qsort fib_node_key_cmp_cb l ≡ₚ l;
  qsort_sorted l : StronglySorted node_le (qsort fib_node_key_cmp_cb l) }.

Definition ucentral_router_fib_db_sort `{QSort} (r : router) : router :=
  {| r_arr := qsort fib_node_key_cmp_cb (r_arr r);
     r_max := r_max r; r_sorted := true |}.

(** ** Iteration over the difference of two databases

    [router_db_diff_get] and [for_router_db_diff], with the two indices the
    macro advances.  A step is what the body sees: the sign of [DIFF] and the
    nodes at the indices. *)
Inductive diff_step :=
  | DiffUpd (n o : fib_node)
  | DiffDel (o : fib_node)
  | DiffAdd (n : fib_node).

(** [None] when both indices are at the end: the loop condition is false. *)
Definition router_db_diff_get (new old : router) (inew iold : nat) : option diff_step :=
  match r_arr new !! inew, r_arr old !! iold with
  | None, None => None
  | Some n, None => Some (DiffAdd n)
  | None, Some o => Some (DiffDel o)
  | Some n, Some o =>
      let d := ucentral_router_fib_key_cmp (node_key n) (node_key o) in
      Some (if d =? 0 then DiffUpd n o else if 0 <? d then DiffDel o else DiffAdd n)
  end.

Fixpoint diff_loop (fuel : nat) (new old : router) (inew iold : nat) : list diff_step :=
  match fuel with
  | O => []
  | S fuel =>
      match router_db_diff_get new old inew iold with
      | None => []
      | Some (DiffUpd n o) => DiffUpd n o :: diff_loop fuel new old (S inew) (S iold)
      | Some (DiffDel o) => DiffDel o :: diff_loop fuel new old inew (S iold)
      | Some (DiffAdd n) => DiffAdd n :: diff_loop fuel new old (S inew) iold
      end
  end.

(** Every iteration advances an index, so the sum of the lengths is enough. *)
Definition for_router_db_diff (new old : router) : list diff_step :=
  diff_loop (length (r_arr new) + length (r_arr old)) new old 0 0.

(** ** The comparison functions are total orders *)
Lemma cmp_then_0 a b k : cmp_then a b k = 0 ↔ a = b ∧ k = 0.
Proof.
  unfold cmp_then. destruct (Z.ltb_spec b a), (Z.ltb_spec a b); split; lia.
Qed.

Lemma cmp_then_opp a b k k' : k' = - k → cmp_then b a k' = - cmp_then a b k.
Proof.
  intros ->. unfold cmp_then. destruct (Z.ltb_spec b a), (Z.ltb_spec a b); lia.
Qed.

Lemma cmp_then_lt a b k : cmp_then a b k < 0 ↔ a < b ∨ a = b ∧ k < 0.
Proof. unfold cmp_then. destruct (Z.ltb_spec b a), (Z.ltb_spec a b); split; lia. Qed.

Lemma cmp_then_le a b k : cmp_then a b k ≤ 0 ↔ a < b ∨ a = b ∧ k ≤ 0.
Proof. unfold cmp_then. destruct (Z.ltb_spec b a), (Z.ltb_spec a b); split; lia. Qed.

Lemma key_cmp_0 a b : ucentral_router_fib_key_cmp a b = 0 ↔ a = b.
Proof.
  unfold ucentral_router_fib_key_cmp. rewrite !cmp_then_0.
  destruct a, b; simpl. split; [intros (-> & -> & _)|intros [= -> ->]]; auto.
Qed.

Lemma key_cmp_opp a b :
  ucentral_router_fib_key_cmp b a = - ucentral_router_fib_key_cmp a b.
Proof. by apply cmp_then_opp, cmp_then_opp. Qed.

(** Lexicographic order: prefix length first, then address. *)
Definition key_lt (a b : fib_key) : Prop :=
  prefix_len a < prefix_len b ∨
  prefix_len a = prefix_len b ∧ prefix a < prefix b.

Lemma key_cmp_lt a b : ucentral_router_fib_key_cmp a b < 0 ↔ key_lt a b.
Proof. unfold ucentral_router_fib_key_cmp, key_lt. rewrite !cmp_then_lt. lia. Qed.

Lemma key_lt_trans a b c : key_lt a b → key_lt b c → key_lt a c.
Proof. unfold key_lt. lia. Qed.

Lemma key_lt_irrefl a : ¬ key_lt a a.
Proof. unfold key_lt. lia. Qed.

Lemma key_lt_ne a b : key_lt a b → a ≠ b.
Proof. intros H ->. by eapply key_lt_irrefl. Qed.

Lemma info_cmp_0 a b : ucentral_router_fib_info_cmp a b = 0 ↔ a = b.
Proof.
  unfold ucentral_router_fib_info_cmp. rewrite cmp_then_0. split.
  - destruct a, b; simpl; intros [H1 H2]; try done;
      repeat (apply cmp_then_0 in H2 as [-> H2]); done.
  - intros ->. split; [done|]. destruct b; rewrite ?cmp_then_0; auto.
Qed.

Lemma info_cmp_opp a b :
  ucentral_router_fib_info_cmp b a = - ucentral_router_fib_info_cmp a b.
Proof.
  unfold ucentral_router_fib_info_cmp. apply cmp_then_opp.
  destruct a, b; try done; repeat apply cmp_then_opp; done.
Qed.

(** ** Sorting *)
Lemma db_sort_spec `{QSortLaws} (r : router) :
  r_arr (ucentral_router_fib_db_sort r) ≡ₚ r_arr r ∧
  StronglySorted node_le (r_arr (ucentral_router_fib_db_sort r)) ∧
  r_len (ucentral_router_fib_db_sort r) = r_len r.
Proof.
  simpl. split_and!; [apply qsort_perm|apply qsort_sorted|].
  unfold r_len. simpl. by rewrite qsort_perm.
Qed.

(** ** Differences *)

Definition keys (l : list fib_node) : list fib_key := map node_key l.
Definition fib_sorted (l : list fib_node) : Prop := StronglySorted key_lt (keys l).

(** The routes a database stands for. *)
Definition fib_map (l : list fib_node) : gmap fib_key fib_info :=
  list_to_map (map (λ n, (node_key n, node_info n)) l).

(** What the callers make of a step. *)
Definition diff_apply (m : gmap fib_key fib_info) (d : diff_step) : gmap fib_key fib_info :=
  match d with
  | DiffUpd n _ | DiffAdd n => <[node_key n := node_info n]> m
  | DiffDel o => delete (node_key o) m
  end.

Lemma fib_map_cons n l : fib_map (n :: l) = <[node_key n := node_info n]> (fib_map l).
Proof. done. Qed.

Lemma fib_map_lookup_None l k : k ∉ keys l → fib_map l !! k = None.
Proof.
  intros Hk. apply not_elem_of_list_to_map_1. rewrite map_map. done.
Qed.

Lemma sorted_head n l k : fib_sorted (n :: l) → k ∈ keys l → key_lt (node_key n) k.
Proof.
  intros H Hk. inversion_clear H as [|?? Hs Hf]. by eapply Forall_forall in Hf.
Qed.

Lemma sorted_head_notin n l : fib_sorted (n :: l) → node_key n ∉ keys l.
Proof. intros H Hin. apply (key_lt_irrefl (node_key n)). exact (sorted_head _ _ _ H Hin). Qed.

Lemma sorted_tail n l : fib_sorted (n :: l) → fib_sorted l.
Proof. intros H. by inversion_clear H. Qed.

Lemma keys_below n l k :
  fib_sorted l → (∀ m l', l = m :: l' → key_lt n (node_key m)) → k ∈ keys l → key_lt n k.
Proof.
  destruct l as [|m l]; intros Hs Hh Hk; [by apply elem_of_nil in Hk|].
  specialize (Hh m l eq_refl). apply elem_of_cons in Hk as [->|Hk]; [done|].
  eapply key_lt_trans; [done|]. by eapply sorted_head.
Qed.

Lemma drop_lookup {A} (l : list A) i x : l !! i = Some x → drop i l = x :: drop (S i) l.
Proof. apply drop_S. Qed.

Lemma drop_none {A} (l : list A) i : l !! i = None → drop i l = [].
Proof. intros H%lookup_ge_None. by apply drop_ge. Qed.

Lemma decide_keys_cons {A} (x y : A) k o l :
  k ≠ node_key o →
  (if decide (k ∈ keys l) then x else y) = (if decide (k ∈ keys (o :: l)) then x else y).
Proof.
  intros Hk. apply decide_ext. simpl. rewrite elem_of_cons. tauto.
Qed.

Lemma decide_keys_head {A} (x y : A) o l :
  (if decide (node_key o ∈ keys l) then x else x) =
  (if decide (node_key o ∈ keys (o :: l)) then x else y).
Proof.
  rewrite (decide_True _ _ (P := node_key o ∈ keys (o :: l))); [by destruct (decide _)|].
  by left.
Qed.

(** The effect of the remaining iterations on a key. *)
Lemma diff_loop_lookup new old fuel inew iold (m : gmap fib_key fib_info) k :
  (length (r_arr new) - inew + (length (r_arr old) - iold) ≤ fuel)%nat →
  fib_sorted (drop inew (r_arr new)) → fib_sorted (drop iold (r_arr old)) →
  foldl diff_apply m (diff_loop fuel new old inew iold) !! k =
    match fib_map (drop inew (r_arr new)) !! k with
    | Some i => Some i
    | None => if decide (k ∈ keys (drop iold (r_arr old))) then None else m !! k
    end.
Proof.
  revert inew iold m. induction fuel as [|fuel IH]; intros inew iold m Hf HN HO.
  { simpl. rewrite !drop_ge by lia. done. }
  cbn [diff_loop]. unfold router_db_diff_get.
  destruct (r_arr new !! inew) as [n|] eqn:En, (r_arr old !! iold) as [o|] eqn:Eo.
  - pose proof (lookup_lt_Some _ _ _ En). pose proof (lookup_lt_Some _ _ _ Eo).
    rewrite (drop_lookup _ _ _ En), (drop_lookup _ _ _ Eo) in *.
    pose proof (sorted_tail _ _ HN). pose proof (sorted_tail _ _ HO).
    destruct (Z.eqb_spec (ucentral_router_fib_key_cmp (node_key n) (node_key o)) 0) as [E0|E0].
    + apply key_cmp_0 in E0. cbn [foldl diff_apply]. rewrite IH by (done || lia).
      rewrite fib_map_cons. destruct (decide (k = node_key n)) as [->|Hk].
      * rewrite lookup_insert_eq, fib_map_lookup_None.
        2:{ by apply sorted_head_notin. }
        rewrite decide_False, lookup_insert_eq; [done|].
        rewrite E0. by apply sorted_head_notin.
      * rewrite !lookup_insert_ne by done.
        destruct (fib_map (drop (S inew) _) !! k); [done|].
        apply decide_keys_cons. congruence.
    + destruct (Z.ltb_spec 0 (ucentral_router_fib_key_cmp (node_key n) (node_key o))) as [E|E].
      * assert (key_lt (node_key o) (node_key n)) as Hlt.
        { apply key_cmp_lt. rewrite key_cmp_opp. lia. }
        cbn [foldl diff_apply].
        rewrite IH by (rewrite ?(drop_lookup _ _ _ En); done || lia).
        rewrite (drop_lookup _ _ _ En).
        destruct (fib_map (n :: _) !! k) eqn:Em; [done|].
        destruct (decide (k = node_key o)) as [->|Hk].
        -- rewrite lookup_delete_eq. by apply decide_keys_head.
        -- rewrite lookup_delete_ne by done. by apply decide_keys_cons.
      * assert (key_lt (node_key n) (node_key o)) as Hlt by (apply key_cmp_lt; lia).
        cbn [foldl diff_apply].
        rewrite IH by (rewrite ?(drop_lookup _ _ _ Eo); done || lia).
        rewrite (drop_lookup _ _ _ Eo), fib_map_cons.
        destruct (decide (k = node_key n)) as [->|Hk].
        -- rewrite lookup_insert_eq, fib_map_lookup_None.
           2:{ by apply sorted_head_notin. }
           rewrite decide_False, lookup_insert_eq; [done|].
           intros Hin. apply (key_lt_irrefl (node_key n)).
           eapply keys_below; [exact HO| |exact Hin]. by intros ? ? [= <- <-].
        -- rewrite !lookup_insert_ne by done. done.
  - pose proof (lookup_lt_Some _ _ _ En).
    rewrite (drop_lookup _ _ _ En), (drop_none _ _ Eo) in *.
    pose proof (sorted_tail _ _ HN). apply lookup_ge_None in Eo.
    pose proof (drop_ge (r_arr old) iold Eo) as Ed.
    cbn [foldl diff_apply]. rewrite IH by (rewrite ?Ed; done || lia).
    rewrite Ed, fib_map_cons.
    destruct (decide (k = node_key n)) as [->|Hk].
    + rewrite lookup_insert_eq, fib_map_lookup_None.
      2:{ by apply sorted_head_notin. }
      by rewrite decide_False, lookup_insert_eq by set_solver.
    + by rewrite !lookup_insert_ne by done.
  - pose proof (lookup_lt_Some _ _ _ Eo).
    rewrite (drop_lookup _ _ _ Eo), (drop_none _ _ En) in *.
    pose proof (sorted_tail _ _ HO). apply lookup_ge_None in En.
    pose proof (drop_ge (r_arr new) inew En) as Ed.
    cbn [foldl diff_apply]. rewrite IH by (rewrite ?Ed; done || lia).
    rewrite Ed. simpl.
    destruct (decide (k = node_key o)) as [->|Hk].
    + rewrite lookup_delete_eq. by apply decide_keys_head.
    + rewrite lookup_delete_ne by done. by apply decide_keys_cons.
  - rewrite (drop_none _ _ En), (drop_none _ _ Eo). done.
Qed.

(** Which nodes a step may speak of, and the keys it cannot meet again. *)
Definition step_ok (N O : list fib_node) (d : diff_step) : Prop :=
  match d with
  | DiffUpd n o => n ∈ N ∧ o ∈ O ∧ node_key n = node_key o
  | DiffAdd n => n ∈ N ∧ node_key n ∉ keys O
  | DiffDel o => o ∈ O ∧ node_key o ∉ keys N
  end.

Lemma elem_of_keys n l : n ∈ l → node_key n ∈ keys l.
Proof. intros H. by apply list_elem_of_fmap_2. Qed.

Lemma not_keys_cons k o l : k ≠ node_key o → k ∉ keys l → k ∉ keys (o :: l).
Proof. intros H1 H2. simpl. by apply not_elem_of_cons. Qed.

Lemma sorted_ne n l m : fib_sorted (n :: l) → m ∈ l → node_key m ≠ node_key n.
Proof.
  intros H Hm. apply not_eq_sym, key_lt_ne. eapply sorted_head; [done|]. by apply elem_of_keys.
Qed.

Lemma sorted_lt_ne n l k m :
  fib_sorted (n :: l) → key_lt k (node_key n) → m ∈ n :: l → node_key m ≠ k.
Proof.
  intros Hs Hk Hm. apply not_eq_sym, key_lt_ne.
  apply elem_of_cons in Hm as [->|Hm]; [done|].
  eapply key_lt_trans; [done|]. eapply sorted_head; [done|]. by apply elem_of_keys.
Qed.

(** Steps of the tails are steps of the lists, by the kind of the head step. *)
Lemma step_ok_upd n N o O d :
  fib_sorted (n :: N) → fib_sorted (o :: O) → node_key n = node_key o →
  step_ok N O d → step_ok (n :: N) (o :: O) d.
Proof.
  intros HN HO E. destruct d; simpl.
  - intros (? & ? & ?). split_and!; by try right.
  - intros (Hm & Hk). split; [by right|]. apply not_keys_cons; [|done].
    rewrite E. by eapply sorted_ne.
  - intros (Hm & Hk). split; [by right|]. apply not_keys_cons; [|done].
    rewrite <- E. by eapply sorted_ne.
Qed.

Lemma step_ok_del N o O d :
  fib_sorted (o :: O) → (∀ m, m ∈ N → node_key m ≠ node_key o) →
  step_ok N O d → step_ok N (o :: O) d.
Proof.
  intros HO E. destruct d; simpl.
  - intros (? & ? & ?). split_and!; by try right.
  - intros (Hm & Hk). split; [by right|done].
  - intros (Hm & Hk). split; [done|]. apply not_keys_cons; auto.
Qed.

Lemma step_ok_add n N O d :
  fib_sorted (n :: N) → (∀ m, m ∈ O → node_key m ≠ node_key n) →
  step_ok N O d → step_ok (n :: N) O d.
Proof.
  intros HN E. destruct d; simpl.
  - intros (? & ? & ?). split_and!; by try right.
  - intros (Hm & Hk). split; [done|]. apply not_keys_cons; auto.
  - intros (Hm & Hk). split; [by right|done].
Qed.

Lemma notin_keys k l : (∀ m, m ∈ l → node_key m ≠ k) → k ∉ keys l.
Proof. intros H Hk. apply list_elem_of_fmap in Hk as (m & -> & Hm). by apply (H m). Qed.

Lemma diff_loop_steps new old fuel inew iold :
  fib_sorted (drop inew (r_arr new)) → fib_sorted (drop iold (r_arr old)) →
  Forall (step_ok (drop inew (r_arr new)) (drop iold (r_arr old)))
    (diff_loop fuel new old inew iold).
Proof.
  revert inew iold. induction fuel as [|fuel IH]; intros inew iold HN HO; [constructor|].
  cbn [diff_loop]. unfold router_db_diff_get.
  destruct (r_arr new !! inew) as [n|] eqn:En, (r_arr old !! iold) as [o|] eqn:Eo.
  - specialize (IH (S inew)) as IHn.
    rewrite (drop_lookup _ _ _ En) in HN |- *. rewrite (drop_lookup _ _ _ Eo) in HO |- *.
    pose proof (sorted_tail _ _ HN). pose proof (sorted_tail _ _ HO).
    destruct (Z.eqb_spec (ucentral_router_fib_key_cmp (node_key n) (node_key o)) 0) as [E0|E0].
    + apply key_cmp_0 in E0. constructor; [split_and!; [left|left|done]|].
      eapply Forall_impl; [by apply IH|]. intros d. by apply step_ok_upd.
    + destruct (Z.ltb_spec 0 (ucentral_router_fib_key_cmp (node_key n) (node_key o))) as [E|E].
      * assert (key_lt (node_key o) (node_key n)) as Hlt.
        { apply key_cmp_lt. rewrite key_cmp_opp. lia. }
        assert (∀ m, m ∈ n :: drop (S inew) (r_arr new) → node_key m ≠ node_key o) as Hne.
        { intros m. by eapply sorted_lt_ne. }
        constructor; [split; [left|by apply notin_keys]|].
        eapply Forall_impl; [apply IH; rewrite ?(drop_lookup _ _ _ En); done|].
        intros d. rewrite (drop_lookup _ _ _ En). by apply step_ok_del.
      * assert (key_lt (node_key n) (node_key o)) as Hlt by (apply key_cmp_lt; lia).
        assert (∀ m, m ∈ o :: drop (S iold) (r_arr old) → node_key m ≠ node_key n) as Hne.
        { intros m. by eapply sorted_lt_ne. }
        constructor; [split; [left|by apply notin_keys]|].
        eapply Forall_impl; [apply IH; rewrite ?(drop_lookup _ _ _ Eo); done|].
        intros d. rewrite (drop_lookup _ _ _ Eo). by apply step_ok_add.
  - pose proof (drop_none _ _ Eo) as Ed. rewrite (drop_lookup _ _ _ En) in HN |- *.
    constructor; [rewrite Ed; split; [left|set_solver]|].
    eapply Forall_impl; [apply IH; [by eapply sorted_tail|done]|].
    intros d. rewrite Ed. apply step_ok_add; [done|set_solver].
  - pose proof (drop_none _ _ En) as Ed. rewrite (drop_lookup _ _ _ Eo) in HO |- *.
    constructor; [rewrite Ed; split; [left|set_solver]|].
    eapply Forall_impl; [apply IH; [done|by eapply sorted_tail]|].
    intros d. rewrite Ed. apply step_ok_del; [done|set_solver].
  - constructor.
Qed.

(** The loop has ended: more fuel changes nothing. *)
Lemma diff_loop_fuel new old fuel fuel' inew iold :
  (length (r_arr new) - inew + (length (r_arr old) - iold) ≤ fuel)%nat → (fuel ≤ fuel')%nat →
  diff_loop fuel' new old inew iold = diff_loop fuel new old inew iold.
Proof.
  revert fuel' inew iold. induction fuel as [|fuel IH]; intros fuel' inew iold Hf Hle.
  - destruct fuel'; [done|]. simpl. unfold router_db_diff_get.
    by rewrite !lookup_ge_None_2 by lia.
  - destruct fuel' as [|fuel']; [lia|]. cbn [diff_loop]. unfold router_db_diff_get.
    destruct (r_arr new !! inew) as [n|] eqn:En, (r_arr old !! iold) as [o|] eqn:Eo; [| | |done].
    all: try apply lookup_lt_Some in En; try apply lookup_lt_Some in Eo.
    all: try apply lookup_ge_None in En; try apply lookup_ge_None in Eo.
    2-3: f_equal; apply IH; lia.
    destruct (_ =? 0); [f_equal; apply IH; lia|].
    destruct (0 <? _); f_equal; apply IH; lia.
Qed.

(** C24: [for_router_db_diff] over two databases sorted by strictly increasing
    key ends after at most [len new + len old] iterations, classifies every
    node rightly (an update pairs two nodes of the same key, an addition is a
    node whose key the old database lacks, a deletion one whose key the new
    lacks), and carrying out its steps turns the old routes into the new. *)
Theorem router_diff_reconciles (new old : router) :
  fib_sorted (r_arr new) → fib_sorted (r_arr old) →
  foldl diff_apply (fib_map (r_arr old)) (for_router_db_diff new old) = fib_map (r_arr new) ∧
  Forall (step_ok (r_arr new) (r_arr old)) (for_router_db_diff new old) ∧
  (∀ fuel, (length (r_arr new) + length (r_arr old) ≤ fuel)%nat →
     diff_loop fuel new old 0 0 = for_router_db_diff new old).
Proof.
  intros HN HO. split_and!.
  - apply map_eq. intros k. unfold for_router_db_diff.
    rewrite diff_loop_lookup by (rewrite ?drop_0; done || lia). rewrite !drop_0.
    destruct (fib_map (r_arr new) !! k); [done|]. case_decide; [done|].
    by apply fib_map_lookup_None.
  - apply (diff_loop_steps new old _ 0 0); by rewrite drop_0.
  - intros fuel Hf. apply diff_loop_fuel; lia.
Qed.

Lemma router_diff_reconciles_witness :
  let k a l := {| prefix := a; prefix_len := l |} in
  let new := {| r_arr := [{| node_key := k 3 16; node_info := ROUTE_NH 7 9 |};
                          {| node_key := k 1 24; node_info := ROUTE_BLACKHOLE |}];
                r_max := 4; r_sorted := true |} in
  let old := {| r_arr := [{| node_key := k 3 16; node_info := ROUTE_CONNECTED 7 |};
                          {| node_key := k 5 16; node_info := ROUTE_BLACKHOLE |}];
                r_max := 2; r_sorted := true |} in
  length (for_router_db_diff new old) = 3%nat ∧
  foldl diff_apply (fib_map (r_arr old)) (for_router_db_diff new old) = fib_map (r_arr new).
Proof.
  intros k new old. split; [by vm_compute|].
  apply router_diff_reconciles; repeat constructor; simpl; lia.
Defined.

(** Distinct keys sort into strictly increasing keys. *)
Lemma sorted_distinct l :
  StronglySorted node_le l → NoDup (keys l) → fib_sorted l.
Proof.
  induction l as [|n l IH]; intros Hs Hd; [constructor|].
  inversion_clear Hs as [|?? Hs' Hf]. inversion_clear Hd as [|?? Hn Hd'].
  constructor; [by apply IH|]. apply Forall_forall. intros k Hk.
  apply list_elem_of_fmap in Hk as (m & -> & Hm).
  rewrite Forall_forall in Hf. specialize (Hf m Hm). apply key_cmp_lt.
  unfold node_le, fib_node_key_cmp_cb in Hf.
  destruct (decide (ucentral_router_fib_key_cmp (node_key n) (node_key m) = 0)) as [E|]; [|lia].
  apply key_cmp_0 in E. exfalso. apply Hn. rewrite E. by apply elem_of_keys.
Qed.

(** The comparison callbacks are total orders and agree with equality: a
    zero means equal keys (equal infos), swapping the arguments flips the
    sign, keys are ordered by prefix length and then address; and with any
    [qsort] that meets its contract, sorting keeps the routes and, when no
    prefix occurs twice, gives the strictly increasing order the difference
    iteration needs. *)
Theorem router_cmp_orders :
  (∀ a b, ucentral_router_fib_key_cmp a b = 0 ↔ a = b) ∧
  (∀ a b, ucentral_router_fib_key_cmp b a = - ucentral_router_fib_key_cmp a b) ∧
  (∀ a b, ucentral_router_fib_key_cmp a b < 0 ↔ key_lt a b) ∧
  (∀ a b, ucentral_router_fib_info_cmp a b = 0 ↔ a = b) ∧
  (∀ a b, ucentral_router_fib_info_cmp b a = - ucentral_router_fib_info_cmp a b) ∧
  (∀ (Q : QSort), QSortLaws → ∀ r,
     r_arr (ucentral_router_fib_db_sort r) ≡ₚ r_arr r ∧
     (NoDup (keys (r_arr r)) → fib_sorted (r_arr (ucentral_router_fib_db_sort r)))).
Proof.
  split_and!; auto using key_cmp_0, key_cmp_opp, key_cmp_lt, info_cmp_0, info_cmp_opp.
  intros Q HQ r. destruct (db_sort_spec r) as (Hp & Hs & _). split; [done|].
  intros Hd. apply sorted_distinct; [done|]. unfold keys. by rewrite Hp.
Qed.

(** ** A concrete [qsort]: merge sort *)
#[export] Instance node_le_dec a b : Decision (node_le a b).
Proof. unfold node_le. apply _. Defined.

Definition merge_qsort : QSort := {| qsort := λ _, merge_sort node_le |}.

#[export] Instance node_le_trans : Transitive node_le.
Proof.
  intros a b c. unfold node_le, fib_node_key_cmp_cb, ucentral_router_fib_key_cmp.
  rewrite !cmp_then_le. lia.
Qed.

#[export] Instance node_le_total : Total node_le.
Proof.
  intros a b. unfold node_le, fib_node_key_cmp_cb, ucentral_router_fib_key_cmp.
  rewrite !cmp_then_le. lia.
Qed.

Lemma merge_qsort_laws : @QSortLaws merge_qsort.
Proof.
  constructor; intros l.
  - apply merge_sort_Permutation.
  - apply StronglySorted_merge_sort; apply _.
Qed.

Lemma router_cmp_orders_witness :
  let k a l := {| prefix := a; prefix_len := l |} in
  let r := {| r_arr := [{| node_key := k 9 24; node_info := ROUTE_BLACKHOLE |};
                        {| node_key := k 2 24; node_info := ROUTE_NH 3 4 |}];
              r_max := 2; r_sorted := false |} in
  fib_sorted (r_arr (@ucentral_router_fib_db_sort merge_qsort r)).
Proof.
  intros k r. destruct router_cmp_orders as (_ & _ & _ & _ & _ & H).
  apply (H merge_qsort merge_qsort_laws r).
  apply (bool_decide_unpack _). by vm_compute.
Defined.
