(* ===== verification/Json.v ===== *)
(** * The cJSON interface

    cJSON is a library outside the repository.  The program uses it through
    the operations of the class [CJson]: the tests and accessors on a parsed
    item, and the constructors for outgoing messages.  A [cJSON *] that may be
    NULL is an [option json]; the accessors accept NULL as cJSON documents
    (no member, no child, no string, the number NaN).  [CJsonLaws] is the
    documented behaviour the theorems rely on, and [jtree] is a concrete
    instance, used by the evaluated examples. *)

From S2P Require Import Prelude CNum CStr.
From Stdlib Require Import Floats.SpecFloat Ascii.

Class CJson := {
  json : Type;
  (* types of an item *)
  cJSON_IsObject : json → bool;
  cJSON_IsArray : json → bool;
  cJSON_IsString : json → bool;
  cJSON_IsNumber : json → bool;
  cJSON_IsTrue : json → bool;
  cJSON_IsBool : json → bool;
  (* its children, in order: what cJSON_ArrayForEach walks *)
  cJSON_children : json → list json;
  (* first member of that name, case sensitive or not *)
  cJSON_member : json → string → option json;
  cJSON_member_ci : json → string → option json;
  cJSON_valuestring : json → option string;
  cJSON_valuedouble : json → double;
  (* text to item *)
  cJSON_Parse : string → option json;
  (* item to text, and whether it fits in a buffer of that many bytes *)
  cJSON_PrintUnformatted : json → string;
  cJSON_PrintPreallocated : json → Z → bool;
  (* construction *)
  cJSON_CreateObject : json;
  cJSON_CreateArray : json;
  cJSON_CreateString : string → json;
  cJSON_CreateNumber : double → json;
  cJSON_CreateRaw : string → json;
  cJSON_CreateBool : bool → json;
  cJSON_AddToObject : json → string → json → json;
  cJSON_AddToArray : json → json → json
}.

Class CJsonLaws `{CJson} : Prop := {
  (* cJSON_GetStringValue is the text of a string item, NULL for the others *)
  valuestring_string j : cJSON_IsString j = true → is_Some (cJSON_valuestring j);
  (* items added to an object are appended and found by their name, the first
     of a name shadowing the later ones *)
  isobject_empty : cJSON_IsObject cJSON_CreateObject = true;
  isobject_add o k v :
    cJSON_IsObject o = true → cJSON_IsObject (cJSON_AddToObject o k v) = true;
  member_empty k : cJSON_member cJSON_CreateObject k = None;
  member_add o k v k' : cJSON_IsObject o = true →
    cJSON_member (cJSON_AddToObject o k v) k' =
    match cJSON_member o k' with
    | Some w => Some w
    | None => if streq k k' then Some v else None
    end;
  (* items added to an array are appended *)
  isarray_empty : cJSON_IsArray cJSON_CreateArray = true;
  isarray_add a v : cJSON_IsArray a = true → cJSON_IsArray (cJSON_AddToArray a v) = true;
  children_array_empty : cJSON_children cJSON_CreateArray = [];
  children_array_add a v : cJSON_IsArray a = true →
    cJSON_children (cJSON_AddToArray a v) = (cJSON_children a ++ [v])%list;
  valuestring_create s : cJSON_valuestring (cJSON_CreateString s) = Some s;
  isstring_create s : cJSON_IsString (cJSON_CreateString s) = true;
  isbool_create b : cJSON_IsBool (cJSON_CreateBool b) = true;
  istrue_create b : cJSON_IsTrue (cJSON_CreateBool b) = b;
  isnumber_create d : cJSON_IsNumber (cJSON_CreateNumber d) = true;
  valuedouble_create d : cJSON_valuedouble (cJSON_CreateNumber d) = d
}.

(** ** Accessors on a possibly NULL item *)
Section access.
Context `{CJson}.

Definition get_item (o : option json) (k : string) : option json :=
  match o with Some j => cJSON_member j k | None => None end.
Definition get_item_ci (o : option json) (k : string) : option json :=
  match o with Some j => cJSON_member_ci j k | None => None end.
Definition for_each_child (o : option json) : list json :=
  match o with Some j => cJSON_children j | None => [] end.
Definition array_size (o : option json) : Z := Z.of_nat (length (for_each_child o)).
Definition array_item (o : option json) (i : nat) : option json := for_each_child o !! i.
Definition string_value (o : option json) : option string :=
  match o with Some j => cJSON_valuestring j | None => None end.
Definition number_value (o : option json) : double :=
  match o with
  | Some j => if cJSON_IsNumber j then cJSON_valuedouble j else dbl_nan
  | None => dbl_nan
  end.
Definition is_bool (o : option json) : bool :=
  match o with Some j => cJSON_IsBool j | None => false end.
Definition is_true (o : option json) : bool :=
  match o with Some j => cJSON_IsTrue j | None => false end.
Definition is_number (o : option json) : bool :=
  match o with Some j => cJSON_IsNumber j | None => false end.
Definition is_string (o : option json) : bool :=
  match o with Some j => cJSON_IsString j | None => false end.
Definition is_array (o : option json) : bool :=
  match o with Some j => cJSON_IsArray j | None => false end.
Definition is_object (o : option json) : bool :=
  match o with Some j => cJSON_IsObject j | None => false end.
(** [if (ptr)] *)
Definition non_null {A} (o : option A) : bool :=
  match o with Some _ => true | None => false end.

Lemma string_value_is_string `{!CJsonLaws} o :
  is_string o = true → is_Some (string_value o).
Proof. destruct o; [apply valuestring_string|done]. Qed.
End access.

(** ** A concrete document *)
Inductive jtree :=
  | JNull
  | JBool (b : bool)
  | JNum (d : double)
  | JStr (s : string)
  | JRaw (s : string)
  | JArr (l : list jtree)
  | JObj (l : list (string * jtree)).

Fixpoint jfind (eq : string → string → bool) (l : list (string * jtree)) (k : string)
  : option jtree :=
  match l with
  | [] => None
  | (k', v) :: l => if eq k' k then Some v else jfind eq l k
  end.

Definition lower_ascii (c : Ascii.ascii) : Ascii.ascii :=
  let n := Ascii.N_of_ascii c in
  if ((65 <=? n) && (n <=? 90))%N then Ascii.ascii_of_N (n + 32) else c.
Fixpoint lower (s : string) : string :=
  match s with
  | EmptyString => EmptyString
  | String c r => String (lower_ascii c) (lower r)
  end.

(** A whole number, as a JSON item of [jtree]. *)
Definition jint (z : Z) : jtree := JNum (dbl_of_Z z).

(** A reader for the plain part of JSON: no escapes in strings, whole numbers.
    It stands in for [cJSON_Parse] in the evaluated examples; a double quote is
    the character 34. *)
Section reader.
Definition is_char (n : N) (c : ascii) : bool := (N_of_ascii c =? n)%N.
Fixpoint read_text (s : string) : option (string * string) :=
  match s with
  | EmptyString => None
  | String c r =>
      if is_char 34 c then Some (EmptyString, r)
      else match read_text r with Some (t, r) => Some (String c t, r) | None => None end
  end.
Fixpoint skip_digits (s : string) : string :=
  match s with
  | String c r => match digit_val c with Some _ => skip_digits r | None => s end
  | _ => s
  end.
Definition strip (lit s : string) : option string :=
  if String.prefix lit s then Some (String.substring (String.length lit) (String.length s) s)
  else None.

Fixpoint read_value (fuel : nat) (s : string) : option (jtree * string) :=
  match fuel with
  | O => None
  | S fuel =>
      match skip_space s with
      | EmptyString => None
      | String c r as s =>
          if is_char 34 c then
            match read_text r with Some (t, r) => Some (JStr t, r) | None => None end
          else if is_char 91 c then
            match read_items fuel r with Some (l, r) => Some (JArr l, r) | None => None end
          else if is_char 123 c then
            match read_members fuel r with Some (l, r) => Some (JObj l, r) | None => None end
          else
            match digits s, strip "true" s, strip "false" s, strip "null" s with
            | Some n, _, _, _ => Some (jint n, skip_digits s)
            | _, Some r, _, _ => Some (JBool true, r)
            | _, _, Some r, _ => Some (JBool false, r)
            | _, _, _, Some r => Some (JNull, r)
            | _, _, _, _ => None
            end
      end
  end
with read_items (fuel : nat) (s : string) : option (list jtree * string) :=
  match fuel with
  | O => None
  | S fuel =>
      match skip_space s with
      | String c r as s =>
          if is_char 93 c then Some ([], r)
          else if is_char 44 c then read_items fuel r
          else match read_value fuel s with
               | Some (v, r) =>
                   match read_items fuel r with Some (l, r) => Some (v :: l, r) | None => None end
               | None => None
               end
      | EmptyString => None
      end
  end
with read_members (fuel : nat) (s : string) : option (list (string * jtree) * string) :=
  match fuel with
  | O => None
  | S fuel =>
      match skip_space s with
      | String c r =>
          if is_char 125 c then Some ([], r)
          else if is_char 44 c then read_members fuel r
          else if is_char 34 c then
            match read_text r with
            | Some (k, r) =>
                match skip_space r with
                | String c r =>
                    if is_char 58 c then
                      match read_value fuel r with
                      | Some (v, r) =>
                          match read_members fuel r with
                          | Some (l, r) => Some ((k, v) :: l, r)
                          | None => None
                          end
                      | None => None
                      end
                    else None
                | EmptyString => None
                end
            | None => None
            end
          else None
      | EmptyString => None
      end
  end.

Definition jread (s : string) : option jtree :=
  match read_value (S (2 * String.length s)) s with Some (v, _) => Some v | None => None end.
End reader.

(** The writer that goes with it, for whole numbers. *)
Definition dquote : string := String (Ascii.ascii_of_nat 34) EmptyString.
Definition jquoted (s : string) : string := dquote +:+ s +:+ dquote.
Fixpoint jprint (j : jtree) : string :=
  match j with
  | JNull => "null"
  | JBool b => if b then "true" else "false"
  | JNum d => match dbl_trunc d with Some z => dec_signed z | None => "null" end
  | JStr s => jquoted s
  | JRaw s => s
  | JArr l => "[" +:+ String.concat "," (map jprint l) +:+ "]"
  | JObj l => "{" +:+ String.concat "," (map (λ kv, jquoted kv.1 +:+ ":" +:+ jprint kv.2) l) +:+ "}"
  end.

Definition jtree_cjson : CJson := {|
  json := jtree;
  cJSON_IsObject j := match j with JObj _ => true | _ => false end;
  cJSON_IsArray j := match j with JArr _ => true | _ => false end;
  cJSON_IsString j := match j with JStr _ => true | _ => false end;
  cJSON_IsNumber j := match j with JNum _ => true | _ => false end;
  cJSON_IsTrue j := match j with JBool true => true | _ => false end;
  cJSON_IsBool j := match j with JBool _ => true | _ => false end;
  cJSON_children j :=
    match j with JArr l => l | JObj l => map snd l | _ => [] end;
  cJSON_member j k := match j with JObj l => jfind String.eqb l k | _ => None end;
  cJSON_member_ci j k :=
    match j with
    | JObj l => jfind (λ a b, String.eqb (lower a) (lower b)) l k
    | _ => None
    end;
  cJSON_valuestring j := match j with JStr s => Some s | _ => None end;
  cJSON_valuedouble j := match j with JNum d => d | _ => dbl_zero end;
  cJSON_Parse := jread;
  cJSON_PrintUnformatted := jprint;
  cJSON_PrintPreallocated j n := slen (jprint j) <? n;
  cJSON_CreateObject := JObj [];
  cJSON_CreateArray := JArr [];
  cJSON_CreateString := JStr;
  cJSON_CreateNumber := JNum;
  cJSON_CreateRaw := JRaw;
  cJSON_CreateBool := JBool;
  cJSON_AddToObject o k v := match o with JObj l => JObj (l ++ [(k, v)])%list | _ => o end;
  cJSON_AddToArray a v := match a with JArr l => JArr (l ++ [v])%list | _ => a end
|}.

Lemma jfind_app l k v k' :
  jfind String.eqb (l ++ [(k, v)])%list k' =
  match jfind String.eqb l k' with
  | Some w => Some w
  | None => if String.eqb k k' then Some v else None
  end.
Proof.
  induction l as [|[k'' w] l IH]; simpl; [done|]. by destruct (String.eqb k'' k').
Qed.

Lemma jtree_laws : @CJsonLaws jtree_cjson.
Proof.
  constructor; simpl; try done.
  - intros []; naive_solver.
  - by intros [].
  - intros [] k v k'; try done. intros _. apply jfind_app.
  - by intros [].
  - by intros [].
  - by intros [].
Qed.
