(* ===== verification/PlatTypes.v ===== *)
(** * The platform interface's configuration data ([include/ucentral-platform.h])

    One record per C struct, field by field.  A bounded array that the code
    indexes ([ports], [vlans], [portsl2], [stp_instances]) is a map from index
    to element whose missing entries are the zeroed element calloc leaves; the
    accesses check the index against the declared size ([arr_read],
    [arr_write]).  Linked lists are lists, head first.  A char array holds the
    text up to its NUL.  [zero_*] is the all-zero struct; a field assignment is
    written [r <| field := v |>] ([Prelude.set]). *)

From S2P Require Import Prelude CNum CStr Bitmap Router.

Definition MAX_VLANS : Z := 4096.
Definition FIRST_VLAN : Z := 1.
Definition MAX_NUM_OF_PORTS : Z := 100.
Definition PORT_MAX_NAME_LEN : Z := 32.
Definition RTTY_CFG_FIELD_STR_MAX_LEN : Z := 64.
Definition SYSLOG_CFG_FIELD_STR_MAX_LEN : Z := 64.
Definition RADIUS_CFG_HOSTNAME_STR_MAX_LEN : Z := 64.
Definition RADIUS_CFG_PASSKEY_STR_MAX_LEN : Z := 64.
Definition RADIUS_CFG_DEFAULT_PORT : Z := 1812.
Definition RADIUS_CFG_DEFAULT_PRIO : Z := 1.
Definition METRICS_WIRED_CLIENTS_MAX_NUM : Z := 2000.

(** ** Checked array accesses *)
Definition arr_get {A} (zero : A) (a : gmap Z A) (i : Z) : A := default zero (a !! i).

Definition arr_read {S A} (n : Z) (zero : A) (a : gmap Z A) (i : Z) : M S A :=
  if (0 <=? i) && (i <? n) then ret (arr_get zero a i) else faulty OutOfBounds.
Definition arr_write {S A} (n : Z) (a : gmap Z A) (i : Z) (x : A) : M S (gmap Z A) :=
  if (0 <=? i) && (i <? n) then ret (<[i := x]> a) else faulty OutOfBounds.

Lemma arr_get_insert {A} (zero : A) a i j x :
  arr_get zero (<[i := x]> a) j = if decide (i = j) then x else arr_get zero a j.
Proof. unfold arr_get. rewrite lookup_insert. by case_decide. Qed.

Lemma arr_get_empty {A} (zero : A) i : arr_get zero ∅ i = zero.
Proof. unfold arr_get. by rewrite lookup_empty. Qed.

Lemma wp_arr_read {S A} n (zero : A) a i (Q : A → S → Prop) E F s :
  (0 ≤ i < n → Q (arr_get zero a i) s) → (¬ 0 ≤ i < n → F OutOfBounds) →
  wp (arr_read n zero a i) Q E F s.
Proof.
  intros H1 H2. unfold arr_read.
  destruct (Z.leb_spec 0 i), (Z.ltb_spec i n); simpl; [by apply H1|apply H2; lia..].
Qed.

Lemma wp_arr_write {S A} n (a : gmap Z A) i x (Q : gmap Z A → S → Prop) E F s :
  (0 ≤ i < n → Q (<[i := x]> a) s) → (¬ 0 ≤ i < n → F OutOfBounds) →
  wp (arr_write n a i x) Q E F s.
Proof.
  intros H1 H2. unfold arr_write.
  destruct (Z.leb_spec 0 i), (Z.ltb_spec i n); simpl; [by apply H1|apply H2; lia..].
Qed.

(** ** Enumerations *)
Inductive port_control_mode := FORCE_AUTHORIZED | FORCE_UNAUTHORIZED | CONTROL_AUTO.
Inductive port_host_mode := MULTI_AUTH | MULTI_DOMAIN | MULTI_HOST | SINGLE_HOST.
Inductive das_auth_type := DAS_ANY | DAS_ALL | DAS_SESSION_KEY.
Inductive igmp_ver := IGMP_1 | IGMP_2 | IGMP_3.

(** Port speeds, in the order of the enum. *)
Definition SPEED_10_E : Z := 0.
Definition SPEED_100_E : Z := 1.
Definition SPEED_1000_E : Z := 2.
Definition SPEED_2500_E : Z := 3.
Definition SPEED_5000_E : Z := 4.
Definition SPEED_10000_E : Z := 5.
Definition SPEED_25000_E : Z := 6.
Definition SPEED_40000_E : Z := 7.
Definition SPEED_100000_E : Z := 8.

Definition DUPLEX_HALF_E : Z := 0.
Definition DUPLEX_FULL_E : Z := 1.
Definition PORT_DISABLED_E : Z := 0.
Definition PORT_ENABLED_E : Z := 1.
Definition TAG_UNTAGGED_E : Z := 0.
Definition TAG_TAGGED_E : Z := 1.

Definition STP_MODE_NONE : Z := 0.
Definition STP_MODE_STP : Z := 1.
Definition STP_MODE_RST : Z := 2.
Definition STP_MODE_MST : Z := 3.
Definition STP_MODE_PVST : Z := 4.
Definition STP_MODE_RPVST : Z := 5.

(** ** Structs *)
(** The [poe] member of [plat_port]. *)
Record port_poe_cfg := mk_port_poe_cfg {
  poe_is_admin_mode_up : bool;
  poe_do_reset : bool;
  poe_detection_mode : string;
  poe_is_detection_mode_set : bool;
  poe_power_limit : Z;
  poe_is_power_limit_set : bool;
  poe_priority : string;
  poe_is_priority_set : bool }.
Definition zero_port_poe_cfg : port_poe_cfg :=
  mk_port_poe_cfg false false EmptyString false 0 false EmptyString false.
#[export] Instance eta_port_poe_cfg : Eta port_poe_cfg :=
  λ r, mk_port_poe_cfg (poe_is_admin_mode_up r) (poe_do_reset r) (poe_detection_mode r)
    (poe_is_detection_mode_set r) (poe_power_limit r) (poe_is_power_limit_set r) (poe_priority r)
    (poe_is_priority_set r).

(** The [ieee8021x] member of [plat_port]. *)
Record port_ieee8021x_cfg := mk_port_ieee8021x_cfg {
  x_auth_fail_vid : Z;
  x_guest_vid : Z;
  x_control_mode : port_control_mode;
  x_host_mode : port_host_mode;
  x_is_authenticator : bool }.
Definition zero_port_ieee8021x_cfg : port_ieee8021x_cfg :=
  mk_port_ieee8021x_cfg 0 0 FORCE_AUTHORIZED MULTI_AUTH false.
#[export] Instance eta_port_ieee8021x_cfg : Eta port_ieee8021x_cfg :=
  λ r, mk_port_ieee8021x_cfg (x_auth_fail_vid r) (x_guest_vid r) (x_control_mode r) (x_host_mode
    r) (x_is_authenticator r).

Record plat_port := mk_plat_port {
  port_name : string;
  port_speed : Z;
  port_fp_id : Z;
  port_duplex : Z;
  port_state : Z;
  port_reset : Z;
  port_poe : port_poe_cfg;
  port_ieee8021x : port_ieee8021x_cfg }.
Definition zero_plat_port : plat_port :=
  mk_plat_port EmptyString 0 0 0 0 0 zero_port_poe_cfg zero_port_ieee8021x_cfg.
#[export] Instance eta_plat_port : Eta plat_port :=
  λ r, mk_plat_port (port_name r) (port_speed r) (port_fp_id r) (port_duplex r) (port_state r)
    (port_reset r) (port_poe r) (port_ieee8021x r).

Record plat_ipv4 := mk_plat_ipv4 {
  ip4_subnet : Z;
  ip4_subnet_len : Z;
  ip4_exist : bool }.
Definition zero_plat_ipv4 : plat_ipv4 :=
  mk_plat_ipv4 0 0 false.
#[export] Instance eta_plat_ipv4 : Eta plat_ipv4 :=
  λ r, mk_plat_ipv4 (ip4_subnet r) (ip4_subnet_len r) (ip4_exist r).

(** The [relay] member of [plat_dhcp]. *)
Record plat_dhcp := mk_plat_dhcp {
  relay_server_address : Z;
  relay_circ_id : string;
  relay_enabled : bool }.
Definition zero_plat_dhcp : plat_dhcp :=
  mk_plat_dhcp 0 EmptyString false.
#[export] Instance eta_plat_dhcp : Eta plat_dhcp :=
  λ r, mk_plat_dhcp (relay_server_address r) (relay_circ_id r) (relay_enabled r).

(** An element of the [groups] array of [plat_igmp]. *)
Record igmp_group := mk_igmp_group {
  grp_addr : Z;
  grp_egress_ports : list string }.
Definition zero_igmp_group : igmp_group :=
  mk_igmp_group 0 [].
#[export] Instance eta_igmp_group : Eta igmp_group :=
  λ r, mk_igmp_group (grp_addr r) (grp_egress_ports r).

Record plat_igmp := mk_plat_igmp {
  igmp_exist : bool;
  igmp_snooping_enabled : bool;
  igmp_querier_enabled : bool;
  igmp_fast_leave_enabled : bool;
  igmp_query_interval : Z;
  igmp_last_member_query_interval : Z;
  igmp_max_response_time : Z;
  igmp_version : igmp_ver;
  igmp_num_groups : Z;
  igmp_groups : list igmp_group }.
Definition zero_plat_igmp : plat_igmp :=
  mk_plat_igmp false false false false 0 0 0 IGMP_1 0 [].
#[export] Instance eta_plat_igmp : Eta plat_igmp :=
  λ r, mk_plat_igmp (igmp_exist r) (igmp_snooping_enabled r) (igmp_querier_enabled r)
    (igmp_fast_leave_enabled r) (igmp_query_interval r) (igmp_last_member_query_interval r)
    (igmp_max_response_time r) (igmp_version r) (igmp_num_groups r) (igmp_groups r).

(** [plat_vlan_memberlist] without its link. *)
Record vlan_member := mk_vlan_member {
  mem_name : string;
  mem_fp_id : Z;
  mem_tagged : bool }.
Definition zero_vlan_member : vlan_member :=
  mk_vlan_member EmptyString 0 false.
#[export] Instance eta_vlan_member : Eta vlan_member :=
  λ r, mk_vlan_member (mem_name r) (mem_fp_id r) (mem_tagged r).

Record plat_port_vlan := mk_plat_port_vlan {
  vlan_members : list vlan_member;
  vlan_ipv4 : plat_ipv4;
  vlan_dhcp : plat_dhcp;
  vlan_igmp : plat_igmp;
  vlan_id : Z;
  vlan_mstp_instance : Z }.
Definition zero_plat_port_vlan : plat_port_vlan :=
  mk_plat_port_vlan [] zero_plat_ipv4 zero_plat_dhcp zero_plat_igmp 0 0.
#[export] Instance eta_plat_port_vlan : Eta plat_port_vlan :=
  λ r, mk_plat_port_vlan (vlan_members r) (vlan_ipv4 r) (vlan_dhcp r) (vlan_igmp r) (vlan_id r)
    (vlan_mstp_instance r).

Record plat_syslog_cfg := mk_plat_syslog_cfg {
  log_port : Z;
  log_size : Z;
  log_priority : Z;
  log_is_tcp : Z;
  log_host : string }.
Definition zero_plat_syslog_cfg : plat_syslog_cfg :=
  mk_plat_syslog_cfg 0 0 0 0 EmptyString.
#[export] Instance eta_plat_syslog_cfg : Eta plat_syslog_cfg :=
  λ r, mk_plat_syslog_cfg (log_port r) (log_size r) (log_priority r) (log_is_tcp r) (log_host r).

Record plat_enabled_service_cfg := mk_plat_enabled_service_cfg {
  svc_ssh : bool;
  svc_telnet : bool;
  svc_http : bool }.
Definition zero_plat_enabled_service_cfg : plat_enabled_service_cfg :=
  mk_plat_enabled_service_cfg false false false.
#[export] Instance eta_plat_enabled_service_cfg : Eta plat_enabled_service_cfg :=
  λ r, mk_plat_enabled_service_cfg (svc_ssh r) (svc_telnet r) (svc_http r).

Record plat_rtty_cfg := mk_plat_rtty_cfg {
  rtty_id : string;
  rtty_passwd : string;
  rtty_serial : string;
  rtty_server : string;
  rtty_token : string;
  rtty_user : string;
  rtty_port : Z;
  rtty_timeout : Z }.
Definition zero_plat_rtty_cfg : plat_rtty_cfg :=
  mk_plat_rtty_cfg EmptyString EmptyString EmptyString EmptyString EmptyString EmptyString 0 0.
#[export] Instance eta_plat_rtty_cfg : Eta plat_rtty_cfg :=
  λ r, mk_plat_rtty_cfg (rtty_id r) (rtty_passwd r) (rtty_serial r) (rtty_server r) (rtty_token
    r) (rtty_user r) (rtty_port r) (rtty_timeout r).

Record plat_platform_info := mk_plat_platform_info {
  pinfo_platform : string;
  pinfo_hwsku : string;
  pinfo_mac : string }.
Definition zero_plat_platform_info : plat_platform_info :=
  mk_plat_platform_info EmptyString EmptyString EmptyString.
#[export] Instance eta_plat_platform_info : Eta plat_platform_info :=
  λ r, mk_plat_platform_info (pinfo_platform r) (pinfo_hwsku r) (pinfo_mac r).

(** The [telemetry] and [healthcheck] members of [plat_metrics_cfg]. *)
Record metrics_poll := mk_metrics_poll {
  poll_enabled : bool;
  poll_interval : Z }.
Definition zero_metrics_poll : metrics_poll :=
  mk_metrics_poll false 0.
#[export] Instance eta_metrics_poll : Eta metrics_poll :=
  λ r, mk_metrics_poll (poll_enabled r) (poll_interval r).

(** The [state] member of [plat_metrics_cfg]. *)
Record metrics_state := mk_metrics_state {
  mst_enabled : bool;
  mst_lldp_enabled : bool;
  mst_clients_enabled : bool;
  mst_interval : Z;
  mst_max_mac_count : Z;
  mst_public_ip_lookup : string }.
Definition zero_metrics_state : metrics_state :=
  mk_metrics_state false false false 0 0 EmptyString.
#[export] Instance eta_metrics_state : Eta metrics_state :=
  λ r, mk_metrics_state (mst_enabled r) (mst_lldp_enabled r) (mst_clients_enabled r)
    (mst_interval r) (mst_max_mac_count r) (mst_public_ip_lookup r).

Record plat_metrics_cfg := mk_plat_metrics_cfg {
  met_telemetry : metrics_poll;
  met_healthcheck : metrics_poll;
  met_state : metrics_state }.
Definition zero_plat_metrics_cfg : plat_metrics_cfg :=
  mk_plat_metrics_cfg zero_metrics_poll zero_metrics_poll zero_metrics_state.
#[export] Instance eta_plat_metrics_cfg : Eta plat_metrics_cfg :=
  λ r, mk_plat_metrics_cfg (met_telemetry r) (met_healthcheck r) (met_state r).

(** [plat_unit] with its [poe] and [system] members. *)
Record plat_unit := mk_plat_unit {
  unit_power_mgmt : string;
  unit_is_power_mgmt_set : bool;
  unit_usage_threshold : Z;
  unit_is_usage_threshold_set : bool;
  unit_password : string;
  unit_password_changed : bool;
  unit_mc_flood_control : bool;
  unit_querier_enable : bool }.
Definition zero_plat_unit : plat_unit :=
  mk_plat_unit EmptyString false 0 false EmptyString false false false.
#[export] Instance eta_plat_unit : Eta plat_unit :=
  λ r, mk_plat_unit (unit_power_mgmt r) (unit_is_power_mgmt_set r) (unit_usage_threshold r)
    (unit_is_usage_threshold_set r) (unit_password r) (unit_password_changed r)
    (unit_mc_flood_control r) (unit_querier_enable r).

Record plat_stp_instance_cfg := mk_plat_stp_instance_cfg {
  stp_enabled : bool;
  stp_forward_delay : Z;
  stp_hello_time : Z;
  stp_max_age : Z;
  stp_priority : Z }.
Definition zero_plat_stp_instance_cfg : plat_stp_instance_cfg :=
  mk_plat_stp_instance_cfg false 0 0 0 0.
#[export] Instance eta_plat_stp_instance_cfg : Eta plat_stp_instance_cfg :=
  λ r, mk_plat_stp_instance_cfg (stp_enabled r) (stp_forward_delay r) (stp_hello_time r)
    (stp_max_age r) (stp_priority r).

Record plat_radius_host := mk_plat_radius_host {
  rad_hostname : string;
  rad_passkey : string;
  rad_auth_port : Z;
  rad_priority : Z }.
Definition zero_plat_radius_host : plat_radius_host :=
  mk_plat_radius_host EmptyString EmptyString 0 0.
#[export] Instance eta_plat_radius_host : Eta plat_radius_host :=
  λ r, mk_plat_radius_host (rad_hostname r) (rad_passkey r) (rad_auth_port r) (rad_priority r).

(** [plat_port_isolation_session], with the two port lists. *)
Record port_isolation_session := mk_port_isolation_session {
  iso_id : Z;
  iso_uplink : list string;
  iso_downlink : list string }.
Definition zero_port_isolation_session : port_isolation_session :=
  mk_port_isolation_session 0 [] [].
#[export] Instance eta_port_isolation_session : Eta port_isolation_session :=
  λ r, mk_port_isolation_session (iso_id r) (iso_uplink r) (iso_downlink r).

Record plat_port_isolation_cfg := mk_plat_port_isolation_cfg {
  isoc_sessions : list port_isolation_session;
  isoc_sessions_num : Z }.
Definition zero_plat_port_isolation_cfg : plat_port_isolation_cfg :=
  mk_plat_port_isolation_cfg [] 0.
#[export] Instance eta_plat_port_isolation_cfg : Eta plat_port_isolation_cfg :=
  λ r, mk_plat_port_isolation_cfg (isoc_sessions r) (isoc_sessions_num r).

(** The [ieee8021x] member of [plat_cfg]. *)
Record global_ieee8021x_cfg := mk_global_ieee8021x_cfg {
  cfgx_is_auth_ctrl_enabled : bool;
  cfgx_bounce_port_ignore : bool;
  cfgx_disable_port_ignore : bool;
  cfgx_ignore_server_key : bool;
  cfgx_ignore_session_key : bool;
  cfgx_server_key : string;
  cfgx_das_auth_type : das_auth_type;
  cfgx_das_dac_list : list (string * string) }.
Definition zero_global_ieee8021x_cfg : global_ieee8021x_cfg :=
  mk_global_ieee8021x_cfg false false false false false EmptyString DAS_ANY [].
#[export] Instance eta_global_ieee8021x_cfg : Eta global_ieee8021x_cfg :=
  λ r, mk_global_ieee8021x_cfg (cfgx_is_auth_ctrl_enabled r) (cfgx_bounce_port_ignore r)
    (cfgx_disable_port_ignore r) (cfgx_ignore_server_key r) (cfgx_ignore_session_key r)
    (cfgx_server_key r) (cfgx_das_auth_type r) (cfgx_das_dac_list r).

Record plat_cfg := mk_plat_cfg {
  cfg_unit : plat_unit;
  cfg_ports : gmap Z plat_port;
  cfg_ports_to_cfg : bitmap;
  cfg_vlans : gmap Z plat_port_vlan;
  cfg_vlans_to_cfg : bitmap;
  cfg_metrics : plat_metrics_cfg;
  cfg_log_cfg : option plat_syslog_cfg;
  cfg_enabled_services_cfg : plat_enabled_service_cfg;
  cfg_portsl2 : gmap Z plat_ipv4;
  cfg_router : router;
  cfg_log_cfg_cnt : Z;
  cfg_stp_mode : Z;
  cfg_stp_instances : gmap Z plat_stp_instance_cfg;
  cfg_radius_hosts_list : list plat_radius_host;
  cfg_ieee8021x : global_ieee8021x_cfg;
  cfg_port_isolation_cfg : plat_port_isolation_cfg }.
Definition zero_plat_cfg : plat_cfg :=
  mk_plat_cfg zero_plat_unit ∅ (BITMAP_CLEAR MAX_NUM_OF_PORTS) ∅ (BITMAP_CLEAR MAX_VLANS)
    zero_plat_metrics_cfg None zero_plat_enabled_service_cfg ∅ ucentral_router_fib_db_free 0 0 ∅
    [] zero_global_ieee8021x_cfg zero_plat_port_isolation_cfg.
#[export] Instance eta_plat_cfg : Eta plat_cfg :=
  λ r, mk_plat_cfg (cfg_unit r) (cfg_ports r) (cfg_ports_to_cfg r) (cfg_vlans r)
    (cfg_vlans_to_cfg r) (cfg_metrics r) (cfg_log_cfg r) (cfg_enabled_services_cfg r)
    (cfg_portsl2 r) (cfg_router r) (cfg_log_cfg_cnt r) (cfg_stp_mode r) (cfg_stp_instances r)
    (cfg_radius_hosts_list r) (cfg_ieee8021x r) (cfg_port_isolation_cfg r).
