(* ===== verification/World.v ===== *)
(** * The state of the protocol layer and the platform interface

    [proto.c] reads and writes a handful of file-scope variables, calls the
    platform through the [plat_*] functions of [include/ucentral-platform.h],
    and hands messages to the callback registered by [ucentral-client.c].
    [world] is that state; [w_out] is the trace of everything the layer did
    outwards, oldest first: messages sent, log lines reported, platform calls.

    The platform is an interface ([Platform]): its own state [pst] and, for
    each function, the value returned and the state left behind.  Two
    implementations are in the repository; the class is what the protocol
    layer may rely on of either.  [CLibc] is the part of libc that is not
    modelled: address parsing.

    [w_heap] gives the outcome of the allocations to come ([malloc], [calloc],
    the cJSON constructors): the next one fails when the head is [false]; past
    the end of the list they succeed.  [w_http] gives in the same way the
    outcome of the HTTP requests to come: an error, or the pieces of the body
    libcurl hands to the write callback; [w_io] the outcome of the calls that
    open or write a file. *)

From S2P Require Import Prelude CNum CStr Bitmap Router Json PlatTypes.

(** Calls that hand work to the platform. *)
Inductive plat_call :=
  | CConfigApply (cfg : plat_cfg) (id : Z)
  | CConfigRestore
  | CConfigSave (id : Z)
  | CMetricsSave (m : plat_metrics_cfg)
  | CConfigDestroy
  | CReboot
  | CFactoryDefault
  | CRtty (c : plat_rtty_cfg)
  | CUpgrade (uri : string) (signature : option string)
  | CRunScript (type : Z) (script : option string) (timeout ctx_id : Z) (ctx_uri : option string)
  | CLogFlush
  | CStatePoll (sec : Z) | CStatePollStop
  | CHealthPoll (sec : Z) | CHealthPollStop
  | CTelemetryPoll (sec : Z) | CTelemetryPollStop
  | CUpgradePoll (sec : Z) | CUpgradePollStop
  | CEventSubscribe | CEventUnsubscribe.

Class Platform := {
  pst : Type;
  (* the functions that return an int (void ones: the value is not used) *)
  plat_do : plat_call → pst → Z * pst;
  (* the thread of the script just started has called back already *)
  plat_script_done : pst → bool;
  plat_port_num_get : pst → Z * Z * pst;
  plat_port_list_get : Z → pst → Z * list string * pst;
  plat_log_pop_concatenate : pst → option string * pst;
  plat_saved_config_id_get : pst → Z * Z * pst;
  plat_info_get : pst → Z * plat_platform_info * pst;
  plat_metrics_restore : pst → Z * plat_metrics_cfg * pst;
  plat_reboot_cause_get : pst → Z * (Z * Z * string) * pst
}.

(** [inet_net_pton] and [inet_pton] for AF_INET: the return value and the
    address stored; [inet_ntop]: the text of an address. *)
Class CLibc := {
  inet_net_pton : string → Z * Z;
  inet_pton : string → Z * Z;
  inet_ntop : Z → string
}.

Inductive event `{CJson} :=
  | EvSend (msg : json)               (* through send_msg_cb *)
  | EvSendConnect (msg : json)        (* through send_connect_msg_cb *)
  | EvLog (severity : Z) (fmt : string)
  | EvCall (c : plat_call) (ret : Z)
  | EvUpload (url data : string)      (* an HTTP form posted with libcurl *)
  | EvFileWrite (path data : string)
  | EvAlarm (sec : Z).                (* alarm(2) *)

(** The fields of [struct client_config] the layer reads. *)
Record client_id := mk_client_id {
  cl_serial : string;
  cl_firmware : string;
  cl_ols_client_version_file : string;
  cl_ols_schema_version_file : string
}.

Record world `{CJson, Platform} := mk_world {
  w_heap : list bool;
  w_http : list (option (list string));
  w_io : list bool;
  w_disk : list nat;
  w_files : gmap string string;
  w_now : Z;                      (* what time(NULL) returns *)
  w_port_list : list string;      (* __port_list; [] is NULL *)
  w_port_list_num : Z;            (* __port_list_num *)
  w_plat : pst;
  w_out : list event;
  w_client : client_id;
  w_cfg : plat_cfg;               (* *plat_cfg, while a configure is handled *)
  w_password : option string;
  w_uuid_active : Z;
  w_uuid_latest : Z;
  w_state_compress : bool;
  w_metrics : plat_metrics_cfg;   (* ucentral_metrics *)
  w_last_operation : Z            (* static of upgrade_status_send *)
}.

#[export] Instance eta_world `{CJson, Platform} : Eta world := λ r,
  mk_world _ _ (w_heap r) (w_http r) (w_io r) (w_disk r) (w_files r) (w_now r) (w_port_list r) (w_port_list_num r) (w_plat r) (w_out r)
    (w_client r) (w_cfg r) (w_password r) (w_uuid_active r) (w_uuid_latest r)
    (w_state_compress r) (w_metrics r) (w_last_operation r).

Section world_ops.
Context `{J : CJson, P : Platform}.

(** One allocation. *)
Definition alloc : M world bool := λ w,
  match w_heap w with
  | [] => Ok true w
  | b :: h => Ok b (w <| w_heap := h |>)
  end.

(** [p = calloc(...); if (!p) return -1;] *)
Definition alloc_or_fail : M world unit := b ← alloc; fail_if (negb b).

Definition emit (e : event) : M world unit :=
  modify (λ w, w <| w_out := (w_out w ++ [e])%list |>).

(** The next HTTP request; past the end of the list they fail. *)
Definition http : M world (option (list string)) := λ w,
  match w_http w with
  | [] => Ok None w
  | r :: h => Ok r (w <| w_http := h |>)
  end.

(** The next [fopen] for writing or [fwrite]. *)
Definition io : M world bool := λ w,
  match w_io w with
  | [] => Ok true w
  | b :: h => Ok b (w <| w_io := h |>)
  end.

(** What a file holds once it was written and closed: how many bytes of the
    text, all of them past the end of the list.  [fclose] writes out what
    [fwrite] has buffered. *)
Definition disk (data : string) : M world string := λ w,
  match w_disk w with
  | [] => Ok data w
  | n :: d => Ok (stake n data) (w <| w_disk := d |>)
  end.

(** [UC_LOG_ERR]: severity 3, the threshold main() registers; the less severe
    UC_LOG_INFO and UC_LOG_DBG stay in syslog.  The text is the format string
    without its final newline. *)
Definition UC_LOG_ERR (fmt : string) : M world unit := emit (EvLog 3 fmt).

(** [UC_LOG_ERR(...); return -1;] *)
Definition err {A} (fmt : string) : M world A := _ ← UC_LOG_ERR fmt; fail.
Definition err_if (b : bool) (fmt : string) : M world unit :=
  if b then err fmt else ret tt.

(** [p = calloc(...); if (!p) { UC_LOG_ERR(text); return -1; }] *)
Definition alloc_or_err (fmt : string) : M world unit := b ← alloc; err_if (negb b) fmt.

(** A platform function that returns an int. *)
Definition plat (c : plat_call) : M world Z := λ w,
  let '(r, p) := plat_do c (w_plat w) in
  Ok r (w <| w_plat := p |> <| w_out := (w_out w ++ [EvCall c r])%list |>).

Definition plat_ (c : plat_call) : M world unit := _ ← plat c; ret tt.

(** A platform function that only reads. *)
Definition plat_read {A} (f : pst → A * pst) : M world A := λ w,
  let '(a, p) := f (w_plat w) in Ok a (w <| w_plat := p |>).

Definition get_cfg : M world plat_cfg := gets w_cfg.
Definition upd_cfg (f : plat_cfg → plat_cfg) : M world unit :=
  modify (λ w, w <| w_cfg := f (w_cfg w) |>).

(** [if (f(...)) { UC_LOG_ERR(text); return -1; }] *)
Definition or_err {A} (m : M world A) (fmt : string) : M world unit :=
  ok ← attempt m; err_if (negb ok) fmt.
End world_ops.

(** ** Rules *)
Section world_rules.
Context `{J : CJson, P : Platform}.
Lemma wp_alloc (Q : bool → world → Prop) E F w :
  (∀ b, Q b (w <| w_heap := tail (w_heap w) |>)) → wp alloc Q E F w.
Proof.
  intros HQ. unfold wp, alloc. destruct (w_heap w) as [|b h] eqn:Eh; [|apply HQ].
  specialize (HQ true). destruct w; simpl in *. by subst.
Qed.

Lemma wp_http (Q : option (list string) → world → Prop) E F w :
  (∀ r h, Q r (w <| w_http := h |>)) → wp http Q E F w.
Proof.
  intros HQ. unfold wp, http. destruct (w_http w) as [|r h] eqn:Eh; [|apply HQ].
  specialize (HQ None []). destruct w; simpl in *. by subst.
Qed.

Lemma wp_io (Q : bool → world → Prop) E F w :
  (∀ b, Q b (w <| w_io := tail (w_io w) |>)) → wp io Q E F w.
Proof.
  intros HQ. unfold wp, io. destruct (w_io w) as [|b h] eqn:Eh; [|apply HQ].
  specialize (HQ true). destruct w; simpl in *. by subst.
Qed.

Definition disk_of (w : world) (data : string) : string :=
  match w_disk w with [] => data | n :: _ => stake n data end.
Lemma wp_disk data (Q : string → world → Prop) E F w :
  Q (disk_of w data) (w <| w_disk := tail (w_disk w) |>) → wp (disk data) Q E F w.
Proof.
  unfold wp, disk, disk_of. destruct (w_disk w) as [|n d] eqn:Ed; [|done]. destruct w; simpl in *. by subst.
Qed.

Lemma wp_emit e (Q : unit → world → Prop) E F w :
  Q tt (w <| w_out := (w_out w ++ [e])%list |>) → wp (emit e) Q E F w.
Proof. done. Qed.

Lemma wp_err {A} fmt (Q : A → world → Prop) E F w :
  E (w <| w_out := (w_out w ++ [EvLog 3 fmt])%list |>) → wp (err fmt) Q E F w.
Proof. done. Qed.

Lemma wp_err_if b fmt (Q : unit → world → Prop) E F w :
  (b = true → E (w <| w_out := (w_out w ++ [EvLog 3 fmt])%list |>)) →
  (b = false → Q tt w) → wp (err_if b fmt) Q E F w.
Proof. destruct b; intros H1 H2; [by apply H1|by apply H2]. Qed.

Lemma wp_alloc_or_fail (Q : unit → world → Prop) E F w :
  Q tt (w <| w_heap := tail (w_heap w) |>) → E (w <| w_heap := tail (w_heap w) |>) →
  wp alloc_or_fail Q E F w.
Proof.
  intros HQ HE. unfold alloc_or_fail. apply wp_bind, wp_alloc. intros b.
  apply wp_fail_if; intros Hb; auto.
Qed.

Lemma wp_or_err {A} (m : M world A) fmt Q E F w :
  wp m (λ _ w', Q tt w')
    (λ w', E (w' <| w_out := (w_out w' ++ [EvLog 3 fmt])%list |>)) F w →
  wp (or_err m fmt) Q E F w.
Proof. unfold or_err, wp, mbind, M_bind, attempt, err_if. by destruct (m w). Qed.

Lemma wp_alloc_or_err fmt (Q : unit → world → Prop) E F w :
  Q tt (w <| w_heap := tail (w_heap w) |>) →
  E (w <| w_heap := tail (w_heap w) |> <| w_out := (w_out w ++ [EvLog 3 fmt])%list |>) →
  wp (alloc_or_err fmt) Q E F w.
Proof.
  intros HQ HE. unfold alloc_or_err. apply wp_bind, wp_alloc. intros b.
  apply wp_err_if; intros Hb; [apply HE|apply HQ].
Qed.

Lemma wp_get_cfg (Q : plat_cfg → world → Prop) E F w :
  Q (w_cfg w) w → wp get_cfg Q E F w.
Proof. done. Qed.

Lemma wp_upd_cfg f (Q : unit → world → Prop) E F w :
  Q tt (w <| w_cfg := f (w_cfg w) |>) → wp (upd_cfg f) Q E F w.
Proof. done. Qed.

Lemma wp_plat c (Q : Z → world → Prop) E F w :
  (∀ r p, plat_do c (w_plat w) = (r, p) →
     Q r (w <| w_plat := p |> <| w_out := (w_out w ++ [EvCall c r])%list |>)) →
  wp (plat c) Q E F w.
Proof. intros H. unfold wp, plat. destruct (plat_do c (w_plat w)). by apply H. Qed.

Lemma wp_plat_read {A} (f : pst → A * pst) (Q : A → world → Prop) E F w :
  (∀ a p, f (w_plat w) = (a, p) → Q a (w <| w_plat := p |>)) → wp (plat_read f) Q E F w.
Proof. intros H. unfold wp, plat_read. destruct (f (w_plat w)). by apply H. Qed.
End world_rules.

(** [wp_step] extended with the operations of this file. *)
Ltac w_rule :=
  lazymatch goal with
  | |- wp alloc _ _ _ _ => apply wp_alloc; intros ?
  | |- wp io _ _ _ _ => apply wp_io; intros ?
  | |- wp http _ _ _ _ => apply wp_http; intros ? ?
  | |- wp alloc_or_fail _ _ _ _ => apply wp_alloc_or_fail
  | |- wp (alloc_or_err _) _ _ _ _ => apply wp_alloc_or_err
  | |- wp (emit _) _ _ _ _ => apply wp_emit
  | |- wp (UC_LOG_ERR _) _ _ _ _ => apply wp_emit
  | |- wp (err _) _ _ _ _ => apply wp_err
  | |- wp (err_if _ _) _ _ _ _ => apply wp_err_if; intros ?
  | |- wp (or_err _ _) _ _ _ _ => apply wp_or_err
  | |- wp get_cfg _ _ _ _ => apply wp_get_cfg
  | |- wp (upd_cfg _) _ _ _ _ => apply wp_upd_cfg
  | |- wp (plat _) _ _ _ _ => apply wp_plat; intros ? ? ?
  | |- wp (plat_read _) _ _ _ _ => apply wp_plat_read; intros ? ? ?
  | |- wp (c_strcpy _ _) _ _ _ _ => apply wp_strcpy; intros ?
  | |- wp (c_buf_str _ _) _ _ _ _ => apply wp_buf_str; intros ?
  | |- wp (bit_set _ _) _ _ _ _ => apply wp_bit_set; intros ?
  | |- wp (bit_test _ _) _ _ _ _ => apply wp_bit_test; intros ?
  | |- wp (arr_read _ _ _ _) _ _ _ _ => apply wp_arr_read; intros ?
  | |- wp (arr_write _ _ _ _) _ _ _ _ => apply wp_arr_write; intros ?
  end.
Ltac w_step := first [ w_rule | wp_rule | wp_case ]; cbv beta; try done.
Ltac w_steps := repeat w_step.
