(* ===== verification/Frame.v ===== *)
(** * Effects of the protocol layer

    [yields c R Φ m]: run by a client whose identity is [c], [m] leaves the
    identity alone, relates the states before and after by [R] whether it
    returns or fails, and returns a value with [Φ].  [Frame c R] lists the
    effects [R] has to allow: the ones the configuration parser and the
    message builders have.  A function is walked once, for every such [R];
    [R] is then chosen by each theorem (what may be sent, what stays
    unchanged).

    [msg_ok] is what every message must be: a JSON-RPC 2.0 request or reply
    with the serial number of the device. *)

From S2P Require Import Prelude CNum CStr Bitmap Router Json PlatTypes World.

Section messages.
Context `{J : CJson}.

Definition has_string (o : option json) (k v : string) : Prop :=
  string_value (get_item o k) = Some v.

(** A request or an event. *)
Definition request_ok (c : client_id) (method : string) (j : json) : Prop :=
  has_string (Some j) "jsonrpc" "2.0" ∧ has_string (Some j) "method" method ∧
  has_string (get_item (Some j) "params") "serial" (cl_serial c).

(** A reply to the request of that id. *)
Definition reply_ok (c : client_id) (id : double) (j : json) : Prop :=
  has_string (Some j) "jsonrpc" "2.0" ∧ number_value (get_item (Some j) "id") = id ∧
  has_string (get_item (Some j) "result") "serial" (cl_serial c).

Definition msg_ok (c : client_id) (j : json) : Prop :=
  (∃ method, request_ok c method j) ∨ (∃ id, reply_ok c id j).
End messages.

Section frame.
Context `{J : CJson, P : Platform}.

Definition yields (c : client_id) (R : relation world) {A} (Φ : A → Prop) (m : M world A) : Prop :=
  ∀ w, w_client w = c →
    wp m (λ a w', Φ a ∧ R w w' ∧ w_client w' = c) (λ w', R w w' ∧ w_client w' = c) any_fault w.

Definition add_event (e : event) (w : world) : world :=
  w <| w_out := (w_out w ++ [e])%list |>.

(** What fetching the port list changes; it is done only while the cache is
    empty. *)
Definition fetched (w w' : world) : Prop :=
  ∃ k l n p logs, w' = w <| w_heap := drop k (w_heap w) |> <| w_port_list := l |>
    <| w_port_list_num := n |> <| w_plat := p |>
    <| w_out := (w_out w ++ map (EvLog 3) logs)%list |>.

(** What the message builders and every section of the parser do to the state. *)
Class Frame (c : client_id) (R : relation world) : Prop := {
  frame_preorder :: PreOrder R;
  frame_heap w : R w (w <| w_heap := tail (w_heap w) |>);
  frame_http w h : R w (w <| w_http := h |>);
  frame_fetch w w' : w_port_list w = [] → fetched w w' → R w w';
  frame_plat w p : R w (w <| w_plat := p |>);
  frame_log w s f : R w (add_event (EvLog s f) w);
  frame_send w j : w_client w = c → msg_ok c j → R w (add_event (EvSend j) w)
}.

(** A section of the parser also writes its fields of [cfg]. *)
Class Writes (R : relation world) {T} (p : plat_cfg → T) `{!Setter p} : Prop :=
  writes w x : R w (w <| w_cfg := set p x (w_cfg w) |>).

(** The whole parser writes all of them. *)
Class CfgFrame (c : client_id) (R : relation world) : Prop := {
  cfg_frame :: Frame c R;
  frame_cfg w g : R w (w <| w_cfg := g |>)
}.

(** What the handlers do besides. *)
Class HandlerFrame (c : client_id) (R : relation world) : Prop := {
  handler_frame :: CfgFrame c R;
  hframe_io w : R w (w <| w_io := tail (w_io w) |>);
  hframe_disk w : R w (w <| w_disk := tail (w_disk w) |>);
  hframe_connect w j : w_client w = c → msg_ok c j → R w (add_event (EvSendConnect j) w);
  hframe_upload w u d : R w (add_event (EvUpload u d) w);
  hframe_file w p d : R w (add_event (EvFileWrite p d) (w <| w_files := <[p := d]> (w_files w) |>));
  hframe_alarm w n : R w (add_event (EvAlarm n) w);
  hframe_call w k r p : R w (add_event (EvCall k r) (w <| w_plat := p |>));
  hframe_password w p : R w (w <| w_password := p |>);
  hframe_active w u : R w (w <| w_uuid_active := u |>);
  hframe_latest w u : R w (w <| w_uuid_latest := u |>);
  hframe_compress w b : R w (w <| w_state_compress := b |>);
  hframe_metrics w m : R w (w <| w_metrics := m |>);
  hframe_last w n : R w (w <| w_last_operation := n |>)
}.

Section rules.
Context {c : client_id} {R : relation world} `{!PreOrder R}.

Lemma yields_mono {A} (Φ Ψ : A → Prop) m :
  yields c R Φ m → (∀ a, Φ a → Ψ a) → yields c R Ψ m.
Proof.
  intros Hm HΦ w Hw. eapply wp_mono; [by apply Hm| |done|done].
  intros a w' (?&?&?). auto.
Qed.

Lemma yields_ret {A} (Φ : A → Prop) a : Φ a → yields c R Φ (ret a).
Proof. intros Ha w Hw. by apply wp_ret. Qed.

Lemma yields_fail {A} (Φ : A → Prop) : yields c R Φ fail.
Proof. intros w Hw. by apply wp_fail. Qed.

Lemma yields_faulty {A} (Φ : A → Prop) f : yields c R Φ (faulty f).
Proof. intros w Hw. by apply wp_faulty. Qed.

Lemma yields_gets {A} (Φ : A → Prop) f :
  (∀ w, w_client w = c → Φ (f w)) → yields c R Φ (gets f).
Proof. intros Hf w Hw. apply wp_gets. split; [by apply Hf|done]. Qed.

Lemma yields_modify f :
  (∀ w, R w (f w)) → (∀ w, w_client (f w) = w_client w) →
  yields c R (λ _, True) (modify f).
Proof. intros Hf Hc w Hw. apply wp_modify. rewrite Hc. auto. Qed.

Lemma yields_bind {A B} (Φ : A → Prop) (Ψ : B → Prop) m k :
  yields c R Φ m → (∀ a, Φ a → yields c R Ψ (k a)) → yields c R Ψ (m ≫= k).
Proof.
  intros Hm Hk w Hw. apply wp_bind. eapply wp_mono; [by apply Hm| |done|done].
  intros a w1 (Ha & HR & Hw1). eapply wp_mono; [by apply Hk| | |done].
  - intros b w2 (Hb & HR2 & Hw2). split; [done|]. split; [by etransitivity|done].
  - intros w2 (HR2 & Hw2). split; [by etransitivity|done].
Qed.

Lemma yields_try {A} (Φ : A → Prop) m :
  yields c R Φ m →
  yields c R (λ o, match o with Some a => Φ a | None => True end) (try m).
Proof.
  intros Hm w Hw. apply wp_try. eapply wp_mono; [by apply Hm| | |done]; simpl; auto.
Qed.

Lemma yields_attempt {A} (Φ : A → Prop) m :
  yields c R Φ m → yields c R (λ _, True) (attempt m).
Proof.
  intros Hm w Hw. apply wp_attempt. eapply wp_mono; [by apply Hm| | |done]; simpl; auto.
  by intros a w' (_&?&?).
Qed.

Lemma yields_for_each {A} (l : list A) body :
  (∀ x, yields c R (λ _, True) (body x)) → yields c R (λ _, True) (for_each l body).
Proof.
  intros Hb w Hw. apply (wp_for_each_inv (λ w', R w w' ∧ w_client w' = c)); [done| |done].
  intros x w' _ [HR Hw']. eapply wp_mono; [by apply Hb| | |done].
  - intros _ w2 (_ & HR2 & Hw2). split; [by etransitivity|done].
  - intros w2 (HR2 & Hw2). split; [by etransitivity|done].
Qed.

Lemma yields_fold_m {A B} (Φ : B → Prop) (f : B → A → M world B) l b :
  Φ b → (∀ b x, Φ b → yields c R Φ (f b x)) → yields c R Φ (fold_m f l b).
Proof.
  intros Hb Hf w Hw.
  apply (wp_fold_m (λ _ b w', Φ b ∧ R w w' ∧ w_client w' = c)); [done| |done].
  intros _ x _ b' w' _ (Hb' & HR & Hw'). eapply wp_mono; [by apply Hf| | |done].
  - intros b2 w2 (Hb2 & HR2 & Hw2). split; [done|]. split; [by etransitivity|done].
  - intros w2 (HR2 & Hw2). split; [by etransitivity|done].
Qed.

Lemma yields_when b m : yields c R (λ _, True) m → yields c R (λ _, True) (when b m).
Proof. destruct b; [done|]. intros _. by apply yields_ret. Qed.

Lemma yields_fail_if b : yields c R (λ _, True) (fail_if b).
Proof. destruct b; [apply yields_fail|by apply yields_ret]. Qed.

Lemma yields_deref {A} (o : option A) : yields c R (λ a, o = Some a) (deref o).
Proof. destruct o; [by apply yields_ret|apply yields_faulty]. Qed.

Lemma yields_of_option {A} f (o : option A) : yields c R (λ a, o = Some a) (of_option f o).
Proof. destruct o; [by apply yields_ret|apply yields_faulty]. Qed.

Lemma yields_any {A} (Φ : A → Prop) m : yields c R Φ m → yields c R (λ _, True) m.
Proof. intros. by eapply yields_mono. Qed.
End rules.

Lemma cfg_frame_writes {c R} `{!CfgFrame c R} {T} (p : plat_cfg → T) `{!Setter p} :
  Writes R p.
Proof. intros w x. apply frame_cfg. Qed.

Section primitives.
Context {c : client_id} {R : relation world} `{!Frame c R}.

Lemma yields_alloc : yields c R (λ _, True) alloc.
Proof. intros w Hw. apply wp_alloc. intros b. split; [done|]. split; [apply frame_heap|done]. Qed.

Lemma yields_http : yields c R (λ _, True) http.
Proof. intros w Hw. apply wp_http. intros b h. split; [done|]. split; [apply frame_http|done]. Qed.

Lemma yields_alloc_or_fail : yields c R (λ _, True) alloc_or_fail.
Proof. eapply yields_bind; [apply yields_alloc|]. intros; apply yields_fail_if. Qed.

Lemma yields_log fmt : yields c R (λ _, True) (UC_LOG_ERR fmt).
Proof. intros w Hw. apply wp_emit. split; [done|]. split; [apply frame_log|done]. Qed.

Lemma yields_err {A} (Φ : A → Prop) fmt : yields c R Φ (err fmt).
Proof. eapply yields_bind; [apply yields_log|]. intros; apply yields_fail. Qed.

Lemma yields_err_if b fmt : yields c R (λ _, True) (err_if b fmt).
Proof. destruct b; [apply yields_err|by apply yields_ret]. Qed.

Lemma yields_alloc_or_err fmt : yields c R (λ _, True) (alloc_or_err fmt).
Proof. eapply yields_bind; [apply yields_alloc|]. intros; apply yields_err_if. Qed.

Lemma yields_or_err {A} (Φ : A → Prop) (m : M world A) fmt :
  yields c R Φ m → yields c R (λ _, True) (or_err m fmt).
Proof.
  intros Hm. eapply yields_bind; [by eapply yields_attempt|]. intros; apply yields_err_if.
Qed.

Lemma yields_get_cfg : yields c R (λ _, True) get_cfg.
Proof. by apply yields_gets. Qed.

Lemma yields_upd_cfg f :
  (∀ w, R w (w <| w_cfg := f (w_cfg w) |>)) → yields c R (λ _, True) (upd_cfg f).
Proof. intros Hf. by apply yields_modify. Qed.

Lemma writes2 {A B} (p : plat_cfg → A) (q : plat_cfg → B) `{!Setter p, !Setter q}
    `{!Writes R p, !Writes R q} w x y :
  R w (w <| w_cfg := set q y (set p x (w_cfg w)) |>).
Proof.
  etransitivity; [apply (writes (p:=p) w x)|].
  exact (writes (R:=R) (p:=q) (w <| w_cfg := set p x (w_cfg w) |>) y).
Qed.

Lemma yields_plat_read {A} (f : pst → A * pst) : yields c R (λ _, True) (plat_read f).
Proof.
  intros w Hw. apply wp_plat_read. intros a p _. split; [done|]. split; [apply frame_plat|done].
Qed.

Lemma yields_send j : msg_ok c j → yields c R (λ _, True) (emit (EvSend j)).
Proof. intros Hj w Hw. apply wp_emit. split; [done|]. split; [by apply frame_send|done]. Qed.

Lemma yields_strcpy n s : yields c R (λ _, True) (c_strcpy n s).
Proof. intros w Hw. by apply wp_strcpy. Qed.
Lemma yields_buf_str n s : yields c R (λ _, True) (c_buf_str n s).
Proof. intros w Hw. by apply wp_buf_str. Qed.
Lemma yields_bit_set A k : yields c R (λ _, True) (bit_set A k).
Proof. intros w Hw. by apply wp_bit_set. Qed.
Lemma yields_bit_test A k : yields c R (λ _, True) (bit_test A k).
Proof. intros w Hw. by apply wp_bit_test. Qed.
Lemma yields_arr_read {A} n (z : A) a i : yields c R (λ _, True) (arr_read n z a i).
Proof. intros w Hw. by apply wp_arr_read. Qed.
Lemma yields_arr_write {A} n (a : gmap Z A) i x : yields c R (λ _, True) (arr_write n a i x).
Proof. intros w Hw. by apply wp_arr_write. Qed.
End primitives.
End frame.
#[export] Hint Extern 2 (Writes _ _) => eapply cfg_frame_writes : typeclass_instances.

(** ** Keeping a part of [cfg]

    The relation that says [f] of the configuration is unchanged; a field that
    [f] does not read may be written. *)
Section keeps.
Context `{J : CJson, P : Platform}.

Definition keeps {A} (f : plat_cfg → A) (w w' : world) : Prop := f (w_cfg w') = f (w_cfg w).

#[export] Instance keeps_preorder {A} (f : plat_cfg → A) : PreOrder (keeps f).
Proof. split; [done|]. intros w1 w2 w3 H1 H2. unfold keeps in *. congruence. Qed.

#[export] Instance keeps_frame {A} (f : plat_cfg → A) c : Frame c (keeps f).
Proof. split; try apply _; try done. by intros w ? _ (k & l & n & p & logs & ->). Qed.
End keeps.
#[export] Existing Instances keeps_preorder keeps_frame.
#[export] Hint Extern 1 (Writes (keeps _) _) => (intros ? ?; reflexivity) : typeclass_instances.

Create HintDb yields discriminated.
#[export] Hint Resolve yields_alloc yields_http yields_alloc_or_fail yields_log yields_err
  yields_err_if yields_alloc_or_err yields_get_cfg yields_plat_read
  yields_strcpy yields_buf_str yields_bit_set yields_bit_test yields_arr_read yields_arr_write
  yields_fail yields_faulty yields_fail_if yields_send frame_preorder : yields.

(** A write of one or two fields of [cfg]. *)
Ltac writing := first [apply writes|apply (writes2 _ _)|apply frame_cfg].
#[export] Hint Extern 1 (yields _ _ _ (upd_cfg _)) =>
  apply yields_upd_cfg; intros ?; writing : yields.

(** [stay] walks a function whose result does not matter. *)
Ltac stay_step :=
  lazymatch goal with
  | |- yields _ _ _ (mbind _ _) => eapply yields_bind; [|intros ? ?]
  | |- yields _ _ _ (ret _) => apply (yields_ret (λ _, True)); done
  | |- yields _ _ _ (try _) => eapply yields_try
  | |- yields _ _ _ (attempt _) => eapply yields_attempt
  | |- yields _ _ _ (when _ _) => apply yields_when
  | |- yields _ _ _ (gets _) => apply (yields_gets (λ _, True)); done
  | |- yields _ _ _ (or_err _ _) => eapply yields_or_err
  | |- yields _ _ _ (for_each _ _) => apply yields_for_each; intros ?
  | |- yields _ _ _ (fold_m _ _ _) => apply (yields_fold_m (λ _, True)); [done|intros ? ? _]
  | |- yields _ _ _ (deref _) => eapply yields_any, yields_deref
  | |- yields _ _ _ (of_option _ _) => eapply yields_any, yields_of_option
  | |- yields _ _ _ (match ?x with _ => _ end) => destruct x
  | |- yields _ _ _ (let '_ := ?x in _) => destruct x
  end.
Ltac stay := cbv zeta; repeat (first [solve [eauto 3 with yields] | stay_step]; cbv zeta beta).
