(* ===== verification/ProtoConv.v ===== *)
(** * Value conversions and the port list of [proto.c]

    The [proto_*_to_num] functions return 0 and store the value, or return 1
    and store nothing: [Some v] and [None] here. *)

From S2P Require Import Prelude CNum CStr Bitmap Router Json PlatTypes World.

Definition PORT_ID_SELECT_ALL_PORTS : Z := 255.

(** First entry of a static table whose key equals the argument. *)
Fixpoint table_find {A B} (eq : A → A → bool) (tbl : list (A * B)) (k : A) : option B :=
  match tbl with
  | [] => None
  | (k', v) :: tbl => if eq k k' then Some v else table_find eq tbl k
  end.

Definition duplex_table : list (string * Z) :=
  [("full", DUPLEX_FULL_E); ("half", DUPLEX_HALF_E)].
Definition proto_port_duplex_to_num (str : string) : option Z :=
  table_find streq duplex_table str.

Definition speed_table : list (double * Z) :=
  [(dbl_of_Z 10, SPEED_10_E); (dbl_of_Z 100, SPEED_100_E); (dbl_of_Z 1000, SPEED_1000_E);
   (dbl_of_Z 2500, SPEED_2500_E); (dbl_of_Z 5000, SPEED_5000_E);
   (dbl_of_Z 10000, SPEED_10000_E); (dbl_of_Z 25000, SPEED_25000_E);
   (dbl_of_Z 100000, SPEED_100000_E)].
Definition proto_port_speed_to_num (val : double) : option Z :=
  table_find dbl_eqb speed_table val.

(** Always stores, and returns 1. *)
Definition proto_port_state_to_num (enabled : bool) : Z :=
  if enabled then PORT_ENABLED_E else PORT_DISABLED_E.

(** [str] is dereferenced by [strcmp] without a test.  [sscanf] returns EOF,
    which is not 0, when the text ends inside "Ethernet" or right after it, and
    the function then stores a local nothing was written to. *)
Definition proto_port_name_to_num {S} (str : option string) : M S (option Z) :=
  str ← deref str;
  if streq str "Ethernet*" || streq str "eth*" then ret (Some PORT_ID_SELECT_ALL_PORTS)
  else
    match sscanf_lit_u 32 "Ethernet" str with
    | SConv fp_id => ret (Some (wrap 16 fp_id))
    | SEof => faulty Uninitialised
    | SMismatch => ret None
    end.

Definition vlan_tag_table : list (string * Z) :=
  [("tagged", TAG_TAGGED_E); ("un-tagged", TAG_UNTAGGED_E)].
Definition proto_vlan_tagged_to_num {S} (str : option string) : M S (option Z) :=
  str ← deref str; ret (table_find streq vlan_tag_table str).

Definition stp_mode_table : list (string * Z) :=
  [("none", STP_MODE_NONE); ("stp", STP_MODE_STP); ("rstp", STP_MODE_RST);
   ("mstp", STP_MODE_MST); ("pvstp", STP_MODE_PVST); ("rpvstp", STP_MODE_RPVST)].
Definition proto_stp_mode_to_num (str : option string) : option Z :=
  match str with None => None | Some s => table_find streq stp_mode_table s end.

(** [PID_TO_NAME] and [NAME_TO_PID]; [sscanf] leaves the destination alone when
    it does not convert. *)
Definition PID_TO_NAME (p : Z) : string := "Ethernet" +:+ dec (wrap 16 p).
Definition NAME_TO_PID (name : string) : option Z :=
  match sscanf_lit_u 16 "Ethernet" name with SConv p => Some p | _ => None end.

(** ** The cached port list *)
Section port_list.
Context `{J : CJson, P : Platform}.

(** The allocation loop: one more node in front of the list per iteration. *)
Fixpoint alloc_port_nodes (n : nat) : M world unit :=
  match n with
  | O => ret tt
  | S n =>
      b ← alloc;
      if (b : bool) then
        _ ← modify (λ w, w <| w_port_list := EmptyString :: w_port_list w |>);
        alloc_port_nodes n
      else err "Failed alloc port list list"
  end.

(** The platform writes the names into the nodes it is given. *)
Fixpoint fill_names (nodes names : list string) : list string :=
  match nodes, names with
  | _ :: nodes, n :: names => n :: fill_names nodes names
  | nodes, [] => nodes
  | [], _ => []
  end.

(** The list and the number of active ports; a failure leaves the nodes
    allocated so far in place. *)
Definition get_port_list : M world (list string * Z) :=
  cached ← gets w_port_list;
  match cached with
  | _ :: _ => n ← gets w_port_list_num; ret (cached, n)
  | [] =>
      rn ← plat_read plat_port_num_get;
      let '(r, n) := rn in
      _ ← modify (λ w, w <| w_port_list_num := n |>);
      _ ← err_if (negb (r =? 0)) "Failed to get num of active ports";
      _ ← alloc_port_nodes (Z.to_nat n);
      rn ← plat_read (plat_port_list_get n);
      let '(r, names) := rn in
      if r =? 0 then
        _ ← modify (λ w, w <| w_port_list := fill_names (w_port_list w) names |>);
        pl ← gets w_port_list;
        ret (pl, match pl with [] => 0 | _ => n end)
      else
        _ ← UC_LOG_ERR "Failed to get platform active ports list";
        _ ← modify (λ w, w <| w_port_list := [] |>);
        fail
  end.
End port_list.

(** ** Facts *)
Lemma name_to_pid_to_name p : 0 ≤ p < 2 ^ 16 → NAME_TO_PID (PID_TO_NAME p) = Some p.
Proof.
  intros Hp. unfold NAME_TO_PID, PID_TO_NAME.
  by rewrite wrap_small, sscanf_lit_u_dec by lia.
Qed.

Lemma name_to_pid_range name p : NAME_TO_PID name = Some p → 0 ≤ p < 2 ^ 16.
Proof.
  unfold NAME_TO_PID. destruct (sscanf_lit_u 16 "Ethernet" name) eqn:E; intros [= <-].
  by apply sscanf_lit_u_range in E.
Qed.

Lemma name_not_wildcard p :
  0 ≤ p < 2 ^ 16 → streq (PID_TO_NAME p) "Ethernet*" || streq (PID_TO_NAME p) "eth*" = false.
Proof.
  intros Hp. unfold PID_TO_NAME, dec.
  destruct (dec_aux_shape 20 (wrap 16 p) "") as (d & r & -> & Hd); [lia|apply wrap_range; lia|].
  assert (d = 0 ∨ d = 1 ∨ d = 2 ∨ d = 3 ∨ d = 4 ∨ d = 5 ∨ d = 6 ∨ d = 7 ∨ d = 8 ∨ d = 9)
    as Hc by lia.
  by repeat destruct Hc as [->|Hc]; subst.
Qed.

(** Port names and port numbers are inverse to each other on every 16-bit
    number: printing a number and scanning it back, with the platform macro or
    with the parser of [select-ports], gives it again, and never the wildcard
    test (that is by number: port 255 is taken for the wildcard). *)
Theorem port_name_roundtrip (p : Z) (S : Type) (s : S) :
  0 ≤ p < 2 ^ 16 →
  NAME_TO_PID (PID_TO_NAME p) = Some p ∧
  proto_port_name_to_num (Some (PID_TO_NAME p)) s = Ok (Some p) s.
Proof.
  intros Hp. split; [by apply name_to_pid_to_name|].
  unfold proto_port_name_to_num, deref, mbind, M_bind, ret.
  rewrite name_not_wildcard by done. unfold PID_TO_NAME.
  rewrite wrap_small, sscanf_lit_u_dec by lia. by rewrite wrap_small.
Qed.

Lemma port_name_roundtrip_witness :
  PID_TO_NAME 37 = "Ethernet37" ∧ NAME_TO_PID (PID_TO_NAME 37) = Some 37 ∧
  proto_port_name_to_num (Some (PID_TO_NAME 37)) tt = Ok (Some 37) tt.
Proof. split; [by vm_compute|]. apply (port_name_roundtrip 37 unit tt). lia. Defined.

(** The speeds the configuration may ask for, with their constants. *)
Definition known_speeds : list (Z * Z) :=
  [(10, SPEED_10_E); (100, SPEED_100_E); (1000, SPEED_1000_E); (2500, SPEED_2500_E);
   (5000, SPEED_5000_E); (10000, SPEED_10000_E); (25000, SPEED_25000_E);
   (100000, SPEED_100000_E)].

(** The speed table is exact: a number of Mbit/s is accepted iff it is one
    of the eight listed speeds, each giving its own constant; 40000, which the
    platform header has a constant for, is not among them. *)
Theorem port_speed_exact :
  (∀ d k, proto_port_speed_to_num d = Some k ↔
     ∃ v, d = dbl_of_Z v ∧ (v, k) ∈ known_speeds) ∧
  proto_port_speed_to_num (dbl_of_Z 40000) = None.
Proof.
  split; [|by vm_compute]. intros d k. split.
  - unfold proto_port_speed_to_num, speed_table. cbn [table_find].
    repeat match goal with
    | |- (if dbl_eqb d (dbl_of_Z ?v) then _ else _) = _ → _ =>
        destruct (dbl_eqb d (dbl_of_Z v)) eqn:?E;
        [intros [= <-]; exists v; split; [by apply dbl_eqb_finite in E|set_solver]|clear E]
    end. done.
  - intros (v & -> & Hin). unfold known_speeds in Hin.
    repeat (apply elem_of_cons in Hin as [[= -> ->]|Hin]; [by vm_compute|]).
    by apply elem_of_nil in Hin.
Qed.
