(* ===== verification/CfgEthernet.v ===== *)
(** * Parsing of the [ethernet] section ([proto.c])

    [cfg_ethernet_parse] and what it calls, statement by statement, in the
    monad of [World]: ports are selected into a bitmap, a port record is built
    and copied to every selected slot of [cfg->ports]. *)

From S2P Require Import Prelude CNum CStr Bitmap Router Json PlatTypes World ProtoConv.

Section ethernet.
Context `{J : CJson, P : Platform, T : CTarget}.

(** [if (item && !test(item)) { UC_LOG_ERR; return -1; } else if (item) ...] *)
Definition opt_field {A} (item : option json) (ok : bool) (msg : string)
    (a : A) (f : A → M world A) : M world A :=
  if non_null item then (if ok then f a else err msg) else ret a.

(** ** Port selection *)
Definition avail_bitmap (ports : list string) : M world bitmap :=
  fold_m (λ A name,
    pid ← of_option Uninitialised (NAME_TO_PID name); bit_set A pid)
    ports (BITMAP_CLEAR MAX_NUM_OF_PORTS).

(** The wildcard: every port of the platform; the scanned number overwrites
    [tmp_fp_id], which keeps its value when a name does not scan. *)
Fixpoint select_all (ports : list string) (tmp_fp_id : Z) (bm : bitmap) : M world bitmap :=
  match ports with
  | [] => ret bm
  | name :: ports =>
      let tmp_fp_id := default tmp_fp_id (NAME_TO_PID name) in
      bm ← bit_set bm tmp_fp_id; select_all ports tmp_fp_id bm
  end.

Fixpoint select_loop (items : list json) (ports : list string) (num : Z)
    (avail bm : bitmap) (selected : Z) : M world (bitmap * Z) :=
  match items with
  | [] => ret (bm, selected)
  | p :: items =>
      id ← proto_port_name_to_num (string_value (Some p));
      match id with
      | None => err "Failed to conver port '%s' to num/idx"
      | Some tmp_fp_id =>
          if tmp_fp_id =? PORT_ID_SELECT_ALL_PORTS then
            bm ← select_all ports tmp_fp_id bm; ret (bm, num)
          else if MAX_NUM_OF_PORTS <=? tmp_fp_id then fail
          else
            t ← bit_test avail tmp_fp_id;
            if negb t then fail
            else
              bm ← bit_set bm tmp_fp_id;
              select_loop items ports num avail bm (selected + 1)
      end
  end.

(** The selected ports and their number. *)
Definition cfg_ethernet_select_ports_parse (select_ports : option json)
    : M world (bitmap * Z) :=
  pl ← try get_port_list;
  match pl with
  | None => err "Fetch ports list failed"
  | Some (ports, num) =>
      avail ← avail_bitmap ports;
      select_loop (for_each_child select_ports) ports num avail
        (BITMAP_CLEAR MAX_NUM_OF_PORTS) 0
  end.

(** ** PoE *)
Definition cfg_ethernet_poe_parse (poe : option json) (port : plat_port)
    : M world plat_port :=
  let admin_mode := get_item poe "admin-mode" in
  let do_reset := get_item poe "do-reset" in
  let detection := get_item poe "detection" in
  let power_limit := get_item poe "power-limit" in
  let priority := get_item poe "priority" in
  let p := port_poe port in
  p ← opt_field admin_mode (is_bool admin_mode)
        "poe:admin-mode is invalid, bool expected" p
        (λ p, ret (p <| poe_is_admin_mode_up := is_true admin_mode |>));
  p ← opt_field do_reset (is_bool do_reset)
        "poe:do-reset is invalid, bool expected" p
        (λ p, ret (p <| poe_do_reset := is_true do_reset |>));
  p ← opt_field detection (non_null (string_value detection))
        "poe:detection is invalid, string expected" p
        (λ p, s ← deref (string_value detection);
              s ← c_strcpy 32 s;
              ret (p <| poe_detection_mode := s |> <| poe_is_detection_mode_set := true |>));
  p ← opt_field power_limit (is_number power_limit)
        "poe:power-limit is invalid, number expected" p
        (λ p, ret (p <| poe_power_limit := d2u 32 (number_value power_limit) |>
                     <| poe_is_power_limit_set := true |>));
  p ← opt_field priority (non_null (string_value priority))
        "poe:priority is invalid, string expected" p
        (λ p, s ← deref (string_value priority);
              s ← c_strcpy 32 s;
              ret (p <| poe_priority := s |> <| poe_is_priority_set := true |>));
  ret (port <| port_poe := p |>).

(** ** IEEE 802.1X of a port *)
Definition control_mode_table : list (string * port_control_mode) :=
  [("force-authorized", FORCE_AUTHORIZED); ("force-unauthorized", FORCE_UNAUTHORIZED);
   ("auto", CONTROL_AUTO)].
Definition host_mode_table : list (string * port_host_mode) :=
  [("multi-auth", MULTI_AUTH); ("multi-domain", MULTI_DOMAIN);
   ("multi-host", MULTI_HOST); ("single-host", SINGLE_HOST)].

Definition cfg_ethernet_ieee8021x_parse (ieee8021x : option json) (port : plat_port)
    : M world plat_port :=
  let is_authenticator := get_item ieee8021x "is-authenticator" in
  let authentication_mode := get_item ieee8021x "authentication-mode" in
  let host_mode := get_item ieee8021x "host-mode" in
  let guest_vid := get_item ieee8021x "guest-vlan" in
  let auth_fail_vid := get_item ieee8021x "unauthenticated-vlan" in
  let x := mk_port_ieee8021x_cfg 0 0 FORCE_AUTHORIZED MULTI_AUTH false in
  x ← opt_field is_authenticator (is_bool is_authenticator)
        "ieee8021x:is-authenticator is invalid, bool expected" x
        (λ x, ret (x <| x_is_authenticator := is_true is_authenticator |>));
  x ← opt_field authentication_mode (non_null (string_value authentication_mode))
        "ieee8021x:authentication_mode is invalid, string expected" x
        (λ x, s ← deref (string_value authentication_mode);
              match table_find streq control_mode_table s with
              | Some m => ret (x <| x_control_mode := m |>)
              | None => err "ieee8021x:authentication_mode has valid type but invalid value"
              end);
  x ← opt_field host_mode (non_null (string_value host_mode))
        "ieee8021x:host_mode is invalid, string expected" x
        (λ x, s ← deref (string_value host_mode);
              match table_find streq host_mode_table s with
              | Some m => ret (x <| x_host_mode := m |>)
              | None => err "ieee8021x:host_mode has valid type but invalid value"
              end);
  x ← opt_field guest_vid (is_number guest_vid)
        "ieee8021x:guest-vlan is invalid, number expected" x
        (λ x, ret (x <| x_guest_vid := d2u 16 (number_value guest_vid) |>));
  x ← opt_field auth_fail_vid (is_number auth_fail_vid)
        "ieee8021x:unauthenticated-vlan is invalid, number expected" x
        (λ x, ret (x <| x_auth_fail_vid := d2u 16 (number_value auth_fail_vid) |>));
  ret (port <| port_ieee8021x := x |>).

(** ** The section *)

(** The body of the [BITMAP_FOR_EACH_BIT_SET] loop: the record goes to slot
    [i], under the name and number of that slot. *)
Definition configure_port (tmp_port : plat_port) (i : Z) : M world unit :=
  c ← get_cfg;
  ports ← arr_write MAX_NUM_OF_PORTS (cfg_ports c) i
            (tmp_port <| port_name := PID_TO_NAME i |> <| port_fp_id := wrap 16 i |>);
  bm ← bit_set (cfg_ports_to_cfg c) i;
  upd_cfg (λ c, c <| cfg_ports := ports |> <| cfg_ports_to_cfg := bm |>).

(** An optional sub-object: wrong type is an error, so is its parse. *)
Definition opt_object (item : option json) (type_msg parse_msg : string)
    (parse : option json → plat_port → M world plat_port) (port : plat_port)
    : M world plat_port :=
  opt_field item (is_object item) type_msg port
    (λ port, p ← try (parse item port);
             match p with Some p => ret p | None => err parse_msg end).

(** One element of the array.  A value the tables do not know leaves the
    zeroed field: 10 Mbit/s, half duplex.  [!speed] is false for NaN, which
    is what cJSON gives for a speed that is missing or not a number. *)
Definition cfg_ethernet_entry (eth : json) : M world unit :=
  let eth := Some eth in
  let select_ports := get_item eth "select-ports" in
  let enabled := is_true (get_item eth "enabled") in
  let duplex := string_value (get_item eth "duplex") in
  let speed := number_value (get_item eth "speed") in
  if negb (non_null duplex) || negb (dbl_truthy speed) || negb (non_null select_ports)
  then err "Ethernet obj doesn't hold duplex, speed or select-ports fields, parse failed"
  else
    tmp_port ← opt_object (get_item eth "poe")
      "Ethernet obj holds 'poe' object of wrongful type, parse failed"
      "Ethernet 'poe' object parse failed" cfg_ethernet_poe_parse zero_plat_port;
    tmp_port ← opt_object (get_item eth "ieee8021x")
      "Ethernet obj holds 'ieee8021x' object of wrongful type, parse failed"
      "Ethernet 'ieee8021x' object parse failed" cfg_ethernet_ieee8021x_parse tmp_port;
    d ← deref duplex;
    let tmp_port := tmp_port
      <| port_duplex := default (port_duplex tmp_port) (proto_port_duplex_to_num d) |>
      <| port_state := proto_port_state_to_num enabled |>
      <| port_speed := default (port_speed tmp_port) (proto_port_speed_to_num speed) |> in
    bn ← try (cfg_ethernet_select_ports_parse select_ports);
    match bn with
    | Some (bm, selected) =>
        _ ← err_if (selected =? 0)
          "'select-ports' obj doesn't hold enough ifaces or is empty, parse failed";
        for_each (BITMAP_FOR_EACH_BIT_SET bm MAX_NUM_OF_PORTS) (configure_port tmp_port)
    | None =>
        err "'select-ports' obj doesn't hold enough ifaces or is empty, parse failed"
    end.

Definition cfg_ethernet_parse (ethernet : option json) : M world unit :=
  for_each (for_each_child ethernet) cfg_ethernet_entry.
End ethernet.
