(* ===== verification/CfgInterfaces.v ===== *)
(** * Parsing of the [interfaces] section ([proto.c])

    VLAN interfaces (member ports, address, IGMP, DHCP relay) and layer-2 port
    interfaces.  What a failing call had stored in [cfg] stays stored, because
    [cfg_interfaces_parse] tries the port parser on an interface the VLAN
    parser gave up on; only the address record under construction is dropped
    with its call. *)

From S2P Require Import Prelude CNum CStr Bitmap Router Json PlatTypes World ProtoConv CfgEthernet.

Section interfaces.
Context `{J : CJson, P : Platform, T : CTarget, L : CLibc}.

(** [MAX_VLANS] stands for an invalid id.  The test lets NaN (no id) and
    negative numbers through to the conversion. *)
Definition cfg_interface2vid (interface : option json) : M world Z :=
  let vlan := get_item interface "vlan" in
  let vlan_id := get_item vlan "id" in
  let v := number_value vlan_id in
  if negb (dbl_truthy v) || dbl_leb (dbl_of_Z MAX_VLANS) v then
    _ ← UC_LOG_ERR "found 'vlan', but 'id' (vlan-id) seems to be invalud (%u), parse failed";
    ret MAX_VLANS
  else ret (d2u 16 v).

(** Only the first element of the list is looked at. *)
Definition cfg_interface_parse_ipv4 (subnet_list : option json) (ipv4 : plat_ipv4)
    : M world plat_ipv4 :=
  match array_item subnet_list 0 with
  | None => ret ipv4
  | Some subnet =>
      match string_value (get_item (Some subnet) "prefix") with
      | None => ret ipv4
      | Some subnet_str =>
          let '(len, addr) := inet_net_pton subnet_str in
          _ ← err_if (len =? -1) "Subnet parsing failed";
          ret (ipv4 <| ip4_subnet := wrap 32 addr |> <| ip4_subnet_len := len |>
                    <| ip4_exist := true |>)
      end
  end.

Definition cfg_port_interface_parse (interface : option json) : M world unit :=
  (* Ignore interface with l2 type: vlan *)
  _ ← fail_if (non_null (get_item interface "vlan"));
  let ethernet := get_item interface "ethernet" in
  _ ← fail_if (negb (array_size ethernet =? 1));
  let eth := array_item ethernet 0 in
  let select_ports := get_item_ci eth "select-ports" in
  bn ← try (cfg_ethernet_select_ports_parse select_ports);
  match bn with
  | Some (bm, 1) =>
      match get_item interface "ipv4" with
      | None => ret tt
      | Some ipv4 =>
          (* configure only the first port from the list *)
          let i := BITMAP_FIND_FIRST_BIT_SET bm MAX_NUM_OF_PORTS in
          match get_item (Some ipv4) "subnet" with
          | None => ret tt
          | Some subnet_list =>
              c ← get_cfg;
              v ← arr_read MAX_NUM_OF_PORTS zero_plat_ipv4 (cfg_portsl2 c) i;
              v ← try (cfg_interface_parse_ipv4 (Some subnet_list) v);
              match v with
              | None => err "Subnet parsing failed"
              | Some v =>
                  a ← arr_write MAX_NUM_OF_PORTS (cfg_portsl2 c) i v;
                  upd_cfg (λ c, c <| cfg_portsl2 := a |>)
              end
          end
      end
  | _ => err "'select-ports' obj doesn't hold enough ifaces or is empty, parse failed"
  end.

(** [cfg->vlans[vid]], read and written in place. *)
Definition vlan_get (vid : Z) : M world plat_port_vlan :=
  c ← get_cfg; arr_read MAX_VLANS zero_plat_port_vlan (cfg_vlans c) vid.
Definition vlan_upd (vid : Z) (f : plat_port_vlan → plat_port_vlan) : M world unit :=
  v ← vlan_get vid;
  c ← get_cfg;
  a ← arr_write MAX_VLANS (cfg_vlans c) vid (f v);
  upd_cfg (λ c, c <| cfg_vlans := a |>).

(** ** IGMP *)
Definition igmp_defaults : plat_igmp :=
  zero_plat_igmp <| igmp_snooping_enabled := true |> <| igmp_query_interval := 60 |>
    <| igmp_last_member_query_interval := 60 |> <| igmp_max_response_time := 10 |>
    <| igmp_version := IGMP_3 |>.

(** [if ((field = get(...)) && test(field)) info.x = ...;] *)
Definition igmp_field (igmp : json) (name : string) (test : option json → bool)
    (f : option json → plat_igmp → plat_igmp) (info : plat_igmp) : plat_igmp :=
  let field := get_item (Some igmp) name in
  if test field then f field info else info.

Definition igmp_parameters (igmp : json) (info : plat_igmp) : plat_igmp :=
  igmp_field igmp "max-response-time" is_number
    (λ x i, i <| igmp_max_response_time := d2u 32 (number_value x) |>)
  (igmp_field igmp "last-member-query-interval" is_number
    (λ x i, i <| igmp_last_member_query_interval := d2u 32 (number_value x) |>)
  (igmp_field igmp "query-interval" is_number
    (λ x i, i <| igmp_query_interval := d2u 32 (number_value x) |>)
  (igmp_field igmp "fast-leave-enable" is_bool
    (λ x i, i <| igmp_fast_leave_enabled := is_true x |>)
  (igmp_field igmp "querier-enable" is_bool
    (λ x i, i <| igmp_querier_enabled := is_true x |>)
  (igmp_field igmp "snooping-enable" is_bool
    (λ x i, i <| igmp_snooping_enabled := is_true x |>) info))))).

Definition igmp_parse_version (igmp : json) (info : plat_igmp) : M world plat_igmp :=
  let field := get_item (Some igmp) "version" in
  if is_number field then
    let v := d2u 32 (number_value field) in
    if v =? 1 then ret (info <| igmp_version := IGMP_1 |>)
    else if v =? 2 then ret (info <| igmp_version := IGMP_2 |>)
    else if v =? 3 then ret (info <| igmp_version := IGMP_3 |>)
    else err "Invalid IGMP version %f"
  else ret info.

(** Egress ports go to the front of the group's list. *)
Definition igmp_egress_port (ports : list string) (port : json) : M world (list string) :=
  _ ← alloc_or_err "Can't alloc port node";
  _ ← err_if (negb (is_string (Some port))) "Invalid port name";
  s ← deref (string_value (Some port));
  ret (c_strncpy 32 s :: ports).

Definition igmp_group_parse (groups : list igmp_group) (group : json)
    : M world (list igmp_group) :=
  let addr := get_item (Some group) "address" in
  let ports := get_item (Some group) "egress-ports" in
  _ ← err_if (negb (is_string addr) || negb (is_array ports)) "Missing static group info";
  a ← deref (string_value addr);
  let '(r, ip) := inet_pton a in
  _ ← err_if (negb (r =? 1)) "Failed to parse ip addr %s";
  egress ← fold_m igmp_egress_port (for_each_child ports) [];
  ret (groups ++ [mk_igmp_group (wrap 32 ip) egress])%list.

Definition cfg_vlan_interface_parse_multicast (multicast : json) (vid : Z) : M world unit :=
  match get_item (Some multicast) "igmp" with
  | None => ret tt
  | Some igmp =>
      info ← igmp_parse_version igmp igmp_defaults;
      let info := igmp_parameters igmp info in
      let field := get_item (Some igmp) "static-mcast-groups" in
      info ←
        (if is_array field then
           _ ← alloc_or_fail;
           groups ← fold_m igmp_group_parse (for_each_child field) [];
           ret (info <| igmp_num_groups := array_size field |> <| igmp_groups := groups |>)
         else ret info);
      let info := info <| igmp_exist :=
        igmp_snooping_enabled info || igmp_querier_enabled info |> in
      vlan_upd vid (λ v, v <| vlan_igmp := info |>)
  end.

(** ** VLAN interfaces *)

(** One selected port: a new node in front of the member list. *)
Definition vlan_add_member (vid tagged i : Z) : M world unit :=
  _ ← alloc_or_err "Can't alloc vlan memberlist_node, parse failed";
  let node := mk_vlan_member (PID_TO_NAME i) (wrap 16 i) (tagged =? TAG_TAGGED_E) in
  vlan_upd vid (λ v, v <| vlan_members := node :: vlan_members v |>).

Definition vlan_ethernet_entry (vid : Z) (eth : json) : M world unit :=
  let select_ports := get_item_ci (Some eth) "select-ports" in
  bn ← try (cfg_ethernet_select_ports_parse select_ports);
  match bn with
  | Some (bm, n) =>
      _ ← err_if (n =? 0)
        "'select-ports' obj doesn't hold enough ifaces or is empty, parse failed";
      tagged ← proto_vlan_tagged_to_num (string_value (get_item (Some eth) "vlan-tag"));
      match tagged with
      | None => err "Ethernet doesn't hold 'vlan-tag' field, parse failed"
      | Some tagged =>
          for_each (BITMAP_FOR_EACH_BIT_SET bm MAX_NUM_OF_PORTS) (vlan_add_member vid tagged)
      end
  | None => err "'select-ports' obj doesn't hold enough ifaces or is empty, parse failed"
  end.

Definition circuit_id (fmt : string) : string :=
  if streq fmt "{VLAN-ID}" then "%p"
  else if streq fmt "{Interface}" then "%i" else "%h:%p".

Definition vlan_dhcp_parse (dhcp : json) (vid : Z) : M world unit :=
  let msg := "DHCP-relay cfg is incomplete or missing: 'relay-server' and 'circuit-id-format' strings required" in
  match string_value (get_item (Some dhcp) "relay-server"),
        string_value (get_item (Some dhcp) "circuit-id-format") with
  | Some srv, Some circ =>
      let '(r, addr) := inet_net_pton srv in
      _ ← vlan_upd vid (λ v, v <| vlan_dhcp :=
            vlan_dhcp v <| relay_server_address := wrap 32 addr |> |>);
      _ ← err_if (r <=? 0) msg;
      vlan_upd vid (λ v, v <| vlan_dhcp := vlan_dhcp v
        <| relay_circ_id := circuit_id circ |> <| relay_enabled := true |> |>)
  | _, _ => err msg
  end.

Definition vlan_ipv4_parse (ipv4 : json) (vid : Z) : M world unit :=
  _ ← match get_item (Some ipv4) "subnet" with
      | None => ret tt
      | Some subnet_list =>
          v ← vlan_get vid;
          a ← try (cfg_interface_parse_ipv4 (Some subnet_list) (vlan_ipv4 v));
          match a with
          | None => err "Subnet parsing failed"
          | Some a => vlan_upd vid (λ v, v <| vlan_ipv4 := a |>)
          end
      end;
  _ ← match get_item (Some ipv4) "multicast" with
      | None => ret tt
      | Some multicast =>
          or_err (cfg_vlan_interface_parse_multicast multicast vid)
            "Failed parsing multicast config"
      end;
  match get_item (Some ipv4) "dhcp" with
  | None => ret tt
  | Some dhcp => vlan_dhcp_parse dhcp vid
  end.

Definition cfg_vlan_interface_parse (interface : option json) : M world unit :=
  (* Ignore interface with l2 type: not vlan *)
  _ ← fail_if (negb (non_null (get_item interface "vlan")));
  vid ← cfg_interface2vid interface;
  _ ← fail_if (vid =? MAX_VLANS);
  c ← get_cfg;
  bm ← bit_set (cfg_vlans_to_cfg c) vid;
  _ ← upd_cfg (λ c, c <| cfg_vlans_to_cfg := bm |>);
  _ ← for_each (for_each_child (get_item interface "ethernet")) (vlan_ethernet_entry vid);
  _ ← vlan_upd vid (λ v, v
        <| vlan_ipv4 := vlan_ipv4 v <| ip4_exist := false |> |>
        <| vlan_dhcp := vlan_dhcp v <| relay_enabled := false |> |>);
  match get_item interface "ipv4" with
  | None => ret tt
  | Some ipv4 => vlan_ipv4_parse ipv4 vid
  end.

Definition interface_entry (interface : json) : M world unit :=
  vlan ← attempt (cfg_vlan_interface_parse (Some interface));
  if (vlan : bool) then ret tt
  else
    port ← attempt (cfg_port_interface_parse (Some interface));
    if (port : bool) then ret tt else fail.

Definition cfg_interfaces_parse (interfaces : option json) : M world unit :=
  for_each (for_each_child interfaces) interface_entry.
End interfaces.
