(* ===== verification/CfgSwitch.v ===== *)
(** * Parsing of the [switch] section ([proto.c])

    Global 802.1X with its RADIUS hosts, loop detection (the STP instances) and
    port isolation.  A linked list is pushed at its front.  The session array
    of the port isolation is built element by element; the part already built
    is the argument of the fold, which is what the duplicate check walks. *)

From S2P Require Import Prelude CNum CStr Bitmap Router Json PlatTypes World ProtoConv.

Section switch.
Context `{J : CJson, P : Platform, T : CTarget}.

(** ** 802.1X *)

(** [!item || !cJSON_GetNumberValue(item)] *)
Definition no_number (item : option json) : bool :=
  negb (non_null item) || negb (dbl_truthy (number_value item)).

(** The priority is converted from [port], the number of the port item. *)
Definition radius_host_parse (iter : json) : M world unit :=
  _ ← err_if (negb (is_object (Some iter)))
    "Unexpected type of switch:ieee8021x:radius:<element>: Object expected";
  let host := get_item (Some iter) "server-host" in
  let port := get_item (Some iter) "server-authentication-port" in
  let key := get_item (Some iter) "server-key" in
  let prio := get_item (Some iter) "server-priority" in
  match string_value host with
  | None => err "Cannot add radius host without address!"
  | Some h =>
      let tmp_host := zero_plat_radius_host
        <| rad_hostname := c_strncpy (Z.to_nat RADIUS_CFG_HOSTNAME_STR_MAX_LEN - 1) h |>
        <| rad_auth_port := if no_number port then RADIUS_CFG_DEFAULT_PORT
                            else d2u 16 (number_value port) |>
        <| rad_passkey := match string_value key with
                          | None => EmptyString
                          | Some k => c_strncpy (Z.to_nat RADIUS_CFG_PASSKEY_STR_MAX_LEN - 1) k
                          end |>
        <| rad_priority := if no_number prio then RADIUS_CFG_DEFAULT_PRIO
                           else d2u 8 (number_value port) |> in
      _ ← alloc_or_err "Can't alloc radius hosts node, parse failed";
      upd_cfg (λ c, c <| cfg_radius_hosts_list := tmp_host :: cfg_radius_hosts_list c |>)
  end.

Definition cfg_switch_ieee8021x_parse (sw : option json) : M world unit :=
  let ieee8021x := get_item sw "ieee8021x" in
  if negb (non_null ieee8021x) then ret tt
  else
    _ ← err_if (negb (is_object ieee8021x))
      "Unexpected type of switch:ieee8021x: Object expected";
    let auth_ctrl_enabled := get_item ieee8021x "auth-control-enable" in
    _ ← upd_cfg (λ c, c <| cfg_ieee8021x :=
          cfg_ieee8021x c <| cfgx_is_auth_ctrl_enabled := is_true auth_ctrl_enabled |> |>);
    let radius := get_item ieee8021x "radius" in
    _ ← err_if (non_null radius && negb (is_array radius))
      "Unexpected type of switch:ieee8021x:radius: Array expected";
    for_each (for_each_child radius) radius_host_parse.

(** ** Port isolation *)
Definition isolation_port (ports : list string) (item : json) : M world (list string) :=
  match string_value (Some item) with
  | None =>
      err "Ethernet obj 'port_isolation:interface-list:%d' has invalid port name, parse failed"
  | Some name =>
      _ ← alloc_or_err "Failed alloc port list list";
      n ← c_strcpy PORT_MAX_NAME_LEN name;
      ret (n :: ports)
  end.

Definition cfg_ethernet_port_isolation_interface_parse (iface : option json)
    : M world (list string) :=
  let iface_list := get_item iface "interface-list" in
  _ ← err_if (negb (is_array iface_list) || (array_size iface_list =? 0))
    "Ethernet obj 'port_isolation:interface-list' is invalid, parse failed";
  fold_m isolation_port (for_each_child iface_list) [].

(** [if (parse(...)) { UC_LOG_ERR(msg); goto err; }] for a side of a session. *)
Definition isolation_side (item : option json) (msg : string) : M world (list string) :=
  ports ← try (cfg_ethernet_port_isolation_interface_parse item);
  match ports with Some ports => ret ports | None => err msg end.

Definition isolation_session (session_arr : list port_isolation_session) (session : json)
    : M world (list port_isolation_session) :=
  let id := get_item (Some session) "id" in
  _ ← err_if (negb (is_number id)) "Switch obj 'port_isolation:id' is invalid, parse failed";
  let session_arrid := d2u 64 (number_value id) in
  _ ← err_if (existsb (λ s, iso_id s =? session_arrid) session_arr)
    "Expected unique 'port_isolation:id', duplicate (%lu) detected, parse failed";
  let uplink := get_item (Some session) "uplink" in
  let downlink := get_item (Some session) "downlink" in
  _ ← err_if (negb (is_object uplink))
    "Switch obj 'port_isolation:uplink' is invalid, parse failed";
  _ ← err_if (negb (is_object downlink))
    "Switch obj 'port_isolation:downlink' is invalid, parse failed";
  up ← isolation_side uplink "Switch obj 'port_isolation:uplink' parse failed";
  down ← isolation_side downlink "Switch obj 'port_isolation:downlink' parse failed";
  ret (session_arr ++ [mk_port_isolation_session session_arrid up down])%list.

Definition cfg_switch_port_isolation_parse (port_isolation : option json) : M world unit :=
  _ ← err_if (negb (is_object port_isolation))
    "Switch obj holds 'port_isolation' object of wrongful type, parse failed";
  let sessions := get_item port_isolation "sessions" in
  _ ← err_if (negb (is_array sessions))
    "Switch obj holds 'port_isolation:sessions' array of wrongful type (or empty), parse failed";
  let upd f := upd_cfg (λ c, c <| cfg_port_isolation_cfg := f (cfg_port_isolation_cfg c) |>) in
  c ← get_cfg;
  let num := isoc_sessions_num (cfg_port_isolation_cfg c) + array_size sessions in
  _ ← upd (λ i, i <| isoc_sessions_num := num |>);
  if num =? 0 then ret tt
  else
    _ ← alloc_or_err "Failed to alloc memory for port-isolation-cfg, parse failed";
    arr ← fold_m isolation_session (for_each_child sessions) [];
    upd (λ i, i <| isoc_sessions := arr |>).
(** ** STP instances *)
Definition stp_default : plat_stp_instance_cfg := mk_plat_stp_instance_cfg false 15 2 20 32768.

(** The loop that sets every field of every instance. *)
Definition stp_init (a : gmap Z plat_stp_instance_cfg) : gmap Z plat_stp_instance_cfg :=
  fold_left (λ a id, <[id := stp_default]> a) (seqZ 0 MAX_VLANS) a.

(** [!obj ? dflt : cJSON_GetNumberValue(obj)], stored in an [int]. *)
Definition int_or (dflt : Z) (obj : option json) : Z :=
  if non_null obj then d2s 32 (number_value obj) else dflt.

(** One element of [instances]; the [uint16_t] fields keep the low bits. *)
Definition stp_instance_parse (instances_parsed : bitmap) (iter : json) : M world bitmap :=
  let obj := get_item (Some iter) "id" in
  let id := int_or 0 obj in
  _ ← fail_if ((id <? 0) || (MAX_VLANS <=? id));
  c ← get_cfg;
  inst ← arr_read MAX_VLANS zero_plat_stp_instance_cfg (cfg_stp_instances c) id;
  let prio := int_or (stp_priority inst) (get_item (Some iter) "priority") in
  let fwd := int_or (stp_forward_delay inst) (get_item (Some iter) "forward_delay") in
  let hello := int_or (stp_hello_time inst) (get_item (Some iter) "hello_time") in
  let age := int_or (stp_max_age inst) (get_item (Some iter) "max_age") in
  let obj := get_item (Some iter) "enabled" in
  let enabled := if non_null obj then is_true obj else stp_enabled inst in
  t ← bit_test instances_parsed id;
  _ ← err_if t "STP instance %d: duplicate config occured";
  instances_parsed ← bit_set instances_parsed id;
  a ← arr_write MAX_VLANS (cfg_stp_instances c) id
        (mk_plat_stp_instance_cfg enabled (wrap 16 fwd) (wrap 16 hello) (wrap 16 age)
           (wrap 16 prio));
  _ ← upd_cfg (λ c, c <| cfg_stp_instances := a |>);
  ret instances_parsed.

Definition cfg_switch_parse (root : option json) : M world unit :=
  let sw := get_item root "switch" in
  _ ← or_err (cfg_switch_ieee8021x_parse sw) "Switch ieee8021x parse failed.";
  let obj := get_item sw "loop-detection" in
  let iter := get_item obj "protocol" in
  _ ← (if non_null iter then
         match proto_stp_mode_to_num (string_value iter) with
         | Some m => upd_cfg (λ c, c <| cfg_stp_mode := m |>)
         | None => fail
         end
       else upd_cfg (λ c, c <| cfg_stp_mode := STP_MODE_NONE |>));
  _ ← upd_cfg (λ c, c <| cfg_stp_instances := stp_init (cfg_stp_instances c) |>);
  let arr := get_item obj "instances" in
  _ ← fold_m stp_instance_parse (for_each_child arr) (BITMAP_CLEAR MAX_VLANS);
  let port_isolation := get_item sw "port-isolation" in
  if non_null port_isolation then
    or_err (cfg_switch_port_isolation_parse port_isolation) "port-isolation config parse failed"
  else ret tt.
End switch.
