(* ===== verification/Messages.v ===== *)
(** * Outgoing messages of [proto.c]

    A message is built item by item; every cJSON constructor may fail, and the
    functions abandon the message at the first failure.  An item the code goes
    on modifying after attaching it is kept together with the tree around it:
    [proto_new_blob] returns the function from the final [params] to the whole
    message, [result_new_blob] that function and the [result] built so far.
    An object is attached when it is complete; it keeps its place among the
    members of its parent. *)

From S2P Require Import Prelude CNum CStr Bitmap Router Json PlatTypes World.
From Stdlib Require Import Ascii.

(** The [int] a poll period is passed as. *)
Definition to_int (z : Z) : Z := wrap_signed 32 z.

Section builders.
Context `{J : CJson, P : Platform}.

(** One constructor call. *)
Definition new (j : json) : M world json := _ ← alloc_or_fail; ret j.
Definition new_object : M world json := new cJSON_CreateObject.
Definition new_array : M world json := new cJSON_CreateArray.

(** [if (!cJSON_Add...ToObject(o, k, ...)) goto err;] *)
Definition add (k : string) (v o : json) : M world json :=
  _ ← alloc_or_fail; ret (cJSON_AddToObject o k v).
Definition add_str (k s : string) : json → M world json := add k (cJSON_CreateString s).
Definition add_dbl (k : string) (d : double) : json → M world json := add k (cJSON_CreateNumber d).
Definition add_num (k : string) (n : Z) : json → M world json := add_dbl k (dbl_of_Z n).
Definition add_bool (k : string) (b : bool) : json → M world json := add k (cJSON_CreateBool b).
(** A NULL string is a failure. *)
Definition add_str_opt (k : string) (s : option string) (o : json) : M world json :=
  match s with Some s => add_str k s o | None => _ ← alloc; fail end.
(** [cJSON_AddItemToArray(a, cJSON_Create...())] *)
Definition push (v a : json) : M world json := _ ← alloc_or_fail; ret (cJSON_AddToArray a v).

(** An object or array created as a member, then filled by [body]. *)
Definition add_object (k : string) (body : json → M world json) (o : json) : M world json :=
  c ← new_object; c ← body c; ret (cJSON_AddToObject o k c).
Definition add_array (k : string) (body : json → M world json) (o : json) : M world json :=
  c ← new_array; c ← body c; ret (cJSON_AddToObject o k c).

Definition jobj_u64_set (name : string) (u : Z) : json → M world json :=
  add name (cJSON_CreateRaw (dec u)).
Definition jobj_str_get (obj : option json) (name : string) : option string :=
  string_value (get_item obj name).

Definition alloc_failed : M world unit := UC_LOG_ERR "JSON obj alloc failed".

(** [err: UC_LOG_ERR(...); return NULL;] *)
Definition or_alloc_failed {A} (m : M world A) : M world A :=
  r ← try m; match r with Some a => ret a | None => _ ← alloc_failed; fail end.

Definition proto_root (method : string) (params : json) : json :=
  cJSON_AddToObject
    (cJSON_AddToObject (cJSON_AddToObject cJSON_CreateObject "jsonrpc" (cJSON_CreateString "2.0"))
       "method" (cJSON_CreateString method)) "params" params.

Definition proto_new_blob (method : string) : M world (json → json) :=
  or_alloc_failed (
    root ← new_object;
    root ← add_str "jsonrpc" "2.0" root;
    root ← add_str "method" method root;
    _ ← alloc_or_fail;
    ret (λ params, cJSON_AddToObject root "params" params)).

Definition result_new_blob (id : double) (uuid : Z) : M world ((json → json) * json) :=
  or_alloc_failed (
    root ← new_object;
    root ← add_str "jsonrpc" "2.0" root;
    root ← add_dbl "id" id root;
    result ← new_object;
    c ← gets w_client;
    result ← add_str "serial" (cl_serial c) result;
    result ← add_num "uuid" uuid result;
    ret (λ result, cJSON_AddToObject root "result" result, result)).

Definition send_blob (j : json) : M world unit :=
  b ← alloc;
  if (b : bool) then emit (EvSend j) else UC_LOG_ERR "cJSON_PrintUnformatted failed".
Definition proto_send_blob : json → M world unit := send_blob.
Definition result_send_blob : json → M world unit := send_blob.
Definition send_connect_blob (j : json) : M world unit :=
  b ← alloc;
  if (b : bool) then emit (EvSendConnect j) else UC_LOG_ERR "cJSON_PrintUnformatted failed".

(** Build and send; [err] is what the function does after a failure. *)
Definition send_or (err : M world unit) (body : M world json) : M world unit :=
  r ← try body; match r with Some j => send_blob j | None => err end.

(** [cJSON_AddStringToObject(params, "serial", client.serial)] *)
Definition add_serial (o : json) : M world json :=
  c ← gets w_client; add_str "serial" (cl_serial c) o.

(** ** Requests *)
Definition log_send (message : string) (severity : Z) : M world unit :=
  send_or alloc_failed (
    k ← proto_new_blob "log";
    params ← add_serial cJSON_CreateObject;
    params ← add_str "log" message params;
    params ← add_num "severity" severity params;
    ret (k params)).

Definition event_firmware_upgrade_send (operation : string) (percentage : Z)
    (text : option string) : M world unit :=
  send_or alloc_failed (
    rawtime_utc ← gets w_now;
    k ← proto_new_blob "event";
    params ← add_serial cJSON_CreateObject;
    params ← add_object "data" (add_array "event" (λ events,
      event ← new_object;
      events ← push (cJSON_CreateNumber (dbl_of_Z rawtime_utc)) events;
      event ← add_str "type" "firmware_upgrade_status" event;
      event ← add_object "payload" (λ payload,
        payload ← add_str "operation" operation payload;
        payload ← (if 0 <=? percentage then add_num "percentage" percentage payload
                   else ret payload);
        match text with Some t => add_str "text" t payload | None => ret payload end) event;
      ret (cJSON_AddToArray events event))) params;
    ret (k params)).

Definition ping_send : M world unit :=
  send_or alloc_failed (
    k ← proto_new_blob "ping";
    params ← add_serial cJSON_CreateObject;
    uuid_active ← gets w_uuid_active;
    uuid_latest ← gets w_uuid_latest;
    params ← (if negb (uuid_active =? uuid_latest) then
                params ← add_num "uuid" uuid_active params;
                add_num "uuid" uuid_latest params
              else add_num "uuid" uuid_latest params);
    ret (k params)).

Definition deviceupdate_send (updated_pass : option string) : M world unit :=
  match updated_pass with
  | None => ret tt
  | Some pass =>
      send_or (ret tt) (
        k ← proto_new_blob "deviceupdate";
        params ← add_serial cJSON_CreateObject;
        params ← add_str "currentPassword" pass params;
        ret (k params))
  end.

(** The array itself is not tested; adding to a NULL array fails. *)
Definition health_message (messages : option json) (msg : string) : M world (option json) :=
  if slen msg =? 0 then ret messages
  else
    b ← alloc;
    match messages with
    | Some a => if (b : bool) then ret (Some (cJSON_AddToArray a (cJSON_CreateString msg))) else fail
    | None => fail
    end.

Definition health_send (sanity : Z) (msgs : list string) : M world unit :=
  send_or alloc_failed (
    k ← proto_new_blob "healthcheck";
    params ← add_serial cJSON_CreateObject;
    uuid_active ← gets w_uuid_active;
    params ← add_num "uuid" uuid_active params;
    params ← add_num "sanity" sanity params;
    params ← add_object "data" (λ data,
      b ← alloc;
      messages ← fold_m health_message msgs (if (b : bool) then Some cJSON_CreateArray else None);
      ret match messages with
          | Some a => cJSON_AddToObject data "messages" a
          | None => data
          end) params;
    ret (k params)).

(** ** Replies *)
Definition configure_reply (error : Z) (text : string) (uuid : Z) (id : double) : M world unit :=
  send_or alloc_failed (
    '(k, res) ← result_new_blob id uuid;
    res ← add_object "status" (λ status,
      status ← add_str "text" text status;
      add_num "error" error status) res;
    ret (k res)).

Definition action_reply (error : Z) (text : string) (retcode id : Z) : M world unit :=
  send_or alloc_failed (
    uuid_active ← gets w_uuid_active;
    '(k, res) ← result_new_blob (dbl_of_Z id) uuid_active;
    res ← add_object "status" (λ status,
      status ← add_num "error" error status;
      status ← add_str "text" text status;
      add_num "resultCode" retcode status) res;
    ret (k res)).

Definition script_reply (error : Z) (text : string) (id : Z) : M world unit :=
  send_or alloc_failed (
    uuid_active ← gets w_uuid_active;
    '(k, res) ← result_new_blob (dbl_of_Z id) uuid_active;
    res ← add_object "status" (λ status,
      status ← add_num "error" error status;
      add_str "result" text status) res;
    ret (k res)).

(** The reply [ping_handle], [rtty_handle] and [generic_handle] build. *)
Definition success_reply (id : double) : M world json :=
  uuid_active ← gets w_uuid_active;
  '(k, res) ← result_new_blob id uuid_active;
  res ← add_object "status" (λ status,
    status ← add_str "text" "Success" status;
    add_num "error" 0 status) res;
  ret (k res).
End builders.
