(* ===== verification/CfgServices.v ===== *)
(** * Parsing of the [services], [metrics] and [unit] sections ([proto.c])

    [UC_LOG_DBG] lines stay in syslog and are not modelled; the failures they
    announce are. *)

From S2P Require Import Prelude CNum CStr Bitmap Router Json PlatTypes World ProtoConv Messages.

Definition LOG_ERR : Z := 3.

Section services.
Context `{J : CJson, P : Platform, T : CTarget}.

(** ** Services *)

(** [if (item) { if (!cJSON_IsNumber(item)) goto err; field = ...; }] *)
Definition opt_int (item : option json) (dflt : Z) : M world Z :=
  if non_null item then
    if is_number item then ret (d2s 32 (number_value item)) else fail
  else ret dflt.

(** [strcmp] against the two names of the protocol. *)
Definition log_proto_table : list (string * Z) := [("udp", 0); ("tcp", 1)].

Definition cfg_service_log_parse (s : option json) (l : plat_syslog_cfg)
    : M world plat_syslog_cfg :=
  let port := get_item s "port" in
  let priority := get_item s "priority" in
  let size := get_item s "size" in
  let host := get_item s "host" in
  let proto := get_item s "proto" in
  _ ← fail_if (negb (is_number port));
  let l := l <| log_port := d2s 32 (number_value port) |> in
  p ← opt_int priority 7;
  z ← opt_int size 1000;
  let l := l <| log_priority := p |> <| log_size := z |> in
  l ← (if non_null proto then
         if is_string proto then
           p ← deref (string_value proto);
           match table_find streq log_proto_table p with
           | Some t => ret (l <| log_is_tcp := t |>)
           | None => fail
           end
         else fail
       else ret l);
  if non_null host then
    if is_string host then
      h ← deref (string_value host);
      ret (l <| log_host := c_snprintf_s (Z.to_nat SYSLOG_CFG_FIELD_STR_MAX_LEN) h |>)
    else fail
  else ret l.

(** One of the three blocks for ssh, telnet and http: the flag to store. *)
Definition service_enabled (services : option json) (name type_msg enable_msg : string)
    : M world (option bool) :=
  let s := get_item services name in
  if non_null s then
    _ ← err_if (negb (is_object s)) type_msg;
    let enable := get_item s "enable" in
    _ ← err_if (non_null enable && negb (is_bool enable)) enable_msg;
    ret (Some (is_true enable))
  else ret None.

Definition upd_services (f : plat_enabled_service_cfg → plat_enabled_service_cfg)
    : M world unit :=
  upd_cfg (λ c, c <| cfg_enabled_services_cfg := f (cfg_enabled_services_cfg c) |>).

Definition when_some {A} (o : option A) (f : A → M world unit) : M world unit :=
  match o with Some a => f a | None => ret tt end.

Definition cfg_services_parse (services : option json) : M world unit :=
  let s := get_item services "log" in
  _ ← (if non_null s then
         _ ← err_if (negb (is_object s)) "services.log must be an object";
         _ ← alloc_or_err "malloc failed";
         _ ← upd_cfg (λ c, c <| cfg_log_cfg := Some zero_plat_syslog_cfg |>);
         l ← cfg_service_log_parse s zero_plat_syslog_cfg;
         upd_cfg (λ c, c <| cfg_log_cfg := Some l |> <| cfg_log_cfg_cnt := 1 |>)
       else ret tt);
  _ ← upd_services (λ _, mk_plat_enabled_service_cfg false false false);
  ssh ← service_enabled services "ssh"
    "Unexpected type of services:ssh: Object expected"
    "Unexpected type of services:ssh:enable: Boolean expected";
  _ ← when_some ssh (λ b, upd_services (λ e, e <| svc_ssh := b |>));
  telnet ← service_enabled services "telnet"
    "Unexpected type of services:telnet: Object expected"
    "Unexpected type of services:telnet:enable: Boolean expected";
  _ ← when_some telnet (λ b, upd_services (λ e, e <| svc_telnet := b |>));
  http ← service_enabled services "http"
    "Unexpected type of services:http: Object expected"
    "Unexpected type of services:http:enable: Boolean expected";
  when_some http (λ b, upd_services (λ e, e <| svc_http := b |>)).

(** ** Metrics *)

Definition upd_metrics (f : plat_metrics_cfg → plat_metrics_cfg) : M world unit :=
  upd_cfg (λ c, c <| cfg_metrics := f (cfg_metrics c) |>).
Definition upd_met_state (f : metrics_state → metrics_state) : M world unit :=
  upd_metrics (λ m, m <| met_state := f (met_state m) |>).

Definition statistics_type_parse (statistics_type : json) : M world unit :=
  match string_value (Some statistics_type) with
  | None => UC_LOG_ERR "Unexpected type of <statistics>:<type>: Object expected"
  | Some t =>
      _ ← when (streq t "clients") (upd_met_state (λ s, s <| mst_clients_enabled := true |>));
      when (streq t "lldp") (upd_met_state (λ s, s <| mst_lldp_enabled := true |>))
  end.

(** The block before [skip_statistics_parse]. *)
Definition statistics_parse (statistics : option json) : M world unit :=
  let interval := get_item statistics "interval" in
  let statistics_types := get_item statistics "types" in
  let max_mac_count := get_item statistics "wired-clients-max-num" in
  if negb (non_null statistics) || negb (non_null interval) || negb (non_null statistics_types)
  then ret tt
  else
    _ ← for_each (for_each_child statistics_types) statistics_type_parse;
    _ ← upd_met_state (λ s, s
          <| mst_interval := d2u 64 (number_value interval) |>
          <| mst_enabled := dbl_truthy (number_value interval) |>
          <| mst_max_mac_count := if is_number max_mac_count
                                  then d2u 32 (number_value max_mac_count)
                                  else METRICS_WIRED_CLIENTS_MAX_NUM |>);
    c ← get_cfg;
    let s := met_state (cfg_metrics c) in
    if mst_enabled s && negb (mst_lldp_enabled s) && mst_clients_enabled s then
      _ ← UC_LOG_ERR "Received statistics cfg with interval, but no type specified. Defaulting to <disable> state event";
      _ ← log_send "<configure>:<metrics> holds invalid data, <state> event disabled" LOG_ERR;
      upd_met_state (λ _, zero_metrics_state)
    else ret tt.

Definition cfg_metrics_parse (metrics : option json) : M world unit :=
  _ ← upd_metrics (λ _, zero_plat_metrics_cfg);
  _ ← statistics_parse (get_item metrics "statistics");
  let health := get_item metrics "health" in
  let interval := get_item health "interval" in
  if negb (non_null health) || negb (non_null interval) then ret tt
  else
    upd_metrics (λ m, m <| met_healthcheck :=
      mk_metrics_poll (dbl_truthy (number_value interval)) (d2u 64 (number_value interval)) |>).

(** ** Unit *)

Definition upd_unit (f : plat_unit → plat_unit) : M world unit :=
  upd_cfg (λ c, c <| cfg_unit := f (cfg_unit c) |>).

Definition unit_poe_parse (poe : json) : M world unit :=
  let power_mgmt := get_item (Some poe) "power-management" in
  let usage_threshold := get_item (Some poe) "usage-threshold" in
  _ ← match string_value power_mgmt with
      | None => ret tt
      | Some p =>
          p ← c_strcpy 32 p;
          upd_unit (λ u, u <| unit_power_mgmt := p |> <| unit_is_power_mgmt_set := true |>)
      end;
  when (is_number usage_threshold)
    (upd_unit (λ u, u <| unit_usage_threshold := d2u 8 (number_value usage_threshold) |>
                      <| unit_is_usage_threshold_set := true |>)).

(** The text of the password item is read without a test of its type. *)
Definition cfg_unit_parse (unit_obj : option json) : M world unit :=
  _ ← when_some (get_item unit_obj "poe") unit_poe_parse;
  _ ← when_some (get_item unit_obj "system-password") (λ password,
        p ← deref (cJSON_valuestring password);
        upd_unit (λ u, u <| unit_password := c_strncpy 64 p |>
                         <| unit_password_changed := true |>));
  let flood_control := get_item unit_obj "unknown-multicast-flood-control" in
  _ ← when (non_null flood_control)
        (upd_unit (λ u, u <| unit_mc_flood_control := is_true flood_control |>));
  let querier := get_item unit_obj "querier-enable" in
  when (non_null querier) (upd_unit (λ u, u <| unit_querier_enable := is_true querier |>)).
End services.
