(* ===== verification/CfgParse.v ===== *)
(** * The configuration parser ([proto.c], [cfg_parse])

    [cfg] is allocated zeroed, filled section by section and returned; a
    failure frees it and returns NULL, which is the failure of the monad.  The
    structure under construction is [w_cfg].  The routes come first. *)

From S2P Require Import Prelude CNum CStr Bitmap Router Json PlatTypes World ProtoConv CfgEthernet CfgInterfaces CfgSwitch Messages CfgServices.

(** ** Parsing of the routes ([proto.c], [cfg_router_parse])

    [cfg_process_prefixes] walks the configuration twice: once without a
    database to count the routes, once to fill the database allocated for that
    count.  The [-1] it returns on failure is the failure of the monad here,
    the count its value.  [db] is the database being filled; in the counting
    pass there is none. *)

Section router.
Context `{J : CJson, P : Platform, T : CTarget, L : CLibc}.

Definition route_prefix_obj2node_key (obj : option json) : M world fib_key :=
  match string_value (get_item obj "prefix") with
  | None => fail
  | Some addr_str =>
      let '(len, addr) := inet_net_pton addr_str in
      if len =? -1 then fail else ret {| prefix := wrap 32 addr; prefix_len := len |}
  end.

(** The result of [append] is not tested: a full database stays as it is. *)
Definition append_ignored (r : router) (n : fib_node) : router :=
  default r (ucentral_router_fib_db_append r n).

(** [index++; if (!router) continue; parse; append] for one element; [info]
    reads what the element holds besides its prefix. *)
Definition route_step (info : json → M world fib_info) (st : Z * option router) (iter : json)
    : M world (Z * option router) :=
  let '(index, db) := st in
  match db with
  | None => ret (index + 1, None)
  | Some r =>
      key ← route_prefix_obj2node_key (Some iter);
      i ← info iter;
      ret (index + 1, Some (append_ignored r {| node_key := key; node_info := i |}))
  end.

Definition nexthop_info (vid : Z) (iter : json) : M world fib_info :=
  match string_value (get_item (Some iter) "nexthop") with
  | None => fail
  | Some addr_str =>
      let '(r, gw) := inet_pton addr_str in
      if r =? 1 then ret (ROUTE_NH vid (wrap 32 gw)) else fail
  end.

Definition interface_routes (st : Z * option router) (interface : json)
    : M world (Z * option router) :=
  vid ← cfg_interface2vid (Some interface);
  if vid =? MAX_VLANS then ret st
  else
    let ipv4 := get_item_ci (Some interface) "ipv4" in
    st ← fold_m (route_step (nexthop_info vid))
           (for_each_child (get_item_ci ipv4 "gateway")) st;
    fold_m (route_step (λ _, ret (ROUTE_BROADCAST vid)))
      (for_each_child (get_item_ci ipv4 "broadcast")) st.

Definition cfg_process_prefixes (root : option json) (db : option router)
    : M world (Z * option router) :=
  let globals := get_item_ci root "globals" in
  st ← fold_m (route_step (λ _, ret ROUTE_BLACKHOLE))
         (for_each_child (get_item_ci globals "ipv4-blackhole")) (0, db);
  st ← fold_m (route_step (λ _, ret ROUTE_UNREACHABLE))
         (for_each_child (get_item_ci globals "ipv4-unreachable")) st;
  fold_m interface_routes (for_each_child (get_item_ci root "interfaces")) st.

Definition cfg_router_parse (root : option json) : M world unit :=
  '(num, _) ← cfg_process_prefixes root None;
  ok ← alloc;
  match ucentral_router_fib_db_alloc ok num with
  | None => fail
  | Some r =>
      _ ← upd_cfg (λ c, c <| cfg_router := r |>);
      '(_, db) ← cfg_process_prefixes root (Some r);
      upd_cfg (λ c, c <| cfg_router := default r db |>)
  end.
End router.

Section parse.
Context `{J : CJson, P : Platform, T : CTarget, L : CLibc}.

(** The default of a port the platform has: its name and number, everything
    else zero, selected for configuration.  [pid] is not initialised; a name
    that does not scan leaves it so. *)
Definition default_port (name : string) : M world unit :=
  pid ← of_option Uninitialised (NAME_TO_PID name);
  n ← c_strcpy PORT_MAX_NAME_LEN name;
  c ← get_cfg;
  ports ← (p ← arr_read MAX_NUM_OF_PORTS zero_plat_port (cfg_ports c) pid;
           arr_write MAX_NUM_OF_PORTS (cfg_ports c) pid
             (p <| port_name := n |> <| port_fp_id := pid |>));
  bm ← bit_set (cfg_ports_to_cfg c) pid;
  upd_cfg (λ c, c <| cfg_ports := ports |> <| cfg_ports_to_cfg := bm |>).

(** [for (i = FIRST_VLAN; i < MAX_VLANS; ++i) cfg->vlans[i].id = i;] *)
Definition vlans_init (a : gmap Z plat_port_vlan) : gmap Z plat_port_vlan :=
  fold_left (λ a i, <[i := arr_get zero_plat_port_vlan a i <| vlan_id := wrap 16 i |>]> a)
    (seqZ FIRST_VLAN (MAX_VLANS - FIRST_VLAN)) a.

(** [item && !cJSON_IsObject(item)] *)
Definition present_not_object (item : option json) : bool :=
  non_null item && negb (is_object item).

Definition parse_failed : M world unit := err "JSON config parse failed".

Definition cfg_parse (config : option json) : M world plat_cfg :=
  let ethernet := get_item config "ethernet" in
  let interfaces := get_item config "interfaces" in
  let services := get_item config "services" in
  let metrics := get_item config "metrics" in
  let unit_obj := get_item config "unit" in
  _ ← when (negb (is_array ethernet) || negb (is_array interfaces)
            || present_not_object services || present_not_object metrics
            || present_not_object unit_obj) parse_failed;
  _ ← alloc_or_err "Failed to alloc CFG struct, parse failed";
  _ ← upd_cfg (λ _, zero_plat_cfg);
  pl ← try get_port_list;
  match pl with
  | None => err "Fetch ports list failed"
  | Some (ports, _) =>
      _ ← for_each ports default_port;
      _ ← upd_cfg (λ c, c <| cfg_vlans := vlans_init (cfg_vlans c) |>);
      _ ← or_err (cfg_ethernet_parse ethernet) "Failed parse 'ethernet', parse failed";
      _ ← or_err (cfg_interfaces_parse interfaces) "Failed parse 'interfaces', parse failed";
      _ ← or_err (cfg_switch_parse config) "Failed parse switch config";
      _ ← (if non_null metrics then
             or_err (cfg_metrics_parse metrics) "Failed parse 'metrics', parse failed"
           else upd_metrics (λ _, zero_plat_metrics_cfg));
      _ ← when (non_null services)
            (or_err (cfg_services_parse services) "Failed parse 'services', parse failed");
      _ ← when (non_null unit_obj)
            (or_err (cfg_unit_parse unit_obj) "Failed parse 'unit', parse failed");
      _ ← or_err (cfg_router_parse config) "Failed parse router";
      let public_ip_lookup := string_value (get_item config "public_ip_lookup") in
      p ← c_strcpy 2048 (default EmptyString public_ip_lookup);
      _ ← upd_met_state (λ s, s <| mst_public_ip_lookup := p |>);
      get_cfg
  end.
End parse.
