(* ===== verification/Handlers.v ===== *)
(** * The JSON-RPC handlers of [proto.c]

    [proto_handle] parses a command and dispatches it on its method; each
    handler checks its parameters, calls the platform and replies.  The
    callbacks a handler gives to the platform are the functions of this file
    and of [State] and [Messages]: the platform call only records the period.

    The EST client is an interface here ([EstClient]): the server named by the
    certificate file and the outcome of a re-enrolment. *)

From S2P Require Import Prelude CNum CStr Bitmap Router Json PlatTypes World ProtoConv Messages CfgServices CfgParse.

Class EstClient := {
  (* the URL for the issuer found in that certificate file *)
  est_get_server_url : option string → option string;
  (* [Some cert]: EST_SUCCESS and the renewed certificate *)
  est_simple_reenroll : string → option string → option string → option string → option string
}.

(** The [cJSON *rpc[__JSONRPC_MAX]] array. *)
Record rpc_t `{CJson} := mk_rpc {
  rpc_ver : option json;
  rpc_method : option json;
  rpc_error : option json;
  rpc_params : option json;
  rpc_id : option json;
  rpc_radius : option json
}.

Definition CONFIGURE_STATUS_APPLIED : Z := 0.
Definition CONFIGURE_STATUS_REJECTED : Z := 2.

Definition UPGRADE_STATE_IDLE : Z := 0.
Definition UPGRADE_STATE_DOWNLOAD : Z := 1.
Definition UPGRADE_STATE_INSTALL : Z := 2.
Definition UPGRADE_STATE_FAIL : Z := 3.
Definition UPGRADE_STATE_SUCCESS : Z := 4.

Definition PLAT_SCRIPT_TYPE_SHELL : Z := 1.
Definition PLAT_SCRIPT_TYPE_DIAGNOSTICS : Z := 2.

Record run_script_result := mk_run_script_result {
  sres_type : Z;
  sres_stdout_string : string;
  sres_exit_status : Z;
  sres_timeout_exceeded : bool
}.

Section handlers.
Context `{J : CJson, P : Platform, T : CTarget, L : CLibc, E : EstClient}.

(** [double id = 0; if (rpc[JSONRPC_ID]) id = cJSON_GetNumberValue(...);] *)
Definition request_id (rpc : rpc_t) : double :=
  if non_null (rpc_id rpc) then number_value (rpc_id rpc) else dbl_zero.
Definition param (rpc : rpc_t) (name : string) : option json := get_item (rpc_params rpc) name.

(** The double id narrowed to the [uint32_t] of [action_reply]. *)
Definition reply_action (rpc : rpc_t) (error : Z) (text : string) (retcode : Z)
    : M world unit :=
  action_reply error text retcode (d2u 32 (request_id rpc)).

(** ** configure *)
Definition apply_metrics (m : plat_metrics_cfg) : M world unit :=
  _ ← plat_ CStatePollStop;
  _ ← plat_ CHealthPollStop;
  _ ← plat_ CTelemetryPollStop;
  _ ← modify (λ w, w <| w_metrics := m |>);
  _ ← when (mst_enabled (met_state m)) (plat_ (CStatePoll (to_int (mst_interval (met_state m)))));
  _ ← when (poll_enabled (met_healthcheck m))
        (plat_ (CHealthPoll (to_int (poll_interval (met_healthcheck m)))));
  when (poll_enabled (met_telemetry m))
    (plat_ (CTelemetryPoll (to_int (poll_interval (met_telemetry m))))).

(** The part after a successful parse. *)
Definition configure_apply (plat_cfg : plat_cfg) (id : double) : M world unit :=
  _ ← plat_ CLogFlush;
  r ← plat (CConfigApply plat_cfg (d2u 32 id));
  _ ← (if negb (r =? 0) then
         _ ← UC_LOG_ERR "Config apply failed. Trying to restore.";
         plat_ CConfigRestore
       else
         _ ← modify (λ w, w <| w_uuid_active := w_uuid_latest w |>);
         uuid_active ← gets w_uuid_active;
         _ ← plat_ (CConfigSave (wrap 64 uuid_active));
         _ ← plat_ (CMetricsSave (cfg_metrics plat_cfg));
         _ ← when (unit_password_changed (cfg_unit plat_cfg))
               (p ← c_buf_str 64 (unit_password (cfg_unit plat_cfg));
                deviceupdate_send (Some p));
         apply_metrics (cfg_metrics plat_cfg));
  _ ← plat_ CConfigDestroy;
  log_msg ← plat_read plat_log_pop_concatenate;
  uuid_latest ← gets w_uuid_latest;
  configure_reply (if negb (r =? 0) then CONFIGURE_STATUS_REJECTED else CONFIGURE_STATUS_APPLIED)
    (default EmptyString log_msg) uuid_latest id.

Definition configure_handle (rpc : rpc_t) : M world unit :=
  let uuid := param rpc "uuid" in
  let config := param rpc "config" in
  let compress := param rpc "compress" in
  let id := request_id rpc in
  if negb (non_null uuid) || negb (non_null (param rpc "serial")) || negb (non_null config)
  then
    _ ← UC_LOG_ERR "configure message is missing parameters";
    configure_reply CONFIGURE_STATUS_REJECTED "invalid parameters" 0 id
  else
    _ ← when (is_bool compress)
          (modify (λ w, w <| w_state_compress := is_true compress |>));
    _ ← modify (λ w, w <| w_uuid_latest := d2s 64 (number_value uuid) |>);
    cfg ← try (cfg_parse config);
    match cfg with
    | None =>
        _ ← UC_LOG_ERR "configure parse failed";
        configure_reply CONFIGURE_STATUS_REJECTED "Configure parse failed" 0 id
    | Some plat_cfg => configure_apply plat_cfg id
    end.

(** ** reboot, factory *)

(** The shape of both: check the serial, make the call, reply. *)
Definition simple_action (rpc : rpc_t) (call : plat_call)
    (missing_log failed_log failed_text ok_text : string) : M world unit :=
  if negb (non_null (param rpc "serial")) then
    _ ← UC_LOG_ERR missing_log;
    reply_action rpc 1 "invalid parameters" 1
  else
    r ← plat call;
    if negb (r =? 0) then
      _ ← UC_LOG_ERR failed_log;
      reply_action rpc 1 failed_text 1
    else reply_action rpc 0 ok_text 0.

Definition reboot_handle (rpc : rpc_t) : M world unit :=
  simple_action rpc CReboot "reboot message is missing parameters" "reboot failed"
    "reboot failed" "Reboot requested successfully".

Definition factory_handle (rpc : rpc_t) : M world unit :=
  simple_action rpc CFactoryDefault "factory message is missing parameters" "factory failed"
    "factory failed" "factory requested successfully".

(** ** reenroll *)
Definition UCENTRAL_CONFIG (file : string) : string := "/etc/ucentral/" +:+ file.

Definition write_file (path data : string) : M world unit :=
  _ ← modify (λ w, w <| w_files := <[path := data]> (w_files w) |>);
  emit (EvFileWrite path data).

(** [fopen] with mode w empties the file.  What it holds in the end may be less
    than was written, whether [fwrite] failed or, unnoticed, [fclose]. *)
Definition save_certificate (path cert : string) : M world bool :=
  opened ← io;
  if negb opened then
    _ ← UC_LOG_ERR "reenroll: Failed to open %s for writing"; ret false
  else
    _ ← write_file path EmptyString;
    written ← io;
    stored ← disk cert;
    _ ← write_file path stored;
    if negb written then
      _ ← UC_LOG_ERR "reenroll: Failed to write renewed certificate"; ret false
    else ret true.

Definition reenroll_handle (rpc : rpc_t) : M world unit :=
  if negb (non_null (param rpc "serial")) then
    _ ← UC_LOG_ERR "reenroll message is missing parameters";
    reply_action rpc 1 "invalid parameters" 1
  else
    files ← gets w_files;
    let file f := files !! UCENTRAL_CONFIG f in
    match est_get_server_url (file "cert.pem") with
    | None =>
        _ ← UC_LOG_ERR "reenroll: Failed to detect EST server URL";
        reply_action rpc 1 "Failed to detect EST server" 1
    | Some est_server =>
        match est_simple_reenroll est_server (file "operational.pem") (file "key.pem")
                (file "cas.pem") with
        | None =>
            _ ← UC_LOG_ERR "reenroll: EST reenrollment failed: %s";
            reply_action rpc 1 "Certificate reenrollment failed" 1
        | Some renewed_cert =>
            saved ← save_certificate (UCENTRAL_CONFIG "operational.pem") renewed_cert;
            if negb saved then reply_action rpc 1 "Failed to save renewed certificate" 1
            else
              _ ← emit (EvAlarm 10);
              reply_action rpc 0
                "Certificate reenrollment successful, restarting in 10 seconds" 0
        end
    end.

(** ** ping, rtty *)
Definition ping_handle (rpc : rpc_t) : M world unit :=
  send_or alloc_failed (success_reply (request_id rpc)).

(** A field copied with [strcpy]; an item that is not a string gives NULL. *)
Definition rtty_str (item : option json) : M world string :=
  s ← deref (string_value item); c_strcpy RTTY_CFG_FIELD_STR_MAX_LEN s.

Definition rtty_parse (rtty_params : option json) : M world plat_rtty_cfg :=
  let f := get_item rtty_params in
  if negb (forallb (λ k, non_null (f k))
             ["serial"; "token"; "id"; "server"; "port"; "user"; "timeout"; "password"])
  then err "Failed to parse RTTY params"
  else
    _ ← alloc_or_err "Failed to alloc rtty conf struct";
    id ← rtty_str (f "id");
    passwd ← rtty_str (f "password");
    serial ← rtty_str (f "serial");
    server ← rtty_str (f "server");
    token ← rtty_str (f "token");
    user ← rtty_str (f "user");
    ret (mk_plat_rtty_cfg id passwd serial server token user
           (d2u 16 (number_value (f "port"))) (d2u 16 (number_value (f "timeout")))).

Definition rtty_handle (rpc : rpc_t) : M world unit :=
  blob ← try (success_reply (request_id rpc));
  match blob with
  | None => alloc_failed
  | Some blob =>
      rtty_cfg ← try (rtty_parse (rpc_params rpc));
      match rtty_cfg with
      | None =>
          _ ← UC_LOG_ERR "RTTY command parse failed";
          reply_action rpc 1 "RTTY cmd parse failed" 1
      | Some rtty_cfg =>
          r ← plat (CRtty rtty_cfg);
          if negb (r =? 0) then
            _ ← UC_LOG_ERR "RTTY command execution failed";
            reply_action rpc 1 "RTTY cmd execution failed" 1
          else result_send_blob blob
      end
  end.

(** ** upgrade *)

(** The callback of [plat_upgrade_poll]: its result tells whether to stop. *)
Definition upgrade_status_send (operation percentage : Z) : M world Z :=
  let set_last := modify (λ w, w <| w_last_operation := operation |>) in
  if operation =? UPGRADE_STATE_IDLE then
    _ ← event_firmware_upgrade_send "idle" (-1) None; _ ← set_last; ret 0
  else if operation =? UPGRADE_STATE_DOWNLOAD then
    _ ← event_firmware_upgrade_send "download" percentage None; _ ← set_last; ret 0
  else if operation =? UPGRADE_STATE_INSTALL then
    _ ← event_firmware_upgrade_send "install" (-1) None; _ ← set_last; ret 0
  else if operation =? UPGRADE_STATE_FAIL then
    _ ← event_firmware_upgrade_send "fail" (-1) None; _ ← set_last; ret 1
  else if operation =? UPGRADE_STATE_SUCCESS then
    last ← gets w_last_operation;
    _ ← when (last =? UPGRADE_STATE_DOWNLOAD)
          (event_firmware_upgrade_send "install" (-1) None);
    _ ← event_firmware_upgrade_send "success" (-1) None;
    r ← plat CReboot;
    _ ← when (negb (r =? 0)) (UC_LOG_ERR "reboot failed");
    ret 1
  else
    _ ← UC_LOG_ERR "Got unsupported upgrade state (%d)"; ret 0.

Definition upgrade_handle (rpc : rpc_t) : M world unit :=
  let uri := param rpc "uri" in
  if negb (non_null (param rpc "serial")) then
    _ ← UC_LOG_ERR "upgrade message is missing serial";
    reply_action rpc 1 "invalid parameters" 1
  else if negb (non_null uri) then
    _ ← UC_LOG_ERR "upgrade message is missing uri";
    reply_action rpc 1 "invalid parameters" 1
  else
    match string_value uri with
    | None =>
        _ ← UC_LOG_ERR "upgrade message has invalid uril";
        reply_action rpc 1 "invalid parameters" 1
    | Some parsed_uri =>
        r ← plat (CUpgrade parsed_uri (string_value (param rpc "FWsignature")));
        if negb (r =? 0) then
          _ ← UC_LOG_ERR "upgrade failed";
          reply_action rpc 1 "upgrade failed" 1
        else
          _ ← reply_action rpc 0 "upgrade requested successfully" 0;
          plat_ (CUpgradePoll 1)
    end.

(** ** telemetry *)
Definition telemetry_handle (rpc : rpc_t) : M world unit :=
  let item := param rpc "interval" in
  let interval := if non_null item then number_value item else dbl_zero in
  if negb (non_null (param rpc "serial"))
     || (dbl_truthy interval && negb (non_null (param rpc "types"))) then
    _ ← UC_LOG_ERR "Telemetry message is missing parameters";
    reply_action rpc 1 "invalid parameters" 1
  else
    _ ← plat_ CTelemetryPollStop;
    let t := mk_metrics_poll (dbl_truthy interval) (d2u 64 interval) in
    _ ← modify (λ w, w <| w_metrics := w_metrics w <| met_telemetry := t |> |>);
    _ ← when (poll_enabled t) (plat_ (CTelemetryPoll (to_int (poll_interval t))));
    reply_action rpc 0 "Telemetry configure requested successfully" 0.
End handlers.
