(* ===== verification/Dispatch.v ===== *)
(** * Scripts, the generic handler and the dispatcher of [proto.c] *)

From S2P Require Import Prelude CNum CStr Bitmap Router Json PlatTypes World ProtoConv Messages CfgServices CfgParse Handlers.

Section dispatch.
Context `{J : CJson, P : Platform, T : CTarget, L : CLibc, E : EstClient}.

(** ** Uploads with libcurl

    The preparatory calls that may return NULL, then the request. *)
Definition curl_upload_form (url data : string) : M world bool :=
  curl ← alloc;
  if negb curl then ret false
  else
    multipart ← alloc;
    if negb multipart then ret false
    else
      part1 ← alloc;
      if negb part1 then ret false
      else
        part2 ← alloc;
        if negb part2 then ret false
        else
          _ ← emit (EvUpload url data);
          res ← http;
          if non_null res then ret true
          else _ ← UC_LOG_ERR "Uploading script output failed. URL=%s res=%d"; ret false.

Definition curl_upload_diagnostic_form (url file_path : string) : M world bool :=
  curl ← alloc;
  if negb curl then _ ← UC_LOG_ERR "Failed to init curl"; ret false
  else
    _ ← emit (EvUpload url file_path);
    res ← http;
    if non_null res then ret true
    else _ ← UC_LOG_ERR "Uploading diagnostics failed. URL=%s FILE=%s res=%d"; ret false.

(** ** script *)

(** [if (c->uri && upload(...)) UC_LOG_ERR(...)] *)
Definition upload_result (uri : option string) (upload : string → M world bool) : M world unit :=
  match uri with
  | None => ret tt
  | Some u => ok ← upload u; when (negb ok) (UC_LOG_ERR "Upload failed")
  end.

Definition script_result_text (sres : run_script_result) (uri : option string) : string :=
  if negb (non_null uri) then sres_stdout_string sres
  else if sres_timeout_exceeded sres then "timed out"
  else if negb (sres_exit_status sres =? 0) then "error" else "done".

(** The callback of [plat_run_script]; [id] and [uri] are its context. *)
Definition script_result_cb (err : Z) (sres : run_script_result) (id : Z) (uri : option string)
    : M world unit :=
  if negb (err =? 0) then action_reply 1 "failed to execute script" 1 (wrap 32 id)
  else
    let e := if sres_timeout_exceeded sres then 255 else wrap 32 (sres_exit_status sres) in
    let out := sres_stdout_string sres in
    _ ← (if sres_type sres =? PLAT_SCRIPT_TYPE_SHELL then
           upload_result uri (λ u, curl_upload_form u out)
         else if sres_type sres =? PLAT_SCRIPT_TYPE_DIAGNOSTICS then
           upload_result uri (λ u, curl_upload_diagnostic_form u out)
         else UC_LOG_ERR "Invalid script type %u");
    script_reply e (script_result_text sres uri) (wrap 32 (to_int id)).

(** [c->uri] is read after [plat_run_script] returned, when the thread it
    started may have called back already: the callback frees [c]. *)
Definition script_plat_handle (script : option string) (type : string) (uri : option string)
    (timeout : option Z) (id : double) : M world unit :=
  let t := if streq "diagnostic" type then Some PLAT_SCRIPT_TYPE_DIAGNOSTICS
           else if non_null script && streq "shell" type then Some PLAT_SCRIPT_TYPE_SHELL
           else None in
  match t with
  | None => action_reply 1 "invalid parameters" 1 (d2u 32 id)
  | Some t =>
      c ← alloc;
      if negb c then ret tt
      else
        uri ← match uri with
              | None => ret None
              | Some u => b ← alloc; ret (if (b : bool) then Some u else None)
              end;
        r ← plat (CRunScript t script (default 30 timeout) (d2u 64 id) uri);
        if negb (r =? 0) then
          _ ← UC_LOG_ERR "plat_run_script failed";
          action_reply 1 "failed to start execution" 1 (d2u 32 id)
        else
          freed ← gets (λ w, plat_script_done (w_plat w));
          if (freed : bool) then faulty UseAfterFree
          else when (non_null uri) (script_reply 0 "pending" (d2u 32 id))
  end.

(** The platform does not come to the end of a script before the handler that
    started it returns. *)
Definition script_in_time (w : world) : Prop := ∀ type script timeout id uri,
  plat_script_done (plat_do (CRunScript type script timeout id uri) (w_plat w)).2 = false.

Definition script_handle (rpc : rpc_t) : M world unit :=
  let serial := jobj_str_get (rpc_params rpc) "serial" in
  let script := jobj_str_get (rpc_params rpc) "script" in
  let type := jobj_str_get (rpc_params rpc) "type" in
  let timeout := param rpc "timeout" in
  let uri := param rpc "uri" in
  let id := request_id rpc in
  match serial, type with
  | Some _, Some type =>
      if (non_null timeout && negb (is_number timeout))
         || (non_null uri && negb (is_string uri))
      then action_reply 1 "invalid parameters" 1 (d2u 32 id)
      else
        let t := if non_null timeout then d2s 64 (number_value timeout) else 0 in
        script_plat_handle script type (string_value uri) (Some t) id
  | _, _ => action_reply 1 "invalid parameters" 1 (d2u 32 id)
  end.

(** ** Everything else *)
Definition generic_handle (rpc : rpc_t) : M world unit :=
  send_or alloc_failed (success_reply (request_id rpc)).

(** ** The dispatcher *)
Definition rpc_of (blob : json) : rpc_t :=
  let f := get_item (Some blob) in
  mk_rpc _ (f "jsonrpc") (f "method") (f "error") (f "params") (f "id") (f "radius").

Definition method_table : list (string * (rpc_t → M world unit)) :=
  [("configure", configure_handle); ("ping", ping_handle); ("reboot", reboot_handle);
   ("reenroll", reenroll_handle); ("factory", factory_handle); ("rtty", rtty_handle);
   ("upgrade", upgrade_handle); ("telemetry", telemetry_handle); ("script", script_handle)].

Definition dispatch (method : string) : rpc_t → M world unit :=
  default generic_handle (table_find streq method_table method).

Definition invalid_call : M world unit := log_send "received invalid jsonrpc call" LOG_ERR.

(** The texts of [jsonrpc] and [method] go to [strcmp] untested. *)
Definition proto_handle_blob (blob : json) : M world unit :=
  let rpc := rpc_of blob in
  if negb (non_null (rpc_ver rpc))
     || (negb (non_null (rpc_method rpc)) && negb (non_null (rpc_error rpc)))
     || (non_null (rpc_method rpc) && negb (non_null (rpc_params rpc)))
  then invalid_call
  else
    ver ← deref (string_value (rpc_ver rpc));
    if negb (streq ver "2.0") then invalid_call
    else if non_null (rpc_method rpc) then
      method ← deref (string_value (rpc_method rpc));
      dispatch method rpc
    else ret tt.

Definition proto_handle (cmd : string) : M world unit :=
  match cJSON_Parse cmd with
  | None => UC_LOG_ERR "Failed to parse cmd"
  | Some obj => proto_handle_blob obj
  end.

Definition proto_start : M world unit := plat_ CEventSubscribe.

Definition proto_stop : M world unit :=
  _ ← plat_ CEventUnsubscribe;
  _ ← plat_ CStatePollStop;
  _ ← plat_ CHealthPollStop;
  _ ← plat_ CTelemetryPollStop;
  plat_ CUpgradePollStop.
End dispatch.
