(* ===== verification/Replies.v ===== *)
(** * The exact messages, when memory does not run out

    [obj] writes a JSON object as the list of its members.  With no allocation
    failing, each message function appends exactly one message to the output
    and changes nothing else. *)

From S2P Require Import Prelude CNum CStr Bitmap Router Json PlatTypes World Frame ProtoConv Messages Handlers.

Section replies.
Context `{J : CJson, P : Platform, T : CTarget}.

(** Every allocation to come succeeds. *)
Definition no_oom (w : world) : Prop := w_heap w = [].

Definition obj (l : list (string * json)) : json :=
  fold_left (λ o kv, cJSON_AddToObject o kv.1 kv.2) l cJSON_CreateObject.
Definition str : string → json := cJSON_CreateString.
Definition num (n : Z) : json := cJSON_CreateNumber (dbl_of_Z n).

Definition request_msg (c : client_id) (method : string) (params : list (string * json)) : json :=
  obj [("jsonrpc", str "2.0"); ("method", str method);
       ("params", obj (("serial", str (cl_serial c)) :: params))].

Definition reply_msg (c : client_id) (id : double) (uuid : Z) (status : list (string * json))
    : json :=
  obj [("jsonrpc", str "2.0"); ("id", cJSON_CreateNumber id);
       ("result", obj [("serial", str (cl_serial c)); ("uuid", num uuid); ("status", obj status)])].

Definition configure_msg c (error : Z) (text : string) (uuid : Z) (id : double) : json :=
  reply_msg c id uuid [("text", str text); ("error", num error)].
Definition action_msg c (uuid : Z) (error : Z) (text : string) (retcode id : Z) : json :=
  reply_msg c (dbl_of_Z id) uuid
    [("error", num error); ("text", str text); ("resultCode", num retcode)].
Definition success_msg c (uuid : Z) (id : double) : json :=
  reply_msg c id uuid [("text", str "Success"); ("error", num 0)].
Definition upgrade_msg c (now : Z) (operation : string) (percentage : Z) : json :=
  request_msg c "event" [("data", obj [("event",
    cJSON_AddToArray (cJSON_AddToArray cJSON_CreateArray (num now))
      (obj [("type", str "firmware_upgrade_status");
            ("payload", obj (("operation", str operation) ::
               (if 0 <=? percentage then [("percentage", num percentage)] else [])))]))])].

Ltac sends := let H := fresh in
  intros H; match goal with |- context [?f = Ok tt (add_event _ ?w)] => destruct w end;
  unfold no_oom in H; simpl in H; subst; reflexivity.

Lemma configure_reply_sends e t u id w :
  no_oom w →
  configure_reply e t u id w = Ok tt (add_event (EvSend (configure_msg (w_client w) e t u id)) w).
Proof. sends. Qed.

Lemma action_reply_sends e t r id w :
  no_oom w → action_reply e t r id w =
    Ok tt (add_event (EvSend (action_msg (w_client w) (w_uuid_active w) e t r id)) w).
Proof. sends. Qed.

Lemma script_reply_sends e t id w :
  no_oom w → script_reply e t id w =
    Ok tt (add_event (EvSend (reply_msg (w_client w) (dbl_of_Z id) (w_uuid_active w)
                                [("error", num e); ("result", str t)])) w).
Proof. sends. Qed.

Lemma log_send_sends m s w :
  no_oom w → log_send m s w =
    Ok tt (add_event (EvSend (request_msg (w_client w) "log"
                                [("log", str m); ("severity", num s)])) w).
Proof. sends. Qed.

Lemma deviceupdate_sends p w :
  no_oom w → deviceupdate_send (Some p) w =
    Ok tt (add_event (EvSend (request_msg (w_client w) "deviceupdate"
                                [("currentPassword", str p)])) w).
Proof. sends. Qed.

Lemma success_reply_builds id w :
  no_oom w → success_reply id w = Ok (success_msg (w_client w) (w_uuid_active w) id) w.
Proof. intros H. destruct w. unfold no_oom in H. simpl in H. by subst. Qed.

Lemma upgrade_event_sends op n w :
  no_oom w → event_firmware_upgrade_send op n None w =
    Ok tt (add_event (EvSend (upgrade_msg (w_client w) (w_now w) op n)) w).
Proof.
  intros H. destruct w. unfold no_oom in H. simpl in H. subst.
  unfold upgrade_msg, event_firmware_upgrade_send. by destruct (0 <=? n).
Qed.

(** The same as a rule. *)
Lemma wp_of_eq {A} (m : M world A) a w w' (Q : A → world → Prop) E F :
  m w = Ok a w' → Q a w' → wp m Q E F w.
Proof. intros H HQ. unfold wp. by rewrite H. Qed.

Lemma wp_plat_ k (Q : unit → world → Prop) Er F w :
  (∀ r p, Q tt (add_event (EvCall k r) (w <| w_plat := p |>))) → wp (plat_ k) Q Er F w.
Proof. intros HQ. unfold plat_. apply wp_bind, wp_plat. intros r p _. apply wp_ret, HQ. Qed.

(** Projections of a piece of output. *)
Definition calls_of (es : list event) : list plat_call :=
  omap (λ e, match e with EvCall c _ => Some c | _ => None end) es.
Definition sends_of (es : list event) : list json :=
  omap (λ e, match e with EvSend j => Some j | _ => None end) es.

(** Relating a state to what was output since. *)
Definition outputs (w : world) (es : list event) (w' : world) : Prop :=
  w_out w' = (w_out w ++ es)%list.

Lemma outputs_nil w w' : w_out w' = w_out w → outputs w [] w'.
Proof. unfold outputs. by rewrite app_nil_r. Qed.
Lemma outputs_trans w es w1 es1 w2 :
  outputs w es w1 → outputs w1 es1 w2 → outputs w (es ++ es1)%list w2.
Proof. unfold outputs. intros H1 H2. by rewrite H2, H1, app_assoc. Qed.

(** The calls made and the messages sent between two states. *)
Definition effect (w : world) (calls : list plat_call) (sends : list json) (w' : world) : Prop :=
  ∃ es, outputs w es w' ∧ calls_of es = calls ∧ sends_of es = sends.
End replies.

(** Closes [effect] goals whose states are explicit. *)
Ltac effect_done :=
  eexists; split; [unfold outputs; simpl; rewrite <- ?app_assoc; simpl; first [reflexivity|symmetry; apply app_nil_r]|done].

(** The rule for the message at the head of the goal; the state is [no_oom]
    because no step changed its list of allocations. *)
Ltac send_step :=
  lazymatch goal with
  | |- wp (configure_reply _ _ _ _) _ _ _ _ => eapply wp_of_eq; [by apply configure_reply_sends|]
  | |- wp (action_reply _ _ _ _) _ _ _ _ => eapply wp_of_eq; [by apply action_reply_sends|]
  | |- wp (script_reply _ _ _) _ _ _ _ => eapply wp_of_eq; [by apply script_reply_sends|]
  | |- wp (log_send _ _) _ _ _ _ => eapply wp_of_eq; [by apply log_send_sends|]
  | |- wp (deviceupdate_send (Some _)) _ _ _ _ => eapply wp_of_eq; [by apply deviceupdate_sends|]
  | |- wp (success_reply _) _ _ _ _ => eapply wp_of_eq; [by apply success_reply_builds|]
  | |- wp (event_firmware_upgrade_send _ _ None) _ _ _ _ =>
      eapply wp_of_eq; [by apply upgrade_event_sends|]
  end.
