(* ===== verification/Connect.v ===== *)
(** * The connect message ([proto.c])

    [connect_send] is the first message of a session: it restores the active
    configuration id and the metrics, consumes the password left by a pending
    password change and reports the capabilities. *)

From S2P Require Import Prelude CNum CStr Bitmap Router Json PlatTypes World ProtoConv Messages.
From Stdlib Require Import Ascii.

(** ** [sscanf(serial, "%2x%2x%2x%2x%2x%2x", ...)] and its inverse *)
Definition hex_val (c : ascii) : option Z :=
  let n := Z.of_N (N_of_ascii c) in
  if (48 <=? n) && (n <=? 57) then Some (n - 48)
  else if (97 <=? n) && (n <=? 102) then Some (n - 87)
  else if (65 <=? n) && (n <=? 70) then Some (n - 55)
  else None.

(** The digits of one conversion: the value and the rest, [None] without any.
    [width] characters are left; a leading 0x counts as digits. *)
Fixpoint hex_digits (width : nat) (acc : option Z) (s : string) : option (Z * string) :=
  match width, s with
  | S width', String c r =>
      match hex_val c with
      | Some d => hex_digits width' (Some (default 0 acc * 16 + d)) r
      | None => match acc with Some v => Some (v, s) | None => None end
      end
  | _, _ => match acc with Some v => Some (v, s) | None => None end
  end.

Definition is_ascii (n : N) (c : ascii) : bool := (N_of_ascii c =? n)%N.

Definition scan_2x (s : string) : option (Z * string) :=
  match skip_space s with
  | String c r =>
      if is_ascii 43 c then hex_digits 1 None r
      else if is_ascii 45 c then
        match hex_digits 1 None r with Some (v, r) => Some (wrap 32 (- v), r) | None => None end
      else if is_ascii 48 c then
        match r with
        | String x r' => if is_ascii 120 x || is_ascii 88 x then Some (0, r')
                         else hex_digits 1 (Some 0) r
        | EmptyString => Some (0, EmptyString)
        end
      else hex_digits 2 None (String c r)
  | EmptyString => None
  end.

Fixpoint scan_mac (n : nat) (s : string) : option (list Z) :=
  match n with
  | O => Some []
  | S n =>
      match scan_2x s with
      | Some (v, r) => match scan_mac n r with Some l => Some (v :: l) | None => None end
      | None => None
      end
  end.

Definition hex_char (d : Z) : ascii := ascii_of_N (Z.to_N (if d <? 10 then 48 + d else 87 + d)).
Fixpoint hex_aux (fuel : nat) (n : Z) (acc : string) : string :=
  match fuel with
  | O => acc
  | S fuel =>
      let acc := String (hex_char (n mod 16)) acc in
      if n / 16 =? 0 then acc else hex_aux fuel (n / 16) acc
  end.
(** [%02x] of an unsigned int. *)
Definition hex_02x (n : Z) : string :=
  if n <? 16 then String (hex_char 0) (String (hex_char n) EmptyString)
  else hex_aux 8 n EmptyString.

Fixpoint mac_text (mac : list Z) : string :=
  match mac with
  | [] => EmptyString
  | [b] => hex_02x b
  | b :: mac => hex_02x b +:+ ":" +:+ mac_text mac
  end.

(** [snprintf] into [label_mac[32]]. *)
Definition label_mac (mac : list Z) : string := c_snprintf_s 32 (mac_text mac).

Section connect.
Context `{J : CJson, P : Platform}.

(** [malloc] is not tested: a failed one is a NULL buffer given to [fread]. *)
Definition readJsonFile (filename : string) : M world (option json) :=
  files ← gets w_files;
  match files !! filename with
  | None => ret None
  | Some text =>
      b ← alloc;
      if (b : bool) then ret (cJSON_Parse text) else faulty NullDeref
  end.

Definition add_password (params : json) : M world json :=
  password ← gets w_password;
  match password with
  | None => ret params
  | Some p =>
      params ← add_str "password" p params;
      _ ← modify (λ w, w <| w_password := None |>);
      ret params
  end.

Definition add_versions (ver : json) : M world json :=
  c ← gets w_client;
  client_version ← readJsonFile (cl_ols_client_version_file c);
  match client_version with
  | None => fail
  | Some v =>
      ver ← add "switch" v ver;
      schema_version ← readJsonFile (cl_ols_schema_version_file c);
      match schema_version with
      | None => ret ver
      | Some v => add "schema" v ver
      end
  end.

(** The metrics saved by the last applied configuration are back in force.
    The telemetry poll is neither stopped nor started here. *)
Definition restore_metrics : M world unit :=
  '(r, m) ← plat_read plat_metrics_restore;
  if negb (r =? 0) then ret tt
  else
    _ ← modify (λ w, w <| w_metrics := m |>);
    _ ← plat_ CStatePollStop;
    _ ← plat_ CHealthPollStop;
    _ ← when (mst_enabled (met_state m))
          (plat_ (CStatePoll (to_int (mst_interval (met_state m)))));
    when (poll_enabled (met_healthcheck m))
      (plat_ (CHealthPoll (to_int (poll_interval (met_healthcheck m))))).

(** [ver] is filled while [cap] already holds it as its first member. *)
Definition add_capabilities (cap : json) : M world json :=
  ver ← new_object;
  '(r, pinfo) ← plat_read plat_info_get;
  _ ← when (negb (r =? 0)) (emit (EvLog 2 "failed to get platform info"));
  c ← gets w_client;
  _ ← alloc_or_fail;
  _ ← alloc_or_fail;
  ver ← add_versions ver;
  let cap := cJSON_AddToObject cap "version" ver in
  let cap := cJSON_AddToObject cap "serial" (cJSON_CreateString (cl_serial c)) in
  let cap := cJSON_AddToObject cap "firmware" (cJSON_CreateString (cl_firmware c)) in
  cap ← add_str "compatible" (pinfo_hwsku pinfo) cap;
  cap ← add_str "model" (pinfo_platform pinfo) cap;
  cap ← add_str "platform" "switch" cap;
  match scan_mac 6 (cl_serial c) with
  | Some mac => add_str "label_macaddr" (label_mac mac) cap
  | None => ret cap
  end.

Definition connect_body : M world json :=
  k ← proto_new_blob "connect";
  '(r, uuid_buf) ← plat_read plat_saved_config_id_get;
  let uuid_active := if negb (r =? 0) then 1 else wrap_signed 64 uuid_buf in
  _ ← modify (λ w, w <| w_uuid_active := uuid_active |>);
  c ← gets w_client;
  params ← add_str "serial" (cl_serial c) cJSON_CreateObject;
  params ← add_str "firmware" (cl_firmware c) params;
  params ← add_num "uuid" uuid_active params;
  params ← add_password params;
  params ← add_object "capabilities" add_capabilities params;
  _ ← restore_metrics;
  ret (k params).

Definition connect_send : M world unit :=
  r ← try connect_body;
  match r with Some j => send_connect_blob j | None => alloc_failed end.
End connect.
