(* ===== verification/Events.v ===== *)
(** * Event messages ([proto.c])

    The callbacks [proto_start] gives to the platform, and the reboot cause.
    The four events share their shape: an array of the time stamp and of an
    object with a type and a one-member payload. *)

From S2P Require Import Prelude CNum CStr Bitmap Router Json PlatTypes World ProtoConv Messages.

(** The statuses and fault codes in the order of the enums, with the type of
    the event; fault code 0 (no error) has none. *)
Definition poe_linkstatus_table : list (Z * string) :=
  [(0, "wired.poe.status.disabled"); (1, "wired.poe.status.searching");
   (2, "wired.poe.status.delivering_power"); (3, "wired.poe.status.overload");
   (4, "wired.poe.status.fault")].

Definition poe_faultcode_table : list (Z * string) :=
  [(1, "wired.poe.fault.ovlo"); (2, "wired.poe.fault.mps_absent");
   (3, "wired.poe.fault.short"); (4, "wired.poe.fault.overload");
   (5, "wired.poe.fault.power_denied"); (6, "wired.poe.fault.thermal_shutdown");
   (7, "wired.poe.fault.startup_failure"); (8, "wired.poe.fault.uvlo");
   (9, "wired.poe.fault.hw_pin_disable"); (10, "wired.poe.fault.port_undefined");
   (11, "wired.poe.fault.internal_hw_fault"); (12, "wired.poe.fault.user_setting");
   (13, "wired.poe.fault.non_standard_pd"); (14, "wired.poe.fault.underload");
   (15, "wired.poe.fault.pwr_budget_exceeded"); (16, "wired.poe.fault.oor_capacitor_value");
   (17, "wired.poe.fault.class_error")].

Definition reboot_cause_table : list (Z * string) :=
  [(0, "device.reboot"); (1, "device.powerloss"); (2, "device.crash");
   (3, "device.reboot-cause-unavailable")].

Record plat_alarm := mk_plat_alarm {
  alarm_id : option string;
  alarm_resource : option string;
  alarm_text : option string;
  alarm_time_created : Z;
  alarm_type_id : option string;
  alarm_severity : Z
}.

Section events.
Context `{J : CJson, P : Platform}.

(** [severity] is an [int] widened to [uintmax_t]. *)
Definition alarm_plat_cb (a : plat_alarm) : M world unit :=
  send_or (ret tt) (
    k ← proto_new_blob "alarm";
    params ← add_serial cJSON_CreateObject;
    params ← add_object "data" (λ data,
      data ← add_str_opt "id" (alarm_id a) data;
      data ← add_str_opt "resource" (alarm_resource a) data;
      data ← add_str_opt "text" (alarm_text a) data;
      data ← add_str "time_created" (dec (wrap 64 (alarm_time_created a))) data;
      data ← add_str_opt "type_id" (alarm_type_id a) data;
      add_str "severity" (dec (wrap 64 (alarm_severity a))) data) params;
    ret (k params)).

(** [None] is the value the [switch] rejects. *)
Definition event_send (ts : Z) (add_type : json → M world json) (key : string)
    (value : option string) : M world unit :=
  send_or (ret tt) (
    k ← proto_new_blob "event";
    params ← add_serial cJSON_CreateObject;
    params ← add_object "data" (add_array "event" (λ events,
      events ← push (cJSON_CreateRaw (dec_signed (wrap_signed 64 ts))) events;
      event ← new_object;
      event ← add_type event;
      event ← add_object "payload" (add_str_opt key value) event;
      ret (cJSON_AddToArray events event))) params;
    ret (k params)).

Definition linkstatus_plat_cb (timestamp : Z) (ifname : option string) (up : bool)
    : M world unit :=
  event_send timestamp
    (add_str "type" (if up then "wired.carrier-up" else "wired.carrier-down"))
    "name" ifname.

(** No default case: another status leaves the event without a type. *)
Definition poe_linkstatus_plat_cb (timestamp : Z) (ifname : option string) (status : Z)
    : M world unit :=
  event_send timestamp
    (λ event, match table_find Z.eqb poe_linkstatus_table status with
              | Some t => add_str "type" t event
              | None => ret event
              end)
    "name" ifname.

Definition poe_link_faultcode_plat_cb (timestamp : Z) (ifname : option string) (faultcode : Z)
    : M world unit :=
  event_send timestamp
    (λ event, match table_find Z.eqb poe_faultcode_table faultcode with
              | Some t => add_str "type" t event
              | None => fail
              end)
    "name" ifname.

Definition device_rebootcause_send : M world unit :=
  '(r, cause) ← plat_read plat_reboot_cause_get;
  if negb (r =? 0) then ret tt
  else
    let '(c, ts, desc) := cause in
    event_send ts
      (λ event, match table_find Z.eqb reboot_cause_table c with
                | Some t => add_str "type" t event
                | None => fail
                end)
      "description" (Some desc).
End events.
