(* ===== verification/State.v ===== *)
(** * The state report of [proto.c]

    The data the platform reports ([include/ucentral-platform.h], the
    [plat_state_info] structs; an array with its count is a list) and the
    functions that turn it into the [state] object: interfaces, link state,
    LLDP peers, the MAC table, unit, gateways, public address.

    Member objects are created in the order of the code and attached, in that
    order too, once they are filled. *)

From S2P Require Import Prelude CNum CStr Bitmap Router Json PlatTypes World ProtoConv Messages.

Record plat_port_counters := mk_plat_port_counters {
  ctr_collisions : Z;
  ctr_multicast : Z;
  ctr_rx_bytes : Z;
  ctr_rx_dropped : Z;
  ctr_rx_error : Z;
  ctr_rx_packets : Z;
  ctr_tx_bytes : Z;
  ctr_tx_dropped : Z;
  ctr_tx_error : Z;
  ctr_tx_packets : Z
}.

(** [mgmt_ips] has UCENTRAL_PORT_LLDP_PEER_INFO_MAX_MGMT_IPS entries. *)
Record plat_port_lldp_peer_info := mk_plat_port_lldp_peer_info {
  lldp_is_bridge : bool;
  lldp_is_router : bool;
  lldp_is_wlan_ap : bool;
  lldp_is_station : bool;
  lldp_name : string;
  lldp_mac : string;
  lldp_description : string;
  lldp_mgmt_ips : list string;
  lldp_port : string
}.

Record plat_poe_state := mk_plat_poe_state {
  poes_max_power_budget : Z;
  poes_power_threshold : Z;
  poes_power_consumed : Z;
  poes_power_status : string
}.

Record plat_poe_port_state := mk_plat_poe_port_state {
  poep_status : string;
  poep_fault_status : string;
  poep_output_voltage : string;
  poep_temperature : string;
  poep_output_power : Z;
  poep_output_current : Z;
  poep_class_requested : Z;
  poep_class_assigned : Z;
  poep_overload : Z;
  poep_shorted : Z;
  poep_power_denied : Z;
  poep_absent : Z;
  poep_invalid_signature : Z
}.

Definition zero_plat_poe_port_state : plat_poe_port_state :=
  mk_plat_poe_port_state EmptyString EmptyString EmptyString EmptyString 0 0 0 0 0 0 0 0 0.

(** [plat_ieee8021x_authenticated_client_info] *)
Record ieee8021x_client_info := mk_ieee8021x_client_info {
  cli_auth_method : string;
  cli_mac_addr : string;
  cli_session_time : Z;
  cli_username : string;
  cli_vlan_type : string;
  cli_vid : Z
}.

Record plat_port_transceiver_info := mk_plat_port_transceiver_info {
  sfp_vendor_name : string;
  sfp_part_number : string;
  sfp_serial_number : string;
  sfp_revision : string;
  sfp_form_factor : Z;
  sfp_supported_link_modes : list Z;
  sfp_temperature : double;
  sfp_tx_optical_power : double;
  sfp_rx_optical_power : double;
  sfp_max_module_power : double
}.

(** An [option] stands for a [has_*] flag and its member. *)
Record plat_port_info := mk_plat_port_info {
  pi_stats : plat_port_counters;
  pi_lldp_peer_info : option plat_port_lldp_peer_info;
  pi_ieee8021x_info : list ieee8021x_client_info;
  pi_transceiver_info : option plat_port_transceiver_info;
  pi_uptime : Z;
  pi_speed : Z;
  pi_carrier_up : bool;
  pi_duplex : bool;
  pi_name : string
}.

Record plat_system_info := mk_plat_system_info {
  sys_localtime : Z;
  sys_uptime : Z;
  sys_ram_buffered : Z;
  sys_ram_cached : Z;
  sys_ram_free : Z;
  sys_ram_total : Z;
  sys_load_average : list double
}.

(** [plat_iee8021x_coa_counters] *)
Record coa_counters := mk_coa_counters {
  coa_req_received : Z;
  coa_ack_sent : Z;
  coa_nak_sent : Z;
  coa_ignored : Z;
  coa_wrong_attr : Z;
  coa_wrong_attr_value : Z;
  coa_wrong_session_context : Z;
  coa_administratively_prohibited_req : Z
}.

Record plat_gw_address := mk_plat_gw_address {
  gw_ip : Z;
  gw_metric : Z;
  gw_port : string;
  gw_mac : string
}.

Record plat_learned_mac_addr := mk_plat_learned_mac_addr {
  lm_port : string;
  lm_vid : Z;
  lm_mac : string
}.

Record plat_state_info := mk_plat_state_info {
  si_poe_state : plat_poe_state;
  si_poe_ports_state : gmap Z plat_poe_port_state;
  si_poe_ports_bmap : bitmap;
  si_port_info : list plat_port_info;
  si_vlan_info : list plat_port_vlan;
  si_learned_mac_list : list plat_learned_mac_addr;
  si_gw_addr_list : list plat_gw_address;
  si_system_info : plat_system_info;
  si_ieee8021x_global_coa_counters : coa_counters
}.

(** The name tables of [state_fill_transceiver_info]. *)
Definition form_factor : list string :=
  [EmptyString; "SFP"; "SFP+"; "SFP28"; "SFP-DD"; "QSFP"; "QSFP+"; "QSFP28"; "QSFP-DD"].
Definition link_mode : list string :=
  [EmptyString; "1G"; "2.5G"; "4G SR"; "10G SR"; "25G SR"; "40G SR"; "50G SR"; "100G SR"].

Section state.
Context `{J : CJson, P : Platform, L : CLibc}.

(** A run of members of one kind. *)
Definition add_nums (l : list (string * Z)) (o : json) : M world json :=
  fold_m (λ o kv, add_num kv.1 kv.2 o) l o.
Definition add_strs (l : list (string * string)) (o : json) : M world json :=
  fold_m (λ o kv, add_str kv.1 kv.2 o) l o.
Definition add_u64s (l : list (string * Z)) (o : json) : M world json :=
  fold_m (λ o kv, jobj_u64_set kv.1 kv.2 o) l o.
Definition push_strs (l : list string) (a : json) : M world json :=
  fold_m (λ a s, push (cJSON_CreateString s) a) l a.

(** ** Interfaces *)
Definition state_fill_interface_ipv4 (ipv4 : json) : M world json := ret ipv4.
Definition state_fill_interface_dns_servers (dns_servers : json) : M world json := ret dns_servers.
Definition state_fill_interface_clients (clients : json) : M world json := ret clients.

Definition state_fill_vlan_ipv4 (root : json) (vlan : plat_port_vlan) : M world json :=
  address_list ← new_array;
  _ ← alloc_or_fail;
  address_list ←
    (if ip4_exist (vlan_ipv4 vlan) then
       push (cJSON_CreateString (inet_ntop (ip4_subnet (vlan_ipv4 vlan)))) address_list
     else ret address_list);
  ret (cJSON_AddToObject root "addresses" address_list).

Definition state_fill_interface_counters (s : plat_port_counters) (counters : json)
    : M world json :=
  add_nums [("collisions", ctr_collisions s); ("multicast", ctr_multicast s);
            ("rx_bytes", ctr_rx_bytes s); ("rx_dropped", ctr_rx_dropped s);
            ("rx_error", ctr_rx_error s); ("rx_packets", ctr_rx_packets s);
            ("tx_bytes", ctr_tx_bytes s); ("tx_dropped", ctr_tx_dropped s);
            ("tx_error", ctr_tx_error s); ("tx_packets", ctr_tx_packets s)] counters.

(** An array of names indexed by an enum value. *)
Definition name_at (names : list string) (i : Z) : M world string :=
  of_option OutOfBounds (names !! Z.to_nat i).

Definition state_fill_transceiver_info (info : plat_port_transceiver_info) (root : json)
    : M world json :=
  root ← add_strs [("vendor-name", sfp_vendor_name info); ("part-number", sfp_part_number info);
                   ("serial-number", sfp_serial_number info); ("revision", sfp_revision info)] root;
  root ← add_dbl "temperature" (sfp_temperature info) root;
  root ← add_dbl "tx-optical-power" (sfp_tx_optical_power info) root;
  root ← add_dbl "rx-optical-power" (sfp_rx_optical_power info) root;
  root ← add_dbl "max-module-power" (sfp_max_module_power info) root;
  ff ← name_at form_factor (sfp_form_factor info);
  root ← add_str "form-factor" ff root;
  add_array "supported-link-modes"
    (fold_m (λ a m, n ← name_at link_mode m; push (cJSON_CreateString n) a)
       (sfp_supported_link_modes info)) root.

Definition igmp_group_json (groups : list igmp_group) (enabled_groups : json) (idx : nat)
    : M world json :=
  group ← new_object;
  g ← of_option OutOfBounds (groups !! idx);
  group ← add_str "address" (inet_ntop (grp_addr g)) group;
  group ← add_array "egress-ports" (push_strs (grp_egress_ports g)) group;
  ret (cJSON_AddToArray enabled_groups group).

Definition state_fill_interface_multicast (vlan : plat_port_vlan) (root : json) : M world json :=
  let igmp := vlan_igmp vlan in
  if negb (igmp_exist igmp) then ret root
  else
    add_object "igmp" (add_array "enabled-groups"
      (fold_m (igmp_group_json (igmp_groups igmp))
         (seq 0 (Z.to_nat (igmp_num_groups igmp))))) root.

(** [id] keeps the number of the previous port when a name does not scan;
    [location] has room for 17 bytes. *)
Definition port_interface (uptime : Z) (st : json * option Z) (info : plat_port_info)
    : M world (json * option Z) :=
  let '(interfaces, id) := st in
  interface ← new_object;
  clients ← new_array;
  counters ← new_object;
  dns_servers ← new_array;
  ipv4 ← new_object;
  transceiver ←
    match pi_transceiver_info info with
    | None => ret None
    | Some t => o ← new_object; o ← state_fill_transceiver_info t o; ret (Some o)
    end;
  clients ← state_fill_interface_clients clients;
  counters ← state_fill_interface_counters (pi_stats info) counters;
  dns_servers ← state_fill_interface_dns_servers dns_servers;
  ipv4 ← state_fill_interface_ipv4 ipv4;
  let interface := cJSON_AddToObject interface "clients" clients in
  let interface := cJSON_AddToObject interface "counters" counters in
  let interface := cJSON_AddToObject interface "dns_servers" dns_servers in
  let interface := cJSON_AddToObject interface "ipv4" ipv4 in
  let interface := match transceiver with
                   | Some t => cJSON_AddToObject interface "transceiver-info" t
                   | None => interface
                   end in
  interface ← add_str "name" (pi_name info) interface;
  let id := match NAME_TO_PID (pi_name info) with Some p => Some p | None => id end in
  p ← of_option Uninitialised id;
  location ← c_strcpy 17 ("/interfaces/" +:+ dec p);
  interface ← add_str "location" location interface;
  interface ← jobj_u64_set "uptime" uptime interface;
  ret (cJSON_AddToArray interfaces interface, id).

Definition vlan_interface (uptime : Z) (interfaces : json) (vlan : plat_port_vlan)
    : M world json :=
  interface ← new_object;
  clients ← new_array;
  counters ← new_object;
  dns_servers ← new_array;
  ipv4 ← new_object;
  multicast ← new_object;
  ipv4 ← state_fill_vlan_ipv4 ipv4 vlan;
  multicast ← state_fill_interface_multicast vlan multicast;
  location ← c_strcpy 17 ("/SVI/" +:+ dec (vlan_id vlan));
  vlan_name ← c_strcpy 9 ("Vlan" +:+ dec (vlan_id vlan));
  let interface := cJSON_AddToObject interface "clients" clients in
  let interface := cJSON_AddToObject interface "counters" counters in
  let interface := cJSON_AddToObject interface "dns_servers" dns_servers in
  let interface := cJSON_AddToObject interface "ipv4" ipv4 in
  let interface := cJSON_AddToObject interface "multicast" multicast in
  interface ← add_str "name" vlan_name interface;
  interface ← add_str "location" location interface;
  interface ← jobj_u64_set "uptime" uptime interface;
  ret (cJSON_AddToArray interfaces interface).

Definition state_fill_interfaces_data (state : plat_state_info) (interfaces : json)
    : M world json :=
  let uptime := sys_uptime (si_system_info state) in
  '(interfaces, _) ← fold_m (port_interface uptime) (si_port_info state) (interfaces, None);
  fold_m (vlan_interface uptime) (si_vlan_info state) interfaces.

(** ** Link state *)

(** [counters] is the first member; the code fills it last, which only
    permutes allocations whose failure has the same outcome. *)
Definition state_fill_link_state_poe_data (s : plat_poe_port_state) (port : json)
    : M world json :=
  add_object "poe" (λ poe,
    poe ← add_object "counters" (add_nums
            [("overload", poep_overload s); ("short", poep_shorted s);
             ("power-denied", poep_power_denied s); ("absent", poep_absent s);
             ("invalid-signature", poep_invalid_signature s)]) poe;
    poe ← add_nums [("class-requested", poep_class_requested s);
                    ("class-assigned", poep_class_assigned s);
                    ("output-power", poep_output_power s);
                    ("output-current", poep_output_current s)] poe;
    add_strs [("output-voltage", poep_output_voltage s); ("temp", poep_temperature s);
              ("status", poep_status s); ("fault-status", poep_fault_status s)] poe) port.

Definition ieee8021x_client (clients : json) (info : ieee8021x_client_info) : M world json :=
  client ← new_object;
  client ← add_strs [("authenticated-method", cli_auth_method info);
                     ("mac-address", cli_mac_addr info)] client;
  client ← add_num "session-time" (cli_session_time info) client;
  client ← add_strs [("username", cli_username info); ("vlan-type", cli_vlan_type info)] client;
  client ← add_num "vlan-id" (cli_vid info) client;
  ret (cJSON_AddToArray clients client).

(** The error path deletes [root], which [port] owns by then: the caller's
    deletion of the message frees it again.  Only the creation of [root]
    itself fails cleanly. *)
Definition state_fill_link_state_ieee8021x_data (clients : list ieee8021x_client_info)
    (port : json) : M world json :=
  match clients with
  | [] => ret port
  | _ :: _ =>
      root ← new_object;
      arr ← try (a ← new_array; fold_m ieee8021x_client clients a);
      match arr with
      | None => faulty DoubleFree
      | Some a =>
          ret (cJSON_AddToObject port "ieee8021x"
                 (cJSON_AddToObject root "authenticated-clients" a))
      end
  end.

(** [pid] starts at 0 and keeps the previous number when a name does not
    scan. *)
Definition link_state_port (state : plat_state_info) (st : json * Z) (info : plat_port_info)
    : M world (json * Z) :=
  let '(link_upstream, pid) := st in
  let pid := default pid (NAME_TO_PID (pi_name info)) in
  _ ← alloc_or_fail;
  port ← add_object "counters" (state_fill_interface_counters (pi_stats info)) cJSON_CreateObject;
  port ← add_bool "carrier" (pi_carrier_up info) port;
  port ← (if pi_carrier_up info then
            port ← add_num "speed" (pi_speed info) port;
            port ← add_str "duplex" (if pi_duplex info then "full" else "half") port;
            state_fill_link_state_ieee8021x_data (pi_ieee8021x_info info) port
          else ret port);
  has_poe ← bit_test (si_poe_ports_bmap state) pid;
  port ← (if (has_poe : bool) then
            s ← arr_read MAX_NUM_OF_PORTS zero_plat_poe_port_state (si_poe_ports_state state) pid;
            state_fill_link_state_poe_data s port
          else ret port);
  ret (cJSON_AddToObject link_upstream (pi_name info) port, pid).

Definition state_fill_link_state_data (state : plat_state_info) (link_state : json)
    : M world json :=
  add_object "upstream" (λ up,
    '(up, _) ← fold_m (link_state_port state) (si_port_info state) (up, 0); ret up) link_state.

(** ** LLDP peers *)

(** The loop stops at the first empty address. *)
Fixpoint take_nonempty (l : list string) : list string :=
  match l with
  | [] => []
  | s :: l => if slen s =? 0 then [] else s :: take_nonempty l
  end.

Definition lldp_capabilities (p : plat_port_lldp_peer_info) : list string :=
  ((if lldp_is_bridge p then ["Bridge"] else []) ++ (if lldp_is_router p then ["Router"] else [])
  ++ (if lldp_is_wlan_ap p then ["Wlan"] else []) ++ (if lldp_is_station p then ["Station"] else []))%list.

Definition lldp_peer (upstream : json) (port_info : plat_port_info) : M world json :=
  match pi_lldp_peer_info port_info with
  | None => ret upstream
  | Some peer_info =>
      port ← new_array;
      info ← new_object;
      info ← add_array "capability" (push_strs (lldp_capabilities peer_info)) info;
      info ← add_strs [("description", lldp_description peer_info); ("mac", lldp_mac peer_info);
                       ("name", lldp_name peer_info); ("port", lldp_port peer_info)] info;
      info ← match take_nonempty (lldp_mgmt_ips peer_info) with
             | [] => ret info
             | ips => add_array "management_ips" (push_strs ips) info
             end;
      ret (cJSON_AddToObject upstream (pi_name port_info) (cJSON_AddToArray port info))
  end.

Definition state_fill_lldp_peers (state : plat_state_info) (lldp_peers : json) : M world json :=
  downstream ← new_object;
  upstream ← new_object;
  upstream ← fold_m lldp_peer (si_port_info state) upstream;
  ret (cJSON_AddToObject (cJSON_AddToObject lldp_peers "downstream" downstream)
         "upstream" upstream).

(** ** The MAC table *)

(** The object under construction: ports in order of appearance, in each the
    VLAN keys in order of appearance, in each the addresses.  A member is
    looked up by name before it is created.  (A port named like the flag would
    find the flag; platforms name their ports Ethernet<n>.) *)
Definition mac_table : Type := list (string * list (string * list string)).

(** [snprintf(vid_key, 6, "%u", vid)] *)
Definition vid_key (vid : Z) : string := c_snprintf_s 6 (dec (wrap 32 vid)).

(** Apply [f] to the value of [k], which is created from [dflt] at the end of
    the list when it is missing; the flag tells whether it was. *)
Fixpoint assoc_upd {A} (k : string) (dflt : A) (f : A → A) (l : list (string * A))
    : list (string * A) :=
  match l with
  | [] => [(k, f dflt)]
  | (k', a) :: l => if streq k' k then (k', f a) :: l else (k', a) :: assoc_upd k dflt f l
  end.

Definition assoc_get {A} (k : string) (l : list (string * A)) : option A :=
  table_find (λ a b, streq a b) l k.

Definition mac_table_add (t : mac_table) (e : plat_learned_mac_addr) : M world mac_table :=
  let key := vid_key (lm_vid e) in
  let port := assoc_get (lm_port e) t in
  _ ← when (negb (non_null port)) alloc_or_fail;
  _ ← when (negb (non_null (assoc_get key (default [] port)))) alloc_or_fail;
  _ ← alloc_or_fail;
  ret (assoc_upd (lm_port e) []
         (assoc_upd key [] (λ macs, macs ++ [lm_mac e])%list) t).

Definition vid_json (v : string * list string) (o : json) : json :=
  cJSON_AddToObject o v.1
    (fold_left (λ a m, cJSON_AddToArray a (cJSON_CreateString m)) v.2 cJSON_CreateArray).
Definition port_json (p : string * list (string * list string)) (o : json) : json :=
  cJSON_AddToObject o p.1 (fold_left (λ o v, vid_json v o) p.2 cJSON_CreateObject).

(** How many entries are reported, and whether the list is cut. *)
Definition mac_overflow (size max_mac_count : Z) : bool :=
  (max_mac_count <? size) || (max_mac_count =? 0).
Definition mac_num_elem (size max_mac_count : Z) : Z :=
  if mac_overflow size max_mac_count then max_mac_count else size.

Definition state_fill_mac_addr_list_data (state : plat_state_info) (root : json)
    : M world json :=
  m ← gets w_metrics;
  let max := mst_max_mac_count (met_state m) in
  let size := Z.of_nat (length (si_learned_mac_list state)) in
  root ← add_bool "overflow" (mac_overflow size max) root;
  t ← fold_m mac_table_add
        (take (Z.to_nat (mac_num_elem size max)) (si_learned_mac_list state)) [];
  ret (fold_left (λ o p, port_json p o) t root).

(** ** Unit, gateways, public address *)
Definition state_fill_unit_poe_data (s : plat_poe_state) (poe : json) : M world json :=
  poe ← add_u64s [("max-power-budget", poes_max_power_budget s);
                  ("power-consumed", poes_power_consumed s);
                  ("power-threshold", poes_power_threshold s)] poe;
  add_str "power-status" (poes_power_status s) poe.

Definition state_fill_unit_ieee8021x_global_counters (c : coa_counters) (ieee8021x : json)
    : M world json :=
  add_object "dynamic-authorization" (add_object "stats" (add_u64s
    [("coa_req_received", coa_req_received c); ("coa_ack_sent", coa_ack_sent c);
     ("coa_nak_sent", coa_nak_sent c); ("coa_ignored", coa_ignored c);
     ("coa_wrong_attr", coa_wrong_attr c);
     ("coa_wrong_attr_value", coa_wrong_attr_value c);
     ("coa_wrong_session_context", coa_wrong_session_context c);
     ("administratively_prohibited_req", coa_administratively_prohibited_req c)])) ieee8021x.

Definition state_fill_unit_data (state : plat_state_info) (unit_obj : json) : M world json :=
  let sys := si_system_info state in
  _ ← alloc_or_fail;
  unit_obj ← add "load" (fold_left (λ a d, cJSON_AddToArray a (cJSON_CreateNumber d))
               (sys_load_average sys) cJSON_CreateArray) unit_obj;
  unit_obj ← jobj_u64_set "localtime" (sys_localtime sys) unit_obj;
  unit_obj ← add_object "memory" (add_u64s
               [("buffered", sys_ram_buffered sys); ("cached", sys_ram_cached sys);
                ("free", sys_ram_free sys); ("total", sys_ram_total sys)]) unit_obj;
  unit_obj ← jobj_u64_set "uptime" (sys_uptime sys) unit_obj;
  unit_obj ← add_object "poe" (state_fill_unit_poe_data (si_poe_state state)) unit_obj;
  add_object "ieee8021x" (state_fill_unit_ieee8021x_global_counters
                            (si_ieee8021x_global_coa_counters state)) unit_obj.

Definition gateway_json (default_gateway : json) (gw : plat_gw_address) : M world json :=
  obj ← new_object;
  obj ← add_num "metric" (gw_metric gw) obj;
  obj ← add_strs [("gw-mac", gw_mac gw); ("out-port", gw_port gw);
                  ("gw-ip", inet_ntop (gw_ip gw))] obj;
  ret (cJSON_AddToArray default_gateway obj).

Definition state_fill_default_gateway (gw_addr : list plat_gw_address) (default_gateway : json)
    : M world json :=
  fold_m gateway_json gw_addr default_gateway.

(** The write callback stores each piece over the previous one; returning
    less than the size of the piece makes libcurl report an error. *)
Definition state_fill_pub_ip_curl_cb (buffer piece : string) : option string :=
  if 256 <=? slen piece then None else Some piece.
Fixpoint curl_deliver (pieces : list string) (buffer : string) : option string :=
  match pieces with
  | [] => Some buffer
  | p :: pieces =>
      match state_fill_pub_ip_curl_cb buffer p with
      | Some buffer => curl_deliver pieces buffer
      | None => None
      end
  end.

Definition state_fill_public_ip (state : json) : M world json :=
  m ← gets w_metrics;
  if slen (mst_public_ip_lookup (met_state m)) =? 0 then ret state
  else
    _ ← alloc_or_fail;
    res ← http;
    match res with
    | None => fail
    | Some pieces =>
        match curl_deliver pieces EmptyString with
        | None => fail
        | Some pub_ip => add_str "public_ip" pub_ip state
        end
    end.

(** ** The whole object *)

(** A section: failure to create it or to fill it is logged. *)
Definition section (name msg : string) (new_item : M world json)
    (fill : json → M world json) (state : json) : M world json :=
  r ← try (o ← new_item; fill o);
  match r with Some o => ret (cJSON_AddToObject state name o) | None => err msg end.

Definition logged (msg : string) (m : M world json) : M world json :=
  r ← try m; match r with Some j => ret j | None => err msg end.

Definition state_fill (info : plat_state_info) (state : json) : M world json :=
  interfaces ← logged "cJSON failed" new_array;
  interfaces ← logged "state_fill_interfaces_data failed"
                 (state_fill_interfaces_data info interfaces);
  let state := cJSON_AddToObject state "interfaces" interfaces in
  state ← section "link-state" "!link_state(%p) || state_fill_link_state_data" new_object
            (state_fill_link_state_data info) state;
  m ← gets (λ w, met_state (w_metrics w));
  state ← (if mst_enabled m && mst_lldp_enabled m then
             lldp_peers ← logged "cJSON failed" new_object;
             lldp_peers ← logged "state_fill_lldp_peers failed"
                            (state_fill_lldp_peers info lldp_peers);
             ret (cJSON_AddToObject state "lldp-peers" lldp_peers)
           else ret state);
  state ← (if mst_enabled m && mst_clients_enabled m then
             section "mac-forwarding-table"
               "!mac_forwarding_table(%p) || state_fill_mac_addr_list_data" new_object
               (state_fill_mac_addr_list_data info) state
           else ret state);
  state ← section "unit" "!unit(%p) || state_fill_unit_data" new_object
            (state_fill_unit_data info) state;
  state ← section "default-gateway" "!default_gateway(%p) || state_fill_default_gateway"
            new_array (state_fill_default_gateway (si_gw_addr_list info)) state;
  state ← logged "state_fill_public_ip failed" (state_fill_public_ip state);
  logged "cJSON failed" (add_num "version" 1 state).

Definition state_send (info : plat_state_info) : M world unit :=
  send_or (UC_LOG_ERR "failed to collect state") (
    k ← proto_new_blob "state";
    params ← add_serial cJSON_CreateObject;
    uuid_latest ← gets w_uuid_latest;
    params ← add_num "uuid" uuid_latest params;
    params ← add_object "state" (λ state, logged "state_fill failed" (state_fill info state))
               params;
    ret (k params)).

Definition telemetry_send (info : plat_state_info) : M world unit :=
  send_or alloc_failed (
    curr_time ← gets w_now;
    k ← proto_new_blob "telemetry";
    params ← add_serial cJSON_CreateObject;
    params ← add_object "data" (λ data,
      state_root ← new_array;
      state_arr ← new_array;
      arr_obj ← new_object;
      _ ← alloc_or_fail;
      let timestamp := cJSON_CreateNumber (dbl_of_Z curr_time) in
      uuid_latest ← gets w_uuid_latest;
      arr_obj ← add_num "uuid" uuid_latest arr_obj;
      arr_obj ← add_serial arr_obj;
      arr_obj ← add_object "state" (state_fill info) arr_obj;
      state_arr ← push timestamp state_arr;
      let state_arr := cJSON_AddToArray state_arr arr_obj in
      let data := cJSON_AddToObject data "state" (cJSON_AddToArray state_root state_arr) in
      ret (cJSON_AddToObject data "timestamp" timestamp)) params;
    ret (k params)).
End state.
