(* ===== verification/Netlink.v ===== *)
(** * Addresses of the VLAN interfaces ([platform/brcm-sonic/netlink/netlink_common.c])

    [nl_get_ip_list] asks the kernel for the IPv4 addresses of all interfaces
    and keeps those of interfaces named Vlan<n>.  The answer comes in several
    datagrams, each a sequence of netlink messages; the last message is
    NLMSG_DONE.  [nl_dump] is what the kernel does with one request.  A
    datagram longer than the room given to [recvmsg] is cut; the room is the
    length of the datagram before.  When the walk over a datagram ends without
    NLMSG_DONE the code still looks at the type of what follows: [rs_stale]
    tells whether the bytes that happen to be there say NLMSG_DONE.  A dump
    that ends without NLMSG_DONE makes the code wait for more; here [recvmsg]
    then fails. *)

From S2P Require Import Prelude CNum CStr.
#[local] Open Scope list_scope.

Record nl_vid_addr := mk_nl_vid_addr { nva_vid : Z; nva_prefixlen : Z; nva_address : Z }.
Definition zero_nl_vid_addr : nl_vid_addr := mk_nl_vid_addr 0 0 0.

(** [RTM_NEWADDR] has the name of its interface, unless the interface is gone,
    the prefix length, and its IFA_LOCAL attribute, if any. *)
Inductive nl_type :=
  | NLMSG_ERROR
  | NLMSG_DONE
  | RTM_NEWADDR (ifname : option string) (prefixlen : Z) (local : option Z)
  | RTM_OTHER.
(** A message with its length, padding included. *)
Record nlmsg := mk_nlmsg { nlmsg_len : Z; nlmsg_type : nl_type }.
Record nl_response := mk_nl_response { rs_msgs : list nlmsg; rs_stale : bool }.

Inductive nl_dump :=
  | NoSocket
  | NoSend
  | Dump (responses : list nl_response).

Definition BUFFER_SIZE : Z := 4096.
Definition NLMSG_HDRLEN : Z := 16.
Definition ENODATA : Z := -61.
Definition EOVERFLOW : Z := -75.

Definition response_len (r : nl_response) : Z := foldr Z.add 0 (nlmsg_len <$> rs_msgs r).

(** [NLMSG_OK] *)
Definition NLMSG_OK (m : nlmsg) (len : Z) : bool :=
  (NLMSG_HDRLEN <=? len) && (NLMSG_HDRLEN <=? nlmsg_len m) && (nlmsg_len m <=? len).
Definition is_done (t : nl_type) : bool := match t with NLMSG_DONE => true | _ => false end.

(** What the pointer of the loop says when the loop is over: the type of the
    message cut there, if that much of it was received. *)
Definition ends_done (r : nl_response) (rest : list nlmsg) (len : Z) : bool :=
  match rest with
  | m :: _ => if 6 <=? len then is_done (nlmsg_type m) else rs_stale r
  | [] => rs_stale r
  end.

(** [addr->vid] and the rest are only written where there is an IFA_LOCAL. *)
Definition _nl_iface_addr_parse (vid : Z) (prefixlen : Z) (local : option Z) (old : nl_vid_addr) : nl_vid_addr :=
  match local with
  | Some address => mk_nl_vid_addr vid prefixlen address
  | None => old
  end.

(** The walk of the messages: an error, or the addresses found ([num_addrs] is
    their number; nothing is stored unless there is a list, [have]) with what is left
    of the messages and of the length.  [vid] is that of the interface. *)
Inductive walk :=
  | WalkErr (rc : Z)
  | WalkEnd (addrs : list nl_vid_addr) (rest : list nlmsg) (len : Z).

Fixpoint nl_walk (have : bool) (list_size : Z) (msgs : list nlmsg) (len : Z) (found : list nl_vid_addr) : walk :=
  match msgs with
  | [] => WalkEnd found [] len
  | m :: rest =>
      if negb (NLMSG_OK m len) || is_done (nlmsg_type m) then WalkEnd found msgs len
      else
        let next := nl_walk have list_size rest (len - nlmsg_len m) in
        match nlmsg_type m with
        | NLMSG_ERROR => WalkErr (-1)
        | RTM_NEWADDR None _ _ => WalkErr (-1)
        | RTM_NEWADDR (Some ifname) prefixlen local =>
            match sscanf_lit_u 32 "Vlan" ifname with
            | SConv vid =>
                if negb (negb have || (list_size =? 0)) && (list_size <? Z.of_nat (length found))
                then WalkErr EOVERFLOW
                else next (found ++ [_nl_iface_addr_parse (wrap 16 vid) prefixlen local zero_nl_vid_addr])
            | _ => next found
            end
        | _ => next found
        end
  end.

(** The return value, and what [*list_size] and the array hold afterwards. *)
Definition _nl_response_addr_parse (r : nl_response) (len : Z) (have : bool) (list_size : Z)
    : Z * Z * list nl_vid_addr :=
  match nl_walk have list_size (rs_msgs r) len [] with
  | WalkErr rc => (rc, list_size, [])
  | WalkEnd addrs rest len =>
      let num := Z.of_nat (length addrs) in
      (if list_size <? num then EOVERFLOW
       else if ends_done r rest len then ENODATA else 0, num, addrs)
  end.

(** The loop of [nl_get_ip_list]: [buf_len] is the room of the next datagram,
    [batch] the size left by the parse before, [list_size] the room of the
    array, [found] what was stored in it, [num] the number of addresses. *)
Fixpoint nl_loop (have : bool) (list_size : Z) (rs : list nl_response) (buf_len batch num : Z)
    (found : list nl_vid_addr) : Z * option (Z * list nl_vid_addr) :=
  let finish err :=
    ((if list_size <? num then EOVERFLOW else err), Some (num, found)) in
  match rs with
  | [] => (-1, None)
  | r :: rs =>
      let buf_len := Z.min buf_len (response_len r) in
      let '(err, batch', _) := _nl_response_addr_parse r buf_len false batch in
      if err =? ENODATA then finish 0
      else if negb (err =? 0) && negb (err =? EOVERFLOW) then (err, None)
      else
        let num := num + batch' in
        if negb have || (list_size =? 0) then nl_loop have list_size rs buf_len batch' num found
        else if list_size <? num then (EOVERFLOW, Some (num, found))
        else
          let '(err, batch'', addrs) := _nl_response_addr_parse r buf_len true batch' in
          let found := found ++ addrs in
          if err =? ENODATA then (0, Some (num, found))
          else if negb (err =? 0) then (err, None)
          else nl_loop have list_size rs buf_len batch'' num found
  end.

(** The return value, [*list_size] and the array; an error before the end of
    the loop leaves [*list_size] as it was. *)
Definition nl_get_ip_list (d : nl_dump) (have : bool) (list_size : Z) : Z * (Z * list nl_vid_addr) :=
  match d with
  | NoSocket | NoSend => (-1, (list_size, []))
  | Dump rs =>
      match nl_loop have list_size rs BUFFER_SIZE 0 0 [] with
      | (rc, Some r) => (rc, r)
      | (rc, None) => (rc, (list_size, []))
      end
  end.

(** ** A whole dump

    The end of the dump comes in a datagram of its own.  Of each datagram before
    it the messages count that were received whole. *)
Definition vlan_address (m : nlmsg) : option nl_vid_addr :=
  match nlmsg_type m with
  | RTM_NEWADDR (Some ifname) prefixlen local =>
      match sscanf_lit_u 32 "Vlan" ifname with
      | SConv vid => Some (_nl_iface_addr_parse (wrap 16 vid) prefixlen local zero_nl_vid_addr)
      | _ => None
      end
  | _ => None
  end.
Definition addresses (r : nl_response) : list nl_vid_addr := omap vlan_address (rs_msgs r).

(** A message the walk goes past. *)
Definition plain (m : nlmsg) : Prop :=
  NLMSG_HDRLEN ≤ nlmsg_len m ∧
  match nlmsg_type m with NLMSG_ERROR | NLMSG_DONE | RTM_NEWADDR None _ _ => False | _ => True end.
Definition plain_response (r : nl_response) : Prop := Forall plain (rs_msgs r) ∧ rs_stale r = false.

(** The messages that lie whole in the first [len] bytes. *)
Fixpoint cut (len : Z) (msgs : list nlmsg) : list nlmsg :=
  match msgs with
  | m :: msgs => if nlmsg_len m <=? len then m :: cut (len - nlmsg_len m) msgs else []
  | [] => []
  end.
(** The addresses of the VLAN interfaces in what is received, when the room of
    each datagram is what was received of the one before. *)
Fixpoint received (buf_len : Z) (rs : list nl_response) : list nl_vid_addr :=
  match rs with
  | [] => []
  | r :: rs =>
      let room := Z.min buf_len (response_len r) in
      omap vlan_address (cut room (rs_msgs r)) ++ received room rs
  end.
(** Each datagram fits in the room left by the one before. *)
Fixpoint fits (buf_len : Z) (rs : list nl_response) : Prop :=
  match rs with
  | [] => True
  | r :: rs => response_len r ≤ buf_len ∧ fits (response_len r) rs
  end.
Definition done_response (r : nl_response) : Prop :=
  ∃ n, rs_msgs r = [mk_nlmsg n NLMSG_DONE] ∧ NLMSG_HDRLEN ≤ n.

Lemma plain_sum msgs : Forall plain msgs → 0 ≤ foldr Z.add 0 (nlmsg_len <$> msgs).
Proof. induction 1 as [|m msgs [Hm _] _ IH]; cbn; [lia|]. unfold NLMSG_HDRLEN in Hm. lia. Qed.

Lemma addresses_cons m msgs :
  omap vlan_address (m :: msgs) =
  match vlan_address m with Some a => a :: omap vlan_address msgs | None => omap vlan_address msgs end.
Proof. done. Qed.

Lemma cut_all msgs : Forall plain msgs → cut (foldr Z.add 0 (nlmsg_len <$> msgs)) msgs = msgs.
Proof.
  induction 1 as [|m msgs [Hm _] Hp IH]; [done|]. pose proof (plain_sum _ Hp) as Hs.
  cbn [cut fmap list_fmap foldr]. set (l := foldr Z.add 0 _) in *.
  rewrite (proj2 (Z.leb_le _ _)) by lia. replace (nlmsg_len m + l - nlmsg_len m) with l by lia. by rewrite IH.
Qed.
Lemma received_all buf_len rs : Forall plain_response rs → fits buf_len rs → received buf_len rs = rs ≫= addresses.
Proof.
  intros Hp. revert buf_len. induction Hp as [|r rs [Hr _] Hp IH]; intros buf_len; [done|].
  intros [H1 H2]. cbn [received]. rewrite Z.min_r by done. rewrite IH by done.
  unfold response_len. by rewrite cut_all.
Qed.

(** The walk of what was received: all of it, and it ends at no NLMSG_DONE. *)
Lemma walk_cut have size msgs : ∀ len found,
  Forall plain msgs → 
  negb have || (size =? 0) || (Z.of_nat (length found + length (omap vlan_address (cut len msgs))) <=? size) = true →
  ∃ rest len', nl_walk have size msgs len found = WalkEnd (found ++ omap vlan_address (cut len msgs)) rest len' ∧
               Forall plain rest.
Proof.
  induction msgs as [|m msgs IH]; intros len found Hp Hroom.
  { exists [], len. cbn. by rewrite app_nil_r. }
  inversion_clear Hp as [|?? Hm Hp']. destruct Hm as [Hlen Ht]. unfold NLMSG_HDRLEN in Hlen. cbn [nl_walk].
  assert (is_done (nlmsg_type m) = false) as Hnd by (by destruct (nlmsg_type m)).
  rewrite Hnd, orb_false_r. cbn [cut] in *. destruct (Z.leb_spec (nlmsg_len m) len) as [Hle|Hgt].
  2: { exists (m :: msgs), len. assert (NLMSG_OK m len = false) as ->.
       { unfold NLMSG_OK. rewrite !andb_false_iff, !Z.leb_gt. lia. }
       cbn. rewrite app_nil_r. split; [done|]. by constructor. }
  assert (NLMSG_OK m len = true) as -> by (unfold NLMSG_OK, NLMSG_HDRLEN; rewrite !andb_true_iff, !Z.leb_le; lia).
  cbn [negb]. rewrite addresses_cons in *. revert Hroom.
  specialize (IH (len - nlmsg_len m)). generalize dependent (omap vlan_address (cut (len - nlmsg_len m) msgs)). intros l IH.
  unfold vlan_address. destruct (nlmsg_type m) as [| |[ifname|] plen local|]; try done; [|by intros; apply IH].
  destruct (sscanf_lit_u 32 "Vlan" ifname) as [vid| |]; [|by intros; apply IH..]. intros Hroom.
  assert (negb (negb have || (size =? 0)) && (size <? Z.of_nat (length found)) = false) as ->.
  { destruct (negb have || (size =? 0)); [done|]. apply Z.leb_le in Hroom. apply Z.ltb_ge.
    cbn [length] in Hroom. lia. }
  set (a := _nl_iface_addr_parse _ _ _ _) in *.
  replace (found ++ a :: l) with ((found ++ [a]) ++ l) by by rewrite <- app_assoc.
  apply IH; [done|]. rewrite <- Hroom. do 3 f_equal. rewrite length_app. cbn [length]. lia.
Qed.

(** A parse of a datagram without NLMSG_DONE. *)
Lemma parse_plain r len have size :
  plain_response r → let l := omap vlan_address (cut len (rs_msgs r)) in
  (have = true → size = Z.of_nat (length l)) →
  _nl_response_addr_parse r len have size =
  ((if size <? Z.of_nat (length l) then EOVERFLOW else 0), Z.of_nat (length l), l).
Proof.
  intros [Hp Hs] l Hsize. unfold _nl_response_addr_parse.
  destruct (walk_cut have size (rs_msgs r) len [] Hp) as (rest & len' & E & Hrest).
  - destruct have; [|done]. rewrite (Hsize eq_refl). cbn. apply orb_true_iff. right. apply Z.leb_le. fold l. lia.
  - rewrite E. cbn [app]. fold l.
    assert (ends_done r rest len' = false) as ->; [|done].
    unfold ends_done. destruct Hrest as [|m rest [_ Ht] _]; [done|]. destruct (6 <=? len'); [|done]. by destruct (nlmsg_type m).
Qed.
Lemma parse_done r buf_len size : done_response r → NLMSG_HDRLEN ≤ buf_len → 0 ≤ size →
  _nl_response_addr_parse r (Z.min buf_len (response_len r)) false size = (ENODATA, 0, []).
Proof.
  intros (n & Er & Hn) Hb Hsize. unfold _nl_response_addr_parse, response_len. rewrite Er. cbn.
  rewrite orb_true_r. unfold ends_done. unfold NLMSG_HDRLEN in *. cbn [length Z.of_nat nlmsg_type is_done].
  destruct (Z.leb_spec 6 (Z.min buf_len (n + 0))); [|lia]. change (Z.of_nat 0) with 0. destruct (Z.ltb_spec size 0); [lia|done].
Qed.

(** The loop, from any number of datagrams on: [addrs] is what is still to
    come. *)
Lemma loop_exact have size done rs : ∀ buf_len batch num found,
  Forall plain_response rs → done_response done →
  Forall (λ r, NLMSG_HDRLEN ≤ response_len r) rs → NLMSG_HDRLEN ≤ buf_len → 0 ≤ batch →
  let addrs := received buf_len rs in
  (have = true → 0 < size ∧ num ≤ size) →
  if have && (size <? num + Z.of_nat (length addrs))
  then ∃ m l, nl_loop have size (rs ++ [done]) buf_len batch num found = (EOVERFLOW, Some (m, l)) ∧ size < m
  else nl_loop have size (rs ++ [done]) buf_len batch num found =
       ((if size <? num + Z.of_nat (length addrs) then EOVERFLOW else 0),
        Some (num + Z.of_nat (length addrs), if have then found ++ addrs else found)).
Proof.
  induction rs as [|r rs IH]; intros buf_len batch num found Hp Hd Hlong Hb Hbatch addrs Hroom.
  { cbn [app nl_loop]. rewrite parse_done by done. cbn. subst addrs. cbn. rewrite Z.add_0_r, app_nil_r.
    destruct have; [|done]. destruct (Hroom eq_refl). cbn. by rewrite (proj2 (Z.ltb_ge size num)). }
  apply Forall_cons in Hp as [Hr Hp]. apply Forall_cons in Hlong as [Hl Hlong].
  cbn [app nl_loop]. set (room := Z.min buf_len (response_len r)).
  assert (NLMSG_HDRLEN ≤ room) as Hr2 by (unfold NLMSG_HDRLEN in *; lia).
  rewrite parse_plain by done. set (l := omap vlan_address (cut room (rs_msgs r))). set (k := Z.of_nat (length l)).
  assert (l ++ received room rs = addrs) as Hlist by done.
  assert (Z.of_nat (length addrs) = k + Z.of_nat (length (received room rs))) as Hlen
    by (rewrite <- Hlist, length_app; lia).
  assert (((if batch <? k then EOVERFLOW else 0) =? ENODATA) = false) as -> by (by destruct (batch <? k)).
  assert (negb ((if batch <? k then EOVERFLOW else 0) =? 0) && negb ((if batch <? k then EOVERFLOW else 0) =? EOVERFLOW)
          = false) as -> by (by destruct (batch <? k)).
  destruct have; cbn [negb orb andb].
  - destruct (Hroom eq_refl) as [Hsize Hmax]. rewrite (proj2 (Z.eqb_neq size 0)) by lia.
    destruct (Z.ltb_spec size (num + k)) as [Hover|Hok].
    { rewrite (proj2 (Z.ltb_lt _ _)) by lia. by exists (num + k), found. }
    rewrite parse_plain by done. fold l k. rewrite Z.ltb_irrefl. change (0 =? ENODATA) with false. cbn [Z.eqb negb].
    pose proof (IH room k (num + k) (found ++ l) Hp Hd Hlong Hr2 (Zle_0_nat _) (λ _, conj Hsize Hok)) as H.
    cbn [andb] in H. rewrite <- Z.add_assoc, <- Hlen in H. by rewrite <- Hlist, app_assoc.
  - pose proof (IH room k (num + k) found Hp Hd Hlong Hr2 (Zle_0_nat _)) as H. cbn [andb] in H.
    rewrite H by done. by rewrite <- Z.add_assoc, <- Hlen.
Qed.

(** ** The array is not overrun, whatever the kernel answers *)
Definition address_fits (a : nl_vid_addr) : Prop := 0 ≤ nva_vid a < 2 ^ 16.

(** A walk that only counts meets no full array, and the walk that stores
    after it finds the same. *)
Lemma walk_grows have size msgs : ∀ len found addrs rest len',
  nl_walk have size msgs len found = WalkEnd addrs rest len' →
  (length found ≤ length addrs)%nat ∧ (Forall address_fits found → Forall address_fits addrs).
Proof.
  induction msgs as [|m msgs IH]; intros len found addrs rest len'; cbn [nl_walk]; [by intros [= <- _ _]|].
  destruct (_ || _); [by intros [= <- _ _]|].
  destruct (nlmsg_type m) as [| |[ifname|] plen local|]; try done; try apply IH.
  destruct (sscanf_lit_u 32 "Vlan" ifname) as [vid| |]; try apply IH.
  destruct (_ && _); [done|]. intros [H1 H2]%IH. rewrite length_app in H1. cbn [length] in H1. split; [lia|].
  intros Hf. apply H2, Forall_app_2; [done|]. constructor; [|done].
  destruct local; [apply wrap_range; lia|]. unfold address_fits. cbn. lia.
Qed.
Lemma walk_again size size' msgs : ∀ len found addrs rest len',
  nl_walk false size' msgs len found = WalkEnd addrs rest len' → Z.of_nat (length addrs) ≤ size →
  nl_walk true size msgs len found = WalkEnd addrs rest len'.
Proof.
  induction msgs as [|m msgs IH]; intros len found addrs rest len'; cbn [nl_walk]; [done|].
  destruct (_ || _); [done|].
  destruct (nlmsg_type m) as [| |[ifname|] plen local|]; try done; try apply IH.
  destruct (sscanf_lit_u 32 "Vlan" ifname) as [vid| |]; try apply IH. cbn [negb orb andb]. intros Hw Hsize.
  pose proof (proj1 (walk_grows _ _ _ _ _ _ _ _ Hw)) as Hg. rewrite length_app in Hg. cbn [length] in Hg.
  destruct (Z.ltb_spec size (Z.of_nat (length found))); [lia|]. rewrite andb_false_r. by apply IH.
Qed.
Lemma walk_counting size msgs : ∀ len found rc, nl_walk false size msgs len found = WalkErr rc → rc = -1.
Proof.
  induction msgs as [|m msgs IH]; intros len found rc; cbn [nl_walk]; [done|].
  destruct (_ || _); [done|].
  destruct (nlmsg_type m) as [| |[ifname|] plen local|]; try (by intros [= <-]); try apply IH.
  destruct (sscanf_lit_u 32 "Vlan" ifname); try apply IH.
Qed.
Lemma parse_again r len batch err num addrs :
  _nl_response_addr_parse r len false batch = (err, num, addrs) → err ≠ -1 →
  num = Z.of_nat (length addrs) ∧ Forall address_fits addrs ∧
  ∃ err', _nl_response_addr_parse r len true num = (err', num, addrs).
Proof.
  unfold _nl_response_addr_parse. destruct (nl_walk false _ _ _ _) as [rc|addrs' rest len'] eqn:E.
  - apply walk_counting in E as ->. by intros [= <- _ _].
  - intros [= _ <- <-] _. split; [done|]. split; [by apply (walk_grows _ _ _ _ _ _ _ _ E)|].
    rewrite (walk_again _ _ _ _ _ _ _ _ E) by done. eauto.
Qed.

Lemma loop_fits size rs : ∀ buf_len batch num found n l,
  0 < size → num = Z.of_nat (length found) → Forall address_fits found →
  nl_loop true size rs buf_len batch num found = (0, Some (n, l)) →
  n = Z.of_nat (length l) ∧ n ≤ size ∧ Forall address_fits l.
Proof.
  induction rs as [|r rs IH]; intros buf_len batch num found n l Hsize Hnum Hf; cbn [nl_loop]; [done|].
  destruct (_nl_response_addr_parse r _ false batch) as [[err batch'] addrs] eqn:E0. cbn [negb orb].
  rewrite (proj2 (Z.eqb_neq size 0)) by lia.
  destruct (Z.eqb_spec err ENODATA).
  { destruct (Z.ltb_spec size num); [done|]. intros [= <- <-]. by split_and!. }
  destruct (negb (err =? 0) && _) eqn:Eerr; [by intros [= -> _]|].
  destruct (Z.ltb_spec size (num + batch')); [done|].
  destruct (parse_again _ _ _ _ _ _ E0) as (Hb & Hfit & err' & E1); [by intros ->|]. rewrite E1.
  assert (num + batch' = Z.of_nat (length (found ++ addrs))) as Hnum' by (rewrite length_app; lia).
  assert (Forall address_fits (found ++ addrs)) as Hf' by by apply Forall_app_2.
  destruct (err' =? ENODATA); [intros [= <- <-]; by split_and!|].
  destruct (negb (err' =? 0)) eqn:En; [intros [= -> _]; done|]. by apply IH.
Qed.
Lemma loop_fails have size rs : ∀ buf_len batch num found rc,
  nl_loop have size rs buf_len batch num found = (rc, None) → rc ≠ 0.
Proof.
  induction rs as [|r rs IH]; intros buf_len batch num found rc; cbn [nl_loop]; [by intros [= <-]|].
  destruct (_nl_response_addr_parse r _ false batch) as [[err batch'] addrs].
  destruct (err =? ENODATA); [done|]. destruct (Z.eqb_spec err 0); cbn [negb andb].
  2: destruct (negb (err =? EOVERFLOW)); [by intros [= <-]|].
  all: destruct (negb have || (size =? 0)); [apply IH|]. 
  all: destruct (size <? num + batch'); [done|].
  all: destruct (_nl_response_addr_parse r _ true batch') as [[err' batch''] addrs'].
  all: destruct (err' =? ENODATA); [done|]; destruct (Z.eqb_spec err' 0); cbn [negb]; [apply IH|by intros [= <-]].
Qed.
Lemma loop_counts size rs : ∀ buf_len batch num rc n l,
  0 ≤ num → nl_loop false size rs buf_len batch num [] = (rc, Some (n, l)) → 0 ≤ n.
Proof.
  induction rs as [|r rs IH]; intros buf_len batch num rc n l Hn; cbn [nl_loop]; [done|].
  destruct (_nl_response_addr_parse r _ false batch) as [[err batch'] addrs] eqn:E0.
  destruct (err =? ENODATA); [by intros [= _ <- _]|].
  destruct (negb (err =? 0) && _) eqn:Eerr; [done|]. apply IH.
  destruct (parse_again _ _ _ _ _ _ E0) as (-> & _); [by intros ->|]. lia.
Qed.
Lemma ip_count_nonneg d rc n l : nl_get_ip_list d false 0 = (rc, (n, l)) → 0 ≤ n.
Proof.
  destruct d as [| |rs]; cbn; [by intros [= _ <- _]..|].
  destruct (nl_loop _ _ _ _ _ _ _) as [rc' [r|]] eqn:E; intros [= _ ->]; [|done]. by eapply loop_counts.
Qed.
Lemma ip_list_fits d size n l :
  0 < size → nl_get_ip_list d true size = (0, (n, l)) →
  n = Z.of_nat (length l) ∧ n ≤ size ∧ Forall address_fits l.
Proof.
  intros Hsize. destruct d as [| |rs]; [done..|]. cbn.
  destruct (nl_loop _ _ _ _ _ _ _) as [rc [r|]] eqn:E; [|by apply loop_fails in E; intros [= -> _ _]].
  intros [= -> ->]. by eapply loop_fits.
Qed.


Definition sample_dump : list nl_response :=
  [mk_nl_response [mk_nlmsg 76 (RTM_NEWADDR (Some "lo") 8 (Some 16777343));
                   mk_nlmsg 88 (RTM_NEWADDR (Some "Vlan7") 24 (Some 16777226))] false;
   mk_nl_response [mk_nlmsg 88 (RTM_NEWADDR (Some "Vlan9") 16 (Some 33554442))] false].
Definition sample_done : nl_response := mk_nl_response [mk_nlmsg 20 NLMSG_DONE] false.

(** A datagram longer than the one before loses its last messages. *)
Example longer_datagram_cut :
  nl_get_ip_list (Dump [mk_nl_response [mk_nlmsg 88 (RTM_NEWADDR (Some "Vlan7") 24 (Some 16777226))] false;
    mk_nl_response [mk_nlmsg 88 (RTM_NEWADDR (Some "Vlan8") 24 (Some 1));
                    mk_nlmsg 88 (RTM_NEWADDR (Some "Vlan9") 16 (Some 2))] false; sample_done]) true 3 =
  (0, (2, [mk_nl_vid_addr 7 24 16777226; mk_nl_vid_addr 8 24 1])).
Proof. by vm_compute. Qed.
