(* ===== verification/Gnma.v ===== *)
(** * The switch management interface ([platform/brcm-sonic/gnma/gnma_common.h])

    [plat-gnma.c] reads and writes the switch through the [gnma_*] functions.
    A setting is a value of [gnma_call]; what the switch answers is the class
    [Gnma]: its own state [gst], the return value of each call, and for each
    question ([gnma_query]) the return value and what is left in the output
    parameters, given what they held.  A call may have undefined behaviour.
    Nothing else is assumed of it, so the theorems hold for a switch that
    refuses calls at any point; those that exclude undefined behaviour ask for
    [GnmaSafe], that settings without IPv6 prefixes have none.  [GnmaImpl]
    proves it of gnma_common.c.  [GNMA_ERR_OVERFLOW] is -2.

    The calls that go through a [gnma_change] collect [change_op]s, which
    reach the switch together in [gnma_change_exec]. *)

From S2P Require Import Prelude CNum CStr Bitmap Router PlatTypes.

Definition GNMA_OK : Z := 0.
Definition GNMA_ERR_COMMON : Z := -1.
Definition GNMA_ERR_OVERFLOW : Z := -2.
Definition GNMA_MAX_VLANS : Z := 4096.
Definition GNMA_MAX_PORT_ID : Z := 256.

(** ** Data *)
(** [gnma_ip_prefix]: whether the family is IPv6, the address, the length. *)
Record gnma_ip_prefix := mk_gnma_ip_prefix { gp_v6 : bool; gp_addr : Z; gp_len : Z }.

Definition zero_ip_prefix : gnma_ip_prefix := mk_gnma_ip_prefix false 0 0.

Definition GNMA_IP_PREF_IS_EQ (a b : gnma_ip_prefix) : bool :=
  (gp_len a =? gp_len b) && eqb (gp_v6 a) (gp_v6 b) && (gp_addr a =? gp_addr b).

Inductive gnma_route_attrs :=
  | GNMA_ROUTE_TYPE_CONNECTED (vid : Z)
  | GNMA_ROUTE_TYPE_NEXTHOP (vid gw : Z)
  | GNMA_ROUTE_TYPE_BLACKHOLE.

Inductive gnma_dhcp_relay_policy_action :=
  | POLICY_ACTION_DISCARD | POLICY_ACTION_APPEND | POLICY_ACTION_REPLACE.
Inductive gnma_dhcp_relay_circuit_id := CIRCUIT_ID_H_P | CIRCUIT_ID_I | CIRCUIT_ID_P.

Inductive gnma_poe_port_detection_mode :=
  | DETECTION_2PT_DOT3AF | DETECTION_2PT_DOT3AF_LEG | DETECTION_4PT_DOT3AF
  | DETECTION_4PT_DOT3AF_LEG | DETECTION_DOT3BT | DETECTION_DOT3BT_LEG | DETECTION_LEG.
Inductive gnma_poe_port_priority := PRIORITY_LOW | PRIORITY_MEDIUM | PRIORITY_HIGH | PRIORITY_CRITICAL.
Inductive gnma_poe_power_mgmt_mode :=
  | POWER_MGMT_CLASS | POWER_MGMT_DYNAMIC | POWER_MGMT_DYNAMIC_PRIORITY
  | POWER_MGMT_STATIC | POWER_MGMT_STATIC_PRIORITY.

Inductive gnma_stp_mode := GNMA_STP_MODE_NONE | GNMA_STP_MODE_RPVST | GNMA_STP_MODE_PVST | GNMA_STP_MODE_MST.
Record gnma_stp_attr := mk_gnma_stp_attr {
  sa_forward_delay : Z;
  sa_hello_time : Z;
  sa_max_age : Z;
  sa_priority : Z;
  sa_enabled : bool }.
Definition zero_stp_attr : gnma_stp_attr := mk_gnma_stp_attr 0 0 0 0 false.
#[export] Instance eta_gnma_stp_attr : Eta gnma_stp_attr := λ r,
  mk_gnma_stp_attr (sa_forward_delay r) (sa_hello_time r) (sa_max_age r) (sa_priority r) (sa_enabled r).

Definition gnma_stp_attr_cmp (a b : gnma_stp_attr) : bool :=
  eqb (sa_enabled a) (sa_enabled b) && (sa_forward_delay a =? sa_forward_delay b) &&
  (sa_hello_time a =? sa_hello_time b) && (sa_max_age a =? sa_max_age b) &&
  (sa_priority a =? sa_priority b).

Inductive gnma_8021x_port_ctrl_mode := CTRL_FORCE_AUTHORIZED | CTRL_FORCE_UNAUTHORIZED | CTRL_AUTO.
Inductive gnma_8021x_port_host_mode := HOST_MULTI_AUTH | HOST_MULTI_DOMAIN | HOST_MULTI_HOST | HOST_SINGLE_HOST.

(** A bitmap the switch layer fills in is the set of its bits; [bits] is the
    order in which BITMAP_FOR_EACH_BIT_SET visits them. *)
Definition bits (len : Z) (A : gset Z) : list Z := filter (λ i, i ∈ A) (seqZ 0 len).

(** The two bitmaps of each VLAN in [gnma_vlan_member_bmap]. *)
Record vlan_bmap := mk_vlan_bmap { port_member : gset Z; port_tagged : gset Z }.
Definition zero_vlan_bmap : vlan_bmap := mk_vlan_bmap ∅ ∅.

Inductive gnma_igmp_version := GNMA_IGMP_NA | GNMA_IGMP_1 | GNMA_IGMP_2 | GNMA_IGMP_3.
Record gnma_igmp_snoop_attr := mk_gnma_igmp_snoop_attr {
  sn_enabled : bool;
  sn_querier_enabled : bool;
  sn_fast_leave_enabled : bool;
  sn_query_interval : Z;
  sn_last_member_query_interval : Z;
  sn_max_response_time : Z;
  sn_version : gnma_igmp_version }.

Record gnma_syslog_cfg := mk_gnma_syslog_cfg {
  sl_ipaddress : string;
  sl_remote_port : Z;
  sl_severity : option string;
  sl_message_type : option string;
  sl_src_intf : option string;
  sl_vrf_name : option string
}.

(** ** What only the state report reads *)
Inductive gnma_port_stat_type :=
  | GNMA_PORT_STAT_IN_OCTETS | GNMA_PORT_STAT_IN_DISCARDS | GNMA_PORT_STAT_IN_ERRORS
  | GNMA_PORT_STAT_IN_BCAST_PKTS | GNMA_PORT_STAT_IN_MCAST_PKTS | GNMA_PORT_STAT_IN_UCAST_PKTS
  | GNMA_PORT_STAT_OUT_OCTETS | GNMA_PORT_STAT_OUT_DISCARDS | GNMA_PORT_STAT_OUT_ERRORS
  | GNMA_PORT_STAT_OUT_BCAST_PKTS | GNMA_PORT_STAT_OUT_MCAST_PKTS | GNMA_PORT_STAT_OUT_UCAST_PKTS.
Inductive gnma_das_dac_stat_type :=
  | DAC_STAT_IN_COA_PKTS | DAC_STAT_OUT_COA_ACK_PKTS | DAC_STAT_OUT_COA_NAK_PKTS
  | DAC_STAT_IN_COA_IGNORED_PKTS | DAC_STAT_IN_COA_WRONG_ATTR_PKTS
  | DAC_STAT_IN_COA_WRONG_ATTR_VALUE_PKTS | DAC_STAT_IN_COA_WRONG_SESSION_CONTEXT_PKTS
  | DAC_STAT_IN_COA_ADMINISTRATIVELY_PROHIBITED_REQ_PKTS.
#[export] Instance port_stat_eq_dec : EqDecision gnma_port_stat_type.
Proof. solve_decision. Defined.
#[export] Instance dac_stat_eq_dec : EqDecision gnma_das_dac_stat_type.
Proof. solve_decision. Defined.

(** The next hop of a dynamic route. *)
Record gnma_nexthop := mk_gnma_nexthop { nh_metric : Z; nh_gw : Z; nh_egress_port : string }.
Inductive gnma_fdb_entry_type := GNMA_FDB_ENTRY_TYPE_STATIC | GNMA_FDB_ENTRY_TYPE_DYNAMIC.
Record gnma_fdb_entry := mk_gnma_fdb_entry {
  fdb_port : string;
  fdb_type : gnma_fdb_entry_type;
  fdb_vid : Z;
  fdb_mac : string }.
Record gnma_metadata := mk_gnma_metadata { md_platform : string; md_hwsku : string; md_mac : string }.
Record gnma_vlan_ip := mk_gnma_vlan_ip { vip_vid : Z; vip_prefixlen : Z; vip_address : Z }.

#[export] Instance gnma_ip_prefix_eq_dec : EqDecision gnma_ip_prefix.
Proof. solve_decision. Defined.
#[export] Instance policy_action_eq_dec : EqDecision gnma_dhcp_relay_policy_action.
Proof. solve_decision. Defined.
#[export] Instance circuit_id_eq_dec : EqDecision gnma_dhcp_relay_circuit_id.
Proof. solve_decision. Defined.
#[export] Instance detection_mode_eq_dec : EqDecision gnma_poe_port_detection_mode.
Proof. solve_decision. Defined.
#[export] Instance poe_priority_eq_dec : EqDecision gnma_poe_port_priority.
Proof. solve_decision. Defined.
#[export] Instance power_mgmt_eq_dec : EqDecision gnma_poe_power_mgmt_mode.
Proof. solve_decision. Defined.
#[export] Instance stp_mode_eq_dec : EqDecision gnma_stp_mode.
Proof. solve_decision. Defined.
#[export] Instance ctrl_mode_eq_dec : EqDecision gnma_8021x_port_ctrl_mode.
Proof. solve_decision. Defined.
#[export] Instance host_mode_eq_dec : EqDecision gnma_8021x_port_host_mode.
Proof. solve_decision. Defined.

(** ** Settings *)
Inductive change_op :=
  | OpVlanCreate (vid : Z)
  | OpMemberCreate (vid : Z) (port : string) (tagged : bool)
  | OpMemberRemove (vid : Z) (port : string).

Inductive gnma_call :=
  | gnma_switch_create
  | gnma_port_admin_state_set (port : string) (up : bool)
  | gnma_port_speed_set (port speed : string)
  | gnma_port_duplex_set (port : string) (full : bool)
  | gnma_port_ieee8021x_pae_mode_set (port : string) (is_authenticator : bool)
  | gnma_port_ieee8021x_port_ctrl_set (port : string) (mode : gnma_8021x_port_ctrl_mode)
  | gnma_port_ieee8021x_port_host_mode_set (port : string) (mode : gnma_8021x_port_host_mode)
  | gnma_port_ieee8021x_guest_vlan_set (port : string) (vid : Z)
  | gnma_port_ieee8021x_unauthorized_vlan_set (port : string) (vid : Z)
  | gnma_poe_power_mgmt_set (mode : gnma_poe_power_mgmt_mode)
  | gnma_poe_usage_threshold_set (power_threshold : Z)
  | gnma_poe_port_admin_mode_set (port : string) (enabled : bool)
  | gnma_poe_port_detection_mode_set (port : string) (mode : gnma_poe_port_detection_mode)
  | gnma_poe_port_power_limit_set (port : string) (user_defined : bool) (power_limit : Z)
  | gnma_poe_port_priority_set (port : string) (priority : gnma_poe_port_priority)
  | gnma_poe_port_reset (port : string)
  | gnma_vlan_remove (vid : Z)
  | gnma_change_exec (c : list change_op)
  | gnma_vlan_erif_attr_pref_update (vid : Z) (pref : gnma_ip_prefix)
  | gnma_vlan_erif_attr_pref_delete (vid : Z) (pref : gnma_ip_prefix)
  | gnma_portl2_erif_attr_pref_update (port : string) (pref : gnma_ip_prefix)
  | gnma_portl2_erif_attr_pref_delete (port : string) (pref : gnma_ip_prefix)
  | gnma_vlan_dhcp_relay_server_add (vid ip : Z)
  | gnma_vlan_dhcp_relay_server_remove (vid ip : Z)
  | gnma_vlan_dhcp_relay_ciruit_id_set (vid : Z) (id : gnma_dhcp_relay_circuit_id)
  | gnma_vlan_dhcp_relay_policy_action_set (vid : Z) (act : gnma_dhcp_relay_policy_action)
  | gnma_vlan_dhcp_relay_max_hop_cnt_set (vid max_hop_cnt : Z)
  | gnma_route_create (prefix : gnma_ip_prefix) (attr : gnma_route_attrs)
  | gnma_route_remove (prefix : gnma_ip_prefix)
  | gnma_stp_mode_set (mode : gnma_stp_mode) (attr : option gnma_stp_attr)
  | gnma_stp_ports_enable (ports : list string)
  | gnma_stp_vid_set (vid : Z) (attr : gnma_stp_attr)
  | gnma_ieee8021x_system_auth_control_set (is_enabled : bool)
  | gnma_ieee8021x_das_dac_host_add (host passkey : string)
  | gnma_ieee8021x_das_dac_host_remove (host : string)
  | gnma_radius_host_add (host passkey : string) (auth_port prio : Z)
  | gnma_radius_host_remove (host : string)
  | gnma_system_password_set (password : string)
  | gnma_igmp_snooping_set (vid : Z) (attr : gnma_igmp_snoop_attr)
  | gnma_igmp_static_groups_set (vid : Z) (groups : list (Z * list string))
  | gnma_syslog_cfg_clear
  | gnma_syslog_cfg_set (cfg : list gnma_syslog_cfg)
  | gnma_config_save
  | gnma_config_restore
  | gnma_factory_default
  | gnma_image_install (uri : string)
  | gnma_reboot.

(** ** Questions, with the type of their output parameters

    A list is asked for with the room there is for it ([size]); the answer has
    the number of elements there are and the elements that fitted. *)
Inductive gnma_query : Type → Type :=
  | gnma_vlan_list_get : gnma_query (gset Z)
  | gnma_vlan_member_bmap_get : gnma_query (gmap Z vlan_bmap)
  | gnma_port_list_get (size : Z) : gnma_query (Z * list string)
  | gnma_poe_port_list_get (size : Z) : gnma_query (Z * list string)
  | gnma_radius_hosts_list_get (size : Z) : gnma_query (Z * list string)
  | gnma_ieee8021x_das_dac_hosts_list_get (size : Z) : gnma_query (Z * list string)
  | gnma_route_list_get (size : Z) : gnma_query (Z * list (gnma_ip_prefix * gnma_route_attrs))
  | gnma_vlan_erif_attr_pref_list_get (vid size : Z) : gnma_query (Z * gnma_ip_prefix)
  | gnma_portl2_erif_attr_pref_list_get (port : string) (size : Z) : gnma_query (Z * gnma_ip_prefix)
  | gnma_vlan_dhcp_relay_server_list_get (vid size : Z) : gnma_query (Z * Z)
  | gnma_vlan_dhcp_relay_ciruit_id_get (vid : Z) : gnma_query gnma_dhcp_relay_circuit_id
  | gnma_vlan_dhcp_relay_policy_action_get (vid : Z) : gnma_query gnma_dhcp_relay_policy_action
  | gnma_vlan_dhcp_relay_max_hop_cnt_get (vid : Z) : gnma_query Z
  | gnma_stp_mode_get : gnma_query (gnma_stp_mode * gnma_stp_attr)
  | gnma_stp_vid_bulk_get : gnma_query (gmap Z gnma_stp_attr)
  | gnma_port_ieee8021x_pae_mode_get (port : string) : gnma_query bool
  | gnma_port_ieee8021x_port_ctrl_get (port : string) : gnma_query gnma_8021x_port_ctrl_mode
  | gnma_port_ieee8021x_port_host_mode_get (port : string) : gnma_query gnma_8021x_port_host_mode
  | gnma_port_ieee8021x_guest_vlan_get (port : string) : gnma_query Z
  | gnma_port_ieee8021x_unauthorized_vlan_get (port : string) : gnma_query Z
  | gnma_ieee8021x_system_auth_control_get : gnma_query bool
  | gnma_ieee8021x_das_bounce_port_ignore_get : gnma_query bool
  | gnma_ieee8021x_das_disable_port_ignore_get : gnma_query bool
  | gnma_ieee8021x_das_ignore_server_key_get : gnma_query bool
  | gnma_ieee8021x_das_ignore_session_key_get : gnma_query bool
  | gnma_ieee8021x_das_auth_type_key_get : gnma_query das_auth_type
  | gnma_poe_port_admin_mode_get (port : string) : gnma_query bool
  | gnma_poe_port_detection_mode_get (port : string) : gnma_query gnma_poe_port_detection_mode
  | gnma_poe_port_power_limit_get (port : string) : gnma_query (bool * Z)
  | gnma_poe_port_priority_get (port : string) : gnma_query gnma_poe_port_priority
  | gnma_poe_power_mgmt_get : gnma_query gnma_poe_power_mgmt_mode
  | gnma_poe_usage_threshold_get : gnma_query Z
  (* a status that is not there leaves the variable of the caller unset *)
  | gnma_port_oper_status_get (port : string) : gnma_query (option bool)
  | gnma_port_speed_get (port : string) (str_len : Z) : gnma_query string
  | gnma_port_duplex_get (port : string) : gnma_query bool
  | gnma_port_stats_get (port : string) (counter_ids : list gnma_port_stat_type) : gnma_query (list Z)
  | gnma_iee8021x_das_dac_global_stats_get (counter_ids : list gnma_das_dac_stat_type) : gnma_query (list Z)
  (* documents, in a buffer of the given size *)
  | gnma_port_lldp_peer_info_get (port : string) (buf_size : Z) : gnma_query string
  | gnma_poe_state_get (buf_size : Z) : gnma_query string
  | gnma_poe_port_state_get (port : string) (buf_size : Z) : gnma_query string
  | gnma_ieee8021x_system_auth_clients_get (buf_size : Z) : gnma_query string
  | gnma_rebootcause_get (buf_size : Z) : gnma_query string
  | gnma_image_install_status (buf_size : Z) : gnma_query string
  (* the size is an output parameter too *)
  | gnma_igmp_iface_groups_get (iface : string) (buf_size : Z) : gnma_query (Z * string)
  (* [have] tells whether there is an array *)
  | gnma_dyn_route_list_get (size : Z) (have : bool) : gnma_query (Z * list (gnma_ip_prefix * gnma_nexthop))
  | gnma_mac_address_list_get (size : Z) (have : bool) : gnma_query (Z * list gnma_fdb_entry)
  | gnma_ip_iface_addr_get (size : Z) (have : bool) : gnma_query (Z * list gnma_vlan_ip)
  | gnma_nei_addr_get (iface : string) (ip buf_size : Z) : gnma_query string
  | gnma_image_running_name_get (str_max_len : Z) : gnma_query string
  | gnma_metadata_get : gnma_query gnma_metadata.

Class Gnma := {
  gst : Type;
  gnma_do : gnma_call → gst → (Z * gst) + fault;
  gnma_get : ∀ {A}, gnma_query A → A → gst → (Z * A * gst) + fault
}.

(** No IPv6 prefix: the only ones the platform layer makes. *)
Definition v4_only (c : gnma_call) : bool :=
  match c with
  | gnma_vlan_erif_attr_pref_update _ p | gnma_vlan_erif_attr_pref_delete _ p
  | gnma_portl2_erif_attr_pref_update _ p | gnma_portl2_erif_attr_pref_delete _ p
  | gnma_route_create p _ | gnma_route_remove p => negb (gp_v6 p)
  | _ => true
  end.

Class GnmaSafe `{Gnma} : Prop :=
  gnma_do_safe c g : v4_only c = true → ∃ rc g', gnma_do c g = inl (rc, g').
