(* ===== verification/Gnmi.v ===== *)
(** * The gNMI session below the switch management layer
      ([platform/brcm-sonic/gnma/gnma_common.c])

    [gnma_common.c] talks to the device through the functions of the gNMI
    connector: [gnmi_jsoni_set] and the like carry a message, whose JSON text is
    cJSON's rendering of the item it is given here; [gnmi_jsoni_get_alloc]
    returns the text at a path.  The device is the class [Gnmi]: its state, the
    return value of each message, and the text at each path or nothing when the
    request fails; [gdev_upgrade_status] is the text of an upgrade status.
    [gnmi] is the session, with the messages sent so far and their return values
    ([gn_sent], oldest first), the outcomes of the allocations to come and the
    answers of the kernel to the netlink requests to come ([gn_nl]). *)

From S2P Require Import Prelude CNum CStr Json Gnma Netlink.
#[local] Open Scope list_scope.

Inductive rq_op `{CJson} :=
  | RqUpdate (path : string) (val : json)
  | RqDelete (path : string).

Inductive gnmi_msg `{CJson} :=
  | gnmi_session_create (host username password : string)
  | gnmi_jsoni_set (path : string) (val : json)
  | gnmi_jsoni_del (path : string)
  | gnmi_setrq_execute (rq : list rq_op)
  | gnmi_gnoi_system_reboot
  | gnmi_gnoi_sonic_copy_replace (src dst : string)
  | gnmi_gnoi_sonic_cfg_erase_boot
  | gnmi_gnoi_sonic_cfg_erase_boot_cancel
  | gnmi_gnoi_poe_port_reset (port : string)
  | gnmi_gnoi_image_install (uri : string)
  | gnmi_gnoi_techsupport_start
  | gnmi_gnoi_sonic_alarm_acknowledge (id : string)
  | gnmi_subscribe_add (path : string)
  | gnmi_subscribe_start.

Class Gnmi `{CJson} := {
  gdev : Type;
  gdev_do : gnmi_msg → gdev → Z * gdev;
  gdev_get : string → gdev → option string * gdev;
  gdev_upgrade_status : gdev → option string * gdev
}.

Record gnmi `{Gnmi} := mk_gnmi {
  gn_dev : gdev;
  gn_sent : list (gnmi_msg * Z);
  gn_heap : list bool;
  gn_nl : list nl_dump;
  gn_conf : option json;                 (* /etc/gnma/gnma.conf, parsed *)
  gn_env : string → option string }.     (* getenv *)
#[export] Instance eta_gnmi `{Gnmi} : Eta gnmi := λ r,
  mk_gnmi _ _ (gn_dev r) (gn_sent r) (gn_heap r) (gn_nl r) (gn_conf r) (gn_env r).

(** An item to build: each constructor is one [cJSON_Create*] or
    [cJSON_Add*ToObject]. *)
Inductive item :=
  | IBool (b : bool)
  | INum (n : Z)
  | IStr (s : string)
  | IArr (l : list item)
  | IObj (l : list (string * item)).

Fixpoint nodes (i : item) : nat :=
  match i with
  | IArr l => S (sum_list_with nodes l)
  | IObj l => S (sum_list_with (λ kv, nodes kv.2) l)
  | _ => 1
  end.

Section session.
Context `{J : CJson, N : !Gnmi}.

Fixpoint json_of (i : item) : json :=
  match i with
  | IBool b => cJSON_CreateBool b
  | INum n => cJSON_CreateNumber (dbl_of_Z n)
  | IStr s => cJSON_CreateString s
  | IArr l => fold_left (λ a x, cJSON_AddToArray a (json_of x)) l cJSON_CreateArray
  | IObj l => fold_left (λ o kv, cJSON_AddToObject o kv.1 (json_of kv.2)) l cJSON_CreateObject
  end.

(** ** Allocations *)
Definition gn_alloc : M gnmi bool := λ g,
  match gn_heap g with
  | [] => Ok true g
  | b :: h => Ok b (g <| gn_heap := h |>)
  end.
Definition gn_alloc_or_fail : M gnmi unit := b ← gn_alloc; fail_if (negb b).

(** [asprintf(&path, ...)] *)
Definition asprintf (path : string) : M gnmi string := _ ← gn_alloc_or_fail; ret path.

(** Every item that is created and added may fail, and then the whole request
    is given up.  [fill] is what remains once the root has been created. *)
Definition allocs (n : nat) : M gnmi unit := for_each (seq 0 n) (λ _, gn_alloc_or_fail).
Definition build (i : item) : M gnmi json := _ ← allocs (nodes i); ret (json_of i).
Definition fill (i : item) : M gnmi json := _ ← allocs (nodes i - 1); ret (json_of i).

(** ** Messages *)
Definition send (m : gnmi_msg) : M gnmi Z := λ g,
  let '(rc, d) := gdev_do m (gn_dev g) in
  Ok rc (g <| gn_dev := d |> <| gn_sent := gn_sent g ++ [(m, rc)] |>).
Definition send_ok (m : gnmi_msg) : M gnmi unit := rc ← send m; fail_if (negb (rc =? 0)).

(** Printing the item, sending the text. *)
Definition gnmi_json_send (path : string) (j : json) : M gnmi unit :=
  _ ← gn_alloc_or_fail; send_ok (gnmi_jsoni_set path j).
(** The whole of a request: building, printing, sending. *)
Definition gnmi_json_object_set (path : string) (val : item) : M gnmi unit :=
  j ← build val; gnmi_json_send path j.
Definition gnmi_setrq_add_object_update (path : string) (val : item) : M gnmi rq_op :=
  j ← build val;
  _ ← gn_alloc_or_fail;
  ret (RqUpdate path j).

Definition gnmi_jsoni_get_alloc (path : string) : M gnmi string := λ g,
  match gdev_get path (gn_dev g) with
  | (Some text, d) => Ok text (g <| gn_dev := d |>)
  | (None, d) => Err (g <| gn_dev := d |>)
  end.

(** The connector takes a text only if it fits in the buffer. *)
Definition fits_or_fail (buf_size : Z) (m : M gnmi string) : M gnmi string :=
  text ← m; _ ← fail_if (buf_size <=? slen text); ret text.
Definition gnmi_jsoni_get (path : string) (buf_size : Z) : M gnmi string :=
  fits_or_fail buf_size (gnmi_jsoni_get_alloc path).
Definition gnmi_gnoi_upgrade_status (buf_size : Z) : M gnmi string :=
  fits_or_fail buf_size (λ g,
    match gdev_upgrade_status (gn_dev g) with
    | (Some text, d) => Ok text (g <| gn_dev := d |>)
    | (None, d) => Err (g <| gn_dev := d |>)
    end).

(** A netlink request; without an answer there is no socket. *)
Definition nl_request : M gnmi nl_dump := λ g,
  match gn_nl g with
  | [] => Ok NoSocket g
  | d :: l => Ok d (g <| gn_nl := l |>)
  end.

(** The text, parsed; a text that is no JSON gives NULL, and where the caller
    tests for it the request fails. *)
Definition gnmi_get_root (path : string) : M gnmi (option json) :=
  text ← gnmi_jsoni_get_alloc path; ret (cJSON_Parse text).
Definition gnmi_get_json (path : string) : M gnmi json :=
  root ← gnmi_get_root path; match root with Some j => ret j | None => fail end.

(** A function that goes to its error label returns [GNMA_ERR_COMMON]. *)
Definition common (m : M gnmi Z) : M gnmi Z := λ g,
  match m g with Err g => Ok GNMA_ERR_COMMON g | r => r end.
(** The same of a function with an output parameter, which keeps what it held. *)
Definition common_out {A} (old : A) (m : M gnmi (Z * A)) : M gnmi (Z * A) := λ g,
  match m g with Err g => Ok (GNMA_ERR_COMMON, old) g | r => r end.
End session.
