(* ===== verification/Sample.v ===== *)
(** * A concrete environment for evaluated examples

    A platform of the shape of [platform/example-platform/plat-example.c]: it
    reports three ports, accepts every call except, when its state says so,
    [plat_config_apply], and returns a saved configuration id.  Addresses are
    read from a table.  A gNMI device that accepts every message and shows the
    documents it was given.  Nothing of the development depends on this file
    except the witnesses. *)

From S2P Require Import Prelude CNum CStr Bitmap Router Json PlatTypes World Handlers Dispatch Gnma Gnmi.
From Stdlib Require Import Ascii.

Record sample_state := mk_sample_state {
  ss_apply_result : Z;
  ss_saved_id : option Z;
  ss_ports : list string
}.

Definition sample_platform : Platform := {|
  pst := sample_state;
  plat_do c s := match c with CConfigApply _ _ => (ss_apply_result s, s) | _ => (0, s) end;
  plat_script_done _ := false;
  plat_port_num_get s := (0, Z.of_nat (length (ss_ports s)), s);
  plat_port_list_get n s := (0, ss_ports s, s);
  plat_log_pop_concatenate s := (None, s);
  plat_saved_config_id_get s :=
    match ss_saved_id s with Some i => (0, i, s) | None => (-1, 0, s) end;
  plat_info_get s := (0, mk_plat_platform_info "sample" "sku" "00:11:22:33:44:55", s);
  plat_metrics_restore s := (-1, zero_plat_metrics_cfg, s);
  plat_reboot_cause_get s := (0, (0, 12, "none"), s)
|}.

Definition sample_libc : CLibc := {|
  inet_net_pton s := if streq s "10.0.0.0/24" then (24, 10)
                     else if streq s "10.1.0.0/16" then (16, 266) else (-1, 0);
  inet_pton s := if streq s "10.0.0.1" then (1, 16777226) else (0, 0);
  inet_ntop _ := "10.0.0.1"
|}.

Definition sample_est : EstClient := {|
  est_get_server_url _ := Some "est.example.org";
  est_simple_reenroll _ _ _ _ := Some "renewed"
|}.

Definition sample_client : client_id :=
  mk_client_id "aabbccddeeff" "1.0" "/etc/version.json" "/etc/schema.json".

Definition sample_world (apply_result : Z) : @world jtree_cjson sample_platform :=
  @mk_world jtree_cjson sample_platform [] [] [] [] ∅ 1000 [] 0
    (mk_sample_state apply_result (Some 7) ["Ethernet0"; "Ethernet1"; "Ethernet2"])
    [] sample_client zero_plat_cfg None 1 1 true zero_plat_metrics_cfg 0.

(** Single quotes for the double quotes of JSON. *)
Fixpoint quoted (s : string) : string :=
  match s with
  | EmptyString => EmptyString
  | String c r => String (if is_char 39 c then ascii_of_N 34 else c) (quoted r)
  end.

(** The state after a call, [w] when it faults. *)
Definition state_after {S A} (m : M S A) (s : S) : S :=
  match m s with Ok _ s' | Err s' => s' | Fault _ => s end.

Definition sample_item (s : string) : option jtree := jread (quoted s).
Definition finished {S A} (m : M S A) (s : S) : bool :=
  match m s with Ok _ _ => true | _ => false end.

Lemma finished_ok {S} (m : M S unit) s : finished m s = true → m s = Ok tt (state_after m s).
Proof. unfold finished, state_after. by destruct (m s) as [[] s'| |]. Qed.

(** A configuration with every section. *)
Definition sample_config_text : string :=
  "{'ethernet':[{'select-ports':['Ethernet0','Ethernet1'],'enabled':true,'duplex':'full','speed':1000,
     'poe':{'admin-mode':true}}],
    'interfaces':[{'vlan':{'id':100},
      'ethernet':[{'select-ports':['Ethernet*'],'vlan-tag':'tagged'}],
      'ipv4':{'subnet':[{'prefix':'10.0.0.0/24'}],
              'gateway':[{'prefix':'10.1.0.0/16','nexthop':'10.0.0.1'}],
              'broadcast':[{'prefix':'10.0.0.0/24'}]}}],
    'globals':{'ipv4-blackhole':[{'prefix':'10.1.0.0/16'}]},
    'switch':{'loop-detection':{'protocol':'rstp','instances':[{'id':7,'priority':4096,'enabled':true}]},
      'port-isolation':{'sessions':[
        {'id':1,'uplink':{'interface-list':['Ethernet0']},'downlink':{'interface-list':['Ethernet1']}}]},
      'ieee8021x':{'auth-control-enable':true,'radius':[
        {'server-host':'radius','server-authentication-port':100,'server-key':'k','server-priority':5}]}},
    'services':{'ssh':{'enable':true},'log':{'port':514,'proto':'udp','host':'loghost'}},
    'metrics':{'statistics':{'interval':60,'types':['lldp','clients']},'health':{'interval':30}},
    'unit':{'system-password':'secret'}}".
Definition sample_config : option jtree := sample_item sample_config_text.

Definition sample_rpc_text : string :=
  "{'jsonrpc':'2.0','method':'configure','id':3,
    'params':{'serial':'aabbccddeeff','uuid':42,'config':" +:+ sample_config_text +:+ "}}".
(** A command as it is received. *)
Definition sample_blob (s : string) : jtree := default JNull (sample_item s).

(** The request of a text. *)
Definition request_of (s : string) : @rpc_t jtree_cjson :=
  match sample_item s with
  | Some j => @rpc_of jtree_cjson j
  | None => @mk_rpc jtree_cjson None None None None None None
  end.
Definition sample_rpc : @rpc_t jtree_cjson := request_of sample_rpc_text.

(** A request of [method] with the serial number and the parameters [params]. *)
Definition sample_request (method params : string) : @rpc_t jtree_cjson :=
  request_of ("{'jsonrpc':'2.0','method':'" +:+ method +:+
    "','id':9,'params':{'serial':'aabbccddeeff'" +:+ params +:+ "}}").

Lemma wp_finished {S} (m : M S unit) (Q : unit → S → Prop) E F s :
  wp m Q E F s → finished m s = true → Q tt (state_after m s).
Proof. unfold wp, finished, state_after. by destruct (m s) as [[] s'| |]. Qed.

(** The same for a call that returns a value. *)
Lemma wp_returned {S A} (m : M S A) (Q : A → S → Prop) E F s :
  wp m Q E F s → finished m s = true → ∃ a, Q a (state_after m s).
Proof. unfold wp, finished, state_after. destruct (m s) as [a s'| |]; [|done..]. by exists a. Qed.

(** ** A concrete device for evaluated examples

    It answers messages from a script, 0 when the script is over, and shows
    fixed documents, written with single quotes.  Only witnesses use it. *)
#[local] Open Scope list_scope.

Definition sample_gnmi : @Gnmi jtree_cjson :=
  @Build_Gnmi jtree_cjson (list Z * list (string * string))
    (λ _ d, (hd 0 d.1, (tl d.1, d.2)))
    (λ path d, ((λ r, quoted r.2.2) <$> list_find (λ kv, kv.1 = path) d.2, d))
    (λ d, (None, d)).

Definition sample_session (answers : list Z) (docs : list (string * string)) : @gnmi jtree_cjson sample_gnmi :=
  @mk_gnmi jtree_cjson sample_gnmi (answers, docs) [] [] [] None (λ _, None).

Definition gnmi_libc : CLibc := {|
  inet_net_pton s := if streq s "10.0.0.1/24" then (24, 16777226) else (-1, 0);
  inet_pton s := if streq s "10.0.0.1" then (1, 16777226) else (0, 0);
  inet_ntop _ := "10.0.0.1"
|}.
