(* ===== verification/PortList.v ===== *)
(** * The cached port list ([proto.c], [__get_port_list])

    What [ProtoConv.get_port_list] returns, what it changes, and what is left
    of it when memory runs out. *)

From S2P Require Import Prelude CNum CStr Bitmap Router Json PlatTypes World Frame ProtoConv Replies Sample.

Section port_list.
Context `{J : CJson, P : Platform}.

(** ** What it changes *)
#[export] Instance fetched_preorder : PreOrder fetched.
Proof.
  split.
  - intros w. exists 0%nat, (w_port_list w), (w_port_list_num w), (w_plat w), [].
    destruct w. cbn. by rewrite app_nil_r.
  - intros w1 w2 w3 (k1 & l1 & n1 & p1 & e1 & ->) (k2 & l2 & n2 & p2 & e2 & ->).
    exists (k1 + k2)%nat, l2, n2, p2, (e1 ++ e2)%list. cbn.
    by rewrite drop_drop, map_app, app_assoc.
Qed.

(** [fetched] from the fields the two states differ in. *)
Ltac by_fields k l n p logs :=
  exists k, l, n, p, logs; destruct_world; cbn; rewrite ?app_nil_r; reflexivity
with destruct_world := match goal with w : world |- _ => destruct w end.

Lemma fetched_heap w : fetched w (w <| w_heap := tail (w_heap w) |>).
Proof.
  exists 1%nat, (w_port_list w), (w_port_list_num w), (w_plat w), [].
  destruct w as [h]. destruct h; cbn; by rewrite app_nil_r.
Qed.
Lemma fetched_list w l : fetched w (w <| w_port_list := l |>).
Proof. by_fields 0%nat l (w_port_list_num w) (w_plat w) (@nil string). Qed.
Lemma fetched_num w n : fetched w (w <| w_port_list_num := n |>).
Proof. by_fields 0%nat (w_port_list w) n (w_plat w) (@nil string). Qed.
Lemma fetched_plat w p : fetched w (w <| w_plat := p |>).
Proof. by_fields 0%nat (w_port_list w) (w_port_list_num w) p (@nil string). Qed.
Lemma fetched_log w s : fetched w (add_event (EvLog 3 s) w).
Proof. by_fields 0%nat (w_port_list w) (w_port_list_num w) (w_plat w) [s]. Qed.

(** Adds one of the steps above to a [fetched] already shown. *)
Ltac fetch_step H := etransitivity; [exact H|]; first
  [apply fetched_heap|apply fetched_list|apply fetched_num|apply fetched_plat|apply fetched_log].

Lemma alloc_port_nodes_fetched n w0 w :
  fetched w0 w →
  wp (alloc_port_nodes n) (λ _ w', fetched w0 w') (λ w', fetched w0 w') no_fault w.
Proof.
  revert w. induction n as [|n IH]; intros w H; cbn [alloc_port_nodes]; [by apply wp_ret|].
  apply wp_bind, wp_alloc. intros [].
  - apply wp_bind, wp_modify, IH. etransitivity; [|apply fetched_list]. fetch_step H.
  - apply wp_err. etransitivity; [|apply fetched_log]. fetch_step H.
Qed.

Lemma get_port_list_spec w :
  wp get_port_list
    (λ r w', r = (w_port_list w', match w_port_list w' with [] => 0 | _ => w_port_list_num w' end)
             ∧ fetched w w' ∧ (w_port_list w ≠ [] → w' = w))
    (λ w', fetched w w' ∧ w_port_list w = []) no_fault w.
Proof.
  unfold get_port_list. apply wp_bind, wp_gets.
  destruct (w_port_list w) as [|x l] eqn:Hl.
  2:{ apply wp_bind, wp_gets, wp_ret. by rewrite Hl. }
  apply wp_bind, wp_plat_read. intros [r n] p _.
  assert (fetched w (w <| w_plat := p |>)) as H by apply fetched_plat. revert H.
  generalize (w <| w_plat := p |>). intros w1 H1.
  apply wp_bind, wp_modify, wp_bind, wp_err_if; intros _.
  { split; [|done]. etransitivity; [|apply fetched_log]. fetch_step H1. }
  assert (fetched w (w1 <| w_port_list_num := n |>)) as H by fetch_step H1. revert H.
  assert (w_port_list_num (w1 <| w_port_list_num := n |>) = n) as Hn by done. revert Hn.
  generalize (w1 <| w_port_list_num := n |>). clear w1 H1. intros w1 Hn H1.
  apply wp_bind. eapply wp_mono;
    [apply (wp_conj _ (λ _ w', fetched w w') (λ _ w', w_port_list_num w' = n)
              (λ w', fetched w w') any_err no_fault any_fault)| | |by intros ? []].
  { by apply alloc_port_nodes_fetched. }
  { clear H1. revert w1 Hn. generalize (Z.to_nat n) as m.
    induction m as [|m IH]; intros w1 Hn; cbn [alloc_port_nodes]; [done|].
    apply wp_bind, wp_alloc. intros []; [|done]. apply wp_bind, wp_modify. by apply IH. }
  2:{ by intros w' []. }
  intros _ w2 [H2 Hn2]. apply wp_bind, wp_plat_read. intros [r2 names] p2 _.
  destruct (r2 =? 0).
  - apply wp_bind, wp_modify, wp_bind, wp_gets, wp_ret.
    split; [cbn; by rewrite Hn2|]. split; [|done]. etransitivity; [|apply fetched_list]. fetch_step H2.
  - apply wp_bind, wp_emit, wp_bind, wp_modify, wp_fail. split; [|done].
    etransitivity; [|apply fetched_list]. etransitivity; [|apply fetched_log]. fetch_step H2.
Qed.

Lemma fetched_client w w' : fetched w w' → w_client w' = w_client w.
Proof. by intros (? & ? & ? & ? & ? & ->). Qed.

Lemma stays_get_port_list {c R} `{!Frame c R} : yields c R (λ _, True) get_port_list.
Proof.
  intros w Hw. eapply wp_mono; [apply get_port_list_spec| | |done].
  - intros r w' (_ & Hf & Hs). rewrite (fetched_client _ _ Hf). split_and!; [done| |done].
    destruct (decide (w_port_list w = [])) as [E|E]; [by apply (frame_fetch w)|by rewrite (Hs E)].
  - intros w' [Hf E]. rewrite (fetched_client _ _ Hf). split; [by apply (frame_fetch w)|done].
Qed.

(** ** Memory that runs out while the list is allocated *)
Lemma alloc_port_nodes_stop k n h w :
  (k < n)%nat → w_heap w = (replicate k true ++ false :: h)%list →
  ∃ w', alloc_port_nodes n w = Err w' ∧ w_port_list w' = (replicate k EmptyString ++ w_port_list w)%list ∧
        w_port_list_num w' = w_port_list_num w.
Proof.
  revert n w. induction k as [|k IH]; intros [|n] w Hk Hh; try lia; cbn [alloc_port_nodes];
    unfold mbind, M_bind, alloc; rewrite Hh; cbn [replicate app].
  - eexists. split; [reflexivity|done].
  - cbv beta iota. unfold modify at 1.
    set (w1 := (w <| w_heap := (replicate k true ++ false :: h)%list |>)).
    destruct (IH n (w1 <| w_port_list := EmptyString :: w_port_list w1 |>)) as (w' & H1 & H2 & H3);
      [lia|done|].
    exists w'. split; [exact H1|]. split; [|exact H3]. rewrite H2.
    change (w_port_list (w1 <| w_port_list := EmptyString :: w_port_list w1 |>))
      with (EmptyString :: w_port_list w).
    clear. induction k as [|k IH]; simpl; [done|]. by rewrite IH.
Qed.

(** The port list is fetched once: a list that was returned is returned by
    every later call without asking the platform again.  That holds of a list
    whose allocation failed as well: when memory runs out after [k] of the [n]
    nodes the call fails, but the [k] nameless nodes stay, and the next call
    returns them, with [n] as their number, as if they were the ports. *)
Theorem port_list_cache (w : world) :
  (∀ r w', get_port_list w = Ok r w' → w_port_list w' ≠ [] → get_port_list w' = Ok r w') ∧
  (∀ k n p h, w_port_list w = [] → plat_port_num_get (w_plat w) = (0, n, p) →
     0 < Z.of_nat k < n → w_heap w = (replicate k true ++ false :: h)%list →
     ∃ w', get_port_list w = Err w' ∧ get_port_list w' = Ok (replicate k EmptyString, n) w').
Proof.
  split.
  - intros r w' H Hl. pose proof (get_port_list_spec w) as Hs. unfold wp in Hs. rewrite H in Hs.
    destruct Hs as [-> _]. unfold get_port_list, mbind, M_bind, gets, ret.
    by destruct (w_port_list w').
  - intros k n p h Hl Hp Hk Hh.
    set (w1 := w <| w_plat := p |> <| w_port_list_num := n |>).
    assert (∀ w', alloc_port_nodes (Z.to_nat n) w1 = Err w' → get_port_list w = Err w') as Herr.
    { intros w' H. unfold get_port_list, mbind, M_bind, gets, plat_read. rewrite Hl, Hp.
      unfold modify at 1. cbn [err_if Z.eqb negb]. unfold ret at 1. fold w1. by rewrite H. }
    destruct (alloc_port_nodes_stop k (Z.to_nat n) h w1) as (w' & H1 & H2 & H3); [lia|done|].
    exists w'. split; [by apply Herr|].
    change (w_port_list w1) with (w_port_list w) in H2. rewrite Hl, app_nil_r in H2.
    change (w_port_list_num w1) with n in H3.
    unfold get_port_list, mbind, M_bind, gets, ret. rewrite H2.
    destruct k; [lia|]. cbn [replicate]. by rewrite H3.
Qed.
End port_list.
#[export] Hint Resolve stays_get_port_list : yields.

#[local] Existing Instances jtree_cjson sample_platform.

Lemma port_list_cache_witness :
  let w := sample_world 0 <| w_heap := [true; false] |> in
  ∃ w', get_port_list w = Err w' ∧ get_port_list w' = Ok ([EmptyString], 3) w'.
Proof.
  apply (proj2 (port_list_cache (sample_world 0 <| w_heap := [true; false] |>)) 1%nat 3
    (w_plat (sample_world 0)) []); [reflexivity|reflexivity|lia|reflexivity].
Defined.
