(* ===== verification/MessageEffects.v ===== *)
(** * What the message functions send

    Every message [Messages], [Events] and [Connect] build is a JSON-RPC 2.0
    request or reply with the serial number of the device ([Frame.msg_ok]),
    whatever allocations fail.  [grows] says of a function that fills an object
    that it only appends members: the ones already found by name stay. *)

From S2P Require Import Prelude CNum CStr Bitmap Router Json PlatTypes World Frame ProtoConv Messages Events State.

Section builders.
Context `{J : CJson, JL : !CJsonLaws, P : Platform} {c : client_id} {R : relation world} `{!Frame c R}.

(** [o'] is [o] with members appended. *)
Definition extends (o o' : json) : Prop :=
  cJSON_IsObject o' = true ∧ ∀ k v, cJSON_member o k = Some v → cJSON_member o' k = Some v.

Definition grows (f : json → M world json) : Prop :=
  ∀ o, cJSON_IsObject o = true → yields c R (extends o) (f o).

Lemma extends_add o k v : cJSON_IsObject o = true → extends o (cJSON_AddToObject o k v).
Proof.
  intros Ho. split; [by apply isobject_add|]. intros k' v' E. by rewrite member_add, E.
Qed.

Lemma extends_trans o o1 o2 : extends o o1 → extends o1 o2 → extends o o2.
Proof. intros [? H1] [? H2]. split; auto. Qed.

Lemma has_string_extends o o' k v :
  has_string (Some o) k v → extends o o' → has_string (Some o') k v.
Proof.
  unfold has_string, get_item. intros H [_ He]. destruct (cJSON_member o k) eqn:E.
  - by rewrite (He _ _ E).
  - done.
Qed.

Lemma add_new_member o k v :
  cJSON_IsObject o = true → cJSON_member o k = None →
  cJSON_member (cJSON_AddToObject o k v) k = Some v.
Proof. intros Ho E. rewrite member_add, E by done. unfold streq. by rewrite String.eqb_refl. Qed.

Lemma grows_add k v : grows (add k v).
Proof.
  intros o Ho. unfold add. eapply yields_bind; [apply yields_alloc_or_fail|]. intros _ _.
  apply yields_ret. by apply extends_add.
Qed.

Lemma yields_new j : yields c R (λ j', j' = j) (new j).
Proof.
  eapply yields_bind; [apply yields_alloc_or_fail|]. intros _ _. by apply yields_ret.
Qed.

Lemma yields_add k v o : yields c R (λ o', o' = cJSON_AddToObject o k v) (add k v o).
Proof.
  eapply yields_bind; [apply yields_alloc_or_fail|]. intros _ _. by apply yields_ret.
Qed.

Lemma grows_add_object k body : (∀ o, yields c R (λ _, True) (body o)) → grows (add_object k body).
Proof.
  intros Hb o Ho. unfold add_object. eapply yields_bind; [apply yields_new|]. intros c1 _.
  eapply yields_bind; [apply Hb|]. intros c2 _. apply yields_ret. by apply extends_add.
Qed.

Lemma stays_add_object k body o :
  (∀ o, yields c R (λ _, True) (body o)) → yields c R (λ _, True) (add_object k body o).
Proof. intros Hb. unfold add_object, new_object, new. stay. Qed.
Lemma stays_add_array k body o :
  (∀ o, yields c R (λ _, True) (body o)) → yields c R (λ _, True) (add_array k body o).
Proof. intros Hb. unfold add_array, new_array, new. stay. Qed.
Lemma stays_add k v o : yields c R (λ _, True) (add k v o).
Proof. unfold add. stay. Qed.
Lemma stays_push v a : yields c R (λ _, True) (push v a).
Proof. unfold push. stay. Qed.
Lemma stays_new j : yields c R (λ _, True) (new j).
Proof. unfold new. stay. Qed.

Lemma add_serial_serial :
  yields c R (λ o, cJSON_IsObject o = true ∧ has_string (Some o) "serial" (cl_serial c))
    (add_serial cJSON_CreateObject).
Proof.
  unfold add_serial. eapply yields_bind.
  { apply (yields_gets (λ c', c' = c)). by intros w ->. }
  intros ? ->. unfold add_str, add. eapply yields_bind; [apply yields_alloc_or_fail|].
  intros _ _. apply yields_ret. split; [apply isobject_add, isobject_empty|].
  unfold has_string, get_item. rewrite add_new_member; [|apply isobject_empty|apply member_empty].
  apply valuestring_create.
Qed.

Lemma yields_or_alloc_failed {A} (Φ : A → Prop) m :
  yields c R Φ m → yields c R Φ (or_alloc_failed m).
Proof.
  intros Hm. eapply yields_bind; [by apply yields_try|]. intros [a|] Ha.
  - by apply yields_ret.
  - eapply yields_bind; [apply yields_log|]. intros; apply yields_fail.
Qed.

(** ** The two envelopes *)
Lemma yields_proto_new_blob method :
  yields c R (λ k, ∀ params, has_string (Some params) "serial" (cl_serial c) →
    request_ok c method (k params)) (proto_new_blob method).
Proof.
  unfold proto_new_blob. apply yields_or_alloc_failed.
  eapply yields_bind; [apply yields_new|]. intros ? ->.
  unfold add_str.
  do 2 (eapply yields_bind; [apply yields_add|]; intros ? ->).
  eapply yields_bind; [apply yields_alloc_or_fail|]. intros _ _.
  apply yields_ret. intros params Hp. unfold request_ok, has_string, get_item.
  rewrite !member_add, !member_empty by (repeat apply isobject_add; apply isobject_empty).
  cbn. by rewrite !valuestring_create.
Qed.

Lemma yields_result_new_blob id uuid :
  yields c R (λ kr, cJSON_IsObject kr.2 = true ∧ has_string (Some kr.2) "serial" (cl_serial c) ∧
    ∀ res, has_string (Some res) "serial" (cl_serial c) → reply_ok c id (kr.1 res))
    (result_new_blob id uuid).
Proof.
  unfold result_new_blob. apply yields_or_alloc_failed.
  eapply yields_bind; [apply yields_new|]. intros ? ->.
  unfold add_str, add_num, add_dbl.
  do 2 (eapply yields_bind; [apply yields_add|]; intros ? ->).
  eapply yields_bind; [apply yields_new|]. intros ? ->.
  eapply yields_bind; [apply (yields_gets (λ c', c' = c)); by intros w ->|]. intros ? ->.
  do 2 (eapply yields_bind; [apply yields_add|]; intros ? ->).
  apply yields_ret. cbn [fst snd]. split; [|split].
  - repeat apply isobject_add. apply isobject_empty.
  - unfold has_string, get_item.
    rewrite !member_add, !member_empty by (repeat apply isobject_add; apply isobject_empty).
    cbn. by rewrite valuestring_create.
  - intros res Hp. unfold reply_ok, has_string, get_item.
    rewrite !member_add, !member_empty by (repeat apply isobject_add; apply isobject_empty).
    cbn. by rewrite valuestring_create, isnumber_create, valuedouble_create.
Qed.

Lemma stays_send_blob j : msg_ok c j → yields c R (λ _, True) (send_blob j).
Proof. intros Hj. unfold send_blob. stay. Qed.

Lemma stays_send_or e body :
  yields c R (λ _, True) e → yields c R (msg_ok c) body → yields c R (λ _, True) (send_or e body).
Proof.
  intros He Hb. eapply yields_bind; [by apply yields_try|]. intros [j|] Hj; [|done].
  by apply stays_send_blob.
Qed.

(** One more step in filling an object that holds the serial number. *)
Lemma yields_grow {A} f o v (K : json → M world A) (Ψ : A → Prop) :
  grows f → cJSON_IsObject o = true → has_string (Some o) "serial" v →
  (∀ o', cJSON_IsObject o' = true → has_string (Some o') "serial" v → yields c R Ψ (K o')) →
  yields c R Ψ (f o ≫= K).
Proof.
  intros Hf Ho Hs HK. eapply yields_bind; [by apply Hf|]. intros o' He.
  apply HK; [by destruct He|by eapply has_string_extends].
Qed.

Lemma grows_add_array k body : (∀ o, yields c R (λ _, True) (body o)) → grows (add_array k body).
Proof.
  intros Hb o Ho. unfold add_array. eapply yields_bind; [apply yields_new|]. intros c1 _.
  eapply yields_bind; [apply Hb|]. intros c2 _. apply yields_ret. by apply extends_add.
Qed.

Lemma msg_request k method params :
  (∀ params, has_string (Some params) "serial" (cl_serial c) → request_ok c method (k params)) →
  has_string (Some params) "serial" (cl_serial c) → msg_ok c (k params).
Proof. intros Hk Hs. left. eauto. Qed.

Lemma msg_reply (k : json → json) id res :
  (∀ res, has_string (Some res) "serial" (cl_serial c) → reply_ok c id (k res)) →
  has_string (Some res) "serial" (cl_serial c) → msg_ok c (k res).
Proof. intros Hk Hs. right. eauto. Qed.

Lemma grows_bind f g : grows f → grows g → grows (λ o, o ← f o; g o).
Proof.
  intros Hf Hg o Ho. eapply yields_bind; [by apply Hf|]. intros o1 H1.
  eapply yields_mono; [by apply Hg; destruct H1|]. intros o2 H2. by eapply extends_trans.
Qed.

Lemma extends_refl o : cJSON_IsObject o = true → extends o o.
Proof. done. Qed.

Lemma grows_ret : grows ret.
Proof. intros o Ho. by apply yields_ret, extends_refl. Qed.

Lemma grows_if (b : bool) f g : grows f → grows g → grows (λ o, if b then f o else g o).
Proof. by destruct b. Qed.

Lemma grows_gets {A} (f : world → A) g : (∀ a, grows (g a)) → grows (λ o, a ← gets f; g a o).
Proof.
  intros Hg o Ho. eapply yields_bind; [by apply (yields_gets (λ _, True))|]. intros a _. by apply Hg.
Qed.
End builders.

#[export] Hint Resolve stays_add stays_push stays_new stays_add_object stays_add_array
  yields_send : yields.

(** [stay] extended with the builders. *)
Ltac fill_step :=
  lazymatch goal with
  | |- yields _ _ _ (add_object _ _ _) => apply stays_add_object; intros ?
  | |- yields _ _ _ (add_array _ _ _) => apply stays_add_array; intros ?
  | |- yields _ _ _ (add_str_opt _ ?s _) => destruct s; unfold add_str_opt
  | |- yields _ _ _ new_object => apply stays_new
  | |- yields _ _ _ new_array => apply stays_new
  | |- yields _ _ _ (add_str _ _ _) => apply stays_add
  | |- yields _ _ _ (add_num _ _ _) => apply stays_add
  | |- yields _ _ _ (add_dbl _ _ _) => apply stays_add
  | |- yields _ _ _ (add_bool _ _ _) => apply stays_add
  | |- yields _ _ _ (jobj_u64_set _ _ _) => apply stays_add
  | |- _ => stay_step
  end.
Ltac fill := cbv zeta; repeat (first [solve [eauto 3 with yields] | fill_step]; cbv zeta beta).

(** [grow] proves that a step only appends members; [message] walks the body
    of a message. *)
Ltac grow :=
  lazymatch goal with
  | |- grows (λ o, if _ then _ else _) => apply grows_if; grow
  | |- grows (λ o, match ?x with _ => _ end) => destruct x; grow
  | |- grows (λ o, ret o) => exact grows_ret
  | |- grows (λ o, mbind _ _) => apply grows_bind; grow
  | |- grows (λ o, add_object ?k ?b o) => apply (grows_add_object k b); intros ?
  | |- grows (add_object ?k ?b) => apply (grows_add_object k b); intros ?
  | |- grows (λ o, add_array ?k ?b o) => apply (grows_add_array k b); intros ?
  | |- grows _ => apply grows_add
  end.
Ltac message_step :=
  lazymatch goal with
  | |- yields _ _ _ (mbind _ (proto_new_blob _)) =>
      eapply yields_bind; [apply yields_proto_new_blob|intros ? ?]
  | |- yields _ _ _ (mbind _ (result_new_blob _ _)) =>
      eapply yields_bind; [apply yields_result_new_blob|intros [? ?] (?&?&?)]; cbn [fst snd] in *
  | |- yields _ _ _ (mbind _ (add_serial cJSON_CreateObject)) =>
      eapply yields_bind; [apply add_serial_serial|intros ? [? ?]]
  | |- yields _ _ _ (mbind _ (gets _)) =>
      eapply yields_bind; [by apply (yields_gets (λ _, True))|intros ? _]
  | Ho : cJSON_IsObject ?o = true, Hs : has_string (Some ?o) "serial" _
      |- yields _ _ _ (mbind _ ?m) =>
      let f := eval pattern o in m in
      lazymatch f with
      | ?g o => eapply (yields_grow g o); [|exact Ho|exact Hs|clear Ho Hs; intros ? Ho Hs];
                [cbv beta; grow|]
      end
  | |- yields _ _ _ (ret _) => apply yields_ret; first [by eapply msg_request | by eapply msg_reply]
  | |- yields _ _ _ (send_or _ _) => apply stays_send_or; [solve [stay; apply yields_log]|]
  end.
Ltac message := repeat (message_step; cbv beta in * ).

Section messages.
Context `{J : CJson, JL : !CJsonLaws, P : Platform} {c : client_id} {R : relation world} `{!Frame c R}.

Lemma stays_log_send m s : yields c R (λ _, True) (log_send m s).
Proof. unfold log_send, alloc_failed. message. Qed.

Lemma stays_event_firmware_upgrade_send op n text :
  yields c R (λ _, True) (event_firmware_upgrade_send op n text).
Proof.
  unfold event_firmware_upgrade_send, alloc_failed. apply stays_send_or; [apply yields_log|].
  message. fill.
Qed.

Lemma stays_ping_send : yields c R (λ _, True) ping_send.
Proof. unfold ping_send, alloc_failed, add_num, add_dbl. message. Qed.

Lemma stays_deviceupdate_send p : yields c R (λ _, True) (deviceupdate_send p).
Proof. unfold deviceupdate_send. destruct p; [|stay]. message. Qed.

Lemma stays_health_send n msgs : yields c R (λ _, True) (health_send n msgs).
Proof.
  unfold health_send, alloc_failed. message. fill. unfold health_message. fill.
Qed.

Lemma stays_configure_reply e t u id : yields c R (λ _, True) (configure_reply e t u id).
Proof. unfold configure_reply, alloc_failed. message. fill. Qed.

Lemma stays_action_reply e t r id : yields c R (λ _, True) (action_reply e t r id).
Proof. unfold action_reply, alloc_failed. message. fill. Qed.

Lemma stays_script_reply e t id : yields c R (λ _, True) (script_reply e t id).
Proof. unfold script_reply, alloc_failed. message. fill. Qed.

Lemma yields_success_reply id : yields c R (msg_ok c) (success_reply id).
Proof. unfold success_reply. message. fill. Qed.

Lemma stays_alarm a : yields c R (λ _, True) (alarm_plat_cb a).
Proof. unfold alarm_plat_cb. message. fill. Qed.

Lemma stays_event_send ts f k v :
  (∀ o, yields c R (λ _, True) (f o)) → yields c R (λ _, True) (event_send ts f k v).
Proof.
  intros Hf. unfold event_send. message. fill.
Qed.

Lemma stays_linkstatus t n u : yields c R (λ _, True) (linkstatus_plat_cb t n u).
Proof. apply stays_event_send. intros o. fill. Qed.
Lemma stays_poe_linkstatus t n u : yields c R (λ _, True) (poe_linkstatus_plat_cb t n u).
Proof. apply stays_event_send. intros o. fill. Qed.
Lemma stays_poe_faultcode t n u : yields c R (λ _, True) (poe_link_faultcode_plat_cb t n u).
Proof. apply stays_event_send. intros o. fill. Qed.
Lemma stays_rebootcause : yields c R (λ _, True) device_rebootcause_send.
Proof.
  unfold device_rebootcause_send. fill. apply stays_event_send. intros o. fill.
Qed.
End messages.

(** ** The state report *)
Section state.
Context `{J : CJson, JL : !CJsonLaws, P : Platform, L : CLibc} {c : client_id} {R : relation world} `{!Frame c R}.

Lemma stays_add_nums l o : yields c R (λ _, True) (add_nums l o).
Proof. unfold add_nums. fill. Qed.
Lemma stays_add_strs l o : yields c R (λ _, True) (add_strs l o).
Proof. unfold add_strs. fill. Qed.
Lemma stays_add_u64s l o : yields c R (λ _, True) (add_u64s l o).
Proof. unfold add_u64s. fill. Qed.
Lemma stays_push_strs l o : yields c R (λ _, True) (push_strs l o).
Proof. unfold push_strs. fill. Qed.
#[local] Hint Resolve stays_add_nums stays_add_strs stays_add_u64s stays_push_strs : yields.

Lemma stays_logged m r : yields c R (λ _, True) r → yields c R (λ _, True) (logged m r).
Proof. intros. unfold logged. stay. Qed.
Lemma stays_section n m i f o :
  yields c R (λ _, True) i → (∀ o, yields c R (λ _, True) (f o)) →
  yields c R (λ _, True) (section n m i f o).
Proof. intros. unfold section. stay. Qed.

Lemma stays_transceiver t o : yields c R (λ _, True) (state_fill_transceiver_info t o).
Proof. unfold state_fill_transceiver_info, name_at. fill. Qed.
Lemma stays_vlan_ipv4 v o : yields c R (λ _, True) (state_fill_vlan_ipv4 o v).
Proof. unfold state_fill_vlan_ipv4. fill. Qed.
Lemma stays_multicast v o : yields c R (λ _, True) (state_fill_interface_multicast v o).
Proof. unfold state_fill_interface_multicast, igmp_group_json. fill. Qed.
Lemma stays_counters s o : yields c R (λ _, True) (state_fill_interface_counters s o).
Proof. apply stays_add_nums. Qed.
#[local] Hint Resolve stays_transceiver stays_vlan_ipv4 stays_multicast stays_counters : yields.

Lemma stays_interfaces_data s o : yields c R (λ _, True) (state_fill_interfaces_data s o).
Proof.
  unfold state_fill_interfaces_data, port_interface, vlan_interface, state_fill_interface_clients,
    state_fill_interface_dns_servers, state_fill_interface_ipv4. fill.
Qed.
Lemma stays_link_state_data s o : yields c R (λ _, True) (state_fill_link_state_data s o).
Proof.
  unfold state_fill_link_state_data, link_state_port, state_fill_link_state_ieee8021x_data,
    ieee8021x_client, state_fill_link_state_poe_data. fill.
Qed.
Lemma stays_lldp_peers s o : yields c R (λ _, True) (state_fill_lldp_peers s o).
Proof. unfold state_fill_lldp_peers, lldp_peer. fill. Qed.
Lemma stays_mac_table s o : yields c R (λ _, True) (state_fill_mac_addr_list_data s o).
Proof. unfold state_fill_mac_addr_list_data, mac_table_add. fill. Qed.
Lemma stays_unit_data s o : yields c R (λ _, True) (state_fill_unit_data s o).
Proof.
  unfold state_fill_unit_data, state_fill_unit_poe_data, state_fill_unit_ieee8021x_global_counters.
  fill.
Qed.
Lemma stays_default_gateway s o : yields c R (λ _, True) (state_fill_default_gateway s o).
Proof. unfold state_fill_default_gateway, gateway_json. fill. Qed.
Lemma stays_public_ip o : yields c R (λ _, True) (state_fill_public_ip o).
Proof. unfold state_fill_public_ip. fill. Qed.
#[local] Hint Resolve stays_interfaces_data stays_link_state_data stays_lldp_peers stays_mac_table
  stays_unit_data stays_default_gateway stays_public_ip stays_logged stays_section : yields.

Lemma stays_state_fill s o : yields c R (λ _, True) (state_fill s o).
Proof.
  unfold state_fill, new_array, new_object, add_num, add_dbl.
  repeat (first [stay_step | solve [eauto with yields]]; cbv zeta beta).
Qed.
#[local] Hint Resolve stays_state_fill : yields.

Lemma stays_state_send s : yields c R (λ _, True) (state_send s).
Proof. unfold state_send. message. apply stays_logged, stays_state_fill. Qed.
Lemma stays_telemetry_send s : yields c R (λ _, True) (telemetry_send s).
Proof. unfold telemetry_send, alloc_failed. message. unfold add_serial. fill. Qed.
End state.
