(* ===== verification/ParserEffects.v ===== *)
(** * What the configuration parser does besides building [cfg]

    It reads the port list of the platform, allocates, logs, and in one place
    sends a log message: [cfg_parse] has no effect outside [CfgFrame].  Each
    section is walked for every relation that allows the fields of [cfg] it
    [Writes], so that choosing the relation shows what it leaves alone. *)

From S2P Require Import Prelude CNum CStr Bitmap Router Json PlatTypes World Frame ProtoConv CfgEthernet CfgInterfaces CfgSwitch Messages CfgServices CfgParse PortList MessageEffects.

Section sections.
Context `{J : CJson, JL : !CJsonLaws, P : Platform, T : CTarget, L : CLibc} {c : client_id} {R : relation world} `{!Frame c R}.

Lemma stays_proto_port_name_to_num str : yields c R (λ _, True) (proto_port_name_to_num str).
Proof. unfold proto_port_name_to_num. stay. Qed.
Lemma stays_proto_vlan_tagged_to_num str : yields c R (λ _, True) (proto_vlan_tagged_to_num str).
Proof. unfold proto_vlan_tagged_to_num. stay. Qed.
#[local] Hint Resolve stays_proto_port_name_to_num stays_proto_vlan_tagged_to_num : yields.

Lemma stays_select_all ports id bm : yields c R (λ _, True) (select_all ports id bm).
Proof. revert id bm. induction ports; simpl; intros; stay. Qed.
#[local] Hint Resolve stays_select_all : yields.

Lemma stays_select_loop items ports num avail bm n :
  yields c R (λ _, True) (select_loop items ports num avail bm n).
Proof. revert bm n. induction items; intros; cbn [select_loop]; stay. Qed.
#[local] Hint Resolve stays_select_loop : yields.
Lemma stays_select_ports sp : yields c R (λ _, True) (cfg_ethernet_select_ports_parse sp).
Proof. unfold cfg_ethernet_select_ports_parse, avail_bitmap. stay. Qed.

Lemma stays_opt_field {A} item ok msg (a : A) f :
  (∀ a, yields c R (λ _, True) (f a)) → yields c R (λ _, True) (opt_field item ok msg a f).
Proof. intros. unfold opt_field. stay. Qed.
#[local] Hint Resolve stays_select_ports stays_opt_field : yields.

Lemma stays_poe poe port : yields c R (λ _, True) (cfg_ethernet_poe_parse poe port).
Proof. unfold cfg_ethernet_poe_parse. stay; apply stays_opt_field; intros; stay. Qed.
Lemma stays_ieee8021x x port : yields c R (λ _, True) (cfg_ethernet_ieee8021x_parse x port).
Proof. unfold cfg_ethernet_ieee8021x_parse. stay; apply stays_opt_field; intros; stay. Qed.
#[local] Hint Resolve stays_poe stays_ieee8021x : yields.

Lemma stays_opt_object item m1 m2 parse port :
  (∀ o p, yields c R (λ _, True) (parse o p)) →
  yields c R (λ _, True) (opt_object item m1 m2 parse port).
Proof. intros. unfold opt_object. apply stays_opt_field. intros. stay. Qed.
#[local] Hint Resolve stays_opt_object : yields.

Section ethernet.
Context `{!Writes R cfg_ports, !Writes R cfg_ports_to_cfg}.
Lemma stays_configure_port port i : yields c R (λ _, True) (configure_port port i).
Proof. unfold configure_port. stay. Qed.
#[local] Hint Resolve stays_configure_port : yields.

Lemma stays_ethernet_entry eth : yields c R (λ _, True) (cfg_ethernet_entry eth).
Proof. unfold cfg_ethernet_entry. stay. Qed.
Lemma stays_ethernet eth : yields c R (λ _, True) (cfg_ethernet_parse eth).
Proof. unfold cfg_ethernet_parse. stay; apply stays_ethernet_entry. Qed.

End ethernet.

(** ** Interfaces *)
Section interfaces.
Context `{!Writes R cfg_vlans, !Writes R cfg_vlans_to_cfg, !Writes R cfg_portsl2}.
Lemma stays_interface2vid i : yields c R (λ _, True) (cfg_interface2vid i).
Proof. unfold cfg_interface2vid. stay. Qed.
Lemma stays_ipv4 l v : yields c R (λ _, True) (cfg_interface_parse_ipv4 l v).
Proof. unfold cfg_interface_parse_ipv4. stay. Qed.
Lemma stays_vlan_get vid : yields c R (λ _, True) (vlan_get vid).
Proof. unfold vlan_get. stay. Qed.
#[local] Hint Resolve stays_interface2vid stays_ipv4 stays_vlan_get : yields.
Lemma stays_vlan_upd vid f : yields c R (λ _, True) (vlan_upd vid f).
Proof. unfold vlan_upd. stay. Qed.
Lemma stays_port_interface i : yields c R (λ _, True) (cfg_port_interface_parse i).
Proof. unfold cfg_port_interface_parse. stay. Qed.
#[local] Hint Resolve stays_vlan_upd stays_port_interface : yields.
Lemma stays_multicast_parse m vid : yields c R (λ _, True) (cfg_vlan_interface_parse_multicast m vid).
Proof.
  unfold cfg_vlan_interface_parse_multicast, igmp_parse_version, igmp_group_parse, igmp_egress_port.
  stay.
Qed.
Lemma stays_vlan_ethernet vid e : yields c R (λ _, True) (vlan_ethernet_entry vid e).
Proof. unfold vlan_ethernet_entry, vlan_add_member. stay. Qed.
Lemma stays_dhcp d vid : yields c R (λ _, True) (vlan_dhcp_parse d vid).
Proof. unfold vlan_dhcp_parse. stay. Qed.
#[local] Hint Resolve stays_multicast_parse stays_vlan_ethernet stays_dhcp : yields.
Lemma stays_vlan_ipv4_parse i vid : yields c R (λ _, True) (vlan_ipv4_parse i vid).
Proof. unfold vlan_ipv4_parse. stay. Qed.
#[local] Hint Resolve stays_vlan_ipv4_parse : yields.
Lemma stays_vlan_interface i : yields c R (λ _, True) (cfg_vlan_interface_parse i).
Proof. unfold cfg_vlan_interface_parse. stay. Qed.
#[local] Hint Resolve stays_vlan_interface : yields.
Lemma stays_interfaces i : yields c R (λ _, True) (cfg_interfaces_parse i).
Proof. unfold cfg_interfaces_parse, interface_entry. stay. Qed.

End interfaces.

(** ** Switch *)
Section switch.
Context `{!Writes R cfg_radius_hosts_list, !Writes R cfg_ieee8021x, !Writes R cfg_stp_mode, !Writes R cfg_stp_instances, !Writes R cfg_port_isolation_cfg}.
Lemma stays_radius h : yields c R (λ _, True) (radius_host_parse h).
Proof. unfold radius_host_parse. stay. Qed.
#[local] Hint Resolve stays_radius : yields.
Lemma stays_switch_ieee8021x sw : yields c R (λ _, True) (cfg_switch_ieee8021x_parse sw).
Proof. unfold cfg_switch_ieee8021x_parse. stay. Qed.
Lemma stays_isolation_side i m : yields c R (λ _, True) (isolation_side i m).
Proof.
  unfold isolation_side, cfg_ethernet_port_isolation_interface_parse, isolation_port. stay.
Qed.
#[local] Hint Resolve stays_switch_ieee8021x stays_isolation_side : yields.
Lemma stays_isolation i : yields c R (λ _, True) (cfg_switch_port_isolation_parse i).
Proof. unfold cfg_switch_port_isolation_parse, isolation_session. stay. Qed.
Lemma stays_stp bm i : yields c R (λ _, True) (stp_instance_parse bm i).
Proof. unfold stp_instance_parse. stay. Qed.
#[local] Hint Resolve stays_isolation stays_stp : yields.
Lemma stays_switch root : yields c R (λ _, True) (cfg_switch_parse root).
Proof. unfold cfg_switch_parse. stay. Qed.

End switch.

(** ** Services, metrics, unit *)
Section services.
Context `{!Writes R cfg_log_cfg, !Writes R cfg_log_cfg_cnt, !Writes R cfg_enabled_services_cfg}.
Lemma stays_service_log s l : yields c R (λ _, True) (cfg_service_log_parse s l).
Proof. unfold cfg_service_log_parse, opt_int. stay. Qed.
Lemma stays_upd_services f : yields c R (λ _, True) (upd_services f).
Proof. unfold upd_services. stay. Qed.
Lemma stays_service_enabled s n m1 m2 : yields c R (λ _, True) (service_enabled s n m1 m2).
Proof. unfold service_enabled. stay. Qed.
#[local] Hint Resolve stays_service_log stays_upd_services stays_service_enabled : yields.
Lemma stays_services s : yields c R (λ _, True) (cfg_services_parse s).
Proof. unfold cfg_services_parse, when_some. stay. Qed.

End services.

Section metrics.
Context `{!Writes R cfg_metrics}.
Lemma stays_upd_metrics f : yields c R (λ _, True) (upd_metrics f).
Proof. unfold upd_metrics. stay. Qed.
Lemma stays_upd_met_state f : yields c R (λ _, True) (upd_met_state f).
Proof. apply stays_upd_metrics. Qed.
#[local] Hint Resolve stays_upd_metrics stays_upd_met_state stays_log_send : yields.
Lemma stays_metrics m : yields c R (λ _, True) (cfg_metrics_parse m).
Proof. unfold cfg_metrics_parse, statistics_parse, statistics_type_parse. stay. Qed.
End metrics.

Lemma stays_unit `{!Writes R cfg_unit} u : yields c R (λ _, True) (cfg_unit_parse u).
Proof. unfold cfg_unit_parse, unit_poe_parse, when_some, upd_unit. stay. Qed.

(** ** Routes *)
#[local] Hint Resolve stays_interface2vid : yields.
Lemma stays_route_step info st iter :
  (∀ j, yields c R (λ _, True) (info j)) → yields c R (λ _, True) (route_step info st iter).
Proof. intros. unfold route_step, route_prefix_obj2node_key. stay. Qed.
#[local] Hint Resolve stays_route_step : yields.
Lemma stays_process_prefixes root db : yields c R (λ _, True) (cfg_process_prefixes root db).
Proof.
  unfold cfg_process_prefixes, interface_routes. stay; apply stays_route_step; intros;
    unfold nexthop_info; stay.
Qed.
#[local] Hint Resolve stays_process_prefixes : yields.
Lemma stays_router `{!Writes R cfg_router} root : yields c R (λ _, True) (cfg_router_parse root).
Proof. unfold cfg_router_parse. stay. Qed.

End sections.

(** ** The whole *)
Section parser.
Context `{J : CJson, JL : !CJsonLaws, P : Platform, T : CTarget, L : CLibc} {c : client_id} {R : relation world} `{!CfgFrame c R}.
#[local] Hint Resolve cfg_frame : yields.
Lemma stays_cfg_parse config : yields c R (λ _, True) (cfg_parse config).
Proof.
  unfold cfg_parse, parse_failed, default_port. stay.
  - apply stays_ethernet.
  - apply stays_interfaces.
  - apply stays_switch.
  - apply stays_metrics.
  - apply stays_upd_metrics.
  - apply stays_services.
  - apply stays_unit.
  - apply stays_router.
  - apply stays_upd_met_state.
Qed.
End parser.
