(* ===== verification/EthernetSpec.v ===== *)
(** * Which ports a [select-ports] list selects, and what is stored for them

    [CfgEthernet.cfg_ethernet_select_ports_parse] against a description of the
    selection that does not mention bitmaps or the order of the items, and the
    slots of [cfg->ports] that the parser leaves behind. *)

From S2P Require Import Prelude CNum CStr Bitmap Router Json PlatTypes World Frame ProtoConv CfgEthernet CfgInterfaces CfgSwitch Messages CfgServices CfgParse Replies Sample PortList MessageEffects ParserEffects.

Section selection.
Context `{J : CJson, P : Platform, T : CTarget}.

(** The numbers of the ports of a list. *)
Definition port_numbers (ports : list string) : list Z := omap NAME_TO_PID ports.

(** What an item of [select-ports] says: a port number, the wildcard's
    included; nothing when it is not a port name. *)
Definition item_reads (item : json) : res unit (option Z) :=
  proto_port_name_to_num (string_value (Some item)) tt.
Definition item_id (item : json) : option Z :=
  match item_reads item with Ok r _ => r | _ => None end.
Definition wildcard (item : json) : bool :=
  match item_id item with Some id => id =? PORT_ID_SELECT_ALL_PORTS | None => false end.

Definition picks (item : json) (k : Z) : Prop := wildcard item = true ∨ item_id item = Some k.

(** An item that makes the parser fail, one that it cannot even read. *)
Definition rejected_item (nums : list Z) (item : json) : Prop :=
  wildcard item = false ∧
  match item_id item with Some id => MAX_NUM_OF_PORTS ≤ id ∨ id ∉ nums | None => True end.
Definition unreadable (item : json) : Prop := ∃ f, item_reads item = Fault f.

Lemma wp_name_to_num {S} item (Q : option Z → S → Prop) E F s :
  Q (item_id item) s → (unreadable item → ∀ f, F f) →
  wp (proto_port_name_to_num (string_value (Some item))) Q E F s.
Proof.
  unfold unreadable, item_id, item_reads, proto_port_name_to_num, wp, mbind, M_bind, deref.
  destruct (string_value (Some item)) as [t|]; simpl; [|intros _ HF; eapply HF; by eexists].
  destruct (_ || _); [done|]. destruct (sscanf_lit_u 32 "Ethernet" t); simpl; try done.
  intros _ HF. eapply HF. by eexists.
Qed.

Lemma item_id_range item id : item_id item = Some id → 0 ≤ id < 2 ^ 16.
Proof.
  unfold item_id, item_reads, proto_port_name_to_num, mbind, M_bind, deref.
  destruct (string_value (Some item)) as [t|]; simpl; [|done].
  destruct (_ || _); [intros [= <-]; vm_compute; split; congruence|].
  destruct (sscanf_lit_u 32 "Ethernet" t); simpl; [|done..]. intros [= <-].
  by apply (wrap_range 16).
Qed.

Definition names_one_of (nums : list Z) (item : json) : Prop :=
  ∃ k, item_id item = Some k ∧ k ∈ nums.

(** ** Bits *)
Abbreviation port_bits := (bits_are MAX_NUM_OF_PORTS).

(** The numbers a bitmap of this size has room for. *)
Definition fits (k : Z) : Prop := 0 ≤ k < 128.
Lemma bits_are_fits bm X k : port_bits bm X → bit_ok bm k = true ↔ fits k.
Proof. intros H. by rewrite (bits_are_room _ _ _ k H). Qed.

(** ** The bitmap of the available ports *)
Definition listable (name : string) : Prop := ∃ k, NAME_TO_PID name = Some k ∧ fits k.

Lemma avail_bitmap_spec {E} ports (w : world) :
  wp (avail_bitmap ports)
    (λ A w', w' = w ∧ Forall listable ports ∧ port_bits A (λ k, k ∈ port_numbers ports))
    E (λ _, ¬ Forall listable ports) w.
Proof.
  unfold avail_bitmap.
  apply (wp_fold_m (λ l A w', w' = w ∧ Forall listable l ∧ port_bits A (λ k, k ∈ port_numbers l))).
  - split; [done|]. split; [done|]. eapply bits_are_proper; [apply bits_are_clear|].
    intros k. unfold port_numbers. simpl. by rewrite elem_of_nil.
  - intros l x todo A w' -> (-> & Hl & HA). apply wp_bind, wp_of_option.
    + intros k Hk. apply wp_bit_set; intros Hb.
      * split; [done|]. assert (fits k) by by apply (bits_are_fits A _ k HA).
        split; [apply Forall_app; split; [done|]; constructor; [by exists k|done]|].
        eapply bits_are_proper; [by apply bits_are_set|]. intros j. unfold port_numbers.
        rewrite omap_app, elem_of_app. simpl. by rewrite Hk, list_elem_of_singleton.
      * rewrite Forall_app, Forall_cons. intros (_ & (k' & Hk' & Hf) & _).
        assert (k' = k) as -> by congruence. apply (bits_are_fits A _ k HA) in Hf. congruence.
    + intros Hn. rewrite Forall_app, Forall_cons. intros (_ & (k' & Hk' & _) & _). congruence.
  - intros A w' (-> & Hl & HA). done.
Qed.

Lemma select_all_spec {E F} ports tmp bm X (w : world) :
  Forall listable ports → port_bits bm X →
  wp (select_all ports tmp bm)
    (λ bm' w', w' = w ∧ port_bits bm' (λ k, X k ∨ k ∈ port_numbers ports)) E F w.
Proof.
  intros Hl. revert tmp bm X. induction Hl as [|name ports (k & Hk & Hf) Hl IH]; intros tmp bm X HX.
  - apply wp_ret. split; [done|]. eapply bits_are_proper; [exact HX|]. intros k.
    unfold port_numbers. simpl. rewrite elem_of_nil. tauto.
  - cbn [select_all]. rewrite Hk. change (default tmp (Some k)) with k. apply wp_bind, wp_bit_set; intros Hb.
    + eapply wp_mono; [apply IH, bits_are_set; [exact HX|done]| |done|done].
      intros bm' w' [-> H]. split; [done|]. eapply bits_are_proper; [exact H|]. intros j.
      unfold port_numbers. simpl. rewrite Hk, elem_of_cons. tauto.
    + apply (bits_are_fits _ _ k HX) in Hf. congruence.
Qed.

(** ** The loop *)
Lemma select_loop_spec items ports num avail bm X n (w : world) :
  Forall listable ports → port_bits avail (λ k, k ∈ port_numbers ports) →
  port_bits bm X → (∀ k, X k → k ∈ port_numbers ports) →
  wp (select_loop items ports num avail bm n)
    (λ r w', w' = w ∧
       port_bits (fst r) (λ k, k ∈ port_numbers ports ∧ (X k ∨ ∃ item, item ∈ items ∧ picks item k)) ∧
       snd r = (if existsb wildcard items then num else n + Z.of_nat (length items)) ∧
       (existsb wildcard items = false → Forall (names_one_of (port_numbers ports)) items))
    (λ _, ∃ item, item ∈ items ∧ rejected_item (port_numbers ports) item)
    (λ _, ∃ item, item ∈ items ∧ unreadable item) w.
Proof.
  intros Hl HA. revert bm X n. induction items as [|p items IH]; intros bm X n HX Hsub.
  { apply wp_ret. split; [done|]. split; [|split; [simpl; lia|by constructor]].
    eapply bits_are_proper; [exact HX|].
    intros k. setoid_rewrite elem_of_nil. naive_solver. }
  cbn [select_loop]. apply wp_bind, wp_name_to_num; [|intros; exists p; set_solver].
  assert (Hw : wildcard p = match item_id p with
    Some id => id =? PORT_ID_SELECT_ALL_PORTS | None => false end) by done.
  destruct (item_id p) as [id|] eqn:Hid.
  2:{ apply wp_err. exists p. split; [set_solver|]. split; [by rewrite Hw|]. by rewrite Hid. }
  destruct (id =? PORT_ID_SELECT_ALL_PORTS) eqn:Ha.
  { apply wp_bind. eapply wp_mono; [by apply (select_all_spec (E:=λ _, False) (F:=no_fault))| |done|done].
    intros bm' w' [-> H]. apply wp_ret. split; [done|]. simpl. rewrite Hw. simpl. split; [|done].
    eapply bits_are_proper; [exact H|]. intros k. split.
    - intros [H1|H1]; (split; [by auto|]); [by left|]. right. exists p.
      split; [set_solver|by left].
    - tauto. }
  assert (rejected_item (port_numbers ports) p ↔ MAX_NUM_OF_PORTS ≤ id ∨ id ∉ port_numbers ports)
    as Hrej. { unfold rejected_item. rewrite Hw, Hid. tauto. }
  pose proof (item_id_range p id Hid) as Hr.
  destruct (MAX_NUM_OF_PORTS <=? id) eqn:Hm.
  { apply wp_fail. exists p. split; [set_solver|]. apply Hrej. left. by apply Z.leb_le. }
  apply Z.leb_gt in Hm. assert (fits id) as Hf by (unfold fits, MAX_NUM_OF_PORTS in *; lia).
  apply wp_bind, wp_bit_test; intros Hb; [|by apply (bits_are_fits _ _ id HA) in Hf; congruence].
  destruct (BITMAP_TEST_BIT avail id) eqn:Ht; cbn [negb].
  2:{ apply wp_fail. exists p. split; [set_solver|]. apply Hrej. right.
      intros Hin. apply (proj2 HA id ltac:(lia)) in Hin. congruence. }
  apply (proj2 HA id ltac:(lia)) in Ht.
  apply wp_bind, wp_bit_set; intros Hb2; [|by apply (bits_are_fits _ _ id HX) in Hf; congruence].
  eapply wp_mono; [apply IH; [by apply bits_are_set|naive_solver]| | |].
  - intros r w' (-> & H1 & H2 & H3). split; [done|]. split; [|split].
    + eapply bits_are_proper; [exact H1|]. intros k. setoid_rewrite elem_of_cons.
      unfold picks. split.
      * intros (Hk & [[HXk|Hk']|(i & Hi & Hp)]); (split; [done|]); [by left|right|right]; [|by eauto].
        exists p. split; [by left|]. right. by rewrite Hk'.
      * intros (Hk & [HXk|(i & [->|Hi] & Hp)]); (split; [done|]); [by left; left| |right; by eauto].
        destruct Hp as [Hp|Hp]; [congruence|]. left. right. congruence.
    + rewrite H2. cbn [existsb length]. rewrite Hw. cbn [orb]. destruct (existsb _ _); lia.
    + cbn [existsb]. rewrite Hw. cbn [orb]. intros Hn. constructor; [by exists id|auto].
  - intros _ (i & Hi & Hr'). exists i. set_solver.
  - intros _ (i & Hi & Hr'). exists i. set_solver.
Qed.

(** ** The whole selection *)

(** The port list the parser is given. *)
Definition served (w : world) (ports : list string) : Prop :=
  ∃ n w', get_port_list w = Ok (ports, n) w'.

(** The list is fetched only when there is none, and nothing else changes. *)
Definition refetched (w w' : world) : Prop :=
  fetched w w' ∧ (w_port_list w ≠ [] → w' = w).

Definition selects_exactly (sp : option json) (w' : world) (r : bitmap * Z) : Prop :=
  port_bits (fst r) (λ k, k ∈ port_numbers (w_port_list w') ∧
    ∃ item, item ∈ for_each_child sp ∧ picks item k) ∧
  snd r = (if existsb wildcard (for_each_child sp)
           then match w_port_list w' with [] => 0 | _ => w_port_list_num w' end
           else array_size sp) ∧
  (existsb wildcard (for_each_child sp) = false →
     Forall (names_one_of (port_numbers (w_port_list w'))) (for_each_child sp)).

Definition selection_fails (sp : option json) (w : world) : Prop :=
  (∃ w', get_port_list w = Err w') ∨
  ∃ ports item, served w ports ∧ item ∈ for_each_child sp ∧ rejected_item (port_numbers ports) item.
Definition selection_faults (sp : option json) (w : world) : Prop :=
  ∃ ports, served w ports ∧
    (¬ Forall listable ports ∨ ∃ item, item ∈ for_each_child sp ∧ unreadable item).

Lemma select_ports_spec sp w :
  wp (cfg_ethernet_select_ports_parse sp)
    (λ r w', selects_exactly sp w' r ∧ refetched w w' ∧ Forall listable (w_port_list w'))
    (λ _, selection_fails sp w) (λ _, selection_faults sp w) w.
Proof.
  unfold cfg_ethernet_select_ports_parse. pose proof (get_port_list_spec w) as Hg.
  apply wp_bind, wp_try. unfold wp at 1. unfold wp in Hg.
  destruct (get_port_list w) as [[pl n] w1|w1|] eqn:Hgl; [|apply wp_err; left; by exists w1|done].
  destruct Hg as ([= -> ->] & Hf & Hs).
  assert (served w (w_port_list w1)) as Hserved by by eexists _, _.
  apply wp_bind. eapply wp_mono; [apply (avail_bitmap_spec (E:=λ _, False))| |done|].
  2:{ intros f HF. exists (w_port_list w1). auto. }
  intros A w' (-> & Hl & HA). eapply wp_mono.
  - apply (select_loop_spec _ _ _ _ _ (λ _, False)); [done|done|apply bits_are_clear|done].
  - intros r w' (-> & H1 & H2 & H3). split; [|done]. split; [|by split].
    eapply bits_are_proper; [exact H1|]. naive_solver.
  - intros _ (i & Hi & Hr). right. eauto.
  - intros _ (i & Hi & Hr). exists (w_port_list w1). eauto.
Qed.

(** C8: the ports selected by a [select-ports] list are exactly the platform's
    ports some item asks for, by its name or by the wildcard, however the
    items are ordered and whatever follows the wildcard; the count returned is
    the number of items, or of ports when there is a wildcard.  The parser
    fails only when the port list is not to be had or an item is no port name
    or names a port the platform does not have, and its behaviour is undefined
    only when an item is not a readable string or the platform lists a name
    that is not one. *)
Theorem select_ports_exact (sp : option json) (w : world) :
  wp (cfg_ethernet_select_ports_parse sp) (λ r w', selects_exactly sp w' r)
    (λ _, selection_fails sp w) (λ _, selection_faults sp w) w.
Proof. eapply wp_mono; [apply select_ports_spec| |done|done]. by intros r w' [H _]. Qed.
End selection.

(** ** The slots of [cfg->ports] *)
Section slots.
Context `{J : CJson, JL : !CJsonLaws, P : Platform, T : CTarget, L : CLibc}.

Definition port_bit (c : plat_cfg) (k : Z) : bool := BITMAP_TEST_BIT (cfg_ports_to_cfg c) k.
Definition port_slot (c : plat_cfg) (k : Z) : plat_port := arr_get zero_plat_port (cfg_ports c) k.

(** A slot whose bit is set carries its own number and a name for it; the
    others are untouched. *)
Definition slots_ok (nums : list Z) (c : plat_cfg) : Prop :=
  length (cfg_ports_to_cfg c) = length (BITMAP_CLEAR MAX_NUM_OF_PORTS) ∧
  ∀ k, 0 ≤ k →
    if port_bit c k then
      k ∈ nums ∧ k < MAX_NUM_OF_PORTS ∧ port_fp_id (port_slot c k) = k ∧
      NAME_TO_PID (port_name (port_slot c k)) = Some k
    else port_slot c k = zero_plat_port.

(** Besides, every port of [ports] has its bit, and [ports] is the list still
    in use unless it was empty. *)
Definition ports_inv (ports : list string) (w : world) : Prop :=
  slots_ok (port_numbers (w_port_list w)) (w_cfg w) ∧
  (∀ k, k ∈ port_numbers ports → port_bit (w_cfg w) k = true) ∧
  (ports ≠ [] → w_port_list w = ports).

Lemma slots_ok_zero nums : slots_ok nums zero_plat_cfg.
Proof. split; [done|]. intros k _. unfold port_bit. cbn [zero_plat_cfg cfg_ports_to_cfg]. by rewrite test_clear. Qed.

Lemma slots_ok_nil nums c : slots_ok [] c → slots_ok nums c.
Proof.
  intros [Hl H]. split; [done|]. intros k Hk. specialize (H k Hk).
  destruct (port_bit c k); [|done]. destruct H as [H _]. by apply elem_of_nil in H.
Qed.

(** Storing a record into slot [i] and setting bit [i]. *)
Definition store_port (c : plat_cfg) (i : Z) (p : plat_port) : plat_cfg :=
  c <| cfg_ports := <[i := p]> (cfg_ports c) |>
    <| cfg_ports_to_cfg := BITMAP_SET_BIT (cfg_ports_to_cfg c) i |>.

Lemma bit_store c i p k nums :
  slots_ok nums c → 0 ≤ i < MAX_NUM_OF_PORTS → 0 ≤ k →
  port_bit (store_port c i p) k = port_bit c k || (k =? i).
Proof.
  intros [Hl _] Hi Hk. unfold port_bit, store_port. cbn. apply test_set_bit; [|done].
  unfold bit_ok. rewrite Hl. change (length _) with 4%nat.
  rewrite andb_true_iff, Z.leb_le, Z.ltb_lt. unfold MAX_NUM_OF_PORTS in *. lia.
Qed.

Lemma slots_ok_store nums c i p :
  slots_ok nums c → 0 ≤ i < MAX_NUM_OF_PORTS → i ∈ nums → port_fp_id p = i →
  NAME_TO_PID (port_name p) = Some i → slots_ok nums (store_port c i p).
Proof.
  intros Hs Hi Hin Hf Hn. split; [cbn; by rewrite length_set_bit; destruct Hs|].
  intros k Hk. rewrite (bit_store c i p k nums) by done.
  change (port_slot (store_port c i p) k) with (arr_get zero_plat_port (<[i := p]> (cfg_ports c)) k).
  rewrite arr_get_insert. destruct Hs as [_ Hs]. specialize (Hs k Hk). unfold port_slot in Hs.
  destruct (Z.eqb_spec k i) as [->|Hne].
  - rewrite orb_true_r, decide_True by done. split_and!; try done. lia.
  - rewrite orb_false_r, decide_False by congruence. done.
Qed.

(** ** What leaves them alone *)
Definition same_ports (w w' : world) : Prop :=
  cfg_ports (w_cfg w') = cfg_ports (w_cfg w) ∧
  cfg_ports_to_cfg (w_cfg w') = cfg_ports_to_cfg (w_cfg w) ∧
  (w_port_list w ≠ [] → w_port_list w' = w_port_list w).

#[export] Instance same_ports_preorder : PreOrder same_ports.
Proof.
  split; [done|]. intros w1 w2 w3 (A1 & B1 & C1) (A2 & B2 & C2).
  split_and!; [congruence..|]. intros H. rewrite C2, C1; auto. by rewrite C1.
Qed.

#[export] Instance same_ports_frame c : Frame c same_ports.
Proof.
  split; try apply _; try done.
  intros w ? Hl (k & l & n & p & logs & ->). by split_and!.
Qed.

(** So does a write of any other field of [cfg]. *)
#[local] Hint Extern 1 (Writes same_ports _) => (intros ? ?; by split_and!) : typeclass_instances.

Lemma ports_inv_same ports w w' : same_ports w w' → ports_inv ports w → ports_inv ports w'.
Proof.
  intros (Hp & Hb & Hl) (Hs & Ha & Hn). unfold ports_inv, port_bit in *. rewrite Hb.
  assert (slots_ok (port_numbers (w_port_list w)) (w_cfg w')) as Hs'.
  { unfold slots_ok, port_bit, port_slot in *. by rewrite Hb, Hp. }
  destruct (decide (w_port_list w = [])) as [E|E].
  - rewrite E in *. split; [by apply slots_ok_nil|]. split; [done|].
    intros H. by destruct (H (eq_sym (Hn H))).
  - by rewrite (Hl E).
Qed.

Lemma wp_keeps_ports {A} (m : M world A) ports Er w :
  (∀ c, yields c same_ports (λ _, True) m) → ports_inv ports w → (∀ w', Er w') →
  wp m (λ _ w', ports_inv ports w') Er any_fault w.
Proof.
  intros Hm Hi He. eapply wp_mono; [by apply (Hm (w_client w))| |done|done].
  intros a w' (_ & HR & _). by eapply ports_inv_same.
Qed.

(** ** One entry of the section *)

(** The link settings of a port that none was given. *)
Definition blank (p : plat_port) : Prop :=
  port_speed p = SPEED_10_E ∧ port_duplex p = DUPLEX_HALF_E.

#[local] Hint Resolve same_ports_frame : yields.
Lemma poe_blank c poe port :
  blank port → yields c same_ports blank (cfg_ethernet_poe_parse poe port).
Proof.
  intros Hb. unfold cfg_ethernet_poe_parse. cbv zeta.
  repeat (eapply yields_bind; [apply stays_opt_field; intros; stay|intros ? _]).
  by apply yields_ret.
Qed.
Lemma ieee8021x_blank c x port :
  blank port → yields c same_ports blank (cfg_ethernet_ieee8021x_parse x port).
Proof.
  intros Hb. unfold cfg_ethernet_ieee8021x_parse. cbv zeta.
  repeat (eapply yields_bind; [apply stays_opt_field; intros; stay|intros ? _]).
  by apply yields_ret.
Qed.

Lemma opt_object_blank c item m1 m2 parse port :
  blank port → (∀ o p, blank p → yields c same_ports blank (parse o p)) →
  yields c same_ports blank (opt_object item m1 m2 parse port).
Proof.
  intros Hb Hp. unfold opt_object, opt_field. destruct (non_null item); [|by apply yields_ret].
  destruct (is_object item); [|apply yields_err].
  eapply yields_bind; [by apply yields_try, Hp|]. intros [p|] H; [by apply yields_ret|apply yields_err].
Qed.

(** The link settings an entry asks for; what the tables do not know becomes
    10 Mbit/s, half duplex. *)
Definition entry_speed (eth : json) : Z :=
  default SPEED_10_E (proto_port_speed_to_num (number_value (get_item (Some eth) "speed"))).
Definition entry_duplex (eth : json) : Z :=
  match string_value (get_item (Some eth) "duplex") with
  | Some d => default DUPLEX_HALF_E (proto_port_duplex_to_num d)
  | None => DUPLEX_HALF_E
  end.
Definition asked_by (eth : json) (p : plat_port) : Prop :=
  port_speed p = entry_speed eth ∧ port_duplex p = entry_duplex eth ∧
  port_state p = proto_port_state_to_num (is_true (get_item (Some eth) "enabled")).
Definition entry_selects (eth : json) (nums : list Z) (k : Z) : Prop :=
  k ∈ nums ∧ ∃ item, item ∈ for_each_child (get_item (Some eth) "select-ports") ∧ picks item k.

(** The body of the loop is a store. *)
Lemma configure_port_spec rec i nums w :
  slots_ok nums (w_cfg w) → 0 ≤ i < MAX_NUM_OF_PORTS →
  configure_port rec i w = Ok tt (w <| w_cfg := store_port (w_cfg w) i
    (rec <| port_name := PID_TO_NAME i |> <| port_fp_id := wrap 16 i |>) |>).
Proof.
  intros [Hl _] Hi. unfold configure_port, arr_write, bit_set, bit_ok. cbv zeta.
  assert (((0 <=? i) && (i <? MAX_NUM_OF_PORTS)) = true) as Hb.
  { rewrite andb_true_iff, Z.leb_le, Z.ltb_lt. lia. }
  cbv [mbind M_bind get_cfg gets ret upd_cfg modify]. rewrite Hb, Hl.
  change (length _) with 4%nat. replace ((0 <=? i) && (i <? 32 * Z.of_nat 4)) with true; [done|].
  symmetry. rewrite andb_true_iff, Z.leb_le, Z.ltb_lt. unfold MAX_NUM_OF_PORTS in *. lia.
Qed.

(** What storing [rec] into the slots [l] does. *)
Definition stored (rec : plat_port) (l : list Z) (w w' : world) : Prop :=
  ∀ k, 0 ≤ k → port_slot (w_cfg w') k =
    if decide (k ∈ l) then rec <| port_name := PID_TO_NAME k |> <| port_fp_id := wrap 16 k |>
    else port_slot (w_cfg w) k.

Lemma configure_ports_spec rec l ports Er w :
  ports_inv ports w → Forall (λ i, 0 ≤ i < MAX_NUM_OF_PORTS ∧ i ∈ port_numbers (w_port_list w)) l →
  wp (for_each l (configure_port rec))
    (λ _ w', ports_inv ports w' ∧ stored rec l w w' ∧ w_port_list w' = w_port_list w) Er no_fault w.
Proof.
  intros Hi Hl.
  apply (wp_for_each (λ l w', ports_inv ports w' ∧ stored rec l w w' ∧ w_port_list w' = w_port_list w));
    [|clear Hi|done].
  { split; [done|]. split; [|done]. intros k _. by rewrite decide_False by apply not_elem_of_nil. }
  intros seen x todo w1 -> ((Hs & Ha & Hn) & Hst & Hw1).
  apply Forall_app in Hl as [_ [[Hx Hin] _]%Forall_cons]. rewrite <- Hw1 in Hin.
  unfold wp. rewrite (configure_port_spec rec x _ w1 Hs Hx).
  set (p := rec <| port_name := PID_TO_NAME x |> <| port_fp_id := wrap 16 x |>).
  set (w2 := w1 <| w_cfg := store_port (w_cfg w1) x p |>).
  change (w_port_list w2) with (w_port_list w1). unfold ports_inv.
  change (w_port_list w2) with (w_port_list w1).
  change (w_cfg w2) with (store_port (w_cfg w1) x p).
  split; [split|split; [|done]].
  - apply slots_ok_store; try done; [cbn; apply wrap_small; unfold MAX_NUM_OF_PORTS in *; lia|].
    apply name_to_pid_to_name. unfold MAX_NUM_OF_PORTS in *. lia.
  - split; [|done]. intros k Hk. rewrite (bit_store _ _ _ _ _ Hs Hx).
    + by rewrite Ha.
    + unfold port_numbers in Hk. apply list_elem_of_omap in Hk as (n & _ & Hn').
      apply name_to_pid_range in Hn'. lia.
  - intros k Hk.
    change (w_cfg w2) with (store_port (w_cfg w1) x p).
    change (port_slot (store_port (w_cfg w1) x p) k) with (arr_get zero_plat_port (<[x := p]> (cfg_ports (w_cfg w1))) k).
    rewrite arr_get_insert. specialize (Hst k Hk). unfold port_slot in Hst.
    destruct (decide (x = k)) as [->|Hne].
    + rewrite decide_True by set_solver. done.
    + rewrite Hst. destruct (decide (k ∈ seen)), (decide (k ∈ seen ++ [x])%list); set_solver.
Qed.

Lemma selects_some sp w' r : selects_exactly sp w' r → snd r ≠ 0 → w_port_list w' ≠ [].
Proof.
  intros (_ & Hn & Hf) H0 E. rewrite Hn, E in H0.
  destruct (existsb wildcard (for_each_child sp)); [done|]. specialize (Hf eq_refl).
  rewrite E in Hf. unfold array_size in H0. destruct (for_each_child sp) as [|item l]; [done|].
  apply Forall_cons in Hf as [(k & _ & Hk) _]. by apply elem_of_nil in Hk.
Qed.

(** What an entry that parses leaves behind. *)
Definition entry_post (eth : json) (w w' : world) : Prop :=
  w_port_list w' ≠ [] ∧
  ∃ rec, asked_by eth rec ∧
    ∀ k, 0 ≤ k < MAX_NUM_OF_PORTS →
      (entry_selects eth (port_numbers (w_port_list w')) k →
         port_slot (w_cfg w') k = rec <| port_name := PID_TO_NAME k |> <| port_fp_id := wrap 16 k |>) ∧
      (¬ entry_selects eth (port_numbers (w_port_list w')) k →
         port_slot (w_cfg w') k = port_slot (w_cfg w) k).

Lemma refetched_same w w' : refetched w w' → same_ports w w'.
Proof.
  intros [(k & l & n & p & logs & ->) Hs]. split_and!; [done..|]. intros H. by rewrite Hs.
Qed.

Lemma stored_entry eth rec bm w1 w2 r :
  selects_exactly (get_item (Some eth) "select-ports") w1 (bm, r) → r ≠ 0 →
  asked_by eth rec → w_port_list w2 = w_port_list w1 →
  stored rec (BITMAP_FOR_EACH_BIT_SET bm MAX_NUM_OF_PORTS) w1 w2 → entry_post eth w1 w2.
Proof.
  intros Hs Hr Ha Hl Hst. unfold entry_post. rewrite Hl. split; [by eapply selects_some|].
  exists rec. split; [done|]. intros k Hk. rewrite (Hst k) by lia.
  destruct Hs as [[_ Hb] _]. specialize (Hb k ltac:(lia)). fold (entry_selects eth) in Hb.
  assert (k ∈ BITMAP_FOR_EACH_BIT_SET bm MAX_NUM_OF_PORTS ↔
          entry_selects eth (port_numbers (w_port_list w1)) k) as Hin.
  { rewrite elem_of_for_each_bit_set by (vm_compute; congruence). cbn [fst] in Hb. unfold entry_selects. rewrite <- Hb.
    unfold MAX_NUM_OF_PORTS in *. intuition. }
  destruct (decide _) as [E|E]; rewrite Hin in E; naive_solver.
Qed.

Lemma entry_post_same eth w w1 w2 :
  same_ports w w1 → entry_post eth w1 w2 → entry_post eth w w2.
Proof.
  intros (Hp & _) (Hl & rec & Ha & H). split; [done|]. exists rec. split; [done|].
  intros k Hk. destruct (H k Hk) as [H1 H2]. split; [done|]. intros Hn.
  rewrite H2 by done. unfold port_slot. by rewrite Hp.
Qed.

Lemma yields_wp {A} (m : M world A) R Φ (Q : A → world → Prop) w :
  (∀ c, yields c R Φ m) → (∀ a w', Φ a → R w w' → Q a w') → wp m Q any_err any_fault w.
Proof.
  intros Hm HQ. eapply wp_mono; [by apply (Hm (w_client w))| |done|done].
  intros a w' (H1 & H2 & _). by apply HQ.
Qed.

Lemma entry_spec eth ports w :
  ports_inv ports w →
  wp (cfg_ethernet_entry eth) (λ _ w', ports_inv ports w' ∧ entry_post eth w w' ∧
      (w_port_list w ≠ [] → w_port_list w' = w_port_list w)) any_err any_fault w.
Proof.
  intros Hi. unfold cfg_ethernet_entry. cbv zeta. destruct (_ || _); [by apply wp_err|].
  apply wp_bind. eapply yields_wp; [intros c; apply (opt_object_blank c); [done|apply poe_blank]|].
  intros p1 w1 Hb1 H1.
  apply wp_bind. eapply yields_wp; [intros c; apply (opt_object_blank c); [done|apply ieee8021x_blank]|].
  intros p2 w2 [Hb Hb'] H2. apply wp_bind, wp_deref; [|done]. intros d Hd.
  match goal with |- context [configure_port ?r] => set (rec := r) end.
  assert (asked_by eth rec) as Ha.
  { unfold asked_by, entry_speed, entry_duplex, rec. rewrite Hd, <- Hb, <- Hb'. done. }
  generalize rec Ha. clear rec Ha. intros rec Ha.
  apply wp_bind, wp_try. eapply wp_mono; [apply select_ports_spec| |by intros; apply wp_err|done].
  intros [bm r] w3 (Hs & Hr & Hl). apply refetched_same in Hr.
  assert (same_ports w w3) as Hw by (do 2 (etransitivity; [eassumption|]); done).
  apply wp_bind, wp_err_if; [done|]. intros Hr0. apply Z.eqb_neq in Hr0.
  eapply wp_mono; [apply (configure_ports_spec rec _ ports any_err w3)| |done|done].
  - by eapply ports_inv_same.
  - apply Forall_forall. intros i Hin.
    apply elem_of_for_each_bit_set in Hin as [Hir Hb2]; [|vm_compute; congruence].
    split; [done|]. apply (proj2 (proj1 Hs) i) in Hb2; [|lia]. apply Hb2.
  - intros _ w4 (Hi4 & Hst & Hl4). split; [done|]. split.
    + eapply entry_post_same; [exact Hw|]. by eapply stored_entry.
    + rewrite Hl4. apply Hw.
Qed.

(** An entry of the [ethernet] section that parses gives exactly the ports
    it selects, each under its own name and number, one and the same record
    with the speed, duplex and state the entry asks for (10 Mbit/s and half
    duplex for a value that is not in the tables: the parser does not look at
    the result of the conversion); every other slot keeps what it held. *)
Theorem ethernet_entry_configures (eth : json) (ports : list string) (w : world) :
  ports_inv ports w →
  wp (cfg_ethernet_entry eth) (λ _ w', ports_inv ports w' ∧ entry_post eth w w')
    any_err any_fault w.
Proof.
  intros Hi. eapply wp_mono; [by apply entry_spec| |done|done]. naive_solver.
Qed.

Lemma ethernet_keeps_ports eth ports w :
  ports_inv ports w →
  wp (cfg_ethernet_parse eth) (λ _ w', ports_inv ports w') any_err any_fault w.
Proof.
  intros Hi. apply (wp_for_each_inv (ports_inv ports)); [done| |done].
  intros e w1 _ H1. eapply wp_mono; [by apply entry_spec| |done|done]. naive_solver.
Qed.

(** ** The section *)

(** The last entry that selects a port decides; a port no entry selects keeps
    its slot. *)
Definition last_decides (entries : list json) (w w' : world) : Prop :=
  ∀ k, 0 ≤ k < MAX_NUM_OF_PORTS →
    let selects e := entry_selects e (port_numbers (w_port_list w')) k in
    (∀ pre e post, entries = (pre ++ e :: post)%list → selects e →
       (∀ e', e' ∈ post → ¬ selects e') → asked_by e (port_slot (w_cfg w') k)) ∧
    ((∀ e, e ∈ entries → ¬ selects e) → port_slot (w_cfg w') k = port_slot (w_cfg w) k).

Lemma last_decides_snoc seen e w0 w w' :
  last_decides seen w0 w → (seen = [] ∨ w_port_list w' = w_port_list w) → entry_post e w w' →
  last_decides (seen ++ [e])%list w0 w'.
Proof.
  intros Hs Hl (_ & rec & Ha & H) k Hk. cbv zeta. destruct (H k Hk) as [H1 H2]. clear H.
  destruct (Hs k Hk) as [Hs1 Hs2]. clear Hs. split.
  - intros pre x post E Hx Hpost. destruct post as [|y post' _] using rev_ind.
    + apply app_inj_2 in E as [_ [= ->]]; [|done]. by rewrite (H1 Hx).
    + rewrite app_comm_cons, app_assoc in E. apply app_inj_2 in E as [-> [= ->]]; [|done].
      rewrite H2 by (apply Hpost; set_solver).
      destruct Hl as [Hl|Hl]; [by destruct pre|]. rewrite Hl in Hx, Hpost.
      apply (Hs1 pre x post'); [done..|]. intros e' He'. apply Hpost. set_solver.
  - intros Hno. rewrite H2 by (apply Hno; set_solver). apply Hs2. intros e' He'.
    destruct Hl as [->|<-]; [set_solver|]. apply Hno. set_solver.
Qed.

(** C10: the [ethernet] section as a whole: every port ends up with the speed,
    duplex and state of the last entry that selects it, and a port that no
    entry selects keeps its defaults. *)
Theorem ethernet_last_entry_wins (eth : option json) (ports : list string) (w : world) :
  ports_inv ports w →
  wp (cfg_ethernet_parse eth) (λ _ w', last_decides (for_each_child eth) w w') any_err any_fault w.
Proof.
  intros Hi.
  apply (wp_for_each (λ seen w', ports_inv ports w' ∧ last_decides seen w w' ∧
    (seen = [] ∨ w_port_list w' ≠ []))); [|clear Hi|naive_solver].
  - split; [done|]. split; [|by left]. intros k _. split; [|done]. by intros [] ? ?.
  - intros seen x todo w1 _ (Hi & Hs & Hl). eapply wp_mono; [by apply entry_spec| |done|done].
    intros _ w2 (Hi2 & He & Hl2). split; [done|]. split; [|right; apply He].
    eapply last_decides_snoc; [done| |done]. destruct Hl; auto.
Qed.

(** ** The whole parser *)
Lemma default_port_spec name seen ports w :
  slots_ok (port_numbers ports) (w_cfg w) → w_port_list w = ports → name ∈ ports →
  (∀ k, k ∈ port_numbers seen → port_bit (w_cfg w) k = true) →
  wp (default_port name) (λ _ w', slots_ok (port_numbers ports) (w_cfg w') ∧ w_port_list w' = ports ∧
    ∀ k, k ∈ port_numbers (seen ++ [name])%list → port_bit (w_cfg w') k = true) any_err any_fault w.
Proof.
  intros Hs Hl Hin Hb. unfold default_port. apply wp_bind, wp_of_option; [|done]. intros pid Hp.
  apply wp_bind, wp_strcpy; [|done]. intros _.
  apply wp_bind, wp_get_cfg, wp_bind, wp_bind, wp_arr_read; [|done]. intros Hr.
  apply wp_arr_write; [|done]. intros _.
  apply wp_bind, wp_bit_set; [|done]. intros _. apply wp_upd_cfg.
  match goal with |- context [<[pid := ?q]> _] => set (p := q) end.
  assert (pid ∈ port_numbers ports) as Hpin by (apply list_elem_of_omap; eauto).
  set (w' := w <| w_cfg := _ |>). change (w_cfg w') with (store_port (w_cfg w) pid p).
  change (w_port_list w') with (w_port_list w).
  split; [by apply slots_ok_store|]. split; [done|]. intros k. unfold port_numbers.
  rewrite omap_app, elem_of_app. simpl. rewrite Hp, list_elem_of_singleton. intros Hk.
  assert (0 ≤ k) as Hk0.
  { destruct Hk as [Hk| ->]; [|lia]. apply list_elem_of_omap in Hk as (n & _ & Hn).
    apply name_to_pid_range in Hn. lia. }
  rewrite (bit_store _ _ _ _ _ Hs Hr Hk0). destruct Hk as [Hk| ->]; [by rewrite Hb|].
  by rewrite Z.eqb_refl, orb_true_r.
Qed.

Lemma default_ports_spec ports w :
  w_cfg w = zero_plat_cfg → w_port_list w = ports →
  wp (for_each ports default_port) (λ _ w', ports_inv ports w') any_err any_fault w.
Proof.
  intros Hc Hl.
  apply (wp_for_each (λ seen w', slots_ok (port_numbers ports) (w_cfg w') ∧ w_port_list w' = ports ∧
    ∀ k, k ∈ port_numbers seen → port_bit (w_cfg w') k = true)).
  - rewrite Hc. split; [apply slots_ok_zero|]. split; [done|]. intros k Hk. by apply elem_of_nil in Hk.
  - intros seen x todo w' E (H1 & H2 & H3). apply default_port_spec; try done. rewrite E. set_solver.
  - intros w' (H1 & H2 & H3). unfold ports_inv. by rewrite H2.
Qed.

(** A step of the parser that keeps the invariant, and its test. *)
Lemma or_err_keeps {A} (m : M world A) fmt ports w :
  wp m (λ _ w', ports_inv ports w') any_err any_fault w →
  wp (or_err m fmt) (λ _ w', ports_inv ports w') any_err any_fault w.
Proof. intros Hm. apply wp_or_err. by eapply wp_mono. Qed.

Lemma when_keeps (b : bool) m ports w :
  ports_inv ports w → wp m (λ _ w', ports_inv ports w') any_err any_fault w →
  wp (when b m) (λ _ w', ports_inv ports w') any_err any_fault w.
Proof. intros Hi Hm. by apply wp_when. Qed.

Definition ports_configured (cfg : plat_cfg) (w' : world) : Prop :=
  slots_ok (port_numbers (w_port_list w')) cfg ∧
  ∃ first, (first = [] ∨ first = w_port_list w') ∧
    ∀ k, k ∈ port_numbers first → port_bit cfg k = true.

Ltac next_section :=
  apply wp_bind; eapply (wp_mono _ _ _ any_err any_err any_fault any_fault);
    [|cbv beta; intros ? ? ?|done|done].

(** C2: when a configuration parses, the ports marked for configuration are
    exactly those the platform lists (unless its list was empty and has to be
    fetched again, every port of the list is marked; no other one ever is);
    the slot of a marked port carries that port's number and a name that
    scans to it, and the slots that are not marked are zero. *)
Theorem cfg_parse_ports (config : option json) (w : world) :
  wp (cfg_parse config) ports_configured any_err any_fault w.
Proof.
  unfold cfg_parse. cbv zeta. apply wp_bind, wp_when; [by intros; apply wp_err|intros _].
  apply wp_bind, wp_alloc_or_err; [|done]. apply wp_bind, wp_upd_cfg.
  apply wp_bind, wp_try. eapply wp_mono; [apply get_port_list_spec| |by intros; apply wp_err|done].
  intros ? w1 (-> & Hf & _).
  assert (w_cfg w1 = zero_plat_cfg) as Hc by by destruct Hf as (? & ? & ? & ? & ? & ->).
  set (first := w_port_list w1).
  assert (∀ w', ports_inv first w' → ports_configured (w_cfg w') w') as Hend.
  { intros w' (H1 & H2 & H3). split; [done|]. exists first. split; [|done].
    destruct (decide (first = [])); [by left|right; by rewrite H3]. }
  next_section; [by apply default_ports_spec|].
  next_section; [by apply (wp_keeps_ports _ first); [intros; stay| |]|].
  next_section; [by apply or_err_keeps, (ethernet_keeps_ports _ first)|].
  next_section; [by apply or_err_keeps, (wp_keeps_ports _ first); [intros; apply stays_interfaces| |]|].
  next_section; [by apply or_err_keeps, (wp_keeps_ports _ first); [intros; apply stays_switch| |]|].
  next_section.
  { destruct (non_null _).
    - by apply or_err_keeps, (wp_keeps_ports _ first); [intros; apply stays_metrics| |].
    - by apply (wp_keeps_ports _ first); [intros; apply stays_upd_metrics| |]. }
  next_section.
  { by apply (when_keeps _ _ first); [|apply or_err_keeps, (wp_keeps_ports _ first); [intros; apply stays_services| |]]. }
  next_section.
  { by apply (when_keeps _ _ first); [|apply or_err_keeps, (wp_keeps_ports _ first); [intros; apply stays_unit| |]]. }
  next_section; [by apply or_err_keeps, (wp_keeps_ports _ first); [intros; apply stays_router| |]|].
  apply wp_bind, wp_strcpy; [|done]. intros _.
  next_section; [by apply (wp_keeps_ports _ first); [intros; apply stays_upd_met_state| |]|].
  apply wp_get_cfg. by apply Hend.
Qed.
End slots.

#[local] Existing Instances jtree_cjson jtree_laws sample_platform sample_libc sample_est amd64.

(** A state with the port list fetched and nothing parsed. *)
Definition sample_listed : world :=
  sample_world 0 <| w_port_list := ["Ethernet0"; "Ethernet1"; "Ethernet2"] |>
                 <| w_port_list_num := 3 |>.

Lemma sample_listed_inv : ports_inv [] sample_listed.
Proof.
  split; [apply slots_ok_zero|]. split; [|done]. intros k Hk. by apply elem_of_nil in Hk.
Qed.

Definition sample_ethernet : option (@json jtree_cjson) :=
  sample_item "[{'select-ports':['Ethernet*'],'enabled':true,'duplex':'full','speed':1000},
    {'select-ports':['Ethernet2'],'enabled':false,'duplex':'half','speed':100}]".

Lemma ethernet_last_entry_wins_witness :
  ports_inv [] sample_listed ∧ finished (cfg_ethernet_parse sample_ethernet) sample_listed = true ∧
  last_decides (for_each_child sample_ethernet) sample_listed
    (state_after (cfg_ethernet_parse sample_ethernet) sample_listed).
Proof.
  split; [exact sample_listed_inv|]. split; [vm_compute; reflexivity|].
  apply (wp_finished _ _ _ _ _
    (ethernet_last_entry_wins sample_ethernet [] sample_listed sample_listed_inv)).
  vm_compute. reflexivity.
Defined.

Definition sample_entry : @json jtree_cjson :=
  default JNull (sample_item "{'select-ports':['Ethernet1'],'enabled':true,'duplex':'full','speed':1000}").

Lemma ethernet_entry_configures_witness :
  ports_inv [] sample_listed ∧ finished (cfg_ethernet_entry sample_entry) sample_listed = true ∧
  (ports_inv [] (state_after (cfg_ethernet_entry sample_entry) sample_listed) ∧
   entry_post sample_entry sample_listed
     (state_after (cfg_ethernet_entry sample_entry) sample_listed)).
Proof.
  split; [exact sample_listed_inv|]. split; [vm_compute; reflexivity|].
  apply (wp_finished _ _ _ _ _
    (ethernet_entry_configures sample_entry [] sample_listed sample_listed_inv)).
  vm_compute. reflexivity.
Defined.

Lemma cfg_parse_ports_witness :
  finished (cfg_parse sample_config) (sample_world 0) = true ∧
  ∃ cfg, ports_configured cfg (state_after (cfg_parse sample_config) (sample_world 0)).
Proof.
  assert (finished (cfg_parse sample_config) (sample_world 0) = true) as H by (vm_compute; reflexivity).
  split; [exact H|].
  exact (wp_returned _ _ _ _ _ (cfg_parse_ports sample_config (sample_world 0)) H).
Defined.
