(* ===== verification/RouterSpec.v ===== *)
(** * The routes of a configuration

    [CfgParse.cfg_router_parse] walks the configuration twice, first to count
    the routes and then to store them in a database of that size, and ignores
    the result of every append.  Against the list of the routes the
    configuration declares: the count is right, no append finds the database
    full, and the database holds those routes in their order. *)

From S2P Require Import Prelude CNum CStr Bitmap Router Json PlatTypes World Frame ProtoConv CfgInterfaces CfgParse Replies Sample.

Section routes.
Context `{J : CJson, P : Platform, T : CTarget, L : CLibc}.

(** ** The routes declared *)

(** An element of a route list, with how its destination is read. *)
Abbreviation route_item := (json * (json → option fib_info))%type.

Definition prefix_key (j : json) : option fib_key :=
  match string_value (get_item (Some j) "prefix") with
  | None => None
  | Some text =>
      let '(len, addr) := inet_net_pton text in
      if len =? -1 then None else Some {| prefix := wrap 32 addr; prefix_len := len |}
  end.

Definition gateway_of (vid : Z) (j : json) : option fib_info :=
  match string_value (get_item (Some j) "nexthop") with
  | None => None
  | Some text =>
      let '(r, gw) := inet_pton text in if r =? 1 then Some (ROUTE_NH vid (wrap 32 gw)) else None
  end.

Definition route_of (it : route_item) : option fib_node :=
  match prefix_key (fst it), snd it (fst it) with
  | Some k, Some i => Some {| node_key := k; node_info := i |}
  | _, _ => None
  end.

(** The VLAN id of an interface, [None] when it has no valid one. *)
Definition vid_of (interface : json) : option Z :=
  let v := number_value (get_item (get_item (Some interface) "vlan") "id") in
  if negb (dbl_truthy v) || dbl_leb (dbl_of_Z MAX_VLANS) v then None
  else if d2u 16 v =? MAX_VLANS then None else Some (d2u 16 v).

Definition items (l : option json) (f : json → option fib_info) : list route_item :=
  map (λ j, (j, f)) (for_each_child l).

Definition interface_items (interface : json) : list route_item :=
  match vid_of interface with
  | None => []
  | Some vid =>
      let ipv4 := get_item_ci (Some interface) "ipv4" in
      (items (get_item_ci ipv4 "gateway") (gateway_of vid)
       ++ items (get_item_ci ipv4 "broadcast") (λ _, Some (ROUTE_BROADCAST vid)))%list
  end.

Definition declared_items (root : option json) : list route_item :=
  let globals := get_item_ci root "globals" in
  (items (get_item_ci globals "ipv4-blackhole") (λ _, Some ROUTE_BLACKHOLE)
   ++ items (get_item_ci globals "ipv4-unreachable") (λ _, Some ROUTE_UNREACHABLE)
   ++ flat_map interface_items (for_each_child (get_item_ci root "interfaces")))%list.

(** All of them, unless one cannot be read. *)
Fixpoint routes_of (l : list route_item) : option (list fib_node) :=
  match l with
  | [] => Some []
  | it :: l =>
      match route_of it, routes_of l with Some n, Some ns => Some (n :: ns) | _, _ => None end
  end.

Lemma routes_of_app l1 l2 :
  routes_of (l1 ++ l2)%list =
  match routes_of l1, routes_of l2 with Some a, Some b => Some (a ++ b)%list | _, _ => None end.
Proof.
  induction l1 as [|it l1 IH]; simpl; [by destruct (routes_of l2)|].
  destruct (route_of it); [|done]. rewrite IH. by destruct (routes_of l1), (routes_of l2).
Qed.

Lemma routes_of_length l ns : routes_of l = Some ns → length ns = length l.
Proof.
  revert ns. induction l as [|it l IH]; intros ns; simpl; [by intros [= <-]|].
  destruct (route_of it), (routes_of l) as [m|]; try done. intros [= <-]. simpl. by rewrite (IH m).
Qed.

(** ** The walk *)
Definition filled (r : router) (ns : list fib_node) : router :=
  {| r_arr := (r_arr r ++ ns)%list; r_max := r_max r;
     r_sorted := match ns with [] => r_sorted r | _ => false end |}.

Lemma filled_filled r a b : filled (filled r a) b = filled r (a ++ b)%list.
Proof.
  unfold filled. simpl. rewrite <- app_assoc. f_equal. destruct a, b; try done.
Qed.

(** From one state of the walk to another, over some items. *)
Definition walked (l : list route_item) (st st' : Z * option router) : Prop :=
  fst st' = fst st + Z.of_nat (length l) ∧
  match snd st with
  | None => snd st' = None
  | Some r =>
      ∃ ns, routes_of l = Some ns ∧ is_Some (snd st') ∧
        (r_len r + Z.of_nat (length l) ≤ r_max r → snd st' = Some (filled r ns))
  end.
(** The walk can stop only on an item that cannot be read. *)
Definition stopped (l : list route_item) (st : Z * option router) : Prop :=
  is_Some (snd st) ∧ routes_of l = None.

Lemma walked_nil st : walked [] st st.
Proof.
  split; [simpl; lia|]. destruct st as [n [r|]]; simpl; [|done]. exists []. split; [done|].
  split; [done|]. intros _. unfold filled. rewrite app_nil_r. by destruct r.
Qed.

Lemma walked_app l1 l2 a b c : walked l1 a b → walked l2 b c → walked (l1 ++ l2)%list a c.
Proof.
  intros [N1 W1] [N2 W2]. split; [rewrite length_app; lia|].
  destruct (snd a) as [r|]; [|by rewrite W1 in W2].
  destruct W1 as (ns1 & R1 & [rb Hb] & F1). rewrite Hb in W2. destruct W2 as (ns2 & R2 & S2 & F2).
  exists (ns1 ++ ns2)%list. rewrite routes_of_app, R1, R2. split; [done|]. split; [done|].
  rewrite length_app, Nat2Z.inj_add. intros Hroom. rewrite Hb in F1.
  assert (rb = filled r ns1) as -> by (enough (Some rb = Some (filled r ns1)) by congruence; apply F1; lia).
  rewrite F2, filled_filled; [done|]. unfold r_len in *. simpl.
  rewrite length_app, (routes_of_length _ _ R1). lia.
Qed.

Lemma stopped_here l1 l2 a : stopped l1 a → stopped (l1 ++ l2)%list a.
Proof. intros [H1 H2]. split; [done|]. by rewrite routes_of_app, H2. Qed.
Lemma stopped_later l1 l2 a b : walked l1 a b → stopped l2 b → stopped (l1 ++ l2)%list a.
Proof.
  intros [_ W] [[r Hr] H2]. split.
  - destruct (snd a); [done|congruence].
  - rewrite routes_of_app, H2. by destruct (routes_of l1).
Qed.

(** Only log lines are added. *)
Definition logged (w w' : world) : Prop := ∃ l, w' = w <| w_out := (w_out w ++ l)%list |>.
#[local] Instance logged_preorder : PreOrder logged.
Proof.
  split.
  - intros w. exists []. destruct w. cbn. by rewrite app_nil_r.
  - intros w1 w2 w3 [l1 ->] [l2 ->]. exists (l1 ++ l2)%list. cbn. by rewrite app_assoc.
Qed.

Definition walks (l : list route_item) (m : Z * option router → M world (Z * option router)) : Prop :=
  ∀ st w, wp (m st) (λ st' w', logged w w' ∧ walked l st st') (λ _, stopped l st) no_fault w.

Lemma walks_bind l1 l2 m1 m2 :
  walks l1 m1 → walks l2 m2 → walks (l1 ++ l2)%list (λ st, m1 st ≫= m2).
Proof.
  intros H1 H2 st w. apply wp_bind. eapply wp_mono; [apply H1| |by intros; apply stopped_here|done].
  intros st1 w1 [Hw1 W1]. eapply wp_mono; [apply H2| |by intros; eapply stopped_later|done].
  intros st2 w2 [Hw2 W2]. split; [by etransitivity|by eapply walked_app].
Qed.

Lemma walks_fold {A} (f : Z * option router → A → M world (Z * option router)) g l :
  (∀ x, walks (g x) (λ st, f st x)) → walks (flat_map g l) (fold_m f l).
Proof.
  intros Hf. induction l as [|x l IH]; intros st w; [by split; [|apply walked_nil]|].
  apply (walks_bind (g x) (flat_map g l) (λ st, f st x) (fold_m f l) (Hf x) IH st w).
Qed.

Lemma route_step_walks info f j :
  (∀ w, wp (info j) (λ i w', w' = w ∧ f j = Some i) (λ _, f j = None) no_fault w) →
  walks [(j, f)] (λ st, route_step info st j).
Proof.
  intros Hi [n [r|]] w; unfold route_step; [|by apply wp_ret].
  unfold walked, stopped. cbn [routes_of]. unfold route_of. cbn [fst snd].
  assert (wp (route_prefix_obj2node_key (Some j)) (λ k w', w' = w ∧ prefix_key j = Some k)
    (λ _, prefix_key j = None) no_fault w) as Hk.
  { unfold route_prefix_obj2node_key, prefix_key. destruct (string_value _); [|by apply wp_fail].
    destruct (inet_net_pton s) as [len addr]. by destruct (len =? -1). }
  apply wp_bind. eapply wp_mono; [exact Hk| |by intros _ ->|done]. intros k w1 [-> ->].
  apply wp_bind. eapply wp_mono; [apply Hi| |by intros _ ->|done]. intros i w1 [-> ->].
  apply wp_ret. split; [done|]. split; [simpl; lia|]. eexists. split; [reflexivity|].
  split; [done|]. cbn [length snd]. intros Hroom. unfold append_ignored, ucentral_router_fib_db_append.
  destruct (Z.eqb_spec (r_len r) (r_max r)); [lia|done].
Qed.

Lemma list_walks info f o :
  (∀ j w, wp (info j) (λ i w', w' = w ∧ f j = Some i) (λ _, f j = None) no_fault w) →
  walks (items o f) (fold_m (route_step info) (for_each_child o)).
Proof.
  intros Hi. assert (items o f = flat_map (λ j, [(j, f)]) (for_each_child o)) as ->.
  { unfold items. by induction (for_each_child o) as [|x l IH]; [|simpl; rewrite IH]. }
  apply walks_fold. intros j. by apply route_step_walks.
Qed.

Lemma nexthop_info_spec vid j w :
  wp (nexthop_info vid j) (λ i w', w' = w ∧ gateway_of vid j = Some i)
    (λ _, gateway_of vid j = None) no_fault w.
Proof.
  unfold nexthop_info, gateway_of. destruct (string_value _) as [s|]; [|by apply wp_fail].
  destruct (inet_pton s) as [r gw]. by destruct (r =? 1).
Qed.

Lemma interface2vid_spec i w :
  wp (cfg_interface2vid (Some i)) (λ v w', logged w w' ∧
      match vid_of i with Some vid => v = vid ∧ v ≠ MAX_VLANS | None => v = MAX_VLANS end)
    (λ _, False) no_fault w.
Proof.
  unfold cfg_interface2vid, vid_of. cbv zeta. destruct (_ || _).
  - apply wp_bind, wp_emit, wp_ret. split; [by eexists|done].
  - apply wp_ret. split; [done|]. destruct (Z.eqb_spec (d2u 16
      (number_value (get_item (get_item (Some i) "vlan") "id"))) MAX_VLANS); done.
Qed.

Lemma interface_walks i : walks (interface_items i) (λ st, interface_routes st i).
Proof.
  intros st w. unfold interface_routes, interface_items. apply wp_bind.
  eapply wp_mono; [apply interface2vid_spec| |done|done]. intros v w1 [Hl Hv].
  destruct (vid_of i) as [vid|].
  2:{ rewrite Hv, Z.eqb_refl. apply wp_ret. split; [done|apply walked_nil]. }
  destruct Hv as [-> Hne]. apply Z.eqb_neq in Hne. rewrite Hne. cbv zeta.
  pose proof (walks_bind _ _ _ _
    (list_walks (nexthop_info vid) (gateway_of vid)
       (get_item_ci (get_item_ci (Some i) "ipv4") "gateway") (nexthop_info_spec vid))
    (list_walks (λ _, ret (ROUTE_BROADCAST vid)) (λ _, Some (ROUTE_BROADCAST vid))
       (get_item_ci (get_item_ci (Some i) "ipv4") "broadcast") (λ _ _, conj eq_refl eq_refl)) st w1) as H.
  eapply wp_mono; [exact H| |done|done]. intros st' w2 [H1 H2]. split; [by etransitivity|done].
Qed.

Lemma process_prefixes_spec root db w :
  wp (cfg_process_prefixes root db)
    (λ st w', logged w w' ∧ walked (declared_items root) (0, db) st)
    (λ _, stopped (declared_items root) (0, db)) no_fault w.
Proof.
  unfold cfg_process_prefixes, declared_items. cbv zeta.
  pose proof (λ f g, list_walks (λ _, ret f) (λ _, Some f) g (λ _ _, conj eq_refl eq_refl)) as Hc.
  apply (walks_bind _ _ (fold_m _ _) _ (Hc ROUTE_BLACKHOLE _)
    (walks_bind _ _ (fold_m _ _) _ (Hc ROUTE_UNREACHABLE _)
       (walks_fold interface_routes interface_items _ interface_walks))).
Qed.

(** The database of a list of routes that fills it exactly. *)
Definition full_db (routes : list fib_node) : router :=
  {| r_arr := routes; r_max := Z.of_nat (length routes);
     r_sorted := match routes with [] => true | _ => false end |}.

(** C14: the routes of a configuration: when they parse, the database holds
    exactly the declared routes, in the order blackholes, unreachables, then
    for each interface with a valid VLAN id its gateways and its broadcasts,
    and its capacity is their number; so the two passes agree and no append is
    lost, although its result is not looked at.  Parsing fails only when
    memory runs out or some declared route cannot be read. *)
Theorem cfg_router_exact (root : option json) (w : world) :
  wp (cfg_router_parse root)
    (λ _ w', ∃ routes, routes_of (declared_items root) = Some routes ∧
       cfg_router (w_cfg w') = full_db routes)
    (λ _, ¬ no_oom w ∨ routes_of (declared_items root) = None) no_fault w.
Proof.
  unfold cfg_router_parse. apply wp_bind.
  eapply wp_mono; [apply process_prefixes_spec| |by intros _ [[] _]|done].
  intros [num d] w1 [[logs ->] [Hnum _]]. cbn [fst] in Hnum. rewrite Z.add_0_l in Hnum. subst num.
  unfold mbind at 1, M_bind at 1, alloc at 1, no_oom. cbn [w_heap].
  unfold wp. match goal with |- context [match w_heap ?x with _ => _ end] =>
    change (w_heap x) with (w_heap w) end.
  assert (∀ w', wp (_ ← upd_cfg (λ c, c <| cfg_router :=
         {| r_arr := []; r_max := Z.of_nat (length (declared_items root)); r_sorted := true |} |>);
       '(_, db) ← cfg_process_prefixes root
         (Some {| r_arr := []; r_max := Z.of_nat (length (declared_items root)); r_sorted := true |});
       upd_cfg (λ c, c <| cfg_router := default
         {| r_arr := []; r_max := Z.of_nat (length (declared_items root)); r_sorted := true |} db |>))
      (λ _ w', ∃ routes, routes_of (declared_items root) = Some routes ∧
         cfg_router (w_cfg w') = full_db routes)
      (λ _, routes_of (declared_items root) = None) no_fault w') as Hfill.
  { intros w'. apply wp_bind, wp_upd_cfg, wp_bind.
    eapply wp_mono; [apply process_prefixes_spec| |by intros _ [_ H]|done].
    intros [n' db] w2 [_ [_ (ns & R & _ & F)]]. cbn [fst snd] in *. apply wp_upd_cfg.
    exists ns. split; [done|]. rewrite F by (unfold r_len; simpl; lia).
    cbn. unfold filled, full_db. simpl. by rewrite (routes_of_length _ _ R). }
  destruct (w_heap w) as [|[] h] eqn:Hh; cbn [ucentral_router_fib_db_alloc].
  - eapply wp_mono; [apply Hfill|done|by right|done].
  - eapply wp_mono; [apply Hfill|done|by right|done].
  - by left.
Qed.
End routes.
