(* ===== verification/SwitchSpec.v ===== *)
(** * The [switch], VLAN and metrics sections

    Loop detection: which spanning-tree instances come out configured.  Port
    isolation: unique session ids.  RADIUS hosts: what is stored for each. *)

From S2P Require Import Prelude CNum CStr Bitmap Router Json PlatTypes World Frame ProtoConv CfgEthernet CfgInterfaces CfgSwitch Messages CfgServices CfgParse Replies Sample PortList MessageEffects ParserEffects EthernetSpec.

(** ** Members of a VLAN

    What one element of an interface's [ethernet] list adds to the VLAN, and
    what makes the parser's behaviour on it undefined. *)

Section vlan.
Context `{J : CJson, P : Platform, T : CTarget, L : CLibc}.

Definition vlan_at (w : world) (vid : Z) : plat_port_vlan :=
  arr_get zero_plat_port_vlan (cfg_vlans (w_cfg w)) vid.

(** The node of port [i]. *)
Definition member_of (tagged i : Z) : vlan_member :=
  mk_vlan_member (PID_TO_NAME i) (wrap 16 i) (tagged =? TAG_TAGGED_E).

(** The ports of [l] become members of [vid], in front of the ones it has;
    everything else of the VLANs is kept. *)
Definition members_added (vid tagged : Z) (l : list Z) (w w' : world) : Prop :=
  vlan_at w' vid = vlan_at w vid
    <| vlan_members := (rev (map (member_of tagged) l) ++ vlan_members (vlan_at w vid))%list |> ∧
  ∀ v, v ≠ vid → vlan_at w' v = vlan_at w v.

Lemma members_added_nil vid tagged w : members_added vid tagged [] w w.
Proof. split; [|done]. by destruct (vlan_at w vid). Qed.

Lemma vlan_add_member_spec vid tagged i l w0 w :
  members_added vid tagged l w0 w →
  wp (vlan_add_member vid tagged i) (λ _ w', members_added vid tagged (l ++ [i])%list w0 w' ∧
      w_port_list w' = w_port_list w)
    any_err (λ _, ¬ 0 ≤ vid < MAX_VLANS) w.
Proof.
  intros [Hv Ho]. unfold vlan_add_member, vlan_upd, vlan_get.
  apply wp_bind, wp_alloc_or_err; [|done]. set (w1 := w <| w_heap := _ |>).
  apply wp_bind, wp_bind, wp_get_cfg, wp_arr_read; [|done]. intros Hr.
  apply wp_bind, wp_get_cfg, wp_bind, wp_arr_write; [|done]. intros _.
  apply wp_upd_cfg. split; [|done]. unfold members_added, vlan_at in *. cbn [w_cfg cfg_vlans set].
  change (w_cfg w1) with (w_cfg w) in *. split.
  - rewrite arr_get_insert, decide_True by done. rewrite Hv.
    by rewrite map_app, rev_app_distr.
  - intros v Hne. rewrite arr_get_insert, decide_False by congruence. by apply Ho.
Qed.

(** The [select-ports] of an element, whatever the case of its name. *)
Definition vlan_select_ports (eth : json) : option json := get_item_ci (Some eth) "select-ports".
Definition vlan_tag (eth : json) : option string :=
  string_value (get_item (Some eth) "vlan-tag").

Definition entry_members (eth : json) (vid : Z) (w w' : world) : Prop :=
  ∃ l tagged, NoDup l ∧
    (∀ k, k ∈ l ↔ 0 ≤ k < MAX_NUM_OF_PORTS ∧ k ∈ port_numbers (w_port_list w') ∧
       ∃ item, item ∈ for_each_child (vlan_select_ports eth) ∧ picks item k) ∧
    (∃ t, vlan_tag eth = Some t ∧ table_find streq vlan_tag_table t = Some tagged) ∧
    members_added vid tagged l w w'.

Lemma for_each_bit_set_nodup A len : 0 ≤ len → NoDup (BITMAP_FOR_EACH_BIT_SET A len).
Proof.
  intros Hl. rewrite for_each_bit_set_eq by done. apply list.NoDup_filter, NoDup_seqZ.
Qed.

(** An element of a VLAN's [ethernet] list adds exactly the ports it selects,
    each once, with its number, its name and the tag asked for, in front of
    the members there are, and touches nothing else of any VLAN.  Its
    behaviour is undefined, besides the cases of the selection and an id out
    of range, when the element has no [vlan-tag] string: the missing text goes
    to [strcmp] before the test that would report it. *)
Theorem vlan_entry_members (vid : Z) (eth : json) (w : world) :
  wp (vlan_ethernet_entry vid eth) (λ _ w', entry_members eth vid w w') any_err
    (λ _, selection_faults (vlan_select_ports eth) w ∨ vlan_tag eth = None ∨ ¬ 0 ≤ vid < MAX_VLANS) w.
Proof.
  unfold vlan_ethernet_entry. cbv zeta. fold (vlan_select_ports eth) (vlan_tag eth).
  apply wp_bind, wp_try. eapply wp_mono; [apply select_ports_spec| |by intros; apply wp_err|by left].
  intros [bm n] w1 ([[Hb1 Hb] _] & Hr & _). apply wp_bind, wp_err_if; [done|]. intros _.
  unfold proto_vlan_tagged_to_num. apply wp_bind, wp_bind, wp_deref; [|by right; left].
  intros t Ht. apply wp_ret. destruct (table_find streq vlan_tag_table t) as [tagged|] eqn:Htg;
    [|by apply wp_err].
  set (l := BITMAP_FOR_EACH_BIT_SET bm MAX_NUM_OF_PORTS).
  assert (members_added vid tagged [] w w1) as H0.
  { destruct Hr as [(? & ? & ? & ? & ? & ->) _]. exact (members_added_nil vid tagged w). }
  apply (wp_for_each (λ seen w', members_added vid tagged seen w w' ∧ w_port_list w' = w_port_list w1));
    [done| |].
  - intros seen i todo w2 _ [Hm Hp]. eapply wp_mono; [by apply vlan_add_member_spec| |done|by auto].
    intros _ w3 [H3 Hp3]. split; [done|congruence].
  - intros w2 [Hm Hp]. exists l, tagged. split; [by apply for_each_bit_set_nodup|].
    split; [|split; [by exists t|done]]. intros k. rewrite Hp.
    unfold l. rewrite elem_of_for_each_bit_set by (vm_compute; congruence). split.
    + intros [Hk Ht2]. split; [done|]. by apply (Hb k ltac:(lia)).
    + intros [Hk Hs]. split; [done|]. by apply (Hb k ltac:(lia)).
Qed.
End vlan.

Section stp.
Context `{J : CJson, JL : !CJsonLaws, P : Platform, T : CTarget}.

(** ** STP instances *)
Definition instance_id (iter : json) : Z := int_or 0 (get_item (Some iter) "id").

(** What an element asks for, the defaults filled in; the 16-bit fields keep
    the low bits. *)
Definition instance_of (iter : json) : plat_stp_instance_cfg :=
  let field dflt name := wrap 16 (int_or dflt (get_item (Some iter) name)) in
  let enabled := get_item (Some iter) "enabled" in
  mk_plat_stp_instance_cfg
    (if non_null enabled then is_true enabled else false)
    (field 15 "forward_delay") (field 2 "hello_time") (field 20 "max_age") (field 32768 "priority").

Definition instance_ok (iter : json) : Prop := 0 ≤ instance_id iter < MAX_VLANS.

(** The instances of [items], the others at their defaults. *)
Definition instances_are (items : list json) (a : gmap Z plat_stp_instance_cfg) : Prop :=
  ∀ id, 0 ≤ id < MAX_VLANS →
    arr_get zero_plat_stp_instance_cfg a id =
    match find (λ it, instance_id it =? id) items with
    | Some it => instance_of it
    | None => stp_default
    end.

Lemma fold_insert_lookup {A} (g : gmap Z A → Z → A) l a k zero :
  arr_get zero (fold_left (λ a i, <[i := g a i]> a) l a) k = arr_get zero a k ∨ k ∈ l.
Proof.
  revert a. induction l as [|x l IH]; intros a; [by left|]. simpl.
  destruct (IH (<[x := g a x]> a)) as [H|H]; [|right; set_solver]. rewrite H, arr_get_insert.
  destruct (decide (x = k)) as [->|]; [right; set_solver|by left].
Qed.

Lemma fold_const_lookup {A} (v : A) l a k zero :
  k ∈ l → arr_get zero (fold_left (λ a i, <[i := v]> a) l a) k = v.
Proof.
  revert a. induction l as [|x l IH]; intros a Hk; [by apply elem_of_nil in Hk|]. simpl.
  destruct (decide (k ∈ l)) as [Hl|Hl]; [by apply IH|].
  destruct (fold_insert_lookup (λ _ _, v) l (<[x := v]> a) k zero) as [H|H]; [|done].
  rewrite H, arr_get_insert, decide_True; [done|set_solver].
Qed.

Lemma stp_init_are a : instances_are [] (stp_init a).
Proof.
  intros id Hid. apply fold_const_lookup, elem_of_seqZ. unfold MAX_VLANS in *. lia.
Qed.

Lemma instances_are_snoc seen it a :
  instances_are seen a → instance_ok it → instance_id it ∉ map instance_id seen →
  instances_are (seen ++ [it])%list (<[instance_id it := instance_of it]> a).
Proof.
  intros Ha Hit Hnew id Hid. rewrite arr_get_insert, (Ha id Hid). clear Ha.
  assert (find (λ x, instance_id x =? id) (seen ++ [it])%list =
    match find (λ x, instance_id x =? id) seen with
    | Some x => Some x
    | None => if instance_id it =? id then Some it else None
    end) as ->.
  { clear. induction seen as [|y seen IH]; simpl; [done|]. by destruct (instance_id y =? id). }
  destruct (find _ seen) as [x|] eqn:Hf.
  - apply find_some in Hf as [Hin Hx]. rewrite decide_False; [done|]. intros <-.
    apply Z.eqb_eq in Hx. apply Hnew, list_elem_of_fmap. exists x.
    split; [done|]. by apply list_elem_of_In.
  - destruct (Z.eqb_spec (instance_id it) id), (decide (instance_id it = id)); done.
Qed.

Definition stp_inv (seen : list json) (bm : bitmap) (w : world) : Prop :=
  bits_are MAX_VLANS bm (λ k, k ∈ map instance_id seen) ∧
  NoDup (map instance_id seen) ∧ Forall instance_ok seen ∧
  instances_are seen (cfg_stp_instances (w_cfg w)).

Lemma stp_instance_step seen it bm w :
  stp_inv seen bm w →
  wp (stp_instance_parse bm it)
    (λ bm' w', stp_inv (seen ++ [it])%list bm' w' ∧ cfg_stp_mode (w_cfg w') = cfg_stp_mode (w_cfg w))
    (λ _, ¬ instance_ok it ∨ instance_id it ∈ map instance_id seen) no_fault w.
Proof.
  intros (Hb & Hnd & Hok & Ha). unfold stp_instance_parse. cbv zeta. fold (instance_id it).
  apply wp_bind, wp_fail_if; intros Hr.
  { left. unfold instance_ok. apply orb_true_iff in Hr as [?%Z.ltb_lt|?%Z.leb_le]; lia. }
  apply orb_false_iff in Hr as [H0%Z.ltb_ge H1%Z.leb_gt].
  assert (instance_ok it) as Hit by by split.
  apply wp_bind, wp_get_cfg, wp_bind, wp_arr_read; [|tauto]. intros _.
  assert (bit_ok bm (instance_id it) = true) as Hbit.
  { apply (bits_are_room _ _ _ _ Hb). split; [done|]. change (length _) with 128%nat.
    unfold MAX_VLANS in *. lia. }
  apply wp_bind, wp_bit_test; [intros _|by rewrite Hbit].
  pose proof (proj2 Hb _ H0) as Ht.
  apply wp_bind, wp_err_if; intros Hd; [right; by apply Ht|].
  assert (instance_id it ∉ map instance_id seen) as Hnew by (rewrite <- Ht; congruence).
  apply wp_bind, wp_bit_set; [intros _|by rewrite Hbit].
  apply wp_bind, wp_arr_write; [intros _|tauto].
  apply wp_bind, wp_upd_cfg, wp_ret. split; [|done].
  rewrite (Ha (instance_id it) Hit).
  assert (find (λ x, instance_id x =? instance_id it) seen = None) as ->.
  { destruct (find _ seen) as [x|] eqn:Hf; [|done]. apply find_some in Hf as [Hin Hx].
    apply Z.eqb_eq in Hx. destruct Hnew. rewrite <- Hx. apply list_elem_of_fmap. exists x.
    split; [done|]. by apply list_elem_of_In. }
  unfold stp_inv. rewrite map_app. cbn [map]. split_and!.
  - eapply bits_are_proper; [by apply bits_are_set|]. intros k.
    by rewrite elem_of_app, list_elem_of_singleton.
  - apply NoDup_app. split; [done|]. split; [|apply NoDup_singleton].
    intros x Hx ->%list_elem_of_singleton. done.
  - apply Forall_app. split; [done|]. by repeat constructor.
  - by apply instances_are_snoc.
Qed.

Lemma stp_instances_spec arr w :
  instances_are [] (cfg_stp_instances (w_cfg w)) →
  wp (fold_m stp_instance_parse arr (BITMAP_CLEAR MAX_VLANS))
    (λ bm w', stp_inv arr bm w' ∧ cfg_stp_mode (w_cfg w') = cfg_stp_mode (w_cfg w))
    (λ _, ¬ NoDup (map instance_id arr) ∨ ¬ Forall instance_ok arr) no_fault w.
Proof.
  intros Ha. apply (wp_fold_m (λ seen bm w', stp_inv seen bm w' ∧
      cfg_stp_mode (w_cfg w') = cfg_stp_mode (w_cfg w))); [| |done].
  - split; [|done]. split; [|by split; [apply NoDup_nil_2|split; [apply Forall_nil_2|]]].
    eapply bits_are_proper; [apply bits_are_clear|]. intros k. cbn. by rewrite elem_of_nil.
  - intros seen it todo bm w' -> [Hi Hm].
    eapply wp_mono; [by apply stp_instance_step| | |done].
    + intros bm' w2 [H1 H2]. split; [done|congruence].
    + intros _ [H|H].
      * right. rewrite Forall_app, Forall_cons. tauto.
      * left. rewrite map_app. cbn. rewrite NoDup_app. intros (_ & Hd & _).
        apply (Hd _ H). set_solver.
Qed.

(** What the section says about loop detection. *)
Definition stp_configured (root : option json) (c : plat_cfg) : Prop :=
  let obj := get_item (get_item root "switch") "loop-detection" in
  let arr := for_each_child (get_item obj "instances") in
  let protocol := get_item obj "protocol" in
  (if non_null protocol then proto_stp_mode_to_num (string_value protocol) = Some (cfg_stp_mode c)
   else cfg_stp_mode c = STP_MODE_NONE) ∧
  NoDup (map instance_id arr) ∧ Forall instance_ok arr ∧ instances_are arr (cfg_stp_instances c).

(** The other parts of the section leave that alone. *)
Abbreviation same_stp := (keeps (λ c, (cfg_stp_mode c, cfg_stp_instances c))).

(** The loop detection of the configuration: when the [switch] section
    parses, the protocol is the one named (none when none is), every
    instance below 4096 holds exactly the values of the element with its id, or
    the defaults when there is none, and the ids of the elements are distinct
    and in range: a duplicate or an id out of range never gets through. *)
Theorem switch_stp_exact (root : option json) (w : world) :
  wp (cfg_switch_parse root) (λ _ w', stp_configured root (w_cfg w')) any_err any_fault w.
Proof.
  unfold cfg_switch_parse. cbv zeta. apply wp_bind.
  eapply (wp_mono _ (λ _ _, True) _ any_err any_err any_fault any_fault);
    [by unfold wp; destruct (or_err _ _ w)|cbv beta|done|done].
  intros _ w1 _. unfold stp_configured.
  set (obj := get_item (get_item root "switch") "loop-detection").
  set (protocol := get_item obj "protocol").
  apply wp_bind. eapply (wp_mono _ (λ _ w', if non_null protocol
    then proto_stp_mode_to_num (string_value protocol) = Some (cfg_stp_mode (w_cfg w'))
    else cfg_stp_mode (w_cfg w') = STP_MODE_NONE) _ any_err any_err any_fault any_fault);
    [|cbv beta|done|done].
  { destruct (non_null protocol); [|done]. by destruct (proto_stp_mode_to_num _). }
  intros _ w2 Hm. apply wp_bind, wp_upd_cfg, wp_bind.
  eapply wp_mono; [apply stp_instances_spec, stp_init_are| |done|done].
  intros bm w3 [(_ & Hnd & Hok & Ha) Hm3].
  assert (∀ w4, same_stp w3 w4 → (if non_null protocol
    then proto_stp_mode_to_num (string_value protocol) = Some (cfg_stp_mode (w_cfg w4))
    else cfg_stp_mode (w_cfg w4) = STP_MODE_NONE) ∧
    NoDup (map instance_id (for_each_child (get_item obj "instances"))) ∧
    Forall instance_ok (for_each_child (get_item obj "instances")) ∧
    instances_are (for_each_child (get_item obj "instances")) (cfg_stp_instances (w_cfg w4))) as Hend.
  { intros w4 [= -> ->]. split; [|done]. rewrite Hm3. exact Hm. }
  destruct (non_null (get_item (get_item root "switch") "port-isolation")); [|by apply wp_ret, Hend].
  apply wp_or_err. eapply wp_mono;
    [apply (stays_isolation (c:=w_client w3) (R:=same_stp)); done| |done|done].
  intros _ w4 (_ & H4 & _). by apply Hend.
Qed.
End stp.

Section isolation.
Context `{J : CJson, JL : !CJsonLaws, P : Platform, T : CTarget}.

(** ** Port isolation *)
Definition session_id (j : json) : Z := d2u 64 (number_value (get_item (Some j) "id")).

(** The names of a side, in the order of the list the parser builds. *)
Definition side_is (item : option json) (ports : list string) : Prop :=
  ports ≠ [] ∧
  Forall2 (λ j name, string_value (Some j) = Some name ∧ slen name < PORT_MAX_NAME_LEN)
    (for_each_child (get_item item "interface-list")) (rev ports).

Definition session_is (j : json) (s : port_isolation_session) : Prop :=
  is_number (get_item (Some j) "id") = true ∧ iso_id s = session_id j ∧
  side_is (get_item (Some j) "uplink") (iso_uplink s) ∧
  side_is (get_item (Some j) "downlink") (iso_downlink s).

(** Building the lists changes nothing but the heap and the log. *)
Abbreviation same_cfg := (keeps (λ c, c)).

Lemma wp_strcpy_fits {S} n s (Q : string → S → Prop) E (F : fault → Prop) st :
  (slen s < n → Q s st) → F BufferOverflow → wp (c_strcpy n s) Q E F st.
Proof. intros HQ HF. apply wp_strcpy; [|done]. intros H. apply HQ. lia. Qed.

Lemma side_spec item w :
  wp (cfg_ethernet_port_isolation_interface_parse item)
    (λ ports w', side_is item ports ∧ same_cfg w w') any_err any_fault w.
Proof.
  unfold cfg_ethernet_port_isolation_interface_parse, side_is, array_size. cbv zeta.
  set (l := for_each_child (get_item item "interface-list")).
  apply wp_bind, wp_err_if; [done|]. intros [_ Hne%Z.eqb_neq]%orb_false_iff.
  apply (wp_fold_m (λ seen ports w', same_cfg w w' ∧
    Forall2 (λ j name, string_value (Some j) = Some name ∧ slen name < PORT_MAX_NAME_LEN)
      seen (rev ports))).
  - split; [done|constructor].
  - intros seen j todo ports w1 _ [Hw H]. unfold isolation_port.
    destruct (string_value (Some j)) as [name|] eqn:Hj; [|done].
    apply wp_bind, wp_alloc_or_err; [|done]. apply wp_bind, wp_strcpy_fits; [|done].
    intros Hlen. apply wp_ret. split; [done|]. simpl. apply Forall2_app; [done|].
    by repeat constructor.
  - intros ports w1 [Hw H]. split; [|done]. split; [|done]. intros ->. simpl in H.
    apply Forall2_nil_inv_r in H. rewrite H in Hne. done.
Qed.

Lemma session_spec seen arr j w :
  Forall2 session_is seen arr → NoDup (map session_id seen) →
  wp (isolation_session arr j)
    (λ arr' w', same_cfg w w' ∧ Forall2 session_is (seen ++ [j])%list arr' ∧
      NoDup (map session_id (seen ++ [j])%list)) any_err any_fault w.
Proof.
  intros Hs Hnd. unfold isolation_session. cbv zeta. fold (session_id j).
  apply wp_bind, wp_err_if; [done|]. intros Hnum%negb_false_iff.
  apply wp_bind, wp_err_if; [done|]. intros Hdup.
  do 2 (apply wp_bind, wp_err_if; [done|]; intros _).
  unfold isolation_side. apply wp_bind, wp_bind, wp_try.
  eapply wp_mono; [apply side_spec| |by intros; apply wp_err|done]. intros up w1 [Hup H1].
  apply wp_ret, wp_bind, wp_bind, wp_try.
  eapply wp_mono; [apply side_spec| |by intros; apply wp_err|done]. intros down w2 [Hdown H2].
  apply wp_ret, wp_ret. split; [by etransitivity|]. split.
  - apply Forall2_app; [done|]. constructor; [|constructor]. by split; [|split; [|split]].
  - rewrite map_app. apply NoDup_app. split; [done|]. split; [|apply NoDup_singleton].
    intros x Hx ->%list_elem_of_singleton. apply list_elem_of_fmap in Hx as (j' & Hid & Hin).
    apply list_elem_of_lookup in Hin as [i Hi].
    destruct (Forall2_lookup_l _ _ _ _ _ Hs Hi) as (s & Hs' & _ & Hsid & _).
    apply existsb_nth with (n:=i) (d:=zero_port_isolation_session) in Hdup.
    + apply Z.eqb_neq in Hdup. apply nth_lookup_Some with (d:=zero_port_isolation_session) in Hs'.
      rewrite Hs' in Hdup. congruence.
    + by apply lookup_lt_Some in Hs'.
Qed.

(** Port isolation: when it parses, the session array has one session per
    element, in order, the number stored is its length, the ids are pairwise
    distinct, and each session has the names of its two sides (last one
    first), none of them empty. *)
Theorem port_isolation_exact (o : option json) (w : world) :
  let sessions := for_each_child (get_item o "sessions") in
  wp (cfg_switch_port_isolation_parse o)
    (λ _ w', let before := cfg_port_isolation_cfg (w_cfg w) in
       let after := cfg_port_isolation_cfg (w_cfg w') in
       isoc_sessions_num after = isoc_sessions_num before + Z.of_nat (length sessions) ∧
       (isoc_sessions_num after ≠ 0 →
          Forall2 session_is sessions (isoc_sessions after) ∧ NoDup (map session_id sessions)))
    any_err any_fault w.
Proof.
  intros sessions. unfold cfg_switch_port_isolation_parse, array_size. cbv zeta. fold sessions.
  do 2 (apply wp_bind, wp_err_if; [done|]; intros _).
  apply wp_bind, wp_get_cfg, wp_bind, wp_upd_cfg.
  set (num := _ + Z.of_nat (length sessions)). destruct (Z.eqb_spec num 0) as [H0|H0].
  { apply wp_ret. split; [done|]. intros []. exact H0. }
  apply wp_bind, wp_alloc_or_err; [|done]. set (w1 := _ <| w_heap := _ |>). apply wp_bind.
  apply (wp_fold_m (λ seen arr w', same_cfg w1 w' ∧ Forall2 session_is seen arr ∧
    NoDup (map session_id seen))).
  - split; [done|]. split; [constructor|apply NoDup_nil_2].
  - intros seen j todo arr w2 _ (Hw & Hs & Hnd). eapply wp_mono; [by apply session_spec| |done|done].
    intros arr' w3 (H1 & H2). split; [by etransitivity|done].
  - intros arr w2 (Hw & Hs & Hnd). apply wp_upd_cfg. cbn. rewrite Hw. split; [done|]. by intros _.
Qed.
End isolation.

Section radius.
Context `{J : CJson, P : Platform, T : CTarget}.

(** ** RADIUS hosts *)
Definition radius_number (j : json) (name : string) (dflt : Z) (v : Z) : Z :=
  if no_number (get_item (Some j) name) then dflt else v.

Definition host_is (j : json) (h : plat_radius_host) : Prop :=
  let port := number_value (get_item (Some j) "server-authentication-port") in
  (∃ name, string_value (get_item (Some j) "server-host") = Some name ∧
     rad_hostname h = stake 63 name) ∧
  rad_passkey h = stake 63 (default EmptyString (string_value (get_item (Some j) "server-key"))) ∧
  rad_auth_port h = radius_number j "server-authentication-port" RADIUS_CFG_DEFAULT_PORT (d2u 16 port) ∧
  rad_priority h = radius_number j "server-priority" RADIUS_CFG_DEFAULT_PRIO (d2u 8 port).

Lemma radius_host_spec j w :
  wp (radius_host_parse j) (λ _ w', ∃ h, host_is j h ∧
      cfg_radius_hosts_list (w_cfg w') = h :: cfg_radius_hosts_list (w_cfg w) ∧
      cfg_ieee8021x (w_cfg w') = cfg_ieee8021x (w_cfg w)) any_err no_fault w.
Proof.
  unfold radius_host_parse. apply wp_bind, wp_err_if; [done|]. intros _. cbv zeta.
  destruct (string_value (get_item (Some j) "server-host")) as [name|] eqn:Hn; [|done].
  match goal with |- context [?h :: _] => set (host := h) end.
  apply wp_bind, wp_alloc_or_err; [|done]. apply wp_upd_cfg. exists host. split; [|done].
  unfold host_is, radius_number. split; [by exists name|]. split; [|done].
  unfold host. cbn [rad_passkey set]. by destruct (string_value (get_item (Some j) "server-key")).
Qed.

(** RADIUS servers: when the section parses, the list has one host per
    element, last one first, with the address and the key cut to 63 characters
    and the authentication port of the element or 1812.  The priority is 1
    when the element gives none; when it gives one, it is the low byte of the
    port number: the priority given is never stored. *)
Theorem radius_hosts_exact (sw : option json) (w : world) :
  let ieee8021x := get_item sw "ieee8021x" in
  wp (cfg_switch_ieee8021x_parse sw)
    (λ _ w',
       (∃ hosts, cfg_radius_hosts_list (w_cfg w') = (rev hosts ++ cfg_radius_hosts_list (w_cfg w))%list ∧
          Forall2 host_is (for_each_child (get_item ieee8021x "radius")) hosts) ∧
       cfgx_is_auth_ctrl_enabled (cfg_ieee8021x (w_cfg w')) =
         if non_null ieee8021x then is_true (get_item ieee8021x "auth-control-enable")
         else cfgx_is_auth_ctrl_enabled (cfg_ieee8021x (w_cfg w)))
    any_err no_fault w.
Proof.
  intros x. unfold cfg_switch_ieee8021x_parse. cbv zeta. fold x. clearbody x.
  destruct x as [x|]; cbn [non_null negb].
  2:{ apply wp_ret. split; [|done]. exists []. by split. }
  apply wp_bind, wp_err_if; [done|]. intros _. apply wp_bind, wp_upd_cfg.
  apply wp_bind, wp_err_if; [done|]. intros _. set (w1 := w <| w_cfg := _ |>).
  apply (wp_for_each (λ seen w', ∃ hosts,
    cfg_radius_hosts_list (w_cfg w') = (rev hosts ++ cfg_radius_hosts_list (w_cfg w1))%list ∧
    Forall2 host_is seen hosts ∧ cfg_ieee8021x (w_cfg w') = cfg_ieee8021x (w_cfg w1))).
  - exists []. by split_and!.
  - intros seen j todo w2 _ (hosts & H1 & H2 & H3).
    eapply wp_mono; [apply radius_host_spec| |done|done]. intros _ w3 (h & Hh & H4 & H5).
    exists (hosts ++ [h])%list. rewrite rev_app_distr, H4, H1, H5. split; [done|].
    split; [|done]. apply Forall2_app; [done|]. by constructor.
  - intros w2 (hosts & H1 & H2 & H3). split; [by exists hosts|]. by rewrite H3.
Qed.
End radius.

#[local] Existing Instances jtree_cjson jtree_laws sample_platform sample_libc sample_est amd64.

Lemma switch_stp_exact_witness :
  finished (cfg_switch_parse sample_config) (sample_world 0) = true ∧
  stp_configured sample_config (w_cfg (state_after (cfg_switch_parse sample_config) (sample_world 0))).
Proof.
  assert (finished (cfg_switch_parse sample_config) (sample_world 0) = true) as H
    by (vm_compute; reflexivity).
  split; [exact H|].
  exact (wp_finished _ _ _ _ _ (switch_stp_exact sample_config (sample_world 0)) H).
Defined.

(** ** What the [metrics] section configures

    [CfgServices.cfg_metrics_parse] against the metrics it leaves behind. *)

Section metrics.
Context `{J : CJson, JL : !CJsonLaws, P : Platform, T : CTarget}.

(** The list of types names [t]. *)
Definition asks_for (types : option json) (t : string) : bool :=
  existsb (λ j, match string_value (Some j) with Some s => streq s t | None => false end)
    (for_each_child types).

Definition statistics_state (statistics : option json) : metrics_state :=
  let interval := get_item statistics "interval" in
  let types := get_item statistics "types" in
  let count := get_item statistics "wired-clients-max-num" in
  let enabled := dbl_truthy (number_value interval) in
  if negb (non_null interval) || negb (non_null types) then zero_metrics_state
  else if enabled && asks_for types "clients" && negb (asks_for types "lldp")
  then zero_metrics_state
  else mk_metrics_state enabled (asks_for types "lldp") (asks_for types "clients")
         (d2u 64 (number_value interval))
         (if is_number count then d2u 32 (number_value count) else METRICS_WIRED_CLIENTS_MAX_NUM)
         EmptyString.

Definition health_poll (health : option json) : metrics_poll :=
  let interval := get_item health "interval" in
  if non_null interval
  then mk_metrics_poll (dbl_truthy (number_value interval)) (d2u 64 (number_value interval))
  else zero_metrics_poll.

Definition metrics_are (m : plat_metrics_cfg) (w : world) : Prop := cfg_metrics (w_cfg w) = m.
Definition typed (clients lldp : bool) : plat_metrics_cfg :=
  zero_plat_metrics_cfg <| met_state := zero_metrics_state
    <| mst_clients_enabled := clients |> <| mst_lldp_enabled := lldp |> |>.

Lemma statistics_type_step j clients lldp w :
  metrics_are (typed clients lldp) w →
  wp (statistics_type_parse j) (λ _, metrics_are (typed
      (clients || match string_value (Some j) with Some s => streq s "clients" | None => false end)
      (lldp || match string_value (Some j) with Some s => streq s "lldp" | None => false end)))
    (λ _, False) no_fault w.
Proof.
  intros Hm. unfold statistics_type_parse, metrics_are in *.
  destruct (string_value (Some j)) as [s|]; [|apply wp_emit; by rewrite !orb_false_r].
  apply wp_bind. unfold when. destruct (streq s "clients"), (streq s "lldp");
    cbv [wp ret upd_met_state upd_metrics upd_cfg modify]; cbn; rewrite Hm, ?orb_false_r, ?orb_true_r;
    reflexivity.
Qed.

Lemma statistics_types_spec types w :
  metrics_are (typed false false) w →
  wp (for_each (for_each_child types) statistics_type_parse)
    (λ _, metrics_are (typed (asks_for types "clients") (asks_for types "lldp"))) (λ _, False) no_fault w.
Proof.
  intros Hm. unfold asks_for. generalize (for_each_child types) as l. intros l.
  apply (wp_for_each (λ seen w', metrics_are (typed
    (existsb (λ j, match string_value (Some j) with Some s => streq s "clients" | None => false end) seen)
    (existsb (λ j, match string_value (Some j) with Some s => streq s "lldp" | None => false end) seen)) w'));
    [done| |done].
  intros seen j todo w' _ H. eapply wp_mono; [by apply statistics_type_step| |done|done].
  intros ? w2. rewrite !existsb_app. cbn [existsb]. by rewrite !orb_false_r.
Qed.

(** The metrics of a configuration: state events are sent with the interval,
    the types and the client limit (2000 when none is given) of
    [metrics.statistics], and switched off altogether when clients are asked
    for without lldp (and not, as the message says, when no type is given);
    the health check has the interval of [metrics.health]; the telemetry is
    off.  An interval is "enabled" when it is not zero, negative or not a
    number included. *)
Theorem metrics_exact (metrics : option json) (w : world) :
  wp (cfg_metrics_parse metrics)
    (λ _ w', cfg_metrics (w_cfg w') = mk_plat_metrics_cfg zero_metrics_poll
       (health_poll (get_item metrics "health")) (statistics_state (get_item metrics "statistics")))
    any_err any_fault w.
Proof.
  unfold cfg_metrics_parse. cbv zeta. apply wp_bind, wp_upd_cfg.
  set (w1 := w <| w_cfg := _ |>). assert (metrics_are (typed false false) w1) as H1 by done.
  clearbody w1. apply wp_bind.
  apply (wp_mono _ (λ _ w', metrics_are (mk_plat_metrics_cfg zero_metrics_poll zero_metrics_poll
    (statistics_state (get_item metrics "statistics"))) w') _ any_err _ any_fault); [|clear|done|done].
  - unfold statistics_parse, statistics_state. cbv zeta.
    destruct (get_item metrics "statistics") as [s|] eqn:Hs; [|apply wp_ret; exact H1].
    cbn [non_null negb orb]. destruct (_ || _); [apply wp_ret; exact H1|].
    apply wp_bind. eapply wp_mono; [by apply statistics_types_spec| |done|done].
    intros ? w2 H2. unfold metrics_are in H2. apply wp_bind, wp_upd_cfg, wp_bind, wp_get_cfg.
    cbn. rewrite H2. cbn.
    destruct (dbl_truthy _), (asks_for _ "lldp"), (asks_for _ "clients"); cbn [negb andb];
      try (apply wp_ret; unfold metrics_are; cbn; by rewrite ?H2).
    apply wp_bind, wp_emit, wp_bind. set (w3 := _ <| w_out := _ |>).
    assert (cfg_metrics (w_cfg w3) <| met_state := zero_metrics_state |> = zero_plat_metrics_cfg) as H3
      by (unfold w3; cbn; by rewrite ?H2).
    eapply wp_mono; [apply (stays_log_send (c:=w_client w3) (R:=keeps (λ c, c))); done| |done|done].
    intros _ w4 (_ & H4 & _). apply wp_upd_cfg. unfold metrics_are. unfold keeps in H4.
    cbn. rewrite H4. exact H3.
  - intros ? w2 H2. unfold metrics_are in H2. unfold health_poll.
    destruct (get_item metrics "health") as [h|] eqn:Hh; cbn [non_null negb orb]; [|apply wp_ret, H2].
    destruct (get_item (Some h) "interval"); cbn [non_null negb]; [|apply wp_ret, H2].
    apply wp_upd_cfg. cbn. by rewrite H2.
Qed.
End metrics.

#[local] Existing Instances jtree_cjson jtree_laws sample_platform sample_libc sample_est amd64.

Definition sample_metrics : option (@json jtree_cjson) := get_item sample_config "metrics".

Lemma metrics_exact_witness :
  mst_enabled (statistics_state (get_item sample_metrics "statistics")) = true ∧
  cfg_metrics (w_cfg (state_after (cfg_metrics_parse sample_metrics) (sample_world 0))) =
    mk_plat_metrics_cfg zero_metrics_poll (health_poll (get_item sample_metrics "health"))
      (statistics_state (get_item sample_metrics "statistics")).
Proof.
  split; [vm_compute; reflexivity|].
  apply (wp_finished _ _ _ _ _ (metrics_exact sample_metrics (sample_world 0))).
  vm_compute. reflexivity.
Defined.
