(* ===== verification/StateSpec.v ===== *)
(** * What the state report says

    The MAC table: which addresses are reported where, and how many.  The
    public address: what is kept of the HTTP reply. *)

From S2P Require Import Prelude CNum CStr Bitmap Router Json PlatTypes World ProtoConv Messages Replies State Sample.

Section assoc.
Context {A : Type}.

Lemma streq_refl s : streq s s = true.
Proof. by apply String.eqb_eq. Qed.
Lemma streq_eq a b : streq a b = true ↔ a = b.
Proof. apply String.eqb_eq. Qed.

Lemma assoc_get_upd k k' (d : A) f l :
  assoc_get k (assoc_upd k' d f l) =
  if decide (k' = k) then Some (f (default d (assoc_get k l))) else assoc_get k l.
Proof.
  unfold assoc_get. induction l as [|[x a] l IH]; simpl.
  - destruct (decide (k' = k)) as [->|Hne]; [by rewrite streq_refl|].
    destruct (streq k k') eqn:E; [|done]. apply streq_eq in E. congruence.
  - destruct (streq x k') eqn:Ex; simpl.
    + apply streq_eq in Ex as ->. destruct (decide (k' = k)) as [->|Hne]; [by rewrite streq_refl|].
      destruct (streq k k') eqn:E; [|done]. apply streq_eq in E. congruence.
    + rewrite IH. destruct (streq k x) eqn:Ek; [|done]. apply streq_eq in Ek as ->.
      rewrite decide_False; [done|]. intros ->. by rewrite streq_refl in Ex.
Qed.
End assoc.

Section state.
Context `{J : CJson, JL : !CJsonLaws, P : Platform, L : CLibc}.

(** ** The MAC table *)

(** The addresses learned on port [p] under the VLAN key [v]. *)
Definition macs_of (l : list plat_learned_mac_addr) (p v : string) : list string :=
  map lm_mac (filter (λ e, lm_port e = p ∧ vid_key (lm_vid e) = v) l).

(** What a table, and what a report, has there. *)
Definition table_at (t : mac_table) (p v : string) : list string :=
  default [] (assoc_get v (default [] (assoc_get p t))).
Definition reported_at (r : json) (p v : string) : list (option string) :=
  map (λ j, string_value (Some j)) (for_each_child (get_item (get_item (Some r) p) v)).

Lemma table_at_upd t p v m p' v' :
  table_at (assoc_upd p [] (assoc_upd v [] (λ macs, macs ++ [m])%list) t) p' v' =
  (table_at t p' v' ++ if decide (p = p' ∧ v = v') then [m] else [])%list.
Proof.
  unfold table_at. rewrite assoc_get_upd. destruct (decide (p = p')) as [->|Hp]; simpl.
  - rewrite assoc_get_upd.
    destruct (decide (v = v')) as [->|Hv].
    + by rewrite decide_True by done.
    + rewrite decide_False by tauto. by rewrite app_nil_r.
  - rewrite decide_False by tauto. by rewrite app_nil_r.
Qed.

(** Allocations fail only when memory can run out. *)
Definition roomy (w0 w : world) : Prop := no_oom w0 → no_oom w.
Definition oom (w0 : world) : world → Prop := λ _, ¬ no_oom w0.

Lemma wp_alloc_or_fail_oom w0 (Q : unit → world → Prop) F w :
  roomy w0 w → (∀ w', roomy w0 w' → w_metrics w' = w_metrics w → w_http w' = w_http w → Q tt w') →
  wp alloc_or_fail Q (oom w0) F w.
Proof.
  intros Hr HQ. unfold alloc_or_fail, alloc, oom, wp, mbind, M_bind. unfold roomy, no_oom in *.
  destruct (w_heap w) as [|[] h] eqn:Hh; cbn.
  - by apply HQ.
  - apply HQ; [|done..]. cbn. intros H. by specialize (Hr H).
  - intros H. by specialize (Hr H).
Qed.

Lemma wp_oom_err w0 (E : world → Prop) (Q : unit → world → Prop) F w :
  roomy w0 w → (¬ no_oom w0 → ∀ w', E w') →
  (∀ w', roomy w0 w' → w_metrics w' = w_metrics w → w_http w' = w_http w → Q tt w') →
  wp alloc_or_fail Q E F w.
Proof.
  intros Hr HE HQ. apply (wp_mono _ Q _ (oom w0) _ F); [|done| |done].
  - by apply (wp_alloc_or_fail_oom w0).
  - intros w' H. by apply HE.
Qed.

Lemma mac_table_add_spec w0 t e w :
  roomy w0 w →
  wp (mac_table_add t e) (λ t' w', roomy w0 w' ∧
      ∀ p v, table_at t' p v = (table_at t p v ++ macs_of [e] p v)%list) (oom w0) no_fault w.
Proof.
  intros Hw. unfold mac_table_add. cbv zeta.
  apply wp_bind, wp_when.
  1: intros _; apply (wp_alloc_or_fail_oom w0); [done|]; intros w1 H1 _ _.
  2: intros _; rename w into w1; rename Hw into H1.
  all: apply wp_bind, wp_when.
  1, 3: intros _; apply (wp_alloc_or_fail_oom w0); [done|]; intros w2 H2 _ _.
  3, 4: intros _; rename w1 into w2; rename H1 into H2.
  all: apply wp_bind; apply (wp_alloc_or_fail_oom w0); [done|]; intros w3 H3 _ _; apply wp_ret;
    (split; [done|]); intros p v; rewrite table_at_upd; f_equal; unfold macs_of; simpl;
    rewrite filter_cons, filter_nil;
    destruct (decide (lm_port e = p ∧ vid_key (lm_vid e) = v)); reflexivity.
Qed.

Lemma mac_table_spec w0 l w :
  roomy w0 w →
  wp (fold_m mac_table_add l [])
    (λ t w', ∀ p v, table_at t p v = macs_of l p v) (oom w0) no_fault w.
Proof.
  intros Hw. apply (wp_fold_m (λ seen t w', roomy w0 w' ∧ ∀ p v, table_at t p v = macs_of seen p v)).
  - by split.
  - intros seen e todo t w1 _ [H1 Ht]. eapply wp_mono; [by apply mac_table_add_spec| |done|done].
    intros t' w2 [H2 Ht']. split; [done|]. intros p v. rewrite Ht', Ht. unfold macs_of.
    by rewrite list.filter_app, map_app.
  - by intros t w1 [_ Ht].
Qed.

(** ** The table as JSON *)
Lemma texts_of_array l a :
  cJSON_IsArray a = true →
  cJSON_IsArray (fold_left (λ a m, cJSON_AddToArray a (cJSON_CreateString m)) l a) = true ∧
  cJSON_children (fold_left (λ a m, cJSON_AddToArray a (cJSON_CreateString m)) l a) =
    (cJSON_children a ++ map cJSON_CreateString l)%list.
Proof.
  revert a. induction l as [|m l IH]; intros a Ha; simpl; [by rewrite app_nil_r|].
  destruct (IH (cJSON_AddToArray a (cJSON_CreateString m)) (isarray_add a _ Ha)) as [H1 H2].
  split; [done|]. by rewrite H2, children_array_add, <- app_assoc.
Qed.

(** Members added from an association list are found as in the list. *)
Lemma member_fold {A} (f : A → json) l o k :
  cJSON_IsObject o = true →
  cJSON_IsObject (fold_left (λ o kv, cJSON_AddToObject o kv.1 (f kv.2)) l o) = true ∧
  cJSON_member (fold_left (λ o kv, cJSON_AddToObject o kv.1 (f kv.2)) l o) k =
    match cJSON_member o k with Some j => Some j | None => option_map f (assoc_get k l) end.
Proof.
  unfold assoc_get. revert o. induction l as [|[x a] l IH]; intros o Ho; simpl.
  { by destruct (cJSON_member o k). }
  destruct (IH (cJSON_AddToObject o x (f a)) (isobject_add o x (f a) Ho)) as [H1 H2].
  split; [done|]. rewrite H2, member_add by done. destruct (cJSON_member o k); [done|].
  destruct (streq x k) eqn:E, (streq k x) eqn:E'; try done;
    first [apply streq_eq in E; subst|apply streq_eq in E'; subst]; by rewrite streq_refl in *.
Qed.

Lemma reported_table (b : bool) t p v :
  p ≠ "overflow" →
  reported_at (fold_left (λ o p, port_json p o) t
    (cJSON_AddToObject cJSON_CreateObject "overflow" (cJSON_CreateBool b))) p v =
  map Some (table_at t p v).
Proof.
  intros Hp. unfold reported_at, table_at. cbn [get_item].
  set (vids vs := fold_left (λ o v, vid_json v o) vs cJSON_CreateObject).
  change (fold_left (λ o p, port_json p o) t) with
    (fold_left (λ o kv, cJSON_AddToObject o kv.1 (vids kv.2)) t).
  destruct (member_fold vids t (cJSON_AddToObject cJSON_CreateObject "overflow" (cJSON_CreateBool b)) p
    (isobject_add _ _ _ isobject_empty)) as [_ ->].
  rewrite member_add, member_empty by apply isobject_empty.
  destruct (streq "overflow" p) eqn:E; [apply streq_eq in E; congruence|].
  destruct (assoc_get p t) as [vs|]; simpl; [|done]. unfold vids.
  change (fold_left (λ o v, vid_json v o) vs) with (fold_left (λ o kv, cJSON_AddToObject o kv.1
    (fold_left (λ a m, cJSON_AddToArray a (cJSON_CreateString m)) kv.2 cJSON_CreateArray)) vs).
  destruct (member_fold (λ l, fold_left (λ a m, cJSON_AddToArray a (cJSON_CreateString m)) l
    cJSON_CreateArray) vs cJSON_CreateObject v isobject_empty) as [_ ->].
  rewrite member_empty. destruct (assoc_get v vs) as [ms|]; simpl; [|done].
  destruct (texts_of_array ms cJSON_CreateArray isarray_empty) as [_ ->].
  rewrite children_array_empty. simpl. rewrite map_map. apply map_ext. intros m.
  apply valuestring_create.
Qed.

(** The MAC table of the state report: on every port and VLAN key it lists
    exactly the addresses learned there, in order, among the first entries of
    the platform's list, as many of them as the configured limit allows; the
    flag says whether the list was longer (or the limit is 0, when nothing is
    listed).  Filling it fails only when memory runs out. *)
Theorem mac_table_exact (state : plat_state_info) (w : world) :
  let max := mst_max_mac_count (met_state (w_metrics w)) in
  let learned := si_learned_mac_list state in
  wp (state_fill_mac_addr_list_data state cJSON_CreateObject)
    (λ r _,
       get_item (Some r) "overflow" =
         Some (cJSON_CreateBool ((max <? Z.of_nat (length learned)) || (max =? 0))) ∧
       ∀ p v, p ≠ "overflow" →
         reported_at r p v = map Some (macs_of (take (Z.to_nat max) learned) p v))
    (λ _, ¬ no_oom w) no_fault w.
Proof.
  intros max learned. unfold state_fill_mac_addr_list_data. apply wp_bind, wp_gets. cbv zeta.
  fold max learned. apply wp_bind. unfold add_bool, add. apply wp_bind.
  apply (wp_alloc_or_fail_oom w); [by unfold roomy|]. intros w1 H1 _ _. apply wp_ret.
  apply wp_bind. eapply wp_mono; [by apply (mac_table_spec w)| |done|done].
  intros t w2 Ht. apply wp_ret. split.
  - set (vids (p : string * list (string * list string)) := fold_left (λ o v, vid_json v o) p.2 cJSON_CreateObject).
    cbn [get_item].
    destruct (member_fold (λ vs, fold_left (λ o v, vid_json v o) vs cJSON_CreateObject) t
      (cJSON_AddToObject cJSON_CreateObject "overflow"
         (cJSON_CreateBool (mac_overflow (Z.of_nat (length learned)) max))) "overflow"
      (isobject_add _ _ _ isobject_empty)) as [_ H].
    rewrite member_add, member_empty, streq_refl in H by apply isobject_empty. exact H.
  - intros p v Hp. rewrite reported_table by done. rewrite Ht. f_equal. f_equal.
    unfold mac_num_elem, mac_overflow.
    destruct (Z.ltb_spec max (Z.of_nat (length learned))); cbn [orb]; [done|].
    destruct (Z.eqb_spec max 0) as [->|]; [done|].
    rewrite Nat2Z.id, !take_ge; try done. lia.
Qed.

(** ** The public address *)
Definition small (piece : string) : Prop := slen piece < 256.

Lemma curl_deliver_last pieces buf :
  match curl_deliver pieces buf with
  | Some r => Forall small pieces ∧ r = default buf (last pieces)
  | None => ¬ Forall small pieces
  end.
Proof.
  revert buf. induction pieces as [|p pieces IH]; intros buf; [done|]. cbn [curl_deliver].
  unfold state_fill_pub_ip_curl_cb. destruct (Z.leb_spec 256 (slen p)) as [Hp|Hp].
  - intros [H _]%Forall_cons. unfold small in H. lia.
  - specialize (IH p). destruct (curl_deliver pieces p) as [r|].
    + destruct IH as [IH ->]. split; [by constructor|]. rewrite last_cons.
      by destruct (last pieces).
    + by intros [_ H]%Forall_cons.
Qed.

(** The reply to the next HTTP request. *)
Definition next_reply (w : world) : option (list string) :=
  match w_http w with [] => None | r :: _ => r end.

(** The public address of the report is looked up exactly when an address to
    ask is configured; it is the last piece of the body that libcurl hands
    over, the pieces before it being overwritten, and the report fails when
    the request fails, a piece has 256 bytes or more, or memory runs out. *)
Theorem public_ip_exact (obj : json) (w : world) :
  let lookup := mst_public_ip_lookup (met_state (w_metrics w)) in
  wp (state_fill_public_ip obj)
    (λ r _, if slen lookup =? 0 then r = obj
            else ∃ pieces, next_reply w = Some pieces ∧ Forall small pieces ∧
              r = cJSON_AddToObject obj "public_ip"
                    (cJSON_CreateString (default EmptyString (last pieces))))
    (λ _, slen lookup ≠ 0 ∧ (no_oom w →
       next_reply w = None ∨ ∃ pieces, next_reply w = Some pieces ∧ ¬ Forall small pieces)) no_fault w.
Proof.
  intros lookup. unfold state_fill_public_ip. apply wp_bind, wp_gets. fold lookup.
  destruct (Z.eqb_spec (slen lookup) 0) as [H0|H0]; [by apply wp_ret|].
  apply wp_bind, (wp_oom_err w); [by unfold roomy|tauto|]. intros w1 H1 _ Hh.
  apply wp_bind. apply (wp_mono _ (λ r w', r = next_reply w ∧ roomy w w') _ (λ _, False) _ no_fault);
    [|intros r w2 [-> H2]|done|done].
  { unfold http, next_reply, wp. rewrite <- Hh. destruct (w_http w1) as [|r h]; [done|]. split; [done|].
    intros H. by apply H1. }
  destruct (next_reply w) as [pieces|] eqn:Hr; [|apply wp_fail; auto].
  pose proof (curl_deliver_last pieces EmptyString) as Hc.
  destruct (curl_deliver pieces EmptyString) as [r|]; [|apply wp_fail; eauto].
  destruct Hc as [Hs ->]. unfold add_str, add. apply wp_bind.
  apply (wp_oom_err w); [done|tauto|]. intros w3 _ _ _. apply wp_ret. by exists pieces.
Qed.
End state.

#[local] Existing Instances jtree_cjson jtree_laws sample_platform sample_libc sample_est amd64.

(** Three addresses learned, a limit of two. *)
Definition sample_state_info : plat_state_info :=
  mk_plat_state_info (mk_plat_poe_state 0 0 0 "on") ∅ (BITMAP_CLEAR MAX_NUM_OF_PORTS) [] []
    [mk_plat_learned_mac_addr "Ethernet0" 1 "aa"; mk_plat_learned_mac_addr "Ethernet1" 1 "bb";
     mk_plat_learned_mac_addr "Ethernet0" 1 "cc"] []
    (mk_plat_system_info 0 0 0 0 0 0 []) (mk_coa_counters 0 0 0 0 0 0 0 0).
Definition sample_limited : world :=
  sample_world 0 <| w_metrics := zero_plat_metrics_cfg
    <| met_state := zero_metrics_state <| mst_max_mac_count := 2 |> |> |>.

Lemma mac_table_exact_witness :
  finished (state_fill_mac_addr_list_data sample_state_info cJSON_CreateObject) sample_limited = true ∧
  ∃ r, get_item (Some r) "overflow" = Some (cJSON_CreateBool true) ∧
    reported_at r "Ethernet0" "1" = [Some "aa"] ∧ reported_at r "Ethernet1" "1" = [Some "bb"].
Proof.
  assert (finished (state_fill_mac_addr_list_data sample_state_info cJSON_CreateObject)
    sample_limited = true) as H by (vm_compute; reflexivity).
  split; [exact H|].
  destruct (wp_returned _ _ _ _ _ (mac_table_exact sample_state_info sample_limited) H)
    as (r & H1 & H2).
  exists r. split; [exact H1|].
  split; [apply (H2 "Ethernet0" "1"); discriminate|apply (H2 "Ethernet1" "1"); discriminate].
Defined.
