(* ===== verification/ConnectSpec.v ===== *)
(** * The connect message

    What [Connect.connect_send] sends and what it does to the variables that
    outlive a session; the text form of the serial number it reports. *)

From S2P Require Import Prelude CNum CStr Bitmap Router Json PlatTypes World ProtoConv Messages Connect Replies Sample.
From Stdlib Require Import Ascii.

Section connect.
Context `{J : CJson, P : Platform, T : CTarget}.

(** ** Steps that cannot fail while memory lasts *)
Lemma wp_alloc_ok (Q : bool → world → Prop) E F (w : world) :
  no_oom w → Q true w → wp alloc Q E F w.
Proof. unfold no_oom, wp, alloc. by intros ->. Qed.
Lemma wp_alloc_or_fail_ok (Q : unit → world → Prop) E F (w : world) :
  no_oom w → Q tt w → wp alloc_or_fail Q E F w.
Proof. intros Hm HQ. apply wp_bind, wp_alloc_ok; [done|]. by apply wp_ret. Qed.
Lemma wp_add_ok k v o (Q : json → world → Prop) E F (w : world) :
  no_oom w → Q (cJSON_AddToObject o k v) w → wp (add k v o) Q E F w.
Proof. intros Hm HQ. apply wp_bind, wp_alloc_or_fail_ok; [done|]. by apply wp_ret. Qed.

(** ** What is expected *)

(** The JSON text of a file that can be read. *)
Definition json_file (w : world) (name : string) : option json :=
  match w_files w !! name with Some text => cJSON_Parse text | None => None end.

(** The configuration in force, as the platform saved it. *)
Definition saved_uuid (w : world) : Z :=
  let '(r, id, _) := plat_saved_config_id_get (w_plat w) in
  if r =? 0 then wrap_signed 64 id else 1.

Definition password_member (w : world) : list (string * json) :=
  match w_password w with Some p => [("password", str p)] | None => [] end.

Definition capabilities (w : world) (version : json) (pinfo : plat_platform_info) : json :=
  let c := w_client w in
  obj ([("version", obj (("switch", version) ::
           match json_file w (cl_ols_schema_version_file c) with
           | Some s => [("schema", s)] | None => [] end));
        ("serial", str (cl_serial c)); ("firmware", str (cl_firmware c));
        ("compatible", str (pinfo_hwsku pinfo)); ("model", str (pinfo_platform pinfo));
        ("platform", str "switch")]
       ++ match scan_mac 6 (cl_serial c) with
          | Some mac => [("label_macaddr", str (label_mac mac))] | None => [] end)%list.

Definition connect_msg (w : world) (version : json) (pinfo : plat_platform_info) : json :=
  let c := w_client w in
  obj [("jsonrpc", str "2.0"); ("method", str "connect");
       ("params", obj ([("serial", str (cl_serial c)); ("firmware", str (cl_firmware c));
                        ("uuid", num (saved_uuid w))] ++ password_member w
                       ++ [("capabilities", capabilities w version pinfo)])%list)].

Definition connects_of (es : list event) : list json :=
  omap (λ e, match e with EvSendConnect j => Some j | _ => None end) es.

(** The messages sent through the connect callback. *)
Definition connected (w : world) (msgs : list json) (w' : world) : Prop :=
  ∃ es, outputs w es w' ∧ connects_of es = msgs.

(** ** The parts *)

(** Nothing changed but the state of the platform. *)
Definition quietly (w w' : world) : Prop := ∃ p, w' = w <| w_plat := p |>.

Lemma read_json_spec name (Q : option json → world → Prop) E F (w : world) :
  no_oom w → Q (json_file w name) w → wp (readJsonFile name) Q E F w.
Proof.
  intros Hm HQ. unfold readJsonFile, json_file in *. apply wp_bind, wp_gets.
  destruct (w_files w !! name); [|by apply wp_ret].
  apply wp_bind, wp_alloc_ok; [done|]. by apply wp_ret.
Qed.

Lemma add_versions_spec ver (Q : json → world → Prop) (E : world → Prop) F (w : world) :
  no_oom w →
  match json_file w (cl_ols_client_version_file (w_client w)) with
  | None => E w
  | Some v => Q (fold_left (λ o kv, cJSON_AddToObject o kv.1 kv.2) (("switch", v) ::
      match json_file w (cl_ols_schema_version_file (w_client w)) with
      | Some s => [("schema", s)] | None => [] end) ver) w
  end → wp (add_versions ver) Q E F w.
Proof.
  intros Hm H. unfold add_versions. apply wp_bind, wp_gets, wp_bind, read_json_spec; [done|].
  destruct (json_file w _) as [v|]; [|by apply wp_fail].
  apply wp_bind, wp_add_ok; [done|]. apply wp_bind, read_json_spec; [done|].
  destruct (json_file w _) as [s|]; [apply wp_add_ok; [done|]|apply wp_ret]; exact H.
Qed.

Lemma add_capabilities_spec (w : world) :
  no_oom w →
  wp (add_capabilities cJSON_CreateObject)
    (λ cap w', ∃ p es v pinfo, w' = w <| w_plat := p |> <| w_out := (w_out w ++ es)%list |> ∧
       connects_of es = [] ∧
       json_file w (cl_ols_client_version_file (w_client w)) = Some v ∧ cap = capabilities w v pinfo)
    (λ w', ∃ p es, w' = w <| w_plat := p |> <| w_out := (w_out w ++ es)%list |> ∧
       connects_of es = [] ∧ json_file w (cl_ols_client_version_file (w_client w)) = None) no_fault w.
Proof.
  intros Hm. unfold add_capabilities, capabilities. unfold new_object, new.
  apply wp_bind, wp_bind, wp_alloc_or_fail_ok; [done|]. apply wp_ret.
  apply wp_bind, wp_plat_read. intros [r pinfo] p _.
  apply wp_bind.
  apply (wp_mono _ (λ _ w', ∃ es, w' = w <| w_plat := p |> <| w_out := (w_out w ++ es)%list |> ∧
    connects_of es = []) _ (λ _, False) _ no_fault); [|intros _ w1 (es & Hw1 & He)|done|done].
  { apply wp_when; intros _.
    - apply wp_emit. eexists. split; [reflexivity|done].
    - exists []. split; [by destruct w; cbn; rewrite app_nil_r|done]. }
  assert (no_oom w1) as Hm1 by by subst.
  assert (w_client w1 = w_client w) as Hc by by subst.
  assert (∀ f, json_file w1 f = json_file w f) as Hf by by subst.
  apply wp_bind, wp_gets. do 2 (apply wp_bind, wp_alloc_or_fail_ok; [done|]).
  apply wp_bind, add_versions_spec; [done|]. rewrite Hc, !Hf.
  destruct (json_file w (cl_ols_client_version_file (w_client w))) as [v|]; [|by eauto].
  unfold add_str. do 3 (apply wp_bind, wp_add_ok; [done|]).
  destruct (scan_mac 6 (cl_serial (w_client w))) as [mac|];
    [apply wp_add_ok; [done|]|apply wp_ret]; exists p, es, v, pinfo; by split_and!.
Qed.

(** Steps after which the message can still be sent, with nothing sent yet. *)
Definition underway (w w' : world) : Prop :=
  no_oom w' ∧ w_client w' = w_client w ∧ w_files w' = w_files w ∧ connected w [] w'.

Lemma connects_app es1 es2 : connects_of (es1 ++ es2) = (connects_of es1 ++ connects_of es2)%list.
Proof. apply omap_app. Qed.

Lemma underway_add w w' es w'' :
  underway w w' → w_heap w'' = w_heap w' → w_client w'' = w_client w' → w_files w'' = w_files w' →
  w_out w'' = (w_out w' ++ es)%list → connects_of es = [] → underway w w''.
Proof.
  intros (Hm & Hc & Hf & es0 & Ho & Hs) H1 H2 H3 H4 H5. unfold underway, no_oom in *.
  split_and!; [congruence..|]. exists (es0 ++ es)%list.
  split; [by eapply outputs_trans|]. by rewrite connects_app, Hs, H5.
Qed.

Definition same_session (w w' : world) : Prop :=
  w_uuid_active w' = w_uuid_active w ∧ w_password w' = w_password w.

Ltac one_call := apply wp_bind, wp_plat; intros ? ? _; apply wp_ret.
Lemma restore_metrics_spec w0 w :
  underway w0 w →
  wp restore_metrics (λ _ w', underway w0 w' ∧ same_session w w') (λ _, False) no_fault w.
Proof.
  intros Hu. unfold restore_metrics, plat_. apply wp_bind, wp_plat_read. intros [r m] p _.
  assert (∀ es m' p', connects_of es = [] → underway w0
    (w <| w_plat := p' |> <| w_metrics := m' |> <| w_out := (w_out w ++ es)%list |>)) as Hend.
  { intros es m' p' He. by apply (underway_add w0 w es). }
  destruct (negb (r =? 0)).
  { apply wp_ret. split; [|done]. by apply (underway_add w0 w []); [..|cbn; rewrite app_nil_r|]. }
  apply wp_bind, wp_modify, wp_bind. one_call. apply wp_bind. one_call.
  apply wp_bind, wp_when; intros _; [one_call|]; (apply wp_when; intros _; [one_call|]);
    (split; [|done]); eapply (underway_add w0 w); try done; cbn; rewrite <- ?app_assoc; reflexivity.
Qed.

Lemma proto_blob_builds method (w : world) :
  no_oom w → proto_new_blob method w = Ok (proto_root method) w.
Proof. intros Hm. destruct w. unfold no_oom in Hm. cbn in Hm. subst. reflexivity. Qed.

(** What a connect leaves behind. *)
Definition connect_post (w w' : world) : Prop :=
  w_uuid_active w' = saved_uuid w ∧ w_password w' = None ∧
  match json_file w (cl_ols_client_version_file (w_client w)) with
  | Some v => ∃ pinfo, connected w [connect_msg w v pinfo] w'
  | None => connected w [] w'
  end.

Lemma add_password_spec params (w : world) :
  no_oom w →
  wp (add_password params)
    (λ j w', j = fold_left (λ o kv, cJSON_AddToObject o kv.1 kv.2) (password_member w) params ∧
       w' = w <| w_password := None |>) (λ _, False) no_fault w.
Proof.
  intros Hm. unfold add_password, password_member. apply wp_bind, wp_gets.
  destruct (w_password w) as [pw|] eqn:Hp.
  - apply wp_bind, wp_add_ok; [done|]. by apply wp_bind, wp_modify, wp_ret.
  - apply wp_ret. split; [done|]. destruct w. cbn in *. by subst.
Qed.

(** C38: the first message of a session: the configuration id in force becomes
    the one the platform saved (1 when it has none), and the message reports
    it with the serial number, the firmware, the capabilities and, once, the
    password left by a change.  It is sent exactly when the version file can
    be read and parsed; when it cannot, nothing is sent, and the password is
    gone all the same. *)
Theorem connect_outcome (w : world) :
  no_oom w → wp connect_send (λ _ w', connect_post w w') (λ _, False) no_fault w.
Proof.
  intros Hm. unfold connect_send. apply wp_bind, wp_try.
  set (version := json_file w (cl_ols_client_version_file (w_client w))).
  apply (wp_mono _
    (λ j w', underway w w' ∧ w_uuid_active w' = saved_uuid w ∧ w_password w' = None ∧
       ∃ v pinfo, version = Some v ∧ j = connect_msg w v pinfo) _
    (λ w', underway w w' ∧ w_uuid_active w' = saved_uuid w ∧ w_password w' = None ∧
       version = None) _ no_fault);
    [| |intros w1 (Hu & H1 & H2 & Hv)|done].
  2:{ intros j w1 ((Hm1 & _ & _ & es & Ho & Hs) & H1 & H2 & v & pinfo & Hv & ->).
      apply wp_bind, wp_alloc_ok; [done|]. apply wp_emit. split; [done|]. split; [done|].
      fold version. rewrite Hv. exists pinfo, (es ++ [EvSendConnect (connect_msg w v pinfo)])%list.
      split; [by eapply outputs_trans|]. by rewrite connects_app, Hs. }
  2:{ apply wp_emit. split; [done|]. split; [done|]. fold version. rewrite Hv.
      apply (underway_add w w1 [EvLog 3 "JSON obj alloc failed"]); done. }
  unfold connect_body.
  apply wp_bind. eapply wp_of_eq; [apply (proto_blob_builds "connect" w Hm)|].
  apply wp_bind, wp_plat_read. intros [r id] p Hp. apply wp_bind, wp_modify, wp_bind, wp_gets.
  assert ((if negb (r =? 0) then 1 else wrap_signed 64 id) = saved_uuid w) as ->.
  { unfold saved_uuid. rewrite Hp. by destruct (r =? 0). }
  set (w1 := w <| w_plat := p |> <| w_uuid_active := saved_uuid w |>).
  assert (no_oom w1) as Hm1 by done. unfold add_str, add_num, add_dbl.
  do 3 (apply wp_bind, wp_add_ok; [done|]).
  apply wp_bind. eapply wp_mono; [by apply add_password_spec| |done|done].
  intros params w2 [-> ->]. set (w2 := w1 <| w_password := None |>).
  assert (underway w w2) as Hu2.
  { split; [done|]. split; [done|]. split; [done|]. exists []. by split; [apply outputs_nil|]. }
  apply wp_bind. unfold add_object at 1, new_object, new. apply wp_bind, wp_bind, wp_alloc_or_fail_ok; [done|].
  apply wp_ret, wp_bind. eapply wp_mono; [apply (add_capabilities_spec w2); done| | |done].
  2:{ intros w3 (p3 & es & -> & He & Hv). split; [|done]. by apply (underway_add w w2 es). }
  intros cap w3 (p3 & es & v & pinfo & -> & He & Hv & ->). apply wp_ret, wp_bind.
  eapply wp_mono; [apply (restore_metrics_spec w); by apply (underway_add w w2 es)| |done|done].
  intros _ w4 (Hu & Hs1 & Hs3). apply wp_ret. split; [done|].
  split; [by rewrite Hs1|]. split; [by rewrite Hs3|]. exists v, pinfo. split; [done|].
  unfold connect_msg, obj, proto_root. cbn [fold_left fst snd app].
  by rewrite fold_left_app.
Qed.
End connect.

(** ** The serial number as a MAC address *)
Definition byte (b : Z) : Prop := 0 ≤ b < 256.

(** A serial number: the bytes in hexadecimal, nothing between them. *)
Fixpoint serial_of (mac : list Z) : string :=
  match mac with [] => EmptyString | b :: mac => hex_02x b +:+ serial_of mac end.

(** Two digits that no other part of a number can be taken for. *)
Definition two_digits (b : Z) : bool :=
  match hex_02x b with
  | String c (String d EmptyString) =>
      bool_decide (hex_val c = Some (b / 16)) && bool_decide (hex_val d = Some (b mod 16))
      && negb (is_space c || is_ascii 43 c || is_ascii 45 c || is_ascii 120 d || is_ascii 88 d)
      && (negb (is_ascii 48 c) || (b / 16 =? 0))
  | _ => false
  end.

Lemma bytes_two_digits b : byte b → two_digits b = true.
Proof.
  intros Hb. assert (forallb two_digits (seqZ 0 256) = true) as H by (vm_compute; reflexivity).
  rewrite forallb_forall in H. apply H, list_elem_of_In, elem_of_seqZ. unfold byte in Hb. lia.
Qed.

Lemma hex_byte b :
  byte b → String.length (hex_02x b) = 2%nat ∧ ∀ r, scan_2x (hex_02x b +:+ r) = Some (b, r).
Proof.
  intros Hb. pose proof (bytes_two_digits b Hb) as H. unfold two_digits in H.
  destruct (hex_02x b) as [|c [|d [|? ?]]]; try done. split; [done|]. intros r.
  rewrite !andb_true_iff, !bool_decide_eq_true, !negb_true_iff, !orb_false_iff in H.
  destruct H as [[[Hc Hd] [[[[Hs Hp] Hm] Hx] HX]] H0]. pose proof (Z.div_mod b 16 ltac:(lia)) as Hdm.
  unfold scan_2x. change (String c (String d EmptyString) +:+ r) with (String c (String d r)). cbn [skip_space]. rewrite Hs, Hp, Hm.
  destruct (is_ascii 48 c).
  - rewrite Hx, HX. cbn [orb hex_digits]. rewrite Hd. cbn [hex_digits].
    simpl in H0. apply Z.eqb_eq in H0. do 2 f_equal. simpl. lia.
  - cbn [hex_digits]. rewrite Hc. cbn [hex_digits]. rewrite Hd. do 2 f_equal. simpl. lia.
Qed.

Lemma scan_serial mac : Forall byte mac → scan_mac (length mac) (serial_of mac) = Some mac.
Proof.
  induction 1 as [|b mac Hb _ IH]; [done|]. cbn [length scan_mac serial_of].
  rewrite (proj2 (hex_byte b Hb)). by rewrite IH.
Qed.

Lemma length_append a b : String.length (a +:+ b) = (String.length a + String.length b)%nat.
Proof. induction a as [|c a IH]; simpl; [done|]. by rewrite IH. Qed.

Lemma mac_text_length mac :
  Forall byte mac → (String.length (mac_text mac) ≤ 3 * length mac)%nat ∧
  (mac ≠ [] → String.length (mac_text mac) = 3 * length mac - 1)%nat.
Proof.
  induction 1 as [|b mac Hb Hm IH]; [done|]. destruct (hex_byte b Hb) as [Hl _].
  cbn [mac_text]. destruct mac as [|b' mac]; [simpl; lia|].
  rewrite !length_append, Hl. destruct IH as [_ IH]. specialize (IH ltac:(done)).
  rewrite IH. simpl. lia.
Qed.

(** The label address of the connect message: the serial number of a device,
    twelve hexadecimal digits, is scanned into the six bytes it was written
    from, and their text with colons fits its buffer uncut. *)
Theorem label_mac_roundtrip (mac : list Z) :
  length mac = 6%nat → Forall byte mac →
  scan_mac 6 (serial_of mac) = Some mac ∧ label_mac mac = mac_text mac ∧
  slen (label_mac mac) = 17.
Proof.
  intros Hl Hb. rewrite <- Hl at 1. rewrite scan_serial by done. split; [done|].
  destruct (mac_text_length mac Hb) as [_ H]. rewrite Hl in H.
  assert (label_mac mac = mac_text mac) as ->.
  { apply stake_all. unfold slen. rewrite H by (by destruct mac). simpl. lia. }
  split; [done|]. unfold slen. by rewrite H by (by destruct mac).
Qed.

Lemma label_mac_roundtrip_witness :
  label_mac [170; 187; 204; 221; 238; 255] = "aa:bb:cc:dd:ee:ff" ∧
  scan_mac 6 "aabbccddeeff" = Some [170; 187; 204; 221; 238; 255].
Proof.
  split; [reflexivity|].
  apply (label_mac_roundtrip [170; 187; 204; 221; 238; 255]); [reflexivity|].
  repeat constructor; unfold byte; lia.
Defined.

#[local] Existing Instances jtree_cjson jtree_laws sample_platform sample_libc sample_est amd64.

(** A device with a version file and a password waiting. *)
Definition sample_boot : world :=
  sample_world 0 <| w_files := {[ "/etc/version.json" := quoted "{'v':1}" ]} |>
                 <| w_password := Some "secret" |>.

Lemma connect_outcome_witness :
  no_oom sample_boot ∧ finished connect_send sample_boot = true ∧
  connect_post sample_boot (state_after connect_send sample_boot).
Proof.
  split; [reflexivity|]. split; [vm_compute; reflexivity|].
  apply (wp_finished _ _ _ _ _ (connect_outcome sample_boot eq_refl)).
  vm_compute. reflexivity.
Defined.
