(* ===== verification/HandlerEffects.v ===== *)
(** * What a command can make the client send

    Every handler stays within [Frame.HandlerFrame]; so does [proto_handle].
    The theorem draws the conclusion for the messages: whatever the command
    is, whatever fails, every message sent while it is handled is a JSON-RPC
    2.0 request or reply with the serial number of the device. *)

From S2P Require Import Prelude CNum CStr Bitmap Router Json PlatTypes World Frame ProtoConv Messages CfgServices CfgParse Handlers Dispatch Connect Events State Sample MessageEffects ParserEffects.

Section handlers.
Context `{J : CJson, JL : !CJsonLaws, P : Platform, T : CTarget, L : CLibc, E : EstClient} {c : client_id} {R : relation world} `{!HandlerFrame c R}.

#[local] Instance handler_plain : Frame c R := cfg_frame.
#[local] Hint Resolve handler_plain : yields.

Lemma yields_plat k : yields c R (λ _, True) (plat k).
Proof.
  intros w Hw. apply wp_plat. intros r p _. split; [done|]. split; [apply hframe_call|done].
Qed.
Lemma yields_io : yields c R (λ _, True) io.
Proof. intros w Hw. apply wp_io. intros b. split; [done|]. split; [apply hframe_io|done]. Qed.
Lemma yields_disk d : yields c R (λ _, True) (disk d).
Proof. intros w Hw. apply wp_disk. split; [done|]. split; [apply hframe_disk|done]. Qed.
Lemma yields_plat_ k : yields c R (λ _, True) (plat_ k).
Proof. eapply yields_bind; [apply yields_plat|]. intros. by apply yields_ret. Qed.

Lemma yields_emit e :
  (∀ w, w_client w = c → R w (add_event e w)) → yields c R (λ _, True) (emit e).
Proof. intros He w Hw. apply wp_emit. split; [done|]. split; [by apply He|done]. Qed.

Ltac field H := apply yields_modify; [intros w; apply H|done].
Lemma yields_set_metrics f : yields c R (λ _, True) (modify (λ w, w <| w_metrics := f w |>)).
Proof. field hframe_metrics. Qed.
Lemma yields_set_active f : yields c R (λ _, True) (modify (λ w, w <| w_uuid_active := f w |>)).
Proof. field hframe_active. Qed.
Lemma yields_set_latest f : yields c R (λ _, True) (modify (λ w, w <| w_uuid_latest := f w |>)).
Proof. field hframe_latest. Qed.
Lemma yields_set_compress f : yields c R (λ _, True) (modify (λ w, w <| w_state_compress := f w |>)).
Proof. field hframe_compress. Qed.
Lemma yields_set_last f : yields c R (λ _, True) (modify (λ w, w <| w_last_operation := f w |>)).
Proof. field hframe_last. Qed.
Lemma yields_set_password f : yields c R (λ _, True) (modify (λ w, w <| w_password := f w |>)).
Proof. field hframe_password. Qed.
Lemma yields_write_file p d : yields c R (λ _, True) (write_file p d).
Proof.
  intros w Hw. unfold write_file. apply wp_bind, wp_modify, wp_emit.
  split; [done|]. split; [apply hframe_file|done].
Qed.
Lemma yields_upload u d : yields c R (λ _, True) (emit (EvUpload u d)).
Proof. apply yields_emit. intros w _. apply hframe_upload. Qed.
Lemma yields_alarm n : yields c R (λ _, True) (emit (EvAlarm n)).
Proof. apply yields_emit. intros w _. apply hframe_alarm. Qed.
#[local] Hint Resolve yields_io yields_disk yields_plat yields_plat_ yields_set_metrics yields_set_active yields_set_latest
  yields_set_compress yields_set_last yields_set_password yields_write_file yields_upload
  yields_alarm stays_configure_reply stays_action_reply stays_script_reply stays_log_send
  stays_deviceupdate_send stays_event_firmware_upgrade_send stays_cfg_parse handler_frame : yields.

Lemma stays_reply_action rpc e t r : yields c R (λ _, True) (reply_action rpc e t r).
Proof. unfold reply_action. stay. Qed.
#[local] Hint Resolve stays_reply_action : yields.

Lemma stays_configure rpc : yields c R (λ _, True) (configure_handle rpc).
Proof. unfold configure_handle, configure_apply, apply_metrics. stay. Qed.
Lemma stays_simple_action rpc k m1 m2 t1 t2 :
  yields c R (λ _, True) (simple_action rpc k m1 m2 t1 t2).
Proof. unfold simple_action. stay. Qed.
Lemma stays_reenroll rpc : yields c R (λ _, True) (reenroll_handle rpc).
Proof. unfold reenroll_handle, save_certificate. stay. Qed.
Lemma stays_success rpc :
  yields c R (λ _, True) (send_or alloc_failed (success_reply (request_id rpc))).
Proof. apply stays_send_or; [apply yields_log|apply yields_success_reply]. Qed.
Lemma stays_rtty rpc : yields c R (λ _, True) (rtty_handle rpc).
Proof.
  unfold rtty_handle. eapply yields_bind; [apply yields_try, yields_success_reply|].
  intros [b|] Hb; [|apply yields_log]. unfold rtty_parse, rtty_str, result_send_blob. stay.
  by apply stays_send_blob.
Qed.
Lemma stays_upgrade rpc : yields c R (λ _, True) (upgrade_handle rpc).
Proof. unfold upgrade_handle. stay. Qed.
Lemma stays_upgrade_status op n : yields c R (λ _, True) (upgrade_status_send op n).
Proof. unfold upgrade_status_send. stay. Qed.
Lemma stays_telemetry rpc : yields c R (λ _, True) (telemetry_handle rpc).
Proof. unfold telemetry_handle. stay. Qed.
Lemma stays_curl_form u d : yields c R (λ _, True) (curl_upload_form u d).
Proof. unfold curl_upload_form. stay. Qed.
Lemma stays_curl_diagnostic u d : yields c R (λ _, True) (curl_upload_diagnostic_form u d).
Proof. unfold curl_upload_diagnostic_form. stay. Qed.
#[local] Hint Resolve stays_curl_form stays_curl_diagnostic : yields.
Lemma stays_script_result e s id uri : yields c R (λ _, True) (script_result_cb e s id uri).
Proof. unfold script_result_cb, upload_result. stay. Qed.
Lemma stays_script rpc : yields c R (λ _, True) (script_handle rpc).
Proof. unfold script_handle, script_plat_handle. stay. Qed.
#[local] Hint Resolve stays_configure stays_simple_action stays_reenroll stays_success stays_rtty
  stays_upgrade stays_telemetry stays_script : yields.

Lemma stays_dispatch m rpc : yields c R (λ _, True) (dispatch m rpc).
Proof.
  unfold dispatch, method_table, table_find.
  repeat match goal with |- context [if ?b then _ else _] => destruct b end; cbn [default from_option];
  first [ apply stays_configure | apply stays_success | apply stays_simple_action
        | apply stays_reenroll | apply stays_rtty | apply stays_upgrade | apply stays_telemetry
        | apply stays_script ].
Qed.

Lemma stays_proto_handle cmd : yields c R (λ _, True) (proto_handle cmd).
Proof.
  unfold proto_handle, proto_handle_blob, invalid_call. destruct (cJSON_Parse cmd); [|stay].
  cbv zeta. destruct (_ || _); [stay|]. stay. apply stays_dispatch.
Qed.

Lemma grows_add_password : grows (c:=c) (R:=R) add_password.
Proof.
  intros o Ho. unfold add_password. eapply yields_bind; [by apply (yields_gets (λ _, True))|].
  intros [p|] _; [|by apply yields_ret, extends_refl].
  eapply yields_bind; [by apply grows_add|]. intros o' He.
  eapply yields_bind; [apply yields_set_password|]. intros _ _. by apply yields_ret.
Qed.

Lemma stays_restore_metrics : yields c R (λ _, True) restore_metrics.
Proof. unfold restore_metrics. stay. Qed.

Lemma stays_add_capabilities o : yields c R (λ _, True) (add_capabilities o).
Proof.
  unfold add_capabilities, add_versions, readJsonFile. fill.
  all: first [apply yields_fail | apply yields_emit; intros w _; apply frame_log].
Qed.

Lemma new_serial :
  cJSON_IsObject (cJSON_AddToObject cJSON_CreateObject "serial"
    (cJSON_CreateString (cl_serial c))) = true ∧
  has_string (Some (cJSON_AddToObject cJSON_CreateObject "serial"
    (cJSON_CreateString (cl_serial c)))) "serial" (cl_serial c).
Proof.
  split; [apply isobject_add, isobject_empty|]. unfold has_string, get_item.
  rewrite add_new_member; [|apply isobject_empty|apply member_empty]. apply valuestring_create.
Qed.

Lemma yields_connect_body : yields c R (msg_ok c) connect_body.
Proof.
  unfold connect_body. eapply yields_bind; [apply yields_proto_new_blob|]. intros k Hk.
  eapply yields_bind; [apply yields_plat_read|]. intros [r u] _. cbv zeta.
  eapply yields_bind; [apply yields_set_active|]. intros _ _.
  eapply yields_bind; [apply (yields_gets (λ c', c' = c)); by intros w ->|]. intros ? ->.
  eapply yields_bind; [apply yields_add|]. intros ? ->. destruct new_serial as [Ho Hs].
  message. eapply yields_grow; [apply grows_add_password|exact Ho|exact Hs|].
  clear Ho Hs. intros o Ho Hs.
  eapply yields_grow; [apply grows_add_object, stays_add_capabilities|exact Ho|exact Hs|].
  clear Ho Hs. intros o2 Ho Hs.
  eapply yields_bind; [apply stays_restore_metrics|]. intros _ _.
  apply yields_ret. by eapply msg_request.
Qed.

Lemma stays_connect_send : yields c R (λ _, True) connect_send.
Proof.
  unfold connect_send. eapply yields_bind; [apply yields_try, yields_connect_body|].
  intros [j|] Hj; [|apply yields_log]. unfold send_connect_blob. stay.
  apply yields_emit. intros w Hw. by apply hframe_connect.
Qed.
End handlers.

(** ** The messages of a session *)

(** What the environment can trigger: a command from the gateway, the periodic
    callbacks, the events of the platform, the timers of the main loop. *)
Inductive input :=
  | InCommand (cmd : string)
  | InConnect
  | InPing
  | InState (s : plat_state_info)
  | InTelemetry (s : plat_state_info)
  | InHealth (sanity : Z) (msgs : list string)
  | InUpgrade (operation percentage : Z)
  | InScript (err : Z) (sres : run_script_result) (id : Z) (uri : option string)
  | InAlarm (a : plat_alarm)
  | InLink (ts : Z) (name : option string) (up : bool)
  | InPoeStatus (ts : Z) (name : option string) (status : Z)
  | InPoeFault (ts : Z) (name : option string) (fault : Z)
  | InRebootCause.

Section session.
Context `{J : CJson, P : Platform, T : CTarget, L : CLibc, E : EstClient}.

Definition react (i : input) : M world unit :=
  match i with
  | InCommand cmd => proto_handle cmd
  | InConnect => connect_send
  | InPing => ping_send
  | InState s => state_send s
  | InTelemetry s => telemetry_send s
  | InHealth n msgs => health_send n msgs
  | InUpgrade op n => _ ← upgrade_status_send op n; ret tt
  | InScript e s id uri => script_result_cb e s id uri
  | InAlarm a => alarm_plat_cb a
  | InLink t n u => linkstatus_plat_cb t n u
  | InPoeStatus t n s => poe_linkstatus_plat_cb t n s
  | InPoeFault t n f => poe_link_faultcode_plat_cb t n f
  | InRebootCause => device_rebootcause_send
  end.

(** Between two inputs the environment may change the time, the files, the
    outcome of the allocations and requests to come, the platform's state and
    the pending password. *)
Inductive step : world → world → Prop :=
  | StepReact i w w' : react i w = Ok tt w' → step w w'
  | StepFail i w w' : react i w = Err w' → step w w'
  | StepEnv w heap http io disk files now p pass :
      step w (w <| w_heap := heap |> <| w_http := http |> <| w_io := io |> <| w_disk := disk |>
                <| w_files := files |> <| w_now := now |> <| w_plat := p |> <| w_password := pass |>).

Definition sent_ok (c : client_id) (e : event) : Prop :=
  match e with EvSend j | EvSendConnect j => msg_ok c j | _ => True end.

(** What was output is never taken back, and what is added is [sent_ok]. *)
Definition outputs_ok (c : client_id) (w w' : world) : Prop :=
  ∃ es, w_out w' = (w_out w ++ es)%list ∧ Forall (sent_ok c) es.
End session.

Section session_ok.
Context `{J : CJson, JL : !CJsonLaws, P : Platform, T : CTarget, L : CLibc, E : EstClient}.

#[export] Instance outputs_ok_preorder c : PreOrder (outputs_ok c).
Proof.
  split.
  - intros w. exists []. by rewrite app_nil_r.
  - intros w1 w2 w3 (e1 & H1 & F1) (e2 & H2 & F2). exists (e1 ++ e2)%list.
    rewrite H2, H1, <- app_assoc. split; [done|]. by apply Forall_app.
Qed.

Lemma outputs_ok_same c w w' : w_out w' = w_out w → outputs_ok c w w'.
Proof. intros H. exists []. by rewrite app_nil_r. Qed.
Lemma outputs_ok_add c w w' e :
  w_out w' = (w_out w ++ [e])%list → sent_ok c e → outputs_ok c w w'.
Proof. intros H He. exists [e]. split; [done|]. by repeat constructor. Qed.

#[export] Instance outputs_ok_frame c : HandlerFrame c (outputs_ok c).
Proof.
  assert (∀ w w', fetched w w' → outputs_ok c w w') as Hf.
  { intros w ? (k & l & n & p & logs & ->). exists (map (EvLog 3) logs).
    split; [done|]. by apply Forall_map, Forall_true. }
  split; [split; [split|]|..]; try apply _; intros;
    first [by apply Hf | by apply outputs_ok_same | by eapply outputs_ok_add].
Qed.

Lemma react_frame c R `{!HandlerFrame c R} i : yields c R (λ _, True) (react i).
Proof.
  destruct i; cbn [react].
  - apply stays_proto_handle.
  - apply stays_connect_send.
  - apply stays_ping_send.
  - apply stays_state_send.
  - apply stays_telemetry_send.
  - apply stays_health_send.
  - eapply yields_bind; [apply stays_upgrade_status|]. intros. by apply yields_ret.
  - apply stays_script_result.
  - apply stays_alarm.
  - apply stays_linkstatus.
  - apply stays_poe_linkstatus.
  - apply stays_poe_faultcode.
  - apply stays_rebootcause.
Qed.

(** C36: every message the client sends is well formed: in any session, whatever
    the gateway sends, the platform reports and the environment makes fail, each
    message handed to the connection is a JSON-RPC 2.0 request or reply that
    carries the serial number of the device. *)
Theorem session_messages_ok (c : client_id) (w w' : world) :
  rtc step w w' → w_client w = c → Forall (sent_ok c) (w_out w) →
  w_client w' = c ∧ Forall (sent_ok c) (w_out w').
Proof.
  induction 1 as [w|w1 w2 w3 Hs _ IH]; [done|]. intros Hc Hout. cut (w_client w2 = c ∧ outputs_ok c w1 w2).
  { intros (Hc2 & es & He & Hes). apply IH; [done|]. rewrite He. by apply Forall_app. }
  destruct Hs as [i w1 w2 H|i w1 w2 H|].
  - pose proof (react_frame c (outputs_ok c) i w1 Hc) as Hw. unfold wp in Hw. rewrite H in Hw.
    naive_solver.
  - pose proof (react_frame c (outputs_ok c) i w1 Hc) as Hw. unfold wp in Hw. rewrite H in Hw.
    naive_solver.
  - split; [done|]. by apply outputs_ok_same.
Qed.
End session_ok.

#[local] Existing Instances jtree_cjson jtree_laws sample_platform sample_libc sample_est amd64.

Definition ping_cmd : string :=
  quoted "{'jsonrpc':'2.0','method':'ping','params':{'serial':'aabbccddeeff'},'id':5}".
Definition pinged : world := state_after (react (InCommand ping_cmd)) (sample_world 0).

Lemma session_messages_ok_witness :
  rtc step (sample_world 0) pinged ∧ length (w_out pinged) = 1%nat ∧
  w_client pinged = sample_client ∧ Forall (sent_ok sample_client) (w_out pinged).
Proof.
  assert (rtc step (sample_world 0) pinged) as H.
  { eapply rtc_l; [|apply rtc_refl]. apply (StepReact (InCommand ping_cmd)), finished_ok. vm_compute. reflexivity. }
  split; [exact H|]. split; [vm_compute; reflexivity|].
  apply (session_messages_ok sample_client (sample_world 0) pinged H eq_refl). constructor.
Defined.
