(* ===== verification/ConfigureSpec.v ===== *)
(** * The [configure] command

    What a [configure] does to the platform, to the state of the client and to
    the gateway, for every outcome of the parser and of the platform. *)

From S2P Require Import Prelude CNum CStr Bitmap Router Json PlatTypes World Frame ProtoConv Messages CfgServices CfgParse Handlers Dispatch Replies State Sample MessageEffects ParserEffects.

Section configure.
Context `{J : CJson, JL : !CJsonLaws, P : Platform, T : CTarget, L : CLibc, E : EstClient}.

(** ** The parser is quiet

    It makes no platform call, changes none of the variables the handlers
    own, and does not exhaust a memory that cannot be exhausted. *)
Definition quiet_event (e : event) : Prop :=
  match e with EvSend _ | EvLog _ _ => True | _ => False end.

Definition quiet (w w' : world) : Prop :=
  (∃ es, outputs w es w' ∧ Forall quiet_event es) ∧
  (no_oom w → no_oom w') ∧
  w_uuid_active w' = w_uuid_active w ∧ w_uuid_latest w' = w_uuid_latest w ∧
  w_metrics w' = w_metrics w ∧ w_client w' = w_client w.

#[export] Instance quiet_preorder : PreOrder quiet.
Proof.
  split.
  - intros w. split_and!; try done. exists []. split; [by apply outputs_nil|done].
  - intros w1 w2 w3 [(e1 & H1 & F1) K1] [(e2 & H2 & F2) K2].
    split; [|destruct_and!; split_and!; [by auto|congruence..]].
    exists (e1 ++ e2)%list. split; [by eapply outputs_trans|by apply Forall_app].
Qed.

Lemma quiet_same w w' :
  w_out w' = w_out w → (no_oom w → no_oom w') → w_uuid_active w' = w_uuid_active w →
  w_uuid_latest w' = w_uuid_latest w → w_metrics w' = w_metrics w → w_client w' = w_client w →
  quiet w w'.
Proof. intros. split_and!; try done. exists []. split; [by apply outputs_nil|done]. Qed.

Lemma quiet_add w e : quiet_event e → quiet w (add_event e w).
Proof. intros He. split_and!; try done. exists [e]. split; [done|by repeat constructor]. Qed.

#[export] Instance quiet_frame c : CfgFrame c quiet.
Proof.
  assert (∀ w w', fetched w w' → quiet w w') as Hf.
  { intros w ? (k & l & n & p & logs & ->). split_and!; try done.
    - exists (map (EvLog 3) logs). split; [done|]. apply Forall_map, Forall_true. done.
    - unfold no_oom. cbn. intros ->. by destruct k. }
  split; [split|]; try apply _; intros; try (by apply quiet_add); try (by apply Hf); apply quiet_same; try done.
  unfold no_oom. simpl. by intros ->.
Qed.

Lemma quiet_calls es : Forall quiet_event es → calls_of es = [].
Proof. induction 1 as [|[] es]; simpl in *; done. Qed.

Lemma cfg_parse_quiet config w :
  wp (cfg_parse config) (λ _ w', quiet w w') (λ w', quiet w w') any_fault w.
Proof.
  eapply wp_mono; [apply (stays_cfg_parse (c:=w_client w) (R:=quiet)); done| | |done];
    naive_solver.
Qed.

(** ** The outcome *)
Definition poll_calls (m : plat_metrics_cfg) : list plat_call :=
  ([CStatePollStop; CHealthPollStop; CTelemetryPollStop]
   ++ (if mst_enabled (met_state m) then [CStatePoll (to_int (mst_interval (met_state m)))] else [])
   ++ (if poll_enabled (met_healthcheck m)
       then [CHealthPoll (to_int (poll_interval (met_healthcheck m)))] else [])
   ++ (if poll_enabled (met_telemetry m)
       then [CTelemetryPoll (to_int (poll_interval (met_telemetry m)))] else []))%list.

(** The calls of a configuration that parsed; [r] is what the platform said. *)
Definition configure_calls (cfg : plat_cfg) (id32 uuid r : Z) : list plat_call :=
  ([CLogFlush; CConfigApply cfg id32]
   ++ (if r =? 0 then [CConfigSave (wrap 64 uuid); CMetricsSave (cfg_metrics cfg)]
                      ++ poll_calls (cfg_metrics cfg)
       else [CConfigRestore])
   ++ [CConfigDestroy])%list.

Definition update_sends (c : client_id) (cfg : plat_cfg) (r : Z) : list json :=
  if (r =? 0) && unit_password_changed (cfg_unit cfg) then
    [request_msg c "deviceupdate" [("currentPassword", str (unit_password (cfg_unit cfg)))]]
  else [].

(** Of the state [w1] the parser left. *)
Definition applied (id : double) (cfg : plat_cfg) (w1 w' : world) : Prop :=
  ∃ r text es, outputs w1 es w' ∧
    EvCall (CConfigApply cfg (d2u 32 id)) r ∈ es ∧
    calls_of es = configure_calls cfg (d2u 32 id) (w_uuid_latest w1) r ∧
    sends_of es = (update_sends (w_client w1) cfg r ++
      [configure_msg (w_client w1)
         (if r =? 0 then CONFIGURE_STATUS_APPLIED else CONFIGURE_STATUS_REJECTED) text
         (w_uuid_latest w1) id])%list ∧
    w_uuid_active w' = (if r =? 0 then w_uuid_latest w1 else w_uuid_active w1) ∧
    w_metrics w' = (if r =? 0 then cfg_metrics cfg else w_metrics w1).

(** What the calls of this file leave alone. *)
Definition kept (w w' : world) : Prop :=
  w_heap w' = w_heap w ∧ w_client w' = w_client w ∧ w_uuid_active w' = w_uuid_active w ∧
  w_uuid_latest w' = w_uuid_latest w.

Ltac step := first [send_step | apply wp_plat_; intros ? ? | w_step]; simpl.

Lemma apply_metrics_spec m w :
  wp (apply_metrics m)
    (λ _ w', kept w w' ∧ w_metrics w' = m ∧
       ∃ es, outputs w es w' ∧ calls_of es = poll_calls m ∧ sends_of es = [])
    (λ _, False) no_fault w.
Proof.
  unfold apply_metrics, poll_calls.
  destruct (mst_enabled (met_state m)), (poll_enabled (met_healthcheck m)),
    (poll_enabled (met_telemetry m)); unfold when; repeat step.
  all: (split; [done|]; split; [done|]; eexists; split;
   [unfold outputs; simpl; rewrite <- !app_assoc; reflexivity|done]).
Qed.

#[local] Arguments deviceupdate_send : simpl never.
#[local] Arguments configure_reply : simpl never.
#[local] Arguments apply_metrics : simpl never.
#[local] Arguments configure_msg : simpl never.

Lemma app_calls es1 es2 : calls_of (es1 ++ es2)%list = (calls_of es1 ++ calls_of es2)%list.
Proof. apply omap_app. Qed.
Lemma app_sends es1 es2 : sends_of (es1 ++ es2)%list = (sends_of es1 ++ sends_of es2)%list.
Proof. apply omap_app. Qed.

(** From [err_apply] on. *)
Lemma configure_tail error id w :
  no_oom w →
  wp (_ ← plat_ CConfigDestroy;
      log_msg ← plat_read plat_log_pop_concatenate;
      uuid_latest ← gets w_uuid_latest;
      configure_reply error (default EmptyString log_msg) uuid_latest id)
    (λ _ w', (∃ r text, outputs w [EvCall CConfigDestroy r;
                EvSend (configure_msg (w_client w) error text (w_uuid_latest w) id)] w') ∧
       w_uuid_active w' = w_uuid_active w ∧ w_metrics w' = w_metrics w)
    (λ _, False) no_fault w.
Proof.
  intros Hm. apply wp_bind, wp_plat_. intros r p. apply wp_bind, wp_plat_read. intros t p' _.
  apply wp_bind, wp_gets. eapply wp_of_eq; [by apply configure_reply_sends|]. split; [|done].
  do 2 eexists. unfold outputs. simpl. rewrite <- !app_assoc. reflexivity.
Qed.

(** The password of an applied configuration, if it changes. *)
Lemma configure_password cfg w :
  no_oom w →
  wp (when (unit_password_changed (cfg_unit cfg))
        (p ← c_buf_str 64 (unit_password (cfg_unit cfg)); deviceupdate_send (Some p)))
    (λ _ w', kept w w' ∧
       ∃ es, outputs w es w' ∧ calls_of es = [] ∧ sends_of es = update_sends (w_client w) cfg 0)
    (λ _, False) (λ f, f = Unterminated ∧ 64 ≤ slen (unit_password (cfg_unit cfg))) w.
Proof.
  intros Hm. unfold update_sends. apply wp_when; intros ->; simpl.
  - apply wp_bind, wp_buf_str; [|intros; split; [done|lia]]. intros _.
    eapply wp_of_eq; [by apply deviceupdate_sends|]. split; [done|]. by eexists.
  - split; [done|]. exists []. split; [by apply outputs_nil|done].
Qed.

Lemma kept_no_oom w w' : kept w w' → no_oom w → no_oom w'.
Proof. unfold no_oom. by intros (-> & _). Qed.

Lemma configure_apply_spec cfg id w1 :
  no_oom w1 →
  wp (configure_apply cfg id) (λ _ w', applied id cfg w1 w') (λ _, False)
    (λ f, f = Unterminated ∧ 64 ≤ slen (unit_password (cfg_unit cfg))) w1.
Proof.
  intros Hm. unfold configure_apply.
  apply wp_bind, wp_plat_. intros r0 p0. apply wp_bind, wp_plat. intros r p _.
  apply wp_bind. destruct (Z.eqb_spec r 0) as [->|Hr0]; cbn [negb].
  - apply wp_bind, wp_modify. apply wp_bind, wp_gets.
    apply wp_bind, wp_plat_. intros r1 p1. apply wp_bind, wp_plat_. intros r2 p2.
    apply wp_bind. eapply wp_mono; [by apply configure_password| |done|done].
    intros _ w2 (K2 & es2 & O2 & C2 & S2).
    eapply wp_mono; [apply apply_metrics_spec| |done|done].
    intros _ w3 (K3 & M3 & es3 & O3 & C3 & S3).
    eapply wp_mono; [apply configure_tail; eauto using kept_no_oom| |done|done].
    intros _ w4 ((r3 & text & O4) & A4 & M4).
    unfold kept in *. simpl in *. destruct_and!.
    exists 0, text. eexists. split_and!.
    + eapply outputs_trans; [|eapply outputs_trans; [exact O2|eapply outputs_trans; [exact O3|exact O4]]].
      unfold outputs. simpl. rewrite <- !app_assoc. reflexivity.
    + set_solver.
    + simpl. by rewrite !app_calls, C2, C3.
    + simpl. rewrite !app_sends, S2, S3. simpl. unfold update_sends. congruence.
    + simpl. congruence.
    + simpl. congruence.
  - apply wp_bind, wp_emit, wp_plat_. intros r1 p1.
    eapply wp_mono; [by apply configure_tail| |done|done].
    intros _ w4 ((r3 & text & O4) & A4 & M4). simpl in *.
    exists r, text. eexists. split_and!.
    + eapply outputs_trans; [|exact O4]. unfold outputs. simpl. rewrite <- !app_assoc. reflexivity.
    + set_solver.
    + unfold configure_calls. by rewrite (proj2 (Z.eqb_neq r 0) Hr0).
    + unfold update_sends. by rewrite (proj2 (Z.eqb_neq r 0) Hr0).
    + by rewrite (proj2 (Z.eqb_neq r 0) Hr0).
    + by rewrite (proj2 (Z.eqb_neq r 0) Hr0).
Qed.

(** The state the parser starts from. *)
Definition configure_start (rpc : rpc_t) (w : world) : world :=
  let w := if is_bool (param rpc "compress")
           then w <| w_state_compress := is_true (param rpc "compress") |> else w in
  w <| w_uuid_latest := d2s 64 (number_value (param rpc "uuid")) |>.

Definition configure_missing (rpc : rpc_t) : bool :=
  negb (non_null (param rpc "uuid")) || negb (non_null (param rpc "serial"))
  || negb (non_null (param rpc "config")).

(** Rejected before the platform is asked for anything: the error is logged,
    [text] is the last thing sent, and the configuration in force stays. *)
Definition rejected (id : double) (text : string) (w w' : world) : Prop :=
  ∃ es, outputs w es w' ∧ calls_of es = [] ∧
    last (sends_of es) = Some (configure_msg (w_client w) CONFIGURE_STATUS_REJECTED text 0 id) ∧
    w_uuid_active w' = w_uuid_active w ∧ w_metrics w' = w_metrics w.

Definition configure_post (rpc : rpc_t) (w w' : world) : Prop :=
  if configure_missing rpc then rejected (request_id rpc) "invalid parameters" w w'
  else
    match cfg_parse (param rpc "config") (configure_start rpc w) with
    | Ok cfg w1 => quiet (configure_start rpc w) w1 ∧ applied (request_id rpc) cfg w1 w'
    | Err _ => rejected (request_id rpc) "Configure parse failed" w w'
    | Fault _ => False
    end.

(** Where undefined behaviour can come from: the parser, or a password that
    fills its buffer, read back for the gateway. *)
Definition configure_ub (rpc : rpc_t) (w : world) (f : fault) : Prop :=
  configure_missing rpc = false ∧
  match cfg_parse (param rpc "config") (configure_start rpc w) with
  | Ok cfg _ => f = Unterminated ∧ 64 ≤ slen (unit_password (cfg_unit cfg))
  | Err _ => False
  | Fault f' => f = f'
  end.

(** C1: the whole outcome of a [configure] command when memory does not run out.
    It always replies.  With a parameter missing, or a configuration that does
    not parse, the platform is not called and the active configuration id and
    the metrics stay.  A configuration that parses is handed to the platform
    exactly once, between a log flush and its destruction; the platform's
    answer 0 makes the requested id the active one, saves it and the metrics,
    reports a changed password, restarts the polls with the new metrics and
    replies "applied"; any other answer makes the platform restore, changes
    neither id nor metrics and replies "rejected". *)
Theorem configure_outcome (rpc : rpc_t) (w : world) :
  no_oom w →
  wp (configure_handle rpc) (λ _ w', configure_post rpc w w') (λ _, False) (configure_ub rpc w) w.
Proof.
  intros Hm. unfold configure_post, configure_ub, configure_handle. fold (configure_missing rpc).
  destruct (configure_missing rpc).
  { apply wp_bind, wp_emit. eapply wp_of_eq; [by apply configure_reply_sends|].
    exists [EvLog 3 "configure message is missing parameters";
            EvSend (configure_msg (w_client w) CONFIGURE_STATUS_REJECTED "invalid parameters" 0
                      (request_id rpc))].
    split_and!; try done. unfold outputs. simpl. by rewrite <- app_assoc. }
  apply wp_bind. apply (wp_mono _ (λ _ w0, w0 <| w_uuid_latest := d2s 64 (number_value (param rpc "uuid")) |>
    = configure_start rpc w) _ (λ _, False) _ no_fault).
  { unfold configure_start. by destruct (is_bool (param rpc "compress")). }
  2, 3: done.
  intros _ w0 Hw0. apply wp_bind, wp_modify. rewrite Hw0. clear w0 Hw0.
  assert (no_oom (configure_start rpc w)) as Hm0.
  { unfold configure_start. by destruct (is_bool (param rpc "compress")). }
  assert (outputs w [] (configure_start rpc w) ∧ w_client (configure_start rpc w) = w_client w ∧
    w_uuid_active (configure_start rpc w) = w_uuid_active w ∧
    w_metrics (configure_start rpc w) = w_metrics w) as (O0 & C0 & A0 & M0).
  { unfold configure_start, outputs. rewrite app_nil_r. by destruct (is_bool (param rpc "compress")). }
  pose proof (cfg_parse_quiet (param rpc "config") (configure_start rpc w)) as Hq.
  apply wp_bind, wp_try. unfold wp in Hq |- * at 1.
  destruct (cfg_parse (param rpc "config") (configure_start rpc w)) as [cfg w1|w1|f].
  - eapply wp_mono; [apply configure_apply_spec; by apply Hq| |done|done]. auto.
  - destruct Hq as [(es & O1 & F1) (H1&H2&H3&H4&H5)].
    apply wp_bind, wp_emit. eapply wp_of_eq; [apply configure_reply_sends; by apply H1|].
    eexists. split_and!.
    + eapply outputs_trans; [exact O0|eapply outputs_trans; [exact O1|]].
      unfold outputs. simpl. rewrite <- !app_assoc. reflexivity.
    + by rewrite !app_calls, (quiet_calls es).
    + rewrite !app_sends. simpl. rewrite last_snoc. by rewrite H5, C0.
    + simpl. congruence.
    + simpl. congruence.
  - done.
Qed.
End configure.

#[local] Existing Instances jtree_cjson jtree_laws sample_platform sample_libc sample_est amd64.

Lemma configure_outcome_witness :
  no_oom (sample_world 1) ∧ configure_missing sample_rpc = false ∧
  finished (cfg_parse (param sample_rpc "config")) (configure_start sample_rpc (sample_world 1)) = true ∧
  configure_post sample_rpc (sample_world 1)
    (state_after (configure_handle sample_rpc) (sample_world 1)).
Proof.
  split; [reflexivity|]. split; [vm_compute; reflexivity|]. split; [vm_compute; reflexivity|].
  apply (wp_finished _ _ _ _ _ (configure_outcome sample_rpc (sample_world 1) eq_refl)).
  vm_compute. reflexivity.
Defined.
