(* ===== verification/HandlerSpecs.v ===== *)
(** * The other commands

    For each handler: the platform calls it makes, the messages it sends and
    the variables it changes, on every branch. *)

From S2P Require Import Prelude CNum CStr Bitmap Router Json PlatTypes World Frame ProtoConv Messages CfgServices CfgParse Handlers Dispatch Replies State Sample.

Section specs.
Context `{J : CJson, P : Platform, T : CTarget, L : CLibc, E : EstClient}.

#[local] Arguments action_reply : simpl never.
#[local] Arguments event_firmware_upgrade_send : simpl never.
#[local] Arguments action_msg : simpl never.
#[local] Arguments upgrade_msg : simpl never.

(** The reply to the request, from the state before it was handled. *)
Definition action_answer (rpc : rpc_t) (w : world) (error : Z) (text : string) (retcode : Z) : json :=
  action_msg (w_client w) (w_uuid_active w) error text retcode (d2u 32 (request_id rpc)).

(** ** reboot, factory *)

(** What the client does when the platform answers [r]. *)
Definition action_post (rpc : rpc_t) (call : plat_call) (failed ok : string) (w w' : world) : Prop :=
  if non_null (param rpc "serial") then
    ∃ r, effect w [call]
      [if r =? 0 then action_answer rpc w 0 ok 0 else action_answer rpc w 1 failed 1] w'
  else effect w [] [action_answer rpc w 1 "invalid parameters" 1] w'.

Lemma simple_action_spec rpc call m1 m2 failed ok w :
  no_oom w →
  wp (simple_action rpc call m1 m2 failed ok) (λ _ w', action_post rpc call failed ok w w')
    (λ _, False) no_fault w.
Proof.
  intros Hm. unfold simple_action, action_post. destruct (non_null (param rpc "serial")); simpl.
  - apply wp_bind, wp_plat. intros r p _. destruct (r =? 0) eqn:Hr; simpl.
    + eapply wp_of_eq; [by apply action_reply_sends|]. exists r. rewrite Hr. effect_done.
    + apply wp_bind, wp_emit. eapply wp_of_eq; [by apply action_reply_sends|].
      exists r. rewrite Hr. effect_done.
  - apply wp_bind, wp_emit. eapply wp_of_eq; [by apply action_reply_sends|]. effect_done.
Qed.

(** [reboot] and [factory] call the platform exactly once, only when the
    request names a device, and always send exactly one reply, which reports
    the platform's answer. *)
Theorem reboot_factory_outcome (rpc : rpc_t) (w : world) :
  no_oom w →
  wp (reboot_handle rpc)
    (λ _, action_post rpc CReboot "reboot failed" "Reboot requested successfully" w)
    (λ _, False) no_fault w ∧
  wp (factory_handle rpc)
    (λ _, action_post rpc CFactoryDefault "factory failed" "factory requested successfully" w)
    (λ _, False) no_fault w.
Proof. intros Hm. split; by apply simple_action_spec. Qed.

(** ** telemetry *)
Definition telemetry_interval (rpc : rpc_t) : double :=
  if non_null (param rpc "interval") then number_value (param rpc "interval") else dbl_zero.
Definition telemetry_accepted (rpc : rpc_t) : bool :=
  non_null (param rpc "serial") &&
  (negb (dbl_truthy (telemetry_interval rpc)) || non_null (param rpc "types")).

Definition telemetry_post (rpc : rpc_t) (w w' : world) : Prop :=
  let i := telemetry_interval rpc in
  if telemetry_accepted rpc then
    w_metrics w' = w_metrics w <| met_telemetry := mk_metrics_poll (dbl_truthy i) (d2u 64 i) |> ∧
    effect w (CTelemetryPollStop ::
                (if dbl_truthy i then [CTelemetryPoll (to_int (d2u 64 i))] else []))
      [action_answer rpc w 0 "Telemetry configure requested successfully" 0] w'
  else
    w_metrics w' = w_metrics w ∧ effect w [] [action_answer rpc w 1 "invalid parameters" 1] w'.

(** [telemetry] with an interval replaces the telemetry poll by one of that
    period and records it, without one (or 0) it stops the poll; an interval
    without types, or no serial number, is refused and changes nothing.  The
    other metrics are not touched. *)
Theorem telemetry_outcome (rpc : rpc_t) (w : world) :
  no_oom w →
  wp (telemetry_handle rpc) (λ _, telemetry_post rpc w) (λ _, False) no_fault w.
Proof.
  intros Hm. unfold telemetry_handle, telemetry_post, telemetry_accepted.
  fold (telemetry_interval rpc). set (i := telemetry_interval rpc).
  destruct (non_null (param rpc "serial")), (dbl_truthy i) eqn:Hi,
    (non_null (param rpc "types")); cbn [negb orb andb];
  try (apply wp_bind, wp_emit; eapply wp_of_eq; [by apply action_reply_sends|];
       split; [done|effect_done]).
  1: apply wp_bind, wp_plat_; intros ? ?; apply wp_bind, wp_modify; simpl;
     apply wp_bind; unfold when; apply wp_plat_; intros ? ?.
  2,3: apply wp_bind, wp_plat_; intros ? ?; apply wp_bind, wp_modify; simpl;
       apply wp_bind, wp_ret.
  all: eapply wp_of_eq; [by apply action_reply_sends|]; split; [done|effect_done].
Qed.

(** ** Upgrade *)

(** The events announced for a status, given the one announced before. *)
Definition upgrade_events (last operation percentage : Z) : list (string * Z) :=
  if operation =? UPGRADE_STATE_IDLE then [("idle", -1)]
  else if operation =? UPGRADE_STATE_DOWNLOAD then [("download", percentage)]
  else if operation =? UPGRADE_STATE_INSTALL then [("install", -1)]
  else if operation =? UPGRADE_STATE_FAIL then [("fail", -1)]
  else if operation =? UPGRADE_STATE_SUCCESS then
    (if last =? UPGRADE_STATE_DOWNLOAD then [("install", -1)] else []) ++ [("success", -1)]
  else [].

Definition upgrade_known (operation : Z) : bool :=
  (UPGRADE_STATE_IDLE <=? operation) && (operation <=? UPGRADE_STATE_SUCCESS).

(** A status that is announced and remembered; the end of a success. *)
Ltac announced :=
  apply wp_bind; eapply wp_of_eq; [by apply upgrade_event_sends|]; apply wp_bind, wp_modify, wp_ret;
  split; [done|]; split; [done|effect_done].
Ltac succeeded :=
  apply wp_bind; eapply wp_of_eq; [by apply upgrade_event_sends|]; apply wp_bind, wp_plat;
  intros r p _; apply wp_bind; destruct (r =? 0); simpl;
  [apply wp_ret, wp_ret|apply wp_emit, wp_ret]; (split; [done|]; split; [done|effect_done]).

(** The upgrade status callback: it asks to be polled again until the upgrade
    failed or succeeded; it announces each status, and the installation before
    a success that follows the download directly; it reboots the device on a
    success and only then.  The last status is remembered except a success. *)
Theorem upgrade_status_outcome (operation percentage : Z) (w : world) :
  no_oom w →
  wp (upgrade_status_send operation percentage)
    (λ stop w',
       stop = (if (operation =? UPGRADE_STATE_FAIL) || (operation =? UPGRADE_STATE_SUCCESS)
               then 1 else 0) ∧
       w_last_operation w' = (if upgrade_known operation && negb (operation =? UPGRADE_STATE_SUCCESS)
                              then operation else w_last_operation w) ∧
       effect w (if operation =? UPGRADE_STATE_SUCCESS then [CReboot] else [])
         (map (λ e, upgrade_msg (w_client w) (w_now w) e.1 e.2)
            (upgrade_events (w_last_operation w) operation percentage)) w')
    (λ _, False) no_fault w.
Proof.
  intros Hm. unfold upgrade_status_send, upgrade_events, upgrade_known.
  unfold UPGRADE_STATE_IDLE, UPGRADE_STATE_DOWNLOAD, UPGRADE_STATE_INSTALL, UPGRADE_STATE_FAIL,
    UPGRADE_STATE_SUCCESS.
  destruct (Z.eqb_spec operation 0) as [->|H0]; simpl; [announced|].
  destruct (Z.eqb_spec operation 1) as [->|H1]; simpl; [announced|].
  destruct (Z.eqb_spec operation 2) as [->|H2]; simpl; [announced|].
  destruct (Z.eqb_spec operation 3) as [->|H3]; simpl; [announced|].
  destruct (Z.eqb_spec operation 4) as [->|H4]; simpl.
  - apply wp_bind, wp_gets. apply wp_bind. unfold when. destruct (w_last_operation w =? 1); simpl.
    + eapply wp_of_eq; [by apply upgrade_event_sends|]. succeeded.
    + apply wp_ret. succeeded.
  - apply wp_bind, wp_emit, wp_ret. split; [done|]. split; [|effect_done].
    destruct (0 <=? operation) eqn:?, (operation <=? 4) eqn:?; simpl; try done. lia.
Qed.

Definition upgrade_uri (rpc : rpc_t) : option string :=
  if non_null (param rpc "serial") then string_value (param rpc "uri") else None.

Definition upgrade_post (rpc : rpc_t) (w w' : world) : Prop :=
  match upgrade_uri rpc with
  | None => effect w [] [action_answer rpc w 1 "invalid parameters" 1] w'
  | Some uri =>
      ∃ r, let call := CUpgrade uri (string_value (param rpc "FWsignature")) in
        if r =? 0 then
          effect w [call; CUpgradePoll 1]
            [action_answer rpc w 0 "upgrade requested successfully" 0] w'
        else effect w [call] [action_answer rpc w 1 "upgrade failed" 1] w'
  end.

(** [upgrade] hands the platform the URI and the signature of the request,
    once, when the request has a serial number and a URI that is a string; it
    replies with the platform's answer, and polls the status (every second)
    exactly when the platform accepted. *)
Theorem upgrade_outcome (rpc : rpc_t) (w : world) :
  no_oom w →
  wp (upgrade_handle rpc) (λ _, upgrade_post rpc w) (λ _, False) no_fault w.
Proof.
  intros Hm. unfold upgrade_handle, upgrade_post, upgrade_uri.
  destruct (non_null (param rpc "serial")); cbn [negb];
    [|apply wp_bind, wp_emit; eapply wp_of_eq; [by apply action_reply_sends|effect_done]].
  destruct (param rpc "uri") as [u|]; cbn [non_null negb string_value];
    [|apply wp_bind, wp_emit; eapply wp_of_eq; [by apply action_reply_sends|effect_done]].
  destruct (cJSON_valuestring u) as [uri|];
    [|apply wp_bind, wp_emit; eapply wp_of_eq; [by apply action_reply_sends|effect_done]].
  apply wp_bind, wp_plat. intros r p _. destruct (r =? 0) eqn:Hr; cbn [negb].
  - apply wp_bind. eapply wp_of_eq; [by apply action_reply_sends|]. apply wp_plat_. intros r1 p1.
    exists r. rewrite Hr. effect_done.
  - apply wp_bind, wp_emit. eapply wp_of_eq; [by apply action_reply_sends|].
    exists r. rewrite Hr. effect_done.
Qed.

(** ** script *)

(** The type, the script, the timeout and the upload address of a request that
    is complete. *)
Definition script_request (rpc : rpc_t) : option (Z * option string * Z * option string) :=
  let script := jobj_str_get (rpc_params rpc) "script" in
  let timeout := param rpc "timeout" in
  let uri := param rpc "uri" in
  match jobj_str_get (rpc_params rpc) "serial", jobj_str_get (rpc_params rpc) "type" with
  | Some _, Some type =>
      if (negb (non_null timeout) || is_number timeout) && (negb (non_null uri) || is_string uri) then
        let t := if non_null timeout then d2s 64 (number_value timeout) else 0 in
        if streq "diagnostic" type then
          Some (PLAT_SCRIPT_TYPE_DIAGNOSTICS, script, t, string_value uri)
        else if non_null script && streq "shell" type then
          Some (PLAT_SCRIPT_TYPE_SHELL, script, t, string_value uri)
        else None
      else None
  | _, _ => None
  end.

Definition pending_msg (rpc : rpc_t) (w : world) : json :=
  reply_msg (w_client w) (dbl_of_Z (d2u 32 (request_id rpc))) (w_uuid_active w)
    [("error", num 0); ("result", str "pending")].

Definition script_post (rpc : rpc_t) (w w' : world) : Prop :=
  match script_request rpc with
  | None => effect w [] [action_answer rpc w 1 "invalid parameters" 1] w'
  | Some (type, script, timeout, uri) =>
      ∃ r, effect w [CRunScript type script timeout (d2u 64 (request_id rpc)) uri]
        (if r =? 0 then (if non_null uri then [pending_msg rpc w] else [])
         else [action_answer rpc w 1 "failed to start execution" 1]) w'
  end.

#[local] Arguments script_reply : simpl never.
#[local] Arguments reply_msg : simpl never.
#[local] Arguments d2u : simpl never.

Lemma script_plat_spec rpc script type uri timeout w ty :
  no_oom w → script_in_time w →
  (if streq "diagnostic" type then Some PLAT_SCRIPT_TYPE_DIAGNOSTICS
   else if non_null script && streq "shell" type then Some PLAT_SCRIPT_TYPE_SHELL
   else None) = Some ty →
  wp (script_plat_handle script type uri (Some timeout) (request_id rpc))
    (λ _ w', ∃ r, effect w [CRunScript ty script timeout (d2u 64 (request_id rpc)) uri]
        (if r =? 0 then (if non_null uri then [pending_msg rpc w] else [])
         else [action_answer rpc w 1 "failed to start execution" 1]) w') (λ _, False) no_fault w.
Proof.
  intros Hm Ht Hty. unfold script_plat_handle. rewrite Hty. cbv zeta.
  assert (alloc w = Ok true w) as Ha by (unfold alloc; by rewrite Hm).
  apply wp_bind. eapply wp_of_eq; [exact Ha|]. cbn [negb]. apply wp_bind.
  apply (wp_mono _ (λ uri' w', uri' = uri ∧ w' = w) _ (λ _, False) _ no_fault); [|intros ? ? [-> ->]|done..].
  { destruct uri as [u|]; [|by apply wp_ret]. apply wp_bind. eapply wp_of_eq; [exact Ha|].
    by apply wp_ret. }
  apply wp_bind, wp_plat. intros r p Hp. destruct (r =? 0) eqn:Hr; cbn [negb].
  - apply wp_bind, wp_gets. cbn [w_plat set].
    specialize (Ht ty script (default 30 (Some timeout)) (d2u 64 (request_id rpc)) uri).
    rewrite Hp in Ht. cbn [snd] in Ht. rewrite Ht. apply wp_when; intros Hu; [eapply wp_of_eq; [by apply script_reply_sends|]|];
      exists r; rewrite Hr, Hu; effect_done.
  - apply wp_bind, wp_emit. eapply wp_of_eq; [by apply action_reply_sends|].
    exists r. rewrite Hr. effect_done.
Qed.

(** [script] runs a complete request once, with the timeout of the request
    or 0 when it has none (the 30 seconds [script_plat_handle] keeps for a
    missing timeout are never used), as long as its thread does not end before
    the handler has looked at the context a last time; it answers at once only when the result is
    to be uploaded or the platform refused, and refuses incomplete requests. *)
Theorem script_outcome (rpc : rpc_t) (w : world) :
  no_oom w → script_in_time w →
  wp (script_handle rpc) (λ _, script_post rpc w) (λ _, False) no_fault w.
Proof.
  intros Hm Ht. unfold script_handle, script_post, script_request.
  destruct (jobj_str_get (rpc_params rpc) "serial") as [s|]; cbv zeta;
    [|eapply wp_of_eq; [by apply action_reply_sends|effect_done]].
  destruct (jobj_str_get (rpc_params rpc) "type") as [type|];
    [|eapply wp_of_eq; [by apply action_reply_sends|effect_done]].
  assert ((non_null (param rpc "timeout") && negb (is_number (param rpc "timeout")))
       || (non_null (param rpc "uri") && negb (is_string (param rpc "uri"))) =
    negb ((negb (non_null (param rpc "timeout")) || is_number (param rpc "timeout"))
       && (negb (non_null (param rpc "uri")) || is_string (param rpc "uri")))) as ->.
  { by destruct (non_null (param rpc "timeout")), (is_number (param rpc "timeout")),
      (non_null (param rpc "uri")), (is_string (param rpc "uri")). }
  destruct (_ && _); cbn [negb]; [|eapply wp_of_eq; [by apply action_reply_sends|effect_done]].
  pose proof (script_plat_spec rpc (jobj_str_get (rpc_params rpc) "script") type
    (string_value (param rpc "uri"))
    (if non_null (param rpc "timeout") then d2s 64 (number_value (param rpc "timeout")) else 0) w)
    as Hs.
  destruct (streq "diagnostic" type) eqn:Hd; [by apply Hs|].
  destruct (non_null _ && streq "shell" type) eqn:Hsh; [by apply Hs|].
  unfold script_plat_handle. rewrite Hd, Hsh. eapply wp_of_eq; [by apply action_reply_sends|effect_done].
Qed.

(** ** reenroll *)
Definition operational_cert : string := UCENTRAL_CONFIG "operational.pem".

(** [opened] and [written]: what the file system answers. *)
Definition io_next (w : world) (n : nat) : bool := default true (w_io w !! n).

Lemma wp_io_next (Q : bool → world → Prop) Er F w :
  Q (io_next w 0) (w <| w_io := tail (w_io w) |>) → wp io Q Er F w.
Proof. unfold wp, io, io_next. destruct w. by destruct w_io. Qed.

Lemma io_next_tail w n : io_next (w <| w_io := tail (w_io w) |>) n = io_next w (S n).
Proof. unfold io_next. destruct w. simpl. by destruct w_io. Qed.

Definition reenroll_post (rpc : rpc_t) (w w' : world) : Prop :=
  let file f := w_files w !! UCENTRAL_CONFIG f in
  let refused text := effect w [] [action_answer rpc w 1 text 1] w' in
  let restarts (b : bool) := ∃ es, outputs w es w' ∧ (EvAlarm 10 ∈ es ↔ b = true) in
  let cert :=
    match est_get_server_url (file "cert.pem") with
    | None => None
    | Some url => est_simple_reenroll url (file "operational.pem") (file "key.pem") (file "cas.pem")
    end in
  match cert with
  | None => (∃ text, refused text) ∧ restarts false ∧ w_files w' = w_files w
  | Some cert =>
      if negb (io_next w 0) then
        refused "Failed to save renewed certificate" ∧ restarts false ∧ w_files w' = w_files w
      else if negb (io_next w 1) then
        refused "Failed to save renewed certificate" ∧ restarts false ∧
        w_files w' = <[operational_cert := disk_of w cert]> (w_files w)
      else
        effect w [] [action_answer rpc w 0
          "Certificate reenrollment successful, restarting in 10 seconds" 0] w' ∧ restarts true ∧
        w_files w' = <[operational_cert := disk_of w cert]> (w_files w)
  end.

Ltac restarts_done :=
  eexists; split; [unfold outputs; simpl; rewrite <- ?app_assoc; reflexivity|set_solver].

(** [reenroll] for a named device: the restart is scheduled exactly when the
    renewed certificate was written without an error; the file then holds it, or
    the part of it that reached the disk, since closing the file is not
    checked ([disk_of]).  Without a server, a certificate or an open file the file
    stays as it was; a failed write leaves a part, since the file is emptied
    before it is written.  No other file is touched, the platform
    is not called, and exactly one reply is sent. *)
Theorem reenroll_outcome (rpc : rpc_t) (w : world) :
  no_oom w → non_null (param rpc "serial") = true →
  wp (reenroll_handle rpc) (λ _, reenroll_post rpc w) (λ _, False) no_fault w.
Proof.
  intros Hm Hs. unfold reenroll_handle, reenroll_post. rewrite Hs. cbn [negb].
  apply wp_bind, wp_gets. cbv zeta.
  destruct (est_get_server_url _) as [url|];
    [|apply wp_bind, wp_emit; eapply wp_of_eq; [by apply action_reply_sends|];
      split; [eexists; effect_done|]; split; [restarts_done|done]].
  destruct (est_simple_reenroll _ _ _ _) as [cert|];
    [|apply wp_bind, wp_emit; eapply wp_of_eq; [by apply action_reply_sends|];
      split; [eexists; effect_done|]; split; [restarts_done|done]].
  unfold save_certificate, write_file.
  apply wp_bind, wp_bind, wp_io_next. destruct (io_next w 0) eqn:H0; cbn [negb].
  2:{ apply wp_bind, wp_emit, wp_ret. cbn [negb]. eapply wp_of_eq; [by apply action_reply_sends|].
      split; [effect_done|]. split; [restarts_done|done]. }
  apply wp_bind, wp_bind, wp_modify, wp_emit. apply wp_bind, wp_io_next.
  change (io_next _ 0) with (io_next (w <| w_io := tail (w_io w) |>) 0). rewrite io_next_tail.
  apply wp_bind, wp_disk. change (disk_of _ cert) with (disk_of w cert).
  apply wp_bind, wp_bind, wp_modify, wp_emit.
  destruct (io_next w 1) eqn:H1; cbn [negb].
  2:{ apply wp_bind, wp_emit, wp_ret. cbn [negb]. eapply wp_of_eq; [by apply action_reply_sends|].
      split; [effect_done|]. split; [restarts_done|]. simpl. by rewrite insert_insert. }
  apply wp_ret. cbn [negb]. apply wp_bind, wp_emit.
  eapply wp_of_eq; [by apply action_reply_sends|].
  split; [effect_done|]. split; [restarts_done|]. simpl. by rewrite insert_insert.
Qed.
(** ** rtty *)
Definition rtty_complete (rpc : rpc_t) : bool :=
  forallb (λ k, non_null (get_item (rpc_params rpc) k))
    ["serial"; "token"; "id"; "server"; "port"; "user"; "timeout"; "password"].

(** A text that fits the field it is copied to. *)
Definition rtty_text (rpc : rpc_t) (k : string) : option string :=
  match string_value (get_item (rpc_params rpc) k) with
  | Some s => if slen s <? RTTY_CFG_FIELD_STR_MAX_LEN then Some s else None
  | None => None
  end.
Definition rtty_fields : list string := ["id"; "password"; "serial"; "server"; "token"; "user"].

Definition rtty_cfg_is (rpc : rpc_t) (c : plat_rtty_cfg) : Prop :=
  let text := rtty_text rpc in
  let number k := d2u 16 (number_value (get_item (rpc_params rpc) k)) in
  ∃ id passwd serial server token user,
    text "id" = Some id ∧ text "password" = Some passwd ∧ text "serial" = Some serial ∧
    text "server" = Some server ∧ text "token" = Some token ∧ text "user" = Some user ∧
    c = mk_plat_rtty_cfg id passwd serial server token user (number "port") (number "timeout").

Definition rtty_post (rpc : rpc_t) (w w' : world) : Prop :=
  if rtty_complete rpc then
    ∃ c r, rtty_cfg_is rpc c ∧
      effect w [CRtty c]
        [if r =? 0 then success_msg (w_client w) (w_uuid_active w) (request_id rpc)
         else action_answer rpc w 1 "RTTY cmd execution failed" 1] w'
  else effect w [] [action_answer rpc w 1 "RTTY cmd parse failed" 1] w'.

Lemma rtty_str_spec rpc k (Q : string → world → Prop) Er (F : fault → Prop) w :
  (∀ s, rtty_text rpc k = Some s → Q s w) → (rtty_text rpc k = None → ∀ f, F f) →
  wp (rtty_str (get_item (rpc_params rpc) k)) Q Er F w.
Proof.
  intros HQ HF. unfold rtty_str, rtty_text in *. apply wp_bind, wp_deref.
  - intros s Hs. rewrite Hs in *. apply wp_strcpy; intros Hl.
    + apply HQ. by rewrite (proj2 (Z.ltb_lt _ _)) by lia.
    + apply HF. by rewrite (proj2 (Z.ltb_ge _ _)) by lia.
  - intros Hs. rewrite Hs in *. by apply HF.
Qed.

#[local] Arguments success_msg : simpl never.

(** [rtty] starts a remote session with the parameters of the request, copied
    unchanged, and answers with what the platform says; a request that lacks
    a parameter is refused and the platform is not called.  A parameter that
    is present but not a string, or whose text does not fit the 64 bytes of
    its field, is undefined behaviour. *)
Theorem rtty_outcome (rpc : rpc_t) (w : world) :
  no_oom w →
  wp (rtty_handle rpc) (λ _, rtty_post rpc w) (λ _, False)
    (λ _, rtty_complete rpc = true ∧ ∃ k, k ∈ rtty_fields ∧ rtty_text rpc k = None) w.
Proof.
  intros Hm. unfold rtty_handle, rtty_post. apply wp_bind, wp_try.
  eapply wp_of_eq; [by apply success_reply_builds|]. apply wp_bind, wp_try.
  unfold rtty_parse. cbv zeta. fold (rtty_complete rpc).
  destruct (rtty_complete rpc) eqn:Hc; cbn [negb].
  2:{ apply wp_err, wp_bind, wp_emit. eapply wp_of_eq; [by apply action_reply_sends|effect_done]. }
  apply wp_bind. unfold alloc_or_err. apply wp_bind.
  eapply wp_of_eq; [unfold alloc; rewrite Hm; reflexivity|]. apply wp_ret.
  do 6 (apply wp_bind, (rtty_str_spec rpc);
    [intros ? ?|intros ? ?; split; [done|eexists; split; [|eassumption]; set_solver]]).
  apply wp_ret, wp_bind, wp_plat. intros r p _.
  destruct (r =? 0) eqn:Hr; cbn [negb].
  - unfold result_send_blob, send_blob. apply wp_bind.
    eapply wp_of_eq; [unfold alloc; cbn; rewrite Hm; reflexivity|]. apply wp_emit.
    eexists _, r. rewrite Hr. split; [by do 6 eexists; split_and!|effect_done].
  - apply wp_bind, wp_emit. eapply wp_of_eq; [by apply action_reply_sends|].
    eexists _, r. rewrite Hr. split; [by do 6 eexists; split_and!|effect_done].
Qed.
End specs.

#[local] Existing Instances jtree_cjson jtree_laws sample_platform sample_libc sample_est amd64.

(** Runs a handler on a sample request. *)
Ltac by_running H :=
  split; [reflexivity|]; apply (wp_finished _ _ _ _ _ H); vm_compute; reflexivity.

Lemma reboot_factory_outcome_witness :
  let rpc := sample_request "reboot" "" in let w := sample_world 0 in
  no_oom w ∧
  action_post rpc CReboot "reboot failed" "Reboot requested successfully" w
    (state_after (reboot_handle rpc) w).
Proof.
  by_running (proj1 (reboot_factory_outcome (sample_request "reboot" "") (sample_world 0) eq_refl)).
Defined.

Lemma telemetry_outcome_witness :
  let rpc := sample_request "telemetry" ",'interval':30,'types':['state']" in
  let w := sample_world 0 in
  no_oom w ∧ telemetry_post rpc w (state_after (telemetry_handle rpc) w).
Proof.
  by_running (telemetry_outcome (sample_request "telemetry" ",'interval':30,'types':['state']")
    (sample_world 0) eq_refl).
Defined.

Lemma upgrade_outcome_witness :
  let rpc := sample_request "upgrade" ",'uri':'https://fw'" in let w := sample_world 0 in
  no_oom w ∧ upgrade_post rpc w (state_after (upgrade_handle rpc) w).
Proof.
  by_running (upgrade_outcome (sample_request "upgrade" ",'uri':'https://fw'")
    (sample_world 0) eq_refl).
Defined.

Lemma script_outcome_witness :
  let rpc := sample_request "script" ",'type':'diagnostic','uri':'https://up'" in
  let w := sample_world 0 in
  no_oom w ∧ script_post rpc w (state_after (script_handle rpc) w).
Proof.
  assert (script_in_time (sample_world 0)) as Ht by done.
  by_running (script_outcome (sample_request "script" ",'type':'diagnostic','uri':'https://up'")
    (sample_world 0) eq_refl Ht).
Defined.

Lemma reenroll_outcome_witness :
  let rpc := sample_request "reenroll" "" in let w := sample_world 0 in
  (no_oom w ∧ non_null (param rpc "serial") = true) ∧
  reenroll_post rpc w (state_after (reenroll_handle rpc) w).
Proof.
  split; [split; [reflexivity|vm_compute; reflexivity]|].
  apply (wp_finished _ _ _ _ _ (reenroll_outcome (sample_request "reenroll" "") (sample_world 0)
    eq_refl ltac:(vm_compute; reflexivity))).
  vm_compute. reflexivity.
Defined.

Lemma upgrade_status_outcome_witness :
  no_oom (sample_world 0) ∧
  effect (sample_world 0) [CReboot]
    [upgrade_msg sample_client 1000 "success" (-1)]
    (state_after (upgrade_status_send UPGRADE_STATE_SUCCESS 0) (sample_world 0)).
Proof.
  split; [reflexivity|].
  apply (upgrade_status_outcome UPGRADE_STATE_SUCCESS 0 (sample_world 0) eq_refl).
Defined.

Lemma rtty_outcome_witness :
  let rpc := sample_request "rtty" ",'token':'t','id':'i','server':'s','port':5912,'user':'u','timeout':60,'password':'p'" in
  let w := sample_world 0 in
  no_oom w ∧ rtty_post rpc w (state_after (rtty_handle rpc) w).
Proof.
  by_running (rtty_outcome (sample_request "rtty"
    ",'token':'t','id':'i','server':'s','port':5912,'user':'u','timeout':60,'password':'p'")
    (sample_world 0) eq_refl).
Defined.
