(* ===== verification/Safety.v ===== *)
(** * Which commands can crash the client

    [safe m]: from any state, whatever allocations fail, [m] makes no invalid
    access to memory.  The handlers other than [configure] and [rtty] are safe,
    that of [script] as long as the thread it starts does not end first, and so
    is the dispatcher once the version and the method of a command are
    strings; a command whose method is not one is undefined behaviour.

    The conversion of a double to an integer type it does not fit is no access
    to memory: it stores a value the standard leaves open ([cvt_oor], see
    [CNum]).  Where the numbers of a command fit ([numbers_fit]) no such
    conversion is made, which shows in the handling being the same on every
    target. *)

From S2P Require Import Prelude CNum CStr Bitmap Router Json PlatTypes World Frame ProtoConv Messages CfgServices CfgParse Handlers Dispatch Replies Events State Sample.

Definition safe {S A} (m : M S A) : Prop := ∀ s, wp m (λ _ _, True) any_err no_fault s.

Section rules.
Context {S : Type}.
Implicit Types A B : Type.

Lemma safe_ret {A} (a : A) : safe (S:=S) (ret a).
Proof. done. Qed.
Lemma safe_fail {A} : safe (S:=S) (A:=A) fail.
Proof. done. Qed.
Lemma safe_gets {A} (f : S → A) : safe (gets f).
Proof. done. Qed.
Lemma safe_modify (f : S → S) : safe (modify f).
Proof. done. Qed.
Lemma safe_bind {A B} (m : M S A) (k : A → M S B) :
  safe m → (∀ a, safe (k a)) → safe (m ≫= k).
Proof. intros Hm Hk s. apply wp_bind. eapply wp_mono; [apply Hm| |done|done]. intros. apply Hk. Qed.
Lemma safe_try {A} (m : M S A) : safe m → safe (try m).
Proof. intros Hm s. apply wp_try. by eapply wp_mono; [apply Hm|..]. Qed.
Lemma safe_when b (m : M S unit) : safe m → safe (when b m).
Proof. by destruct b. Qed.
Lemma safe_fail_if b : safe (S:=S) (fail_if b).
Proof. by destruct b. Qed.
Lemma safe_fold_m {A B} (f : B → A → M S B) l b : (∀ b x, safe (f b x)) → safe (fold_m f l b).
Proof. intros Hf s. by apply (wp_fold_m (λ _ _ _, True)); [|intros; apply Hf|]. Qed.
End rules.

Section primitives.
Context `{J : CJson, P : Platform}.

Lemma safe_alloc : safe alloc.
Proof. intros w. by apply wp_alloc. Qed.
Lemma safe_io : safe io.
Proof. intros w. by apply wp_io. Qed.
Lemma safe_disk d : safe (disk d).
Proof. intros w. by apply wp_disk. Qed.
Lemma safe_http : safe http.
Proof. intros w. by apply wp_http. Qed.
Lemma safe_emit e : safe (emit e).
Proof. done. Qed.
Lemma safe_log f : safe (UC_LOG_ERR f).
Proof. done. Qed.
Lemma safe_plat k : safe (plat k).
Proof. intros w. by apply wp_plat. Qed.
Lemma safe_plat_read {A} (f : pst → A * pst) : safe (plat_read f).
Proof. intros w. by apply wp_plat_read. Qed.
Lemma safe_err {A} f : safe (A:=A) (err f).
Proof. done. Qed.
End primitives.

Create HintDb safe discriminated.
#[export] Hint Resolve safe_ret safe_fail safe_gets safe_modify safe_fail_if safe_alloc safe_io safe_disk safe_http safe_emit
  safe_log safe_plat safe_plat_read safe_err : safe.

Ltac safe_step :=
  lazymatch goal with
  | |- safe (mbind _ _) => apply safe_bind; [|intros ?]
  | |- safe (try _) => apply safe_try
  | |- safe (when _ _) => apply safe_when
  | |- safe (fold_m _ _ _) => apply safe_fold_m; intros ? ?
  | |- safe (match ?x with _ => _ end) => destruct x
  end.
Ltac is_safe := cbv zeta; repeat (first [solve [eauto 2 with safe] | safe_step]; cbv zeta beta).

Section messages.
Context `{J : CJson, P : Platform}.

Lemma safe_alloc_or_fail : safe alloc_or_fail.
Proof. unfold alloc_or_fail. is_safe. Qed.
#[local] Hint Resolve safe_alloc_or_fail : safe.
Lemma safe_new j : safe (new j).
Proof. unfold new. is_safe. Qed.
Lemma safe_add k v o : safe (add k v o).
Proof. unfold add. is_safe. Qed.
Lemma safe_push v a : safe (push v a).
Proof. unfold push. is_safe. Qed.
#[local] Hint Resolve safe_new safe_add safe_push : safe.
Lemma safe_add_object k b o : (∀ o, safe (b o)) → safe (add_object k b o).
Proof. intros. unfold add_object, new_object. is_safe. Qed.
Lemma safe_add_array k b o : (∀ o, safe (b o)) → safe (add_array k b o).
Proof. intros. unfold add_array, new_array. is_safe. Qed.

Lemma safe_or_alloc_failed {A} (m : M world A) : safe m → safe (or_alloc_failed m).
Proof. intros. unfold or_alloc_failed, alloc_failed. is_safe. Qed.
Lemma safe_proto_new_blob m : safe (proto_new_blob m).
Proof. apply safe_or_alloc_failed. unfold new_object, add_str. is_safe. Qed.
Lemma safe_result_new_blob id u : safe (result_new_blob id u).
Proof. apply safe_or_alloc_failed. unfold new_object, add_str, add_num, add_dbl. is_safe. Qed.
Lemma safe_send_or e body : safe e → safe body → safe (send_or e body).
Proof. intros. unfold send_or, send_blob. is_safe. Qed.
#[local] Hint Resolve safe_proto_new_blob safe_result_new_blob : safe.

Ltac message_safe := apply safe_send_or; [solve [eauto with safe]|];
  unfold add_serial, add_str, add_num, add_dbl; is_safe.

Lemma safe_log_send m s : safe (log_send m s).
Proof. message_safe. Qed.
Lemma safe_action_reply e t r id : safe (action_reply e t r id).
Proof. message_safe. apply safe_add_object. intros. is_safe. Qed.
Lemma safe_script_reply e t id : safe (script_reply e t id).
Proof. message_safe. apply safe_add_object. intros. is_safe. Qed.
Lemma safe_success id : safe (send_or alloc_failed (success_reply id)).
Proof.
  apply safe_send_or; [apply safe_log|]. unfold success_reply, add_str, add_num, add_dbl. is_safe.
  apply safe_add_object. intros. is_safe.
Qed.
End messages.
#[export] Hint Resolve safe_log_send safe_action_reply safe_script_reply safe_success : safe.

Section handlers.
Context `{J : CJson, P : Platform, T : CTarget, L : CLibc, E : EstClient}.

Lemma safe_plat_ k : safe (plat_ k).
Proof. unfold plat_. is_safe. Qed.
Lemma safe_reply_action rpc e t r : safe (reply_action rpc e t r).
Proof. apply safe_action_reply. Qed.
#[local] Hint Resolve safe_plat_ safe_reply_action : safe.

Lemma safe_simple_action rpc k m1 m2 t1 t2 : safe (simple_action rpc k m1 m2 t1 t2).
Proof. unfold simple_action. is_safe. Qed.
Lemma safe_reenroll rpc : safe (reenroll_handle rpc).
Proof. unfold reenroll_handle, save_certificate, write_file. is_safe. Qed.
Lemma safe_upgrade rpc : safe (upgrade_handle rpc).
Proof. unfold upgrade_handle. is_safe. Qed.
Lemma safe_telemetry rpc : safe (telemetry_handle rpc).
Proof. unfold telemetry_handle. is_safe. Qed.
(** The context of a script is looked at once its thread was started. *)
Lemma script_plat_safe script type uri timeout id w : script_in_time w →
  wp (script_plat_handle script type uri timeout id) (λ _ _, True) any_err no_fault w.
Proof.
  intros Ht. unfold script_plat_handle. destruct (if streq "diagnostic" type then _ else _) as [t|];
    [|apply safe_action_reply].
  apply wp_bind, wp_alloc. intros b. destruct b; cbn [negb]; [|by apply wp_ret].
  apply wp_bind, (wp_mono _ (λ _ w', w_plat w' = w_plat w) _ (λ _, False) _ no_fault);
    [destruct uri; [apply wp_bind, wp_alloc; intros|]; by apply wp_ret| |done..].
  intros u w' Hw. apply wp_bind, wp_plat. intros r p Hp.
  destruct (negb (r =? 0)); [by apply wp_bind, wp_emit, safe_action_reply|].
  apply wp_bind, wp_gets. cbn [w_plat set].
  specialize (Ht t script (default 30 timeout) (d2u 64 id) u). rewrite <- Hw, Hp in Ht.
  cbn [snd] in Ht. rewrite Ht. apply safe_when, safe_script_reply.
Qed.
Lemma script_safe rpc w : script_in_time w →
  wp (script_handle rpc) (λ _ _, True) any_err no_fault w.
Proof.
  intros Ht. unfold script_handle. cbv zeta.
  repeat match goal with
  | |- wp (match ?x with _ => _ end) _ _ _ _ => destruct x
  end; first [by apply script_plat_safe | apply safe_action_reply].
Qed.

(** The methods whose handlers copy or read text of the command unchecked. *)
Definition risky_method (m : string) : bool := streq m "configure" || streq m "rtty".

Lemma dispatch_other m rpc w : risky_method m = false → (m = "script" → script_in_time w) →
  wp (dispatch m rpc) (λ _ _, True) any_err no_fault w.
Proof.
  intros Hm Hs. unfold risky_method in Hm. apply orb_false_iff in Hm as [Hc Hr].
  unfold dispatch, method_table. cbn [table_find]. rewrite Hc, Hr.
  repeat match goal with |- context [if ?b then _ else _] => destruct b eqn:? end;
    cbn [default from_option].
  - apply safe_success.
  - apply safe_simple_action.
  - apply safe_reenroll.
  - apply safe_simple_action.
  - apply safe_upgrade.
  - apply safe_telemetry.
  - apply script_safe, Hs. unfold streq in *. by apply String.eqb_eq.
  - apply safe_success.
Qed.

(** The numbers of a command fit the integers they are stored in: the id that
    of a reply, the interval of [telemetry] and the timeout of [script]. *)
Definition numbers_fit (rpc : rpc_t) : Prop :=
  u_fits 32 (request_id rpc) ∧
  (∀ v, param rpc "interval" = Some v → u_fits 64 (number_value (Some v))) ∧
  (∀ v, param rpc "timeout" = Some v → s_fits 64 (number_value (Some v))).

Lemma dispatch_targets (T' : CTarget) m rpc : risky_method m = false → numbers_fit rpc →
  dispatch (T := T') m rpc = dispatch (T := T) m rpc.
Proof.
  intros Hm (Hid & Hi & Ht). unfold risky_method in Hm. apply orb_false_iff in Hm as [Hc Hr].
  assert (u_fits 64 (request_id rpc)) as Hid64 by (destruct Hid as (z & ? & ?); exists z; split; [done|lia]).
  pose proof (d2u_targets T' T _ _ Hid) as E32. pose proof (d2u_targets T' T _ _ Hid64) as E64.
  unfold dispatch, method_table. cbn [table_find]. rewrite Hc, Hr.
  repeat match goal with |- context [if ?b then _ else _] => destruct b end;
    cbn [default from_option id]; try done.
  - unfold reboot_handle, simple_action, reply_action. cbv beta. by rewrite E32.
  - unfold reenroll_handle, reply_action. cbv beta. by rewrite E32.
  - unfold factory_handle, simple_action, reply_action. cbv beta. by rewrite E32.
  - unfold upgrade_handle, reply_action. cbv beta. by rewrite E32.
  - unfold telemetry_handle, reply_action. cbv beta zeta. rewrite E32.
    destruct (param rpc "interval") as [v|]; cbn [non_null];
      [|by rewrite (d2u_targets T' T 64 dbl_zero) by (by exists 0)].
    by rewrite (d2u_targets T' T _ _ (Hi v eq_refl)).
  - unfold script_handle, script_plat_handle. cbv beta zeta. rewrite E32, E64.
    destruct (param rpc "timeout") as [v|]; cbn [non_null]; [|done].
    by rewrite (d2s_targets T' T _ _ (Ht v eq_refl)).
Qed.

(** The text of an item that is present. *)
Definition text_or_absent (o : option json) : Prop :=
  match o with None => True | Some j => is_Some (cJSON_valuestring j) end.

(** A command is refused, ignored or dispatched, on every target. *)
Lemma handle_blob_cases (blob : json) :
  text_or_absent (rpc_ver (rpc_of blob)) → text_or_absent (rpc_method (rpc_of blob)) →
  (∃ m, safe m ∧ ∀ T' w, proto_handle_blob (T := T') blob w = m w) ∨
  (∃ name, string_value (rpc_method (rpc_of blob)) = Some name ∧
     ∀ T' w, proto_handle_blob (T := T') blob w = dispatch (T := T') name (rpc_of blob) w).
Proof.
  intros Hv Hm. unfold proto_handle_blob. cbv zeta.
  destruct (_ || _) eqn:E1; [left; exists invalid_call; by split; [apply safe_log_send|]|].
  destruct (rpc_ver (rpc_of blob)) as [v|]; [|done]. destruct Hv as [ver Hv].
  cbn [string_value]. rewrite Hv. unfold mbind, M_bind. cbn [deref]. unfold ret. cbn beta iota.
  destruct (streq ver "2.0"); cbn [negb]; [|left; exists invalid_call; by split; [apply safe_log_send|]].
  destruct (rpc_method (rpc_of blob)) as [m|]; cbn [non_null];
    [|left; exists (ret tt); by split; [apply safe_ret|]].
  destruct Hm as [name Hm]. right. exists name. cbn [string_value]. rewrite Hm. by split.
Qed.


(** When the thread of a script has called back by the time [plat_run_script]
    returns, the handler reads what the callback has freed. *)
Theorem script_race (rpc : rpc_t) (serial : string) (w : world) :
  w_heap w = [] → jobj_str_get (rpc_params rpc) "serial" = Some serial →
  jobj_str_get (rpc_params rpc) "type" = Some "diagnostic" →
  param rpc "timeout" = None → param rpc "uri" = None →
  (∀ c, (plat_do c (w_plat w)).1 = 0 ∧ plat_script_done (plat_do c (w_plat w)).2 = true) →
  script_handle rpc w = Fault UseAfterFree.
Proof.
  intros Hw Hs Ht Ho Hu Hc. unfold script_handle. rewrite Hs, Ht, Ho, Hu.
  unfold script_plat_handle, mbind, M_bind, alloc, ret, gets. cbn [streq String.eqb]. cbn -[plat].
  rewrite Hw. set (c := CRunScript _ _ _ _ _). destruct (Hc c) as [H1 H2].
  assert (plat c w = Ok 0 (w <| w_plat := (plat_do c (w_plat w)).2 |>
                             <| w_out := (w_out w ++ [EvCall c 0])%list |>)) as Hp.
  { unfold plat. destruct (plat_do c (w_plat w)) as [r p]. cbn in H1. by subst r. }
  cbn -[plat]. rewrite Hp. cbn. by rewrite H2.
Qed.

(** A command whose version is right and whose method is not a string is
    undefined behaviour: its text, NULL, goes to [strcmp].  So is one whose
    version is not a string. *)
Theorem dispatch_crash (blob v m p : json) (w : world) :
  rpc_ver (rpc_of blob) = Some v → rpc_method (rpc_of blob) = Some m →
  rpc_params (rpc_of blob) = Some p →
  cJSON_valuestring v = None ∨ cJSON_valuestring v = Some "2.0" ∧ cJSON_valuestring m = None →
  proto_handle_blob blob w = Fault NullDeref.
Proof.
  intros Hv Hm Hp Hc. unfold proto_handle_blob. rewrite Hv, Hm, Hp. cbn [non_null negb orb andb].
  destruct Hc as [Hc|[Hc1 Hc2]].
  - cbn [string_value]. by rewrite Hc.
  - cbn [string_value]. rewrite Hc1. unfold mbind, M_bind. cbn. by rewrite Hc2.
Qed.
End handlers.

#[local] Existing Instances jtree_cjson jtree_laws sample_platform sample_libc sample_est amd64.

(** A script whose id, timeout and context fit. *)
Definition script_cmd : json := sample_blob
  "{'jsonrpc':'2.0','method':'script','id':1,'params':{'serial':'x','type':'diagnostic','timeout':30}}".


Lemma dispatch_crash_witness :
  let blob := sample_blob "{'jsonrpc':'2.0','method':7,'id':1,'params':{}}" in
  proto_handle_blob blob (sample_world 0) = Fault NullDeref.
Proof.
  apply (@dispatch_crash jtree_cjson sample_platform amd64 sample_libc sample_est _
    (JStr "2.0") (jint 7) (JObj []));
    [vm_compute; reflexivity..|right; split; reflexivity].
Defined.
