(* ===== verification/Log.v ===== *)
(** * The logger ([ucentral-log.c], [include/ucentral-log.h])

    [uc_log] hands a line to the callback registered with
    [uc_log_send_cb_register] when the severity is enabled for the component
    that logs.  The callback builds and queues a message, which may itself
    want to log: [is_recursion] cuts that off.  The callback is an argument of
    [uc_log]; the state it runs on is any state that holds the logger's
    ([HasLog]).  The text is what [vsnprintf] makes of the format, [None] when
    it returns a negative value.  [syslog] is not modelled. *)

From S2P Require Import Prelude CNum CStr.

Definition UC_LOG_SV_CRIT : Z := 2.
Definition UC_LOG_SV_ERR : Z := 3.
Definition UC_LOG_SV_INFO : Z := 6.
Definition UC_LOG_SV_DEBUG : Z := 7.

Definition UC_LOG_COMPONENT_UNKNOWN : Z := 0.
Definition UC_LOG_COMPONENT_PROTO : Z := 1.
Definition UC_LOG_COMPONENT_PLAT : Z := 2.
Definition UC_LOG_COMPONENT_CLIENT : Z := 3.
Definition UC_LOG_COMPONENT_MAX : Z := 4.

(** [comp2str]: the entry 0 is NULL. *)
Definition comp2str : list (option string) :=
  [None; Some "uc-proto"; Some "uc-plat"; Some "uc-client"].

(** The size of [buf]. *)
Definition log_buf : nat := 4096.

Record ulog := mk_ulog {
  comp_sv : list Z;        (* one more than the severity; 0 disables *)
  log_cb : bool;           (* send_cb is registered *)
  is_recursion : bool
}.
#[export] Instance eta_ulog : Eta ulog := λ r,
  mk_ulog (comp_sv r) (log_cb r) (is_recursion r).

Definition zero_ulog : ulog := mk_ulog [0; 0; 0; 0] false false.

Definition severity_get (l : ulog) (c : Z) : Z :=
  if (0 <=? c) && (c <? UC_LOG_COMPONENT_MAX) then default 0 (comp_sv l !! Z.to_nat c) - 1
  else -1.

Definition uc_log_severity_set (c sv : Z) (l : ulog) : ulog :=
  if (0 <=? c) && (c <? UC_LOG_COMPONENT_MAX)
  then l <| comp_sv := <[Z.to_nat c := sv + 1]> (comp_sv l) |> else l.

Definition uc_log_send_cb_register (l : ulog) : ulog := l <| log_cb := true |>.

Definition uc_comp2str (c : Z) : string :=
  match comp2str !! Z.to_nat c with
  | Some (Some s) => if c <? 0 then "unknown" else s
  | _ => "unknown"
  end.

(** [n = snprintf(buf, sizeof buf, "%s: ", comp_str)] and, at [&buf[n]], the
    text in the rest of the buffer. *)
Definition log_line (c : Z) (text : string) : string :=
  let head := uc_comp2str c +:+ ": " in
  let n := String.length head in
  let buf := stake (log_buf - 1) head in
  if (n <=? log_buf)%nat then buf +:+ stake (log_buf - n - 1) text else buf.

Class HasLog (S : Type) := { get_log : S → ulog; put_log : ulog → S → S }.

Section uc_log.
Context {S : Type} `{HL : HasLog S}.

Definition set_recursion (b : bool) : M S unit :=
  modify (λ s, put_log (get_log s <| is_recursion := b |>) s).

Definition uc_log (send_cb : string → Z → M S unit) (c sv : Z) (text : option string)
    : M S unit :=
  l ← gets get_log;
  if is_recursion l then ret tt
  else if sv <? 0 then ret tt
  else if negb (log_cb l) || (severity_get l c <? sv) then ret tt
  else
    match text with
    | None => ret tt
    | Some text =>
        _ ← set_recursion true;
        _ ← send_cb (log_line c text) sv;
        set_recursion false
    end.

(** Nested calls return at once, whatever the callback does with them. *)
Lemma uc_log_recursion send_cb c sv text (s : S) :
  is_recursion (get_log s) = true → uc_log send_cb c sv text s = Ok tt s.
Proof. intros H. unfold uc_log, gets, mbind, M_bind. by rewrite H. Qed.
End uc_log.

(** ** Severities *)
Definition ulog_ok (l : ulog) : Prop := length (comp_sv l) = 4%nat.

Lemma severity_set_ok c sv l : ulog_ok l → ulog_ok (uc_log_severity_set c sv l).
Proof.
  unfold ulog_ok, uc_log_severity_set. intros H.
  destruct (_ && _); simpl; [by rewrite length_insert|done].
Qed.

(** A threshold is read back for its own component and no other. *)
Lemma severity_get_set c c' sv l :
  ulog_ok l → 0 ≤ c < UC_LOG_COMPONENT_MAX →
  severity_get (uc_log_severity_set c sv l) c' =
  if decide (c' = c) then sv else severity_get l c'.
Proof.
  unfold ulog_ok, severity_get, uc_log_severity_set, UC_LOG_COMPONENT_MAX. intros Hl Hc.
  rewrite (proj2 (Z.leb_le 0 c)), (proj2 (Z.ltb_lt c 4)) by lia. simpl.
  destruct (decide (c' = c)) as [->|Hne].
  - rewrite (proj2 (Z.leb_le 0 c)), (proj2 (Z.ltb_lt c 4)) by lia. simpl.
    rewrite list_lookup_insert_eq by lia. simpl. lia.
  - destruct (Z.leb_spec 0 c'), (Z.ltb_spec c' 4); simpl; try done.
    rewrite list_lookup_insert_ne; [done|]. intros E. apply Hne.
    apply Z2Nat.inj; lia.
Qed.

(** The line always fits the buffer with its terminating NUL. *)
Lemma uc_comp2str_len c : (String.length (uc_comp2str c) <= 9)%nat.
Proof.
  unfold uc_comp2str. destruct (_ !! _) as [[s|]|] eqn:E; [|simpl; lia..].
  destruct (c <? 0); [simpl; lia|]. revert E.
  destruct (Z.to_nat c) as [|[|[|[|n]]]]; simpl; intros E; try done; by injection E as <-; simpl; lia.
Qed.

Lemma log_line_fits c text : slen (log_line c text) < Z.of_nat log_buf.
Proof.
  unfold log_line. set (head := uc_comp2str c +:+ ": ").
  assert (Z.of_nat (String.length head) ≤ 11) as Hh.
  { pose proof (slen_app (uc_comp2str c) ": ") as E. unfold slen in E. fold head in E.
    rewrite E. pose proof (uc_comp2str_len c). simpl. lia. }
  rewrite (stake_all _ head) by (unfold slen, log_buf; lia).
  rewrite (proj2 (Nat.leb_le _ _)) by (unfold log_buf; lia).
  rewrite slen_app. pose proof (slen_stake (log_buf - String.length head - 1) text).
  unfold slen at 1. unfold log_buf in *. lia.
Qed.
