(* ===== verification/Txq.v ===== *)
(** * The transmit queue ([ucentral-client.c])

    Messages wait in a singly linked list between the threads that produce
    them and the service thread of libwebsockets: [txqhead], [txqtail] and, for
    the first message of a session, [txconnect].  The nodes live in a store
    ([t_mem]) addressed by pointers, so that sharing, a dangling tail or a node
    freed twice would be seen; [t_calloc] gives the outcome of the allocations
    to come.  Each function below is one critical section of [txqmtx], or runs
    on memory only its own thread can reach. *)

From S2P Require Import Prelude CNum CStr Log.
#[local] Open Scope list_scope.

Record txq := mk_txq {
  txq_next : option positive;
  txq_len : Z;                (* size_t: LWS_PRE more than the message *)
  txq_data : string           (* the bytes from data[LWS_PRE] on *)
}.
#[export] Instance eta_txq : Eta txq := λ r, mk_txq (txq_next r) (txq_len r) (txq_data r).

Record txs := mk_txs {
  t_calloc : list bool;
  t_mem : gmap positive txq;
  t_txqhead : option positive;
  t_txqtail : option positive;
  t_txconnect : option positive
}.
#[export] Instance eta_txs : Eta txs := λ r,
  mk_txs (t_calloc r) (t_mem r) (t_txqhead r) (t_txqtail r) (t_txconnect r).

Definition txs_init (calloc : list bool) : txs := mk_txs calloc ∅ None None None.

(** [sizeof(struct txq)] of a 64-bit target. *)
Definition sizeof_txq : Z := 16.

(** The macro of libwebsockets: the bytes it wants in front of a message. *)
Class Lws := { LWS_PRE : Z; lws_pre_pos : 0 ≤ LWS_PRE < 2 ^ 16 }.

Section txq_ops.
Context `{W : Lws}.

Definition load (p : positive) : M txs txq :=
  mem ← gets t_mem; of_option UseAfterFree (mem !! p).

Definition store (p : positive) (m : txq) : M txs unit :=
  _ ← load p; modify (λ t, t <| t_mem := <[p := m]> (t_mem t) |>).

Definition free (p : positive) : M txs unit :=
  mem ← gets t_mem;
  _ ← of_option DoubleFree (mem !! p);
  modify (λ t, t <| t_mem := delete p (t_mem t) |>).

Definition free_opt (p : option positive) : M txs unit :=
  match p with Some p => free p | None => ret tt end.

(** [calloc(1, sizeof *msg + LWS_PRE + len + 1)], the two assignments and the
    [memcpy]; [None] when there is no memory. *)
Definition txq_new (data : string) : M txs (option positive) :=
  let len := slen data in
  let size := wrap 64 (sizeof_txq + LWS_PRE + len + 1) in
  calloc ← gets t_calloc;
  _ ← modify (λ t, t <| t_calloc := tail calloc |>);
  if negb (default true (head calloc)) then ret None
  else if size <? sizeof_txq + LWS_PRE + len then faulty BufferOverflow
  else
    mem ← gets t_mem;
    let p := fresh (dom mem) in
    _ ← modify (λ t, t <| t_mem := <[p := mk_txq None (wrap 64 (LWS_PRE + len)) data]> (t_mem t) |>);
    ret (Some p).

Definition txq_enqueue (msg : positive) : M txs unit :=
  tail ← gets t_txqtail;
  match tail with
  | Some t =>
      m ← load t;
      _ ← store t (m <| txq_next := Some msg |>);
      modify (λ t, t <| t_txqtail := Some msg |>)
  | None => modify (λ t, t <| t_txqhead := Some msg |> <| t_txqtail := Some msg |>)
  end.

Definition txq_pull : M txs (option positive) :=
  head ← gets t_txqhead;
  _ ← modify (λ t, t <| t_txqhead := None |> <| t_txqtail := None |>);
  ret head.

Definition txq_connect_pull : M txs (option positive) :=
  msg ← gets t_txconnect;
  _ ← modify (λ t, t <| t_txconnect := None |>);
  ret msg.

(** The critical section of [txq_connect_msg_proto_cb]. *)
Definition txq_connect_put (msg : positive) : M txs unit :=
  old ← gets t_txconnect;
  _ ← free_opt old;
  modify (λ t, t <| t_txconnect := Some msg |>).

(** [txq_connect->next = txq; txq = txq_connect;] *)
Definition txq_link (connect txq : option positive) : M txs (option positive) :=
  match connect with
  | None => ret txq
  | Some c => m ← load c; _ ← store c (m <| txq_next := txq |>); ret (Some c)
  end.

(** One [m = txq; txq = txq->next;] and the message of [m]: [m->len - LWS_PRE]
    bytes are read from [data]. *)
Definition txq_read (p : positive) : M txs (option positive * string) :=
  m ← load p;
  let n := wrap 64 (txq_len m - LWS_PRE) in
  if n <=? slen (txq_data m) then ret (txq_next m, stake (Z.to_nat n) (txq_data m))
  else faulty OutOfBounds.

(** [txq_free]: the loop runs once per node, of which the store bounds the
    number. *)
Fixpoint txq_free_loop (fuel : nat) (p : option positive) : M txs unit :=
  match fuel, p with
  | _, None => ret tt
  | O, Some _ => fail
  | S fuel, Some n => m ← load n; _ ← free n; txq_free_loop fuel (txq_next m)
  end.
Definition txq_free (p : option positive) : M txs unit :=
  mem ← gets t_mem; txq_free_loop (S (size mem)) p.
End txq_ops.

(** ** What a list of nodes holds *)
Section chains.
Context `{W : Lws}.

(** A node and its message. *)
Abbreviation item := (positive * string)%type.

Definition holds (m : txq) (s : string) : Prop :=
  txq_data m = s ∧ wrap 64 (txq_len m - LWS_PRE) = slen s.

Fixpoint chain (mem : gmap positive txq) (p : option positive) (l : list item) : Prop :=
  match l with
  | [] => p = None
  | (a, s) :: l =>
      p = Some a ∧ ∃ m, mem !! a = Some m ∧ holds m s ∧ chain mem (txq_next m) l
  end.

Lemma chain_agree mem mem' p l :
  (∀ a, a ∈ l.*1 → mem' !! a = mem !! a) → chain mem p l → chain mem' p l.
Proof.
  revert p. induction l as [|[a s] l IH]; intros p Hag; [done|].
  intros (-> & m & Hm & Hh & Hc). split; [done|]. exists m. split_and!; [|done|].
  - rewrite Hag; [done|]. simpl. set_solver.
  - apply IH; [|done]. intros b Hb. apply Hag. simpl. set_solver.
Qed.

Lemma chain_dom mem p l a : chain mem p l → a ∈ l.*1 → is_Some (mem !! a).
Proof.
  revert p. induction l as [|[b s] l IH]; intros p; simpl; [set_solver|].
  intros (_ & m & Hm & _ & Hc) Ha. apply elem_of_cons in Ha as [->|Ha]; eauto.
Qed.

(** Linking a node after the last one. *)
Lemma chain_snoc mem p l t m a s :
  chain mem p l → NoDup (l.*1 ++ [a]) → last l.*1 = Some t → mem !! t = Some m →
  (∃ n, mem !! a = Some n ∧ holds n s ∧ txq_next n = None) →
  chain (<[t := m <| txq_next := Some a |>]> mem) p (l ++ [(a, s)]).
Proof.
  revert p. induction l as [|[b u] l IH]; intros p; [done|].
  intros (-> & mb & Hmb & Hhb & Hc) Hnd Hl Hm Ha. split; [done|].
  simpl in Hnd. apply NoDup_cons in Hnd as [Hnb Hnd].
  destruct l as [|[b' u'] l].
  - simpl in Hl. injection Hl as ->. rewrite Hmb in Hm. injection Hm as ->.
    exists (m <| txq_next := Some a |>). rewrite lookup_insert_eq. split; [done|]. split; [done|].
    destruct Ha as (n & Hn & Hhn & Hnn). split; [done|]. exists n.
    rewrite lookup_insert_ne by set_solver. done.
  - exists mb. rewrite lookup_insert_ne; [split_and!; try done|].
    + apply IH; auto.
    + intros ->. apply Hnb, elem_of_app. left. by apply last_Some_elem_of.
Qed.

Lemma chain_insert_ne mem p m q l :
  p ∉ l.*1 → chain mem q l → chain (<[p := m]> mem) q l.
Proof. intros Hp. apply chain_agree. intros a Ha. apply lookup_insert_ne. by intros ->. Qed.

Lemma chain_delete_ne mem p q l : p ∉ l.*1 → chain mem q l → chain (delete p mem) q l.
Proof. intros Hp. apply chain_agree. intros a Ha. apply lookup_delete_ne. by intros ->. Qed.

Lemma chain_length_inv mem p l : chain mem p l → p = None ↔ l = [].
Proof. destruct l as [|[a s] l]; simpl; [done|]. intros (-> & _). done. Qed.
End chains.

(** ** The invariant

    A [view] says who holds which node: the queue, the pending connect
    message, the list [v_held] the service thread has pulled (it starts at
    [v_hp]), the node [v_cur] it is sending, and a node [v_new] that was just
    allocated.  [owned v t]: the store of [t] holds exactly these nodes, none
    is shared and none is lost. *)
Abbreviation item := (positive * string)%type.

Record view := mk_view {
  v_hp : option positive;
  v_held : list item;
  v_cur : option item;
  v_new : option item;
  v_connect : option item;
  v_queue : list item
}.
#[export] Instance eta_view : Eta view := λ r,
  mk_view (v_hp r) (v_held r) (v_cur r) (v_new r) (v_connect r) (v_queue r).

Definition view_init : view := mk_view None [] None None None [].

Definition v_items (v : view) : list item :=
  option_list (v_new v) ++ v_queue v ++ option_list (v_connect v)
  ++ option_list (v_cur v) ++ v_held v.

Section owned.
Context `{W : Lws}.

Definition fits (s : string) : Prop := slen s < 2 ^ 63.

Record owned (v : view) (t : txs) : Prop := {
  ow_queue : chain (t_mem t) (t_txqhead t) (v_queue v);
  ow_tail : t_txqtail t = last (v_queue v).*1;
  ow_new : chain (t_mem t) (fst <$> v_new v) (option_list (v_new v));
  ow_connect : chain (t_mem t) (t_txconnect t) (option_list (v_connect v));
  ow_cur : ∀ a s, v_cur v = Some (a, s) → is_Some (t_mem t !! a);
  ow_held : chain (t_mem t) (v_hp v) (v_held v);
  ow_nodup : NoDup (v_items v).*1;
  ow_dom : ∀ a, is_Some (t_mem t !! a) → a ∈ (v_items v).*1
}.

Lemma owned_init calloc : owned view_init (txs_init calloc).
Proof.
  split; try done; [apply NoDup_nil_2|]. intros a [m Hm]. done.
Qed.

Lemma owned_alive v t a : owned v t → a ∈ (v_items v).*1 → is_Some (t_mem t !! a).
Proof.
  intros [Hq _ Hn Hc Hcu Hh _ _]. unfold v_items. rewrite !fmap_app, !elem_of_app.
  intros [Ha|[Ha|[Ha|[Ha|Ha]]]];
    [exact (chain_dom _ _ _ _ Hn Ha)|exact (chain_dom _ _ _ _ Hq Ha)
    |exact (chain_dom _ _ _ _ Hc Ha)| |exact (chain_dom _ _ _ _ Hh Ha)].
  destruct (v_cur v) as [[b s]|] eqn:E; simpl in Ha; [|by apply not_elem_of_nil in Ha].
  apply list_elem_of_singleton in Ha as ->. by eapply Hcu.
Qed.

(** A fresh address is nobody's. *)
Lemma owned_fresh v t a (l : list item) :
  owned v t → t_mem t !! a = None → l.*1 ⊆ (v_items v).*1 → a ∉ l.*1.
Proof.
  intros Ho Ha Hl Hin. destruct (owned_alive v t a Ho (Hl _ Hin)) as [m Hm]. congruence.
Qed.

Lemma items_parts v :
  (v_queue v).*1 ⊆ (v_items v).*1 ∧ (option_list (v_connect v)).*1 ⊆ (v_items v).*1 ∧
  (option_list (v_cur v)).*1 ⊆ (v_items v).*1 ∧ (v_held v).*1 ⊆ (v_items v).*1 ∧
  (option_list (v_new v)).*1 ⊆ (v_items v).*1.
Proof. unfold v_items. rewrite !fmap_app. split_and!; set_solver. Qed.

Lemma owned_grow v t p m s :
  owned v t → v_new v = None → t_mem t !! p = None → holds m s → txq_next m = None →
  owned (v <| v_new := Some (p, s) |>) (t <| t_mem := <[p := m]> (t_mem t) |>).
Proof.
  intros Ho Hn Hp Hm Hx. destruct (items_parts v) as (P1 & P2 & P3 & P4 & _).
  pose proof (λ l : list item, owned_fresh v t p l Ho Hp) as Hfr.
  destruct Ho as [Hq Ht _ Hc Hcu Hh Hnd Hd]. split; simpl.
  - by apply chain_insert_ne; auto.
  - done.
  - split; [done|]. exists m. by rewrite lookup_insert_eq.
  - by apply chain_insert_ne; auto.
  - intros a u Ha. destruct (decide (a = p)) as [->|]; [by rewrite lookup_insert_eq|].
    rewrite lookup_insert_ne by done. by eapply Hcu.
  - by apply chain_insert_ne; auto.
  - unfold v_items in *. rewrite Hn in *. simpl in *. apply NoDup_cons. auto.
  - intros a Ha. unfold v_items in *. rewrite Hn in *. simpl in *. apply elem_of_cons.
    destruct (decide (a = p)) as [->|]; [by left|right].
    rewrite lookup_insert_ne in Ha by done. by apply Hd.
Qed.

(** No allocation, or a new node. *)
Lemma txq_new_spec s v t (Q : option positive → txs → Prop) E F :
  fits s → v_new v = None → owned v t →
  (∀ t', owned v t' → t_calloc t' = tail (t_calloc t) → head (t_calloc t) = Some false → Q None t') →
  (∀ p t', owned (v <| v_new := Some (p, s) |>) t' → t_calloc t' = tail (t_calloc t) →
     Q (Some p) t') →
  wp (txq_new s) Q E F t.
Proof.
  intros Hf Hn Ho HN HS. unfold txq_new.
  assert (0 ≤ slen s) as Hs0 by (unfold slen; lia).
  pose proof lws_pre_pos as Hp. unfold fits in Hf.
  apply wp_bind, wp_gets, wp_bind, wp_modify.
  assert (owned v (t <| t_calloc := tail (t_calloc t) |>)) as Ho' by by destruct Ho.
  destruct (negb _) eqn:Eb.
  { apply wp_ret, HN; [done..|]. by destruct (head (t_calloc t)) as [[]|]. }
  rewrite wrap_small by (unfold sizeof_txq; lia).
  rewrite (proj2 (Z.ltb_ge _ _)) by lia.
  apply wp_bind, wp_gets, wp_bind, wp_modify, wp_ret, HS; [|done]. apply (owned_grow _ _ _ _ s); try done.
  - apply not_elem_of_dom, is_fresh.
  - split; [done|]. simpl. unfold wrap. rewrite Zminus_mod_idemp_l.
    replace (LWS_PRE + slen s - LWS_PRE) with (slen s) by lia. apply Z.mod_small. lia.
Qed.

Ltac apart H Ha :=
  repeat setoid_rewrite NoDup_app in H; repeat setoid_rewrite NoDup_cons in H;
  clear -H Ha; set_solver.

(** The node goes to the end of the queue. *)
Lemma txq_enqueue_spec p s v t (Q : unit → txs → Prop) E F :
  v_new v = Some (p, s) → owned v t →
  (∀ t', owned (v <| v_new := None |> <| v_queue := v_queue v ++ [(p, s)] |>) t' →
     t_calloc t' = t_calloc t → Q tt t') →
  wp (txq_enqueue p) Q E F t.
Proof.
  intros Hn [Hq Ht Hne Hc Hcu Hh Hnd Hd] HQ. unfold txq_enqueue. apply wp_bind, wp_gets.
  assert ((v_items (v <| v_new := None |> <| v_queue := v_queue v ++ [(p, s)] |>)).*1 ≡ₚ
          (v_items v).*1) as Hperm.
  { unfold v_items. rewrite Hn. simpl. rewrite !fmap_app. simpl. solve_Permutation. }
  rewrite <- Hperm in Hnd. setoid_rewrite <- Hperm in Hd.
  rewrite Hn in Hne. destruct Hne as (_ & m & Hm & Hms & Hmn).
  unfold v_items in Hnd. simpl in Hnd. rewrite !fmap_app, <- !app_assoc in Hnd. simpl in Hnd.
  destruct (t_txqtail t) as [a|] eqn:Ea.
  - assert (a ∈ (v_queue v).*1) as Ha by by apply last_Some_elem_of.
    destruct (chain_dom _ _ _ _ Hq Ha) as [ma Hma].
    apply wp_bind, wp_bind, wp_gets, wp_of_option; [intros ? [= <-]%(eq_trans (eq_sym Hma))|congruence].
    apply wp_bind, wp_bind, wp_bind, wp_gets, wp_of_option; [intros ? _|congruence].
    apply wp_modify, wp_modify, HQ; [|done]. split; simpl.
    + apply chain_snoc; try done; [|by exists m].
      rewrite (cons_middle p), app_assoc in Hnd. by apply NoDup_app in Hnd as [? _].
    + rewrite fmap_app. simpl. by rewrite last_snoc.
    + done.
    + apply chain_insert_ne; [|done]. apart Hnd Ha.
    + intros b u Hb. apply lookup_insert_is_Some'. right. by eapply Hcu.
    + apply chain_insert_ne; [|done]. apart Hnd Ha.
    + unfold v_items. simpl. by rewrite !fmap_app, <- !app_assoc.
    + intros b Hb. apply Hd. destruct (decide (b = a)) as [->|]; [done|].
      by rewrite lookup_insert_ne in Hb.
  - assert (v_queue v = []) as Hq0.
    { destruct (v_queue v) as [|x q]; [done|]. exfalso.
      symmetry in Ht. apply last_None in Ht. done. }
    rewrite Hq0 in *. apply wp_modify, HQ; [|done]. split; simpl; try done.
    + split; [done|]. by exists m.
    + unfold v_items. simpl. by rewrite !fmap_app.
Qed.

(** A node leaves the store: the connect message or the one being sent. *)
Lemma owned_delete v v' t a :
  owned v t → (v_items v).*1 ≡ₚ a :: (v_items v').*1 →
  v_queue v' = v_queue v → v_new v' = v_new v → v_held v' = v_held v → v_hp v' = v_hp v →
  (v_connect v' = None ∨ v_connect v' = v_connect v) →
  (v_cur v' = None ∨ v_cur v' = v_cur v) →
  owned v' (t <| t_mem := delete a (t_mem t) |>
              <| t_txconnect := fst <$> v_connect v' |>).
Proof.
  intros [Hq Ht Hne Hc Hcu Hh Hnd Hd] Hperm E1 E2 E3 E4 E5 E6.
  rewrite Hperm in Hnd. apply NoDup_cons in Hnd as [Ha Hnd]. setoid_rewrite Hperm in Hd.
  destruct (items_parts v') as (P1 & P2 & P3 & P4 & P5). rewrite E1, E2, E3 in *.
  split; simpl; rewrite ?E1, ?E2, ?E3, ?E4; try done; try (apply chain_delete_ne; auto).
  - destruct E5 as [E5|E5]; rewrite E5; [done|].
    destruct (v_connect v) as [[c u]|]; simpl in *; [by destruct Hc as (_ & Hc)|done].
  - intros b u Hb. assert (b ≠ a) as Hba.
    { intros ->. apply Ha, P3. rewrite Hb. by left. }
    rewrite lookup_delete_ne by done. destruct E6 as [E6|E6]; [congruence|].
    apply (Hcu b u). congruence.
  - intros b Hb. destruct (decide (b = a)) as [->|Hba].
    { rewrite lookup_delete_eq in Hb. by destruct Hb. }
    rewrite lookup_delete_ne in Hb by done. apply Hd, elem_of_cons in Hb as [?|?]; done.
Qed.

Lemma owned_connect v t p s :
  v_new v = Some (p, s) → v_connect v = None → owned v t →
  owned (v <| v_new := None |> <| v_connect := Some (p, s) |>) (t <| t_txconnect := Some p |>).
Proof.
  intros Hn Hc0 [Hq Ht Hne _ Hcu Hh Hnd Hd]. unfold v_items in *. rewrite Hn, Hc0 in *.
  simpl in *.
  assert (∀ x : list item, v_queue v ++ (p, s) :: x ≡ₚ (p, s) :: v_queue v ++ x) as Hp
    by (intros; solve_Permutation).
  split; simpl; try done; unfold v_items; simpl; setoid_rewrite Hp; done.
Qed.

(** The node replaces the pending connect message, which is freed. *)
Lemma txq_connect_put_spec p s v t (Q : unit → txs → Prop) E F :
  v_new v = Some (p, s) → owned v t →
  (∀ t', owned (v <| v_new := None |> <| v_connect := Some (p, s) |>) t' →
     t_calloc t' = t_calloc t → Q tt t') →
  wp (txq_connect_put p) Q E F t.
Proof.
  intros Hn Ho HQ. unfold txq_connect_put. apply wp_bind, wp_gets.
  pose proof (ow_connect _ _ Ho) as Hc.
  destruct (v_connect v) as [[c u]|] eqn:Ec; simpl in Hc.
  - destruct Hc as (-> & mc & Hmc & _).
    apply wp_bind, wp_bind, wp_gets, wp_bind, wp_of_option; [intros ? _|congruence].
    apply wp_modify, wp_modify, HQ; [|done]. set (v' := v <| v_connect := None |>).
    apply (owned_connect v' _ _ _ Hn eq_refl
      (owned_delete v v' t c Ho ltac:(by unfold v_items; rewrite Ec, !fmap_app; simpl; solve_Permutation)
         eq_refl eq_refl eq_refl eq_refl (or_introl eq_refl) (or_intror eq_refl))).
  - rewrite Hc. by apply wp_bind, wp_ret, wp_modify, HQ; [apply owned_connect|].
Qed.

(** The queue becomes the list of the service thread. *)
Lemma txq_pull_spec v t (Q : option positive → txs → Prop) E F :
  v_held v = [] → owned v t →
  (∀ hp t', owned (v <| v_hp := hp |> <| v_held := v_queue v |> <| v_queue := [] |>) t' →
     t_calloc t' = t_calloc t → Q hp t') →
  wp txq_pull Q E F t.
Proof.
  intros Hh [Hq Ht Hne Hc Hcu _ Hnd Hd] HQ. unfold txq_pull.
  apply wp_bind, wp_gets, wp_bind, wp_modify, wp_ret, HQ; [|done].
  assert ((v_items (v <| v_hp := t_txqhead t |> <| v_held := v_queue v |> <| v_queue := [] |>)).*1
    ≡ₚ (v_items v).*1) as Hperm.
  { unfold v_items. rewrite Hh. simpl. rewrite !fmap_app. simpl. solve_Permutation. }
  split; simpl; try done; [by rewrite Hperm|by setoid_rewrite Hperm].
Qed.

(** The connect message goes in front of it. *)
Lemma txq_connect_spec v t (Q : option positive → txs → Prop) E F :
  owned v t →
  (∀ hp t', owned (v <| v_hp := hp |> <| v_held := option_list (v_connect v) ++ v_held v |>
                     <| v_connect := None |>) t' → t_calloc t' = t_calloc t → Q hp t') →
  wp (c ← txq_connect_pull; txq_link c (v_hp v)) Q E F t.
Proof.
  intros [Hq Ht Hne Hc Hcu Hh Hnd Hd] HQ. unfold txq_connect_pull.
  apply wp_bind, wp_bind, wp_gets, wp_bind, wp_modify, wp_ret.
  assert (∀ hp, (v_items (v <| v_hp := hp |> <| v_held := option_list (v_connect v) ++ v_held v |>
                     <| v_connect := None |>)).*1 ≡ₚ (v_items v).*1) as Hperm.
  { intros hp. unfold v_items. simpl. rewrite !fmap_app. solve_Permutation. }
  destruct (v_connect v) as [[c u]|] eqn:Ec; simpl in Hc.
  - destruct Hc as (-> & mc & Hmc & Hmh & _). unfold txq_link.
    apply wp_bind, wp_bind, wp_gets, wp_of_option; [intros ? [= <-]%(eq_trans (eq_sym Hmc))|simpl; congruence].
    apply wp_bind, wp_bind, wp_bind, wp_gets, wp_of_option; [intros ? _|simpl; congruence].
    apply wp_modify, wp_ret, HQ; [|done].
    rewrite <- (Hperm (Some c)) in Hnd. setoid_rewrite <- (Hperm (Some c)) in Hd.
    pose proof Hnd as Hnd'. unfold v_items in Hnd'. simpl in Hnd'. rewrite !fmap_app in Hnd'. simpl in Hnd'.
    split; simpl; try done.
    + apply chain_insert_ne; [|done]. apart Hnd' Hnd'.
    + apply chain_insert_ne; [|done]. apart Hnd' Hnd'.
    + intros b x Hb. apply lookup_insert_is_Some'. right. by eapply Hcu.
    + split; [done|]. exists (mc <| txq_next := v_hp v |>). rewrite lookup_insert_eq.
      split; [done|]. split; [done|]. apply chain_insert_ne; [|done]. apart Hnd' Hnd'.
    + intros b Hb. apply Hd. destruct (decide (b = c)) as [->|]; [done|].
      by rewrite lookup_insert_ne in Hb.
  - rewrite Hc. apply wp_ret, HQ; [|done]. split; simpl; try done; [by rewrite Hperm|by setoid_rewrite Hperm].
Qed.

(** The first node of the list becomes the one being sent; then it is freed. *)
Lemma txq_read_spec a s l v t (Q : option positive * string → txs → Prop) E F :
  v_hp v = Some a → v_held v = (a, s) :: l → v_cur v = None → owned v t →
  (∀ hp, owned (v <| v_hp := hp |> <| v_held := l |> <| v_cur := Some (a, s) |>) t → Q (hp, s) t) →
  wp (txq_read a) Q E F t.
Proof.
  intros Hhp Hl Hcu0 [Hq Ht Hne Hc Hcu Hh Hnd Hd] HQ. unfold txq_read.
  rewrite Hl in Hh. destruct Hh as (_ & m & Hm & [Hms Hml] & Hch).
  apply wp_bind, wp_bind, wp_gets, wp_of_option; [intros ? [= <-]%(eq_trans (eq_sym Hm))|congruence].
  rewrite Hml, Hms, Z.leb_refl. apply wp_ret.
  rewrite stake_all by (unfold slen; lia).
  apply HQ. split; simpl; try done.
  - intros b x [= <- <-]. by exists m.
  - unfold v_items in *. rewrite Hl, Hcu0 in Hnd. done.
  - unfold v_items in *. rewrite Hl, Hcu0 in Hd. done.
Qed.

Lemma free_cur_spec a s v t (Q : unit → txs → Prop) E F :
  v_cur v = Some (a, s) → owned v t →
  (∀ t', owned (v <| v_cur := None |>) t' → t_calloc t' = t_calloc t → Q tt t') →
  wp (free a) Q E F t.
Proof.
  intros Hcu Ho HQ. destruct (ow_cur _ _ Ho _ _ Hcu) as [m Hm].
  apply wp_bind, wp_gets, wp_bind, wp_of_option; [intros ? _|congruence].
  apply wp_modify, HQ; [|done].
  pose proof (ow_connect _ _ Ho) as Hc.
  pose proof (owned_delete v (v <| v_cur := None |>) t a Ho) as Hd.
  assert (t_txconnect t = fst <$> v_connect v) as Hx.
  { destruct (v_connect v) as [[c u]|]; [by destruct Hc as [-> _]|done]. }
  simpl in Hd. rewrite <- Hx in Hd. apply Hd; try done; [|by right|by left].
  unfold v_items. rewrite Hcu, !fmap_app. simpl. solve_Permutation.
Qed.
(** [txq_free] ends, and leaves none of its nodes behind. *)
Lemma owned_held_size v t : owned v t → (length (v_held v) <= size (t_mem t))%nat.
Proof.
  intros Ho. rewrite <- size_dom, <- (length_fmap fst).
  pose proof (ow_nodup _ _ Ho) as Hnd. unfold v_items in Hnd. rewrite !fmap_app in Hnd.
  do 4 apply NoDup_app in Hnd as (_ & _ & Hnd).
  rewrite <- (size_list_to_set (C := gset positive) _ Hnd). apply subseteq_size.
  intros a Ha. apply elem_of_list_to_set in Ha. apply elem_of_dom, (owned_alive v); [done|].
  by destruct (items_parts v) as (_ & _ & _ & P & _); apply P.
Qed.

Lemma txq_free_loop_spec fuel v t :
  (length (v_held v) < fuel)%nat → v_cur v = None → owned v t →
  wp (txq_free_loop fuel (v_hp v))
    (λ _ t', owned (v <| v_hp := None |> <| v_held := [] |>) t') (λ _, False) (λ _, False) t.
Proof.
  revert v t. induction fuel as [|fuel IH]; intros v t Hl Hcu Ho; [lia|].
  pose proof (ow_held _ _ Ho) as Hh. destruct (v_held v) as [|[a s] l] eqn:El.
  - rewrite Hh. apply wp_ret. destruct v; simpl in *. by subst.
  - destruct Hh as (Hp & m & Hm & Hms & Hch). rewrite Hp. cbn [txq_free_loop].
    apply wp_bind, wp_bind, wp_gets, wp_of_option; [intros ? [= <-]%(eq_trans (eq_sym Hm))|congruence].
    apply wp_bind. set (v1 := v <| v_hp := txq_next m |> <| v_held := l |> <| v_cur := Some (a, s) |>).
    apply (free_cur_spec a s v1); [done| |].
    { destruct Ho as [Hq Ht Hne Hc _ _ Hnd Hd]. unfold v_items in *. rewrite El, Hcu in *.
      split; try done. intros b x [= <- <-]. by exists m. }
    intros t1 Ho1 _. change (txq_next m) with (v_hp (v1 <| v_cur := None |>)).
    eapply wp_mono; [apply IH; [|done|done]|..]; simpl in *; try done; [lia|].
    intros _ t2. by rewrite <- Hcu.
Qed.

Lemma txq_free_spec v t (Q : unit → txs → Prop) E F :
  v_cur v = None → owned v t →
  (∀ t', owned (v <| v_hp := None |> <| v_held := [] |>) t' → Q tt t') →
  wp (txq_free (v_hp v)) Q E F t.
Proof.
  intros Hcu Ho HQ. apply wp_bind, wp_gets.
  eapply wp_mono; [apply txq_free_loop_spec; try done|..]; try done.
  - pose proof (owned_held_size v t Ho). lia.
  - intros []. apply HQ.
Qed.
End owned.
