(* ===== verification/Client.v ===== *)
(** * The client: logging, sending and the websocket callback
      ([ucentral-client.c])

    [client] holds the file-scope variables of [ucentral-client.c], the state
    of the logger and of the protocol layer, and what libwebsockets keeps for
    the client: whether [lws_cancel_service] was called ([c_cancel]), the
    sockets for which [lws_callback_on_writable] was called ([c_writable]) and
    whether the reconnect timer runs ([c_sul]).  [c_lws] gives the outcomes of
    the libwebsockets calls to come and [c_trace] what was asked of the
    network, oldest first.

    The protocol layer hands its messages and log lines over through
    callbacks.  [run_proto] runs one of its functions and then delivers, in
    order, what the function emitted; nothing a callback does is visible to
    that function. *)

From S2P Require Import Prelude CNum CStr Log Txq Bitmap Router Json PlatTypes World ProtoConv Messages CfgServices CfgParse Handlers Dispatch Connect Events.
#[local] Open Scope list_scope.

(** The fields of [struct client_config] that [ucentral-client.c] writes. *)
Record client_config := mk_client_config {
  cc_server : option string;
  cc_port : Z;                 (* int16_t *)
  cc_path : string;
  cc_CN : string;              (* char[64], read up to its NUL *)
  cc_firmware : string;        (* char[64] *)
  cc_devid : string;           (* char[UCENTRAL_DEVID_F_MAX_LEN + 1] *)
  cc_ca : option string;
  cc_cert : option string
}.
#[export] Instance eta_client_config : Eta client_config := λ r,
  mk_client_config (cc_server r) (cc_port r) (cc_path r) (cc_CN r) (cc_firmware r) (cc_devid r)
    (cc_ca r) (cc_cert r).

(** The initialiser of [client]. *)
Definition client_default : client_config :=
  mk_client_config None 15002 "/" "" "" "" None None.

Inductive wire_event :=
  | WConnect (server : option string) (port : Z) (path : string) (ok : bool)
  | WWrite (wsi : positive) (msg : string) (ok : bool)   (* lws_write *)
  | WDrop (msg : string)                                 (* freed with the socket closed *)
  | WTrust.                                              (* X509_STORE_CTX_set_error(.., X509_V_OK) *)

Record client `{CJson, Platform} := mk_client {
  c_tx : txs;
  c_log : ulog;
  c_world : world;
  c_config : client_config;
  c_context : bool;                 (* context is not NULL *)
  c_vhd : bool;                     (* the vhost's private data is allocated *)
  c_websocket : option positive;
  c_client_wsi : option positive;   (* vhd->client_wsi *)
  c_conn_successfull : Z;
  c_conn_time : Z;
  c_now : Z;                        (* CLOCK_MONOTONIC, in seconds *)
  c_env : gmap string string;
  c_cancel : bool;
  c_writable : gset positive;
  c_sul : bool;
  c_lws : list bool;
  c_trace : list wire_event
}.
#[export] Instance eta_client `{CJson, Platform} : Eta client := λ r,
  mk_client _ _ (c_tx r) (c_log r) (c_world r) (c_config r) (c_context r) (c_vhd r) (c_websocket r)
    (c_client_wsi r) (c_conn_successfull r) (c_conn_time r) (c_now r) (c_env r) (c_cancel r)
    (c_writable r) (c_sul r) (c_lws r) (c_trace r).

#[export] Instance client_has_log `{CJson, Platform} : HasLog client :=
  {| get_log := c_log; put_log l c := c <| c_log := l |> |}.

Inductive lws_callback_reasons :=
  | LWS_CALLBACK_OPENSSL_PERFORM_SERVER_CERT_VERIFICATION
  | LWS_CALLBACK_PROTOCOL_INIT
  | LWS_CALLBACK_PROTOCOL_DESTROY
  | LWS_CALLBACK_ADD_POLL_FD
  | LWS_CALLBACK_CHANGE_MODE_POLL_FD
  | LWS_CALLBACK_DEL_POLL_FD
  | LWS_CALLBACK_CLIENT_ESTABLISHED
  | LWS_CALLBACK_CLIENT_RECEIVE (text : string)
  | LWS_CALLBACK_CLIENT_CONNECTION_ERROR
  | LWS_CALLBACK_CLIENT_CLOSED
  | LWS_CALLBACK_CLIENT_WRITEABLE
  | LWS_CALLBACK_EVENT_WAIT_CANCELLED
  | LWS_CALLBACK_OTHER.

Section client.
Context `{J : CJson, P : Platform, T : CTarget, L : CLibc, E : EstClient, W : Lws}.
(** [cJSON_PrintUnformatted] of an item it can print. *)
Context (print : json → string).

Definition in_tx {A} (m : M txs A) : M client A := λ c,
  match m (c_tx c) with
  | Ok a t => Ok a (c <| c_tx := t |>)
  | Err t => Err (c <| c_tx := t |>)
  | Fault f => Fault f
  end.

(** ** libwebsockets *)
Definition lws_outcome : M client bool := λ c,
  match c_lws c with
  | [] => Ok true c
  | b :: l => Ok b (c <| c_lws := l |>)
  end.
Definition wire (e : wire_event) : M client unit :=
  modify (λ c, c <| c_trace := c_trace c ++ [e] |>).

Definition lws_cancel_service : M client unit := modify (λ c, c <| c_cancel := true |>).
Definition lws_callback_on_writable (wsi : positive) : M client unit :=
  modify (λ c, c <| c_writable := {[wsi]} ∪ c_writable c |>).
Definition lws_sul_schedule : M client unit := modify (λ c, c <| c_sul := true |>).
Definition lws_sul_cancel : M client unit := modify (λ c, c <| c_sul := false |>).
Definition lws_write (wsi : positive) (msg : string) : M client bool :=
  ok ← lws_outcome; _ ← wire (WWrite wsi msg ok); ret ok.

(** ** The callbacks of the protocol layer

    [log] is the logger the callbacks use. *)
Section callbacks.
Context (log : Z → Z → string → M client unit).

Definition txq_msg_proto_cb (data : string) : M client unit :=
  msg ← in_tx (txq_new data);
  match msg with
  | None => log UC_LOG_COMPONENT_CLIENT UC_LOG_SV_ERR "malloc failed"
  | Some msg =>
      _ ← in_tx (txq_enqueue msg);
      context ← gets c_context;
      when context lws_cancel_service
  end.

Definition txq_connect_msg_proto_cb (data : string) : M client unit :=
  msg ← in_tx (txq_new data);
  match msg with
  | None => log UC_LOG_COMPONENT_CLIENT UC_LOG_SV_ERR "malloc failed"
  | Some msg =>
      _ ← in_tx (txq_connect_put msg);
      context ← gets c_context;
      when context lws_cancel_service
  end.

Definition deliver (e : event) : M client unit :=
  match e with
  | EvSend j => txq_msg_proto_cb (print j)
  | EvSendConnect j => txq_connect_msg_proto_cb (print j)
  | EvLog sv text => log UC_LOG_COMPONENT_PROTO sv text
  | _ => ret tt
  end.

(** A function of the protocol layer, and the callbacks it makes. *)
Definition run_proto (m : M world unit) : M client unit := λ c,
  match m (c_world c) with
  | Ok _ w | Err w =>
      for_each (drop (length (w_out (c_world c))) (w_out w)) deliver (c <| c_world := w |>)
  | Fault f => Fault f
  end.
End callbacks.

(** [uc_log] with [log_send] as its callback.  A line that is logged while
    another is being sent goes no further ([is_recursion]), so one level is
    the whole recursion: see [ClientSpec.logger_depth]. *)
Fixpoint logger (depth : nat) (comp sv : Z) (text : string) : M client unit :=
  match depth with
  | O => ret tt
  | S depth =>
      uc_log (λ line sv, run_proto (logger depth) (log_send line sv)) comp sv (Some text)
  end.

Definition client_log : Z → Z → string → M client unit := logger 1.
Definition C_LOG_ERR (text : string) : M client unit :=
  client_log UC_LOG_COMPONENT_CLIENT UC_LOG_SV_ERR text.
Definition C_LOG_CRIT (text : string) : M client unit :=
  client_log UC_LOG_COMPONENT_CLIENT UC_LOG_SV_CRIT text.

(** A call from [ucentral-client.c] into the protocol layer. *)
Definition proto (m : M world unit) : M client unit := run_proto client_log m.

(** ** Connecting *)
Definition set_conn_time : M client unit := modify (λ c, c <| c_conn_time := c_now c |>).

Definition sul_connect_attempt : M client unit :=
  config ← gets c_config;
  ok ← lws_outcome;
  _ ← wire (WConnect (cc_server config) (cc_port config) (cc_path config) ok);
  when (negb ok) lws_sul_schedule.

(** [v && *v && strcmp("0", v)] *)
Definition env_flag (v : option string) : bool :=
  match v with Some v => negb (streq v "") && negb (streq v "0") | None => false end.
Definition gateway_cert_trust : M client bool :=
  env ← gets c_env; ret (env_flag (env !! "UC_GATEWAY_CERT_TRUST")).
Definition redirector_cert_trust : M client bool :=
  env ← gets c_env; ret (env_flag (env !! "UC_REDIRECTOR_CERT_TRUST")).

(** ** The callback *)

(** The body of the loop of LWS_CALLBACK_CLIENT_WRITEABLE; returns the rest of
    the list. *)
Definition writeable_step (txq : positive) : M client (option positive) :=
  '(next, msg) ← in_tx (txq_read txq);
  websocket ← gets c_websocket;
  _ ← match websocket with
      | None => wire (WDrop msg)
      | Some wsi =>
          ok ← lws_write wsi msg;
          when (negb ok) (C_LOG_ERR "failed to send message")
      end;
  _ ← in_tx (free txq);
  ret next.

Fixpoint writeable_loop (fuel : nat) (txq : option positive) : M client unit :=
  match fuel, txq with
  | _, None => ret tt
  | O, Some _ => fail
  | S fuel, Some m => next ← writeable_step m; writeable_loop fuel next
  end.

(** Every node on the list is in the store when the loop starts; the messages
    logged meanwhile go to the queue, not to this list. *)
Definition client_writeable : M client unit :=
  txq ← in_tx txq_pull;
  txq ← in_tx (c ← txq_connect_pull; txq_link c txq);
  c ← gets c_tx;
  writeable_loop (S (size (t_mem c))) txq.

Definition client_established (wsi : positive) : M client unit :=
  _ ← set_conn_time;
  _ ← modify (λ c, c <| c_websocket := Some wsi |>);
  _ ← proto connect_send;
  _ ← modify (λ c, c <| c_conn_successfull := 1 |>);
  lws_callback_on_writable wsi.

Definition client_closed : M client unit :=
  _ ← modify (λ c, c <| c_websocket := None |>);
  _ ← set_conn_time;
  vhd ← gets c_vhd;
  if negb vhd then faulty NullDeref
  else
    _ ← modify (λ c, c <| c_client_wsi := None |>);
    lws_sul_schedule.

(** [lws_protocol_vh_priv_zalloc] is not tested. *)
Definition protocol_init : M client unit :=
  ok ← lws_outcome;
  if negb ok then faulty NullDeref
  else
    _ ← modify (λ c, c <| c_vhd := true |>);
    sul_connect_attempt.

Definition wait_cancelled : M client unit :=
  websocket ← gets c_websocket;
  match websocket with Some wsi => lws_callback_on_writable wsi | None => ret tt end.

Definition callback_broker (wsi : positive) (reason : lws_callback_reasons) : M client unit :=
  match reason with
  | LWS_CALLBACK_OPENSSL_PERFORM_SERVER_CERT_VERIFICATION =>
      trust ← gateway_cert_trust; when trust (wire WTrust)
  | LWS_CALLBACK_PROTOCOL_INIT => protocol_init
  | LWS_CALLBACK_PROTOCOL_DESTROY => 
      vhd ← gets c_vhd; if negb vhd then faulty NullDeref else lws_sul_cancel
  | LWS_CALLBACK_ADD_POLL_FD | LWS_CALLBACK_CHANGE_MODE_POLL_FD
  | LWS_CALLBACK_DEL_POLL_FD => ret tt
  | LWS_CALLBACK_CLIENT_ESTABLISHED => client_established wsi
  | LWS_CALLBACK_CLIENT_RECEIVE text => proto (proto_handle text)
  | LWS_CALLBACK_CLIENT_CONNECTION_ERROR =>
      _ ← C_LOG_ERR "connection error: %s";
      _ ← modify (λ c, c <| c_conn_successfull := 0 |>);
      client_closed
  | LWS_CALLBACK_CLIENT_CLOSED => client_closed
  | LWS_CALLBACK_CLIENT_WRITEABLE => client_writeable
  | LWS_CALLBACK_EVENT_WAIT_CANCELLED => wait_cancelled
  | LWS_CALLBACK_OTHER => ret tt
  end.
End client.
