(* ===== verification/ClientSpec.v ===== *)
(** * What the client does with the messages of the protocol layer

    [handed c v ms cs c' v']: between [c] and [c'] the protocol layer handed
    over the messages [ms] for the queue and [cs] as connect messages; [v] and
    [v'] say who holds the nodes.  Nothing else of the client changed but the
    state of the protocol layer and of the allocator, and the service thread
    was woken when there is something new to send. *)

From S2P Require Import Prelude CNum CStr Log Txq Bitmap Router Json PlatTypes World ProtoConv Messages CfgServices CfgParse Handlers Dispatch Connect Events Sample Frame MessageEffects Replies ConnectSpec Safety Client.
#[local] Open Scope list_scope.
#[local] Arguments writeable_loop : simpl never.

Section spec.
Context `{J : CJson, P : Platform, T : CTarget, L : CLibc, E : EstClient, W : Lws, JL : !CJsonLaws}.
Context (print : json → string) (print_fits : ∀ j, fits (print j)).

Record handed (c : client) (v : view) (ms cs : list string) (c' : client) (v' : view) : Prop := {
  hd_owned : owned v' (c_tx c');
  hd_hp : v_hp v' = v_hp v;
  hd_held : v_held v' = v_held v;
  hd_cur : v_cur v' = v_cur v;
  hd_new : v_new v' = None;
  hd_queue : (v_queue v').*2 = (v_queue v).*2 ++ ms;
  hd_connect : snd <$> v_connect v' = last (option_list (snd <$> v_connect v) ++ cs);
  hd_rest : c' = c <| c_tx := c_tx c' |> <| c_world := c_world c' |> <| c_cancel := c_cancel c' |>;
  hd_oom : t_calloc (c_tx c) = [] → t_calloc (c_tx c') = [];
  hd_cancel : c_cancel c' = c_cancel c || (c_context c && bool_decide (ms ++ cs ≠ []))
}.

(** The fields it leaves alone. *)
Lemma handed_fields c v ms cs c' v' :
  handed c v ms cs c' v' →
  c_trace c' = c_trace c ∧ c_websocket c' = c_websocket c ∧
  c_conn_successfull c' = c_conn_successfull c ∧ c_context c' = c_context c ∧
  c_writable c' = c_writable c ∧ c_vhd c' = c_vhd c ∧ c_log c' = c_log c.
Proof. intros Hd. by rewrite (hd_rest _ _ _ _ _ _ Hd). Qed.

Lemma handed_refl c v : owned v (c_tx c) → v_new v = None → handed c v [] [] c v.
Proof.
  intros Ho Hn. split; rewrite ?app_nil_r; try done.
  - by destruct (v_connect v).
  - by destruct c.
  - by rewrite andb_false_r, orb_false_r.
Qed.

Lemma last_option {A} (o : option A) : last (option_list o) = o.
Proof. by destruct o. Qed.

Lemma handed_trans c v ms cs c1 v1 ms1 cs1 c2 v2 :
  handed c v ms cs c1 v1 → handed c1 v1 ms1 cs1 c2 v2 →
  handed c v (ms ++ ms1) (cs ++ cs1) c2 v2.
Proof.
  intros [O1 A1 B1 C1 D1 Q1 N1 R1 M1 K1] [O2 A2 B2 C2 D2 Q2 N2 R2 M2 K2].
  split; try congruence; auto.
  - by rewrite Q2, Q1, app_assoc.
  - rewrite N2, N1, app_assoc, !last_app. destruct (last cs1); [done|].
    by rewrite last_option.
  - rewrite R2. rewrite R1 at 1. by destruct c, c1.
  - rewrite K2, K1. replace (c_context c1) with (c_context c) by by rewrite R1.
    rewrite <- orb_assoc. f_equal. destruct (c_context c); [|done].
    destruct ms, ms1, cs, cs1; done.
Qed.

(** A logger that only hands over messages. *)
Definition good_log (log : Z → Z → string → M client unit) : Prop :=
  ∀ comp sv text c v, owned v (c_tx c) → v_new v = None →
    wp (log comp sv text) (λ _ c', ∃ v' ms, handed c v ms [] c' v') (λ _, False) no_fault c.

Lemma wp_in_tx {A} (m : M txs A) (Q : A → client → Prop) (X : client → Prop) F c :
  wp m (λ a t, Q a (c <| c_tx := t |>)) (λ t, X (c <| c_tx := t |>)) F (c_tx c) →
  wp (in_tx m) Q X F c.
Proof. unfold wp, in_tx. by destruct (m (c_tx c)). Qed.

(** Handing over one message. *)
Lemma txq_msg_proto_cb_spec log data c v (Q : unit → client → Prop) X F :
  good_log log → fits data → owned v (c_tx c) → v_new v = None →
  (∀ v' ms c', handed c v ms [] c' v' → (t_calloc (c_tx c) = [] → ms = [data]) → Q tt c') →
  wp (txq_msg_proto_cb log data) Q X F c.
Proof.
  intros Hlog Hf Ho Hn HQ. unfold txq_msg_proto_cb. apply wp_bind, wp_in_tx.
  apply (txq_new_spec data v); try done.
  - intros t Ho1 Hc Hh.
    set (c1 := c <| c_tx := t |>).
    eapply wp_mono; [apply (Hlog _ _ _ c1 v Ho1 Hn)|..]; try done.
    intros [] c' (v' & ms & Hd). apply (HQ v' ms); [|by intros E0; rewrite E0 in Hh].
    destruct Hd as [O1 A1 B1 C1 D1 Q1 N1 R1 M1 K1]. split; try done.
    intros E0. apply M1. simpl. by rewrite Hc, E0.
  - intros p t Ho1 Hc. apply wp_bind, wp_in_tx. simpl.
    apply (txq_enqueue_spec p data (v <| v_new := Some (p, data) |>)); [done..|].
    intros t2 Ho2 Hc2. apply wp_bind, wp_gets. simpl.
    assert (∀ b, b = c_cancel c || c_context c → handed c v [data] []
      (c <| c_tx := t2 |> <| c_cancel := b |>)
      (v <| v_new := None |> <| v_queue := v_queue v ++ [(p, data)] |>)) as Hd.
    { intros b Hb. split; simpl; try done.
      - by rewrite fmap_app.
      - rewrite app_nil_r. by destruct (v_connect v).
      - intros E0. by rewrite Hc2, Hc, E0.
      - by rewrite Hb, andb_true_r. }
    apply wp_when; intros Hx.
    + apply wp_modify. eapply HQ; [|done]. apply (Hd true). by rewrite Hx, orb_true_r.
    + eapply HQ; [|done]. specialize (Hd (c_cancel c)). rewrite Hx, orb_false_r in Hd.
      specialize (Hd eq_refl). by destruct c.
Qed.

Lemma txq_connect_msg_proto_cb_spec log data c v (Q : unit → client → Prop) X F :
  good_log log → fits data → owned v (c_tx c) → v_new v = None →
  (∀ v' ms cs c', handed c v ms cs c' v' → cs `sublist_of` [data] →
     (t_calloc (c_tx c) = [] → ms = [] ∧ cs = [data]) → Q tt c') →
  wp (txq_connect_msg_proto_cb log data) Q X F c.
Proof.
  intros Hlog Hf Ho Hn HQ. unfold txq_connect_msg_proto_cb. apply wp_bind, wp_in_tx.
  apply (txq_new_spec data v); try done.
  - intros t Ho1 Hc Hh.
    set (c1 := c <| c_tx := t |>).
    eapply wp_mono; [apply (Hlog _ _ _ c1 v Ho1 Hn)|..]; try done.
    intros [] c' (v' & ms & Hd). apply (HQ v' ms []); [|by apply sublist_nil_l|by intros E0; rewrite E0 in Hh].
    destruct Hd as [O1 A1 B1 C1 D1 Q1 N1 R1 M1 K1]. split; try done.
    intros E0. apply M1. simpl. by rewrite Hc, E0.
  - intros p t Ho1 Hc. apply wp_bind, wp_in_tx. simpl.
    apply (txq_connect_put_spec p data (v <| v_new := Some (p, data) |>)); [done..|].
    intros t2 Ho2 Hc2. apply wp_bind, wp_gets. simpl.
    assert (∀ b, b = c_cancel c || c_context c → handed c v [] [data]
      (c <| c_tx := t2 |> <| c_cancel := b |>)
      (v <| v_new := None |> <| v_connect := Some (p, data) |>)) as Hd.
    { intros b Hb. split; simpl; try done.
      - by rewrite app_nil_r.
      - by rewrite last_snoc.
      - intros E0. by rewrite Hc2, Hc, E0.
      - by rewrite Hb, andb_true_r. }
    apply wp_when; intros Hx.
    + apply wp_modify. eapply HQ; [|done..]. apply (Hd true). by rewrite Hx, orb_true_r.
    + eapply HQ; [|done..]. specialize (Hd (c_cancel c)). rewrite Hx, orb_false_r in Hd.
      specialize (Hd eq_refl). by destruct c.
Qed.

(** The connect messages among the events, all of them when no allocation
    fails. *)
Definition delivered (c : client) (cs : list string) (es : list event) : Prop :=
  cs `sublist_of` (print <$> connects_of es) ∧
  (t_calloc (c_tx c) = [] → cs = print <$> connects_of es).

Lemma deliver_spec log e c v (Q : unit → client → Prop) X F :
  good_log log → owned v (c_tx c) → v_new v = None →
  (∀ v' ms cs c', handed c v ms cs c' v' →
     delivered c cs [e] →
     (t_calloc (c_tx c) = [] → ∀ j, e = EvSend j → ms = [print j]) → Q tt c') →
  wp (deliver print log e) Q X F c.
Proof using print_fits JL.
  intros Hlog Ho Hn HQ. unfold deliver.
  destruct e as [j|j|sv text| | | |]; try (by eapply wp_ret, HQ; [by apply handed_refl|..]).
  - apply (txq_msg_proto_cb_spec _ _ _ v); [done..|]. intros v' ms c' Hd Hm.
    apply (HQ v' ms [] c'); [done|done|]. by intros E0 ? [= <-]; apply Hm.
  - apply (txq_connect_msg_proto_cb_spec _ _ _ v); [done..|]. intros v' ms cs c' Hd Hsub Hm.
    apply (HQ v' ms cs c'); [done| |done]. split; [done|]. intros E0. by destruct (Hm E0) as [_ ->].
  - eapply wp_mono; [by apply (Hlog _ _ _ _ v)|..]; try done.
    intros [] c' (v' & ms & Hd). by apply (HQ v' ms [] c').
Qed.

(** Handing over everything a function of the protocol layer emitted. *)
Lemma deliver_all_spec log es c v (Q : unit → client → Prop) X F :
  good_log log → owned v (c_tx c) → v_new v = None →
  (∀ v' ms cs c', handed c v ms cs c' v' →
     delivered c cs es → Q tt c') →
  wp (for_each es (deliver print log)) Q X F c.
Proof using print_fits JL.
  intros Hlog Ho Hn HQ.
  apply (wp_for_each (λ done c1, ∃ v1 ms cs, handed c v ms cs c1 v1 ∧
    delivered c cs done)).
  - exists v, [], []. by split; [apply handed_refl|].
  - intros dn e todo c1 _ (v1 & ms & cs & Hd & Hcs).
    apply (deliver_spec _ _ _ v1); [done|apply Hd..|].
    intros v2 ms2 cs2 c2 Hd2 Hcs2 _. exists v2, (ms ++ ms2), (cs ++ cs2).
    split; [by eapply handed_trans|]. destruct Hcs as [S1 T1], Hcs2 as [S2 T2].
    unfold delivered. rewrite connects_app, fmap_app. split; [by apply sublist_app|].
    intros E0. by rewrite T1, T2; [|apply Hd, E0|].
  - intros c1 (v1 & ms & cs & Hd & Hcs). eauto.
Qed.

Definition emitted (w w' : world) : list event := drop (length (w_out w)) (w_out w').

Lemma run_proto_spec log (m : M world unit) c v (Q : unit → client → Prop) X (F : fault → Prop) :
  good_log log → owned v (c_tx c) → v_new v = None →
  wp m
    (λ _ w', ∀ v' ms cs c', handed c v ms cs c' v' →
       delivered c cs (emitted (c_world c) w') → Q tt c')
    (λ w', ∀ v' ms cs c', handed c v ms cs c' v' →
       delivered c cs (emitted (c_world c) w') → Q tt c')
    F (c_world c) →
  wp (run_proto print log m) Q X F c.
Proof using print_fits JL.
  intros Hlog Ho Hn. unfold wp at 1, run_proto.
  assert (∀ w', (∀ v' ms cs c', handed c v ms cs c' v' →
       delivered c cs (emitted (c_world c) w') → Q tt c') →
     wp (for_each (emitted (c_world c) w') (deliver print log)) Q X F (c <| c_world := w' |>)) as Hrun.
  { intros w' HQ. set (c1 := c <| c_world := w' |>).
    apply (deliver_all_spec log _ c1 v); [done..|].
    intros v' ms cs c' Hd Hcs. apply (HQ v' ms cs); [|done].
    destruct Hd as [O1 A1 B1 C1 D1 Q1 N1 R1 M1 K1]. by split. }
  unfold wp. destruct (m (c_world c)) as [[] w'|w'|f]; [by apply Hrun..|done].
Qed.

(** A log message is no connect message. *)
Definition no_connect (w w' : world) : Prop := connected w [] w'.

Lemma emitted_outputs w es w' : outputs w es w' → emitted w w' = es.
Proof. unfold outputs, emitted. intros ->. apply drop_app_length. Qed.

#[local] Instance no_connect_preorder : PreOrder no_connect.
Proof.
  split; [intros w; exists []; by split; [apply outputs_nil|]|].
  intros w1 w2 w3 (e1 & O1 & C1) (e2 & O2 & C2). exists (e1 ++ e2).
  split; [by eapply outputs_trans|]. by rewrite connects_app, C1, C2.
Qed.

#[local] Instance no_connect_frame c : Frame c no_connect.
Proof.
  split; try apply _; intros w; intros; try (exists []; by split; [apply outputs_nil|]).
  - match goal with H : fetched _ _ |- _ => destruct H as (k & l & n & p & logs & ->) end.
    exists (map (EvLog 3) logs). split; [done|]. by induction logs.
  - by eexists [_].
  - by eexists [_].
Qed.

Lemma log_send_plain c message severity : yields c no_connect (λ _, True) (log_send message severity).
Proof. apply stays_log_send. Qed.

(** The logger: its line becomes a message, or nothing. *)
Lemma good_logger n : good_log (logger print n).
Proof using print_fits JL.
  induction n as [|n IH]; intros comp sv text c v Ho Hn; cbn [logger].
  - apply wp_ret. exists v, []. by apply handed_refl.
  - assert (∃ v' ms, handed c v ms [] c v') as Hsame by (exists v, []; by apply handed_refl).
    unfold uc_log. apply wp_bind, wp_gets. simpl get_log.
    destruct (is_recursion (c_log c)) eqn:Er; [by apply wp_ret|].
    destruct (sv <? 0); [by apply wp_ret|]. destruct (_ || _); [by apply wp_ret|].
    apply wp_bind, wp_modify, wp_bind. set (c1 := put_log _ c).
    apply (run_proto_spec _ _ c1 v); [done..|].
    pose proof (wp_conj _ _ _ _ _ _ _ _ (safe_log_send (log_line comp text) sv (c_world c1))
      (log_send_plain _ _ _ (c_world c1) eq_refl)) as Hlog.
    assert (∀ w', no_connect (c_world c1) w' → ∀ v' ms cs c', handed c1 v ms cs c' v' →
      delivered c1 cs (emitted (c_world c1) w') →
      ∃ v' ms, handed c v ms [] (put_log (get_log c' <| is_recursion := false |>) c') v') as Hend.
    { intros w' (es & Ho' & Hes) v' ms cs c' Hd [Hsub _].
      rewrite (emitted_outputs _ _ _ Ho'), Hes in Hsub. apply sublist_nil_r in Hsub as ->.
      exists v', ms. destruct Hd as [O1 A1 B1 C1 D1 Q1 N1 R1 M1 K1]. split; try done.
      rewrite R1. unfold c1. destruct c as [? [] ]; simpl in *. by rewrite Er. }
    eapply wp_mono; [exact Hlog|..]; simpl; [| |by intros f []].
    + intros _ w' (_ & _ & Hnc & _) v' ms cs c' Hd Hdel. apply wp_modify. by eapply Hend.
    + intros w' (_ & Hnc & _) v' ms cs c' Hd Hdel. apply wp_modify. by eapply Hend.
Qed.

(** ** Sending

    [pumped c v evs ms c' v']: the events [evs] went to the network and the
    messages [ms], reports of failed writes, to the queue. *)
Definition no_failed (evs : list wire_event) : Prop :=
  Forall (λ e, ∀ w m, e ≠ WWrite w m false) evs.

Record pumped (c : client) (v : view) (evs : list wire_event) (ms : list string)
    (c' : client) (v' : view) : Prop := {
  pu_owned : owned v' (c_tx c');
  pu_cur : v_cur v' = None;
  pu_new : v_new v' = None;
  pu_queue : (v_queue v').*2 = (v_queue v).*2 ++ ms;
  pu_connect : snd <$> v_connect v' = snd <$> v_connect v;
  pu_trace : c_trace c' = c_trace c ++ evs;
  pu_rest : c' = c <| c_tx := c_tx c' |> <| c_world := c_world c' |> <| c_cancel := c_cancel c' |>
                   <| c_lws := c_lws c' |> <| c_trace := c_trace c' |>;
  pu_failed : no_failed evs → ms = [];
  pu_cancel : c_cancel c' = c_cancel c || (c_context c && bool_decide (ms ≠ []))
}.

(** What happens to a message taken off the list. *)
Definition outcome_of (c : client) (m : string) (e : wire_event) : Prop :=
  match c_websocket c with Some w => ∃ ok, e = WWrite w m ok | None => e = WDrop m end.

Lemma wp_lws_write wsi m c (Q : bool → client → Prop) X F :
  (∀ ok l, Q ok (c <| c_lws := l |> <| c_trace := c_trace c ++ [WWrite wsi m ok] |>)) →
  wp (lws_write wsi m) Q X F c.
Proof.
  intros HQ. unfold lws_write, lws_outcome, wire, modify, ret, wp, mbind, M_bind.
  destruct (c_lws c) as [|ok l] eqn:El; [|apply HQ].
  specialize (HQ true []). destruct c; simpl in *. by subst.
Qed.

Lemma client_log_spec comp sv text c v (Q : unit → client → Prop) X F :
  owned v (c_tx c) → v_new v = None →
  (∀ v' ms c', handed c v ms [] c' v' → Q tt c') →
  wp (client_log print comp sv text) Q X F c.
Proof using print_fits JL.
  intros Ho Hn HQ. eapply wp_mono; [by apply (good_logger 1 comp sv text c v)|..]; try done.
  intros [] c' (v' & ms & Hd). eauto.
Qed.

Lemma writeable_step_spec a s l c v (Q : option positive → client → Prop) X F :
  v_hp v = Some a → v_held v = (a, s) :: l → v_cur v = None → v_new v = None →
  owned v (c_tx c) →
  (∀ v' e ms c', pumped c v [e] ms c' v' → outcome_of c s e → v_held v' = l →
     Q (v_hp v') c') →
  wp (writeable_step print a) Q X F c.
Proof using print_fits JL.
  intros Hp Hh Hcu Hn Ho HQ. unfold writeable_step, outcome_of in *.
  apply wp_bind, wp_in_tx, (txq_read_spec a s l v); [done..|]. intros hp Ho1.
  set (v1 := v <| v_hp := hp |> <| v_held := l |> <| v_cur := Some (a, s) |>) in *.
  replace (c <| c_tx := c_tx c |>) with c by by destruct c.
  apply wp_bind, wp_gets. 
  assert (∀ e lw ms c2 v2,
    handed (c <| c_lws := lw |> <| c_trace := c_trace c ++ [e] |>) v1 ms [] c2 v2 →
    outcome_of c s e → (no_failed [e] → ms = []) →
    wp (_ ← in_tx (free a); ret hp) Q X F c2) as Hfree.
  { intros e lw ms c2 v2 [O1 A1 B1 C1 D1 Q1 N1 R1 M1 K1] He Hms. simpl in A1, B1, Q1, N1, K1.
    apply wp_bind, wp_in_tx, (free_cur_spec a s v2); [by rewrite C1|done|]. intros t Ho2 _.
    apply wp_ret. rewrite <- A1.
    set (v3 := v2 <| v_cur := None |>) in *. set (c3 := c2 <| c_tx := t |>) in *.
    apply (HQ v3 e ms c3); [|done|done].
    split; simpl; try done.
    - rewrite N1. by destruct (v_connect v).
    - by rewrite R1.
    - unfold c3. destruct c2, c. simpl in R1 |- *. by injection R1 as -> -> -> -> -> -> -> -> -> -> -> -> ->.
    - rewrite K1. simpl. by rewrite app_nil_r. }
  destruct (c_websocket c) as [wsi|] eqn:Ew; apply wp_bind.
  - apply wp_bind, wp_lws_write. intros ok lw. apply wp_when; intros Hok.
    + destruct ok; [done|]. apply (client_log_spec _ _ _ _ v1); [done..|].
      intros v2 ms c2 Hd. eapply Hfree; [exact Hd| |].
      * unfold outcome_of. rewrite Ew. by eexists.
      * intros [Hf _]%Forall_cons. by destruct (Hf wsi s).
    + destruct ok; [|done]. apply (Hfree (WWrite wsi s true) lw [] _ v1).
      * by apply handed_refl.
      * unfold outcome_of. rewrite Ew. by eexists.
      * done.
  - apply wp_modify, (Hfree (WDrop s) (c_lws c) [] _ v1).
    + set (c1 := _ <| c_trace := _ |>). destruct c. by apply (handed_refl c1 v1).
    + unfold outcome_of. by rewrite Ew.
    + done.
Qed.

Lemma pumped_refl c v :
  owned v (c_tx c) → v_cur v = None → v_new v = None → pumped c v [] [] c v.
Proof.
  intros Ho Hcu Hn. split; rewrite ?app_nil_r; try done; [by destruct c|].
  by rewrite andb_false_r, orb_false_r.
Qed.

Lemma pumped_trans c v evs ms c1 v1 evs1 ms1 c2 v2 :
  pumped c v evs ms c1 v1 → pumped c1 v1 evs1 ms1 c2 v2 →
  pumped c v (evs ++ evs1) (ms ++ ms1) c2 v2.
Proof.
  intros [O1 B1 C1 Q1 N1 T1 R1 F1 K1] [O2 B2 C2 Q2 N2 T2 R2 F2 K2].
  split; try congruence.
  - by rewrite Q2, Q1, app_assoc.
  - by rewrite T2, T1, app_assoc.
  - destruct c, c1, c2. simpl in *. injection R1 as -> -> -> -> -> -> -> -> -> -> -> ->.
    by injection R2 as -> -> -> -> -> -> -> -> -> -> -> ->.
  - unfold no_failed. intros [H1 H2]%Forall_app. by rewrite F1, F2.
  - rewrite K2, K1. replace (c_context c1) with (c_context c) by by rewrite R1.
    rewrite <- orb_assoc. f_equal. destruct (c_context c); [|done]. by destruct ms, ms1.
Qed.

(** The loop: every message of the list, in order, each once. *)
Lemma writeable_loop_spec fuel c v (Q : unit → client → Prop) F :
  (length (v_held v) < fuel)%nat → v_cur v = None → v_new v = None → owned v (c_tx c) →
  (∀ v' evs ms c', pumped c v evs ms c' v' → Forall2 (outcome_of c) (v_held v).*2 evs →
     v_held v' = [] → v_hp v' = None → Q tt c') →
  wp (writeable_loop print fuel (v_hp v)) Q (λ _, False) F c.
Proof using print_fits JL.
  revert c v. induction fuel as [|fuel IH]; intros c v Hl Hcu Hn Ho HQ; [lia|].
  pose proof (ow_held _ _ Ho) as Hh. destruct (v_held v) as [|[a s] l] eqn:El.
  - simpl in Hh. rewrite Hh. apply wp_ret. apply (HQ v [] []); [by apply pumped_refl|constructor|done..].
  - destruct Hh as (Hp & _). rewrite Hp. cbn [writeable_loop].
    apply wp_bind, (writeable_step_spec a s l c v); [done..|]. intros v1 e ms c1 Hpu He Hl1.
    apply IH; [by rewrite Hl1; simpl in Hl; lia|apply Hpu..|].
    intros v2 evs ms2 c2 Hpu2 Hes Hh2 Hp2. apply (HQ v2 ([e] ++ evs) (ms ++ ms2)); [|constructor|..]; try done.
    + by eapply pumped_trans.
    + rewrite Hl1 in Hes. eapply Forall2_impl; [exact Hes|]. intros m e'. unfold outcome_of.
      destruct Hpu as [_ _ _ _ _ _ R _ _]. by rewrite R.
Qed.

(** ** Between callbacks

    The service thread holds no node; what waits is the connect message and
    the queue. *)
Record idle (c : client) (v : view) : Prop := {
  id_owned : owned v (c_tx c);
  id_hp : v_hp v = None;
  id_held : v_held v = [];
  id_cur : v_cur v = None;
  id_new : v_new v = None
}.

Definition pending (v : view) : list string :=
  option_list (snd <$> v_connect v) ++ (v_queue v).*2.

Lemma fmap_option_list {A B} (f : A → B) (o : option A) :
  f <$> option_list o = option_list (f <$> o).
Proof. by destruct o. Qed.

Lemma idle_handed c v ms cs c' v' : idle c v → handed c v ms cs c' v' → idle c' v'.
Proof. intros [] []. split; congruence. Qed.

Lemma client_writeable_spec c v (Q : unit → client → Prop) F :
  idle c v →
  (∀ v' evs ms c', idle c' v' → v_connect v' = None → (v_queue v').*2 = ms →
     c_trace c' = c_trace c ++ evs → Forall2 (outcome_of c) (pending v) evs →
     (no_failed evs → ms = []) → c_websocket c' = c_websocket c → c_context c' = c_context c →
     c_writable c' = c_writable c → c_conn_successfull c' = c_conn_successfull c →
     c_cancel c' = c_cancel c || (c_context c && bool_decide (ms ≠ [])) → Q tt c') →
  wp (client_writeable print) Q (λ _, False) F c.
Proof using print_fits JL.
  intros [Ho Hp Hh Hcu Hn] HQ. unfold client_writeable.
  apply wp_bind, wp_in_tx, (txq_pull_spec v); [done..|]. intros hp t1 Ho1 _.
  apply wp_bind, wp_in_tx, (txq_connect_spec _ t1 _ _ _ Ho1). simpl. intros hp2 t2 Ho2 _.
  set (v2 := mk_view _ _ _ _ _ _) in Ho2.
  apply wp_bind, wp_gets. simpl.
  set (c2 := c <| c_tx := t2 |>). apply (writeable_loop_spec _ c2 v2); simpl; try done.
  { pose proof (owned_held_size _ _ Ho2) as Hs. simpl in Hs. lia. }
  intros v' evs ms c' [O1 B1 C1 Q1 N1 T1 R1 F1 K1] Hes Hh' Hp'. simpl in *.
  apply (HQ v' evs ms); try done.
  - by destruct (v_connect v').
  - unfold pending. rewrite fmap_app, fmap_option_list in Hes. exact Hes.
  - by rewrite R1. - by rewrite R1. - by rewrite R1. - by rewrite R1.
Qed.

(** ** What the callback promises

    The transmit side seen from outside: a connect message that replaces the
    one before it, a first-in first-out queue, and a flush that empties both,
    the connect message first.  [ms] in [os_flush] are the reports of failed
    writes. *)
Record outbox := mk_outbox { ob_connect : option string; ob_queue : list string }.

Definition outbox_of (v : view) : outbox := mk_outbox (snd <$> v_connect v) (v_queue v).*2.

Inductive outbox_step (ws : option positive) : outbox → list wire_event → outbox → Prop :=
  | os_hand cn q ms cs :
      outbox_step ws (mk_outbox cn q) [] (mk_outbox (last (option_list cn ++ cs)) (q ++ ms))
  | os_flush cn q evs ms :
      Forall2 (λ m e, match ws with Some w => ∃ ok, e = WWrite w m ok | None => e = WDrop m end)
        (option_list cn ++ q) evs →
      (no_failed evs → ms = []) →
      outbox_step ws (mk_outbox cn q) evs (mk_outbox None ms).

(** The messages among the network events. *)
Definition is_message (e : wire_event) : bool :=
  match e with WWrite _ _ _ | WDrop _ => true | _ => false end.
Definition messages (evs : list wire_event) : list wire_event := List.filter is_message evs.

(** The socket and the flag [main] looks at. *)
Definition session_after (reason : lws_callback_reasons) (wsi : positive) (c : client)
    : option positive * Z :=
  match reason with
  | LWS_CALLBACK_CLIENT_ESTABLISHED => (Some wsi, 1)
  | LWS_CALLBACK_CLIENT_CONNECTION_ERROR => (None, 0)
  | LWS_CALLBACK_CLIENT_CLOSED => (None, c_conn_successfull c)
  | _ => (c_websocket c, c_conn_successfull c)
  end.

(** Where a fault can come from. *)
Definition callback_fault (reason : lws_callback_reasons) (c : client) (f : fault) : Prop :=
  match reason with
  | LWS_CALLBACK_CLIENT_ESTABLISHED => connect_send (c_world c) = Fault f
  | LWS_CALLBACK_CLIENT_RECEIVE text => proto_handle text (c_world c) = Fault f
  | LWS_CALLBACK_PROTOCOL_INIT => f = NullDeref
  | LWS_CALLBACK_PROTOCOL_DESTROY | LWS_CALLBACK_CLIENT_CONNECTION_ERROR
  | LWS_CALLBACK_CLIENT_CLOSED => c_vhd c = false ∧ f = NullDeref
  | _ => False
  end.

Definition callback_post (reason : lws_callback_reasons) (wsi : positive) (c : client)
    (v : view) (c' : client) : Prop :=
  ∃ v' evs, idle c' v' ∧ c_trace c' = c_trace c ++ evs ∧
    outbox_step (c_websocket c) (outbox_of v) (messages evs) (outbox_of v') ∧
    (c_websocket c', c_conn_successfull c') = session_after reason wsi c.

Lemma os_same ws v : outbox_step ws (outbox_of v) [] (outbox_of v).
Proof.
  pose proof (os_hand ws (snd <$> v_connect v) (v_queue v).*2 [] []) as H.
  by rewrite !app_nil_r, last_option in H.
Qed.

Lemma os_handed c v ms cs c' v' ws :
  handed c v ms cs c' v' → outbox_step ws (outbox_of v) [] (outbox_of v').
Proof. intros []. unfold outbox_of. rewrite hd_queue0, hd_connect0. constructor. Qed.

Lemma proto_spec m c v (Q : unit → client → Prop) X (F : fault → Prop) :
  idle c v → (∀ f, m (c_world c) = Fault f → F f) →
  (∀ v' ms cs c', handed c v ms cs c' v' → Q tt c') →
  wp (proto print m) Q X F c.
Proof using print_fits JL.
  intros Hi HF HQ. apply (run_proto_spec _ _ _ v); [apply good_logger|apply Hi..|].
  unfold wp. destruct (m (c_world c)) eqn:Em; eauto.
Qed.

Lemma client_closed_spec c v (Q : unit → client → Prop) X (F : fault → Prop) :
  idle c v → (c_vhd c = false → F NullDeref) →
  (∀ c', idle c' v → c_trace c' = c_trace c → c_websocket c' = None →
     c_conn_successfull c' = c_conn_successfull c → c_sul c' = true → c_context c' = c_context c →
     c_writable c' = c_writable c → c_cancel c' = c_cancel c → Q tt c') →
  wp client_closed Q X F c.
Proof.
  intros Hi HF HQ. unfold client_closed, set_conn_time. apply wp_bind, wp_modify, wp_bind, wp_modify.
  apply wp_bind, wp_gets. simpl. destruct (c_vhd c) eqn:Ev; simpl; [|by apply wp_faulty, HF].
  apply wp_bind, wp_modify, wp_modify, HQ; [|done..]. by destruct Hi.
Qed.

Lemma outcomes_messages c l evs : Forall2 (outcome_of c) l evs → messages evs = evs.
Proof.
  unfold outcome_of, messages. induction 1 as [|m e l evs He _ IH]; [done|]. simpl.
  rewrite IH. destruct (c_websocket c); [by destruct He as [ok ->]|by subst].
Qed.

Lemma wp_lws_outcome c (Q : bool → client → Prop) X F :
  (∀ b l, Q b (c <| c_lws := l |>)) → wp lws_outcome Q X F c.
Proof.
  intros HQ. unfold lws_outcome, wp. destruct (c_lws c) as [|b l] eqn:El; [|apply HQ].
  specialize (HQ true []). destruct c; simpl in *. by subst.
Qed.

(** C25: the websocket callback, for every reason libwebsockets calls it with:
    the nodes of the queue behave as the outbox above (no message is lost,
    repeated or reordered, no node is leaked, freed twice or read after it was
    freed), the socket and the connection flag are the ones of the last event,
    and what can go wrong is a crash of the protocol layer or a vhost whose
    data was never allocated. *)
Theorem callback_refines_outbox (wsi : positive) reason (c : client) (v : view) :
  idle c v →
  wp (callback_broker print wsi reason) (λ _ c', callback_post reason wsi c v c')
    (λ _, False) (callback_fault reason c) c.
Proof using print_fits JL.
  intros Hi.
  assert (∀ c' evs, idle c' v → c_trace c' = c_trace c ++ evs → messages evs = [] →
    (c_websocket c', c_conn_successfull c') = session_after reason wsi c →
    callback_post reason wsi c v c') as Hquiet.
  { intros c' evs Hi' Ht Hm Hs. exists v, evs. rewrite Hm. split_and!; try done. apply os_same. }
  destruct reason as [| | | | | | |text| | | | |]; simpl.
  all: try (apply wp_ret, (Hquiet c []); [done| |done..]; by rewrite app_nil_r).
  - unfold gateway_cert_trust. apply wp_bind, wp_bind, wp_gets, wp_ret, wp_when; intros _.
    + by apply wp_modify, (Hquiet _ [WTrust]); [destruct Hi|..].
    + apply (Hquiet c []); [done| |done..]; by rewrite app_nil_r.
  - apply wp_bind, wp_lws_outcome. intros b l. destruct b; simpl; [|by apply wp_faulty].
    unfold sul_connect_attempt. apply wp_bind, wp_modify, wp_bind, wp_gets, wp_bind, wp_lws_outcome.
    intros b l2. apply wp_bind, wp_modify, wp_when; intros _.
    + apply wp_modify. eapply Hquiet; [|simpl; done|done|done]. by destruct Hi.
    + eapply Hquiet; [|simpl; done|done|done]. by destruct Hi.
  - apply wp_bind, wp_gets. destruct (c_vhd c) eqn:Ev; simpl; [|by apply wp_faulty].
    apply wp_modify, (Hquiet _ []); [by destruct Hi| |done..]. by rewrite app_nil_r.
  - apply wp_bind, wp_modify, wp_bind, wp_modify, wp_bind. set (c1 := _ <| c_websocket := _ |>).
    apply (proto_spec _ c1 v); [by destruct Hi|done|].
    intros v' ms cs c2 Hd. pose proof (handed_fields _ _ _ _ _ _ Hd) as (H1 & H2 & H3 & _).
    assert (idle c1 v) as Hi1 by by destruct Hi.
    pose proof (idle_handed _ _ _ _ _ _ Hi1 Hd) as Hi2.
    apply wp_bind, wp_modify, wp_modify. exists v', [].
    split_and!; [by destruct Hi2|simpl; by rewrite app_nil_r, H1|by eapply os_handed|].
    simpl. by rewrite H2.
  - apply (proto_spec _ c v); [done..|]. intros v' ms cs c2 Hd. exists v', [].
    pose proof (handed_fields _ _ _ _ _ _ Hd) as (H1 & H2 & H3 & _).
    split_and!; [by eapply idle_handed|by rewrite app_nil_r|by eapply os_handed|by rewrite H2, H3].
  - apply wp_bind, (client_log_spec _ _ _ _ v); [apply Hi..|]. intros v' ms c2 Hd.
    pose proof (idle_handed _ _ _ _ _ _ Hi Hd) as Hi2.
    pose proof (handed_fields _ _ _ _ _ _ Hd) as (H1 & H2 & H3 & _ & _ & H4 & _).
    apply wp_bind, wp_modify. set (c3 := c2 <| c_conn_successfull := 0 |>).
    apply (client_closed_spec c3 v'); [by destruct Hi2|intros Hv; split; [|done]; by rewrite <- H4|].
    intros c' Hi' Ht Hw Hs _ _ _ _. exists v', [].
    split_and!; [done|by rewrite Ht, app_nil_r|by eapply os_handed|by rewrite Hw, Hs].
  - apply (client_closed_spec c v); [done..|]. intros c' Hi' Ht Hw Hs _ _ _ _.
    apply (Hquiet c' []); [done|by rewrite Ht, app_nil_r|done|]. by rewrite Hw, Hs.
  - apply (client_writeable_spec c v); [done|]. intros v' evs ms c' Hi' Hc Hq Ht Hes Hms Hw _ _ Hs _.
    exists v', evs. split_and!; [done..| |by rewrite Hw, Hs].
    rewrite (outcomes_messages c _ _ Hes). unfold outbox_of. rewrite Hc, Hq.
    by constructor.
  - unfold wait_cancelled. apply wp_bind, wp_gets. destruct (c_websocket c) as [w|] eqn:Ew.
    + apply wp_modify, (Hquiet _ []); [by destruct Hi|by rewrite app_nil_r|done|]. done.
    + apply wp_ret, (Hquiet c []); [done|by rewrite app_nil_r|done|]. done.
Qed.

Lemma owned_empty v t : owned v t → v_items v = [] → t_mem t = ∅.
Proof.
  intros Ho Hv. apply map_empty. intros a. destruct (t_mem t !! a) eqn:Ea; [|done].
  assert (a ∈ (v_items v).*1) as Ha by by apply (ow_dom _ _ Ho); eexists.
  rewrite Hv in Ha. by apply not_elem_of_nil in Ha.
Qed.

(** C32: a writable callback on an open socket returns, with every waiting
    message passed to lws_write, once and in order, the connect message first;
    when the writes succeed, nothing is left waiting and all memory of the
    queue is freed. *)
Theorem flush_sends_all (w : positive) (c : client) (v : view) :
  idle c v → c_websocket c = Some w →
  ∃ c' oks, client_writeable print c = Ok tt c' ∧
    length oks = length (pending v) ∧
    c_trace c' = c_trace c ++ zip_with (WWrite w) (pending v) oks ∧
    (Forall (eq true) oks → t_mem (c_tx c') = ∅).
Proof using print_fits JL.
  intros Hi Hw.
  assert (wp (client_writeable print) (λ _ c', ∃ oks, length oks = length (pending v) ∧
    c_trace c' = c_trace c ++ zip_with (WWrite w) (pending v) oks ∧
    (Forall (eq true) oks → t_mem (c_tx c') = ∅)) (λ _, False) no_fault c) as H.
  { apply (client_writeable_spec c v); [done|].
    intros v' evs ms c' Hi' Hc Hq Ht Hes Hms _ _ _ _ _.
    assert (∃ oks, length oks = length (pending v) ∧ evs = zip_with (WWrite w) (pending v) oks)
      as (oks & Hl & ->).
    { clear -Hes Hw. unfold outcome_of in Hes. rewrite Hw in Hes.
      induction Hes as [|m e l evs [ok ->] _ (oks & Hl & ->)]; [by exists []|].
      exists (ok :: oks). simpl. by rewrite Hl. }
    exists oks. split_and!; [done..|]. intros Hall.
    destruct Hi' as [Ho' Hp' Hh' Hcu' Hn']. apply (owned_empty v'); [done|].
    rewrite Hms in Hq.
    - apply fmap_nil_inv in Hq. unfold v_items. by rewrite Hq, Hc, Hn', Hcu', Hh'.
    - clear -Hall. revert oks Hall. induction (pending v) as [|m l IH]; intros [|ok oks] Hall;
        simpl; constructor; apply Forall_cons in Hall as [<- Hall]; [done|by apply IH]. }
  unfold wp in H. destruct (client_writeable print c) as [[] c'|c'|f]; [|done..].
  destruct H as (oks & H1 & H2 & H3). by exists c', oks.
Qed.

(** The first thing written on a new socket is the connect message of that
    session, in front of everything that was still waiting from the sessions
    before it. *)
Theorem session_starts_with_connect (wsi : positive) (c : client) (v : view) (version : json) :
  idle c v → no_oom (c_world c) → t_calloc (c_tx c) = [] →
  json_file (c_world c) (cl_ols_client_version_file (w_client (c_world c))) = Some version →
  ∃ c' pinfo ok rest,
    (_ ← callback_broker print wsi LWS_CALLBACK_CLIENT_ESTABLISHED;
     callback_broker print wsi LWS_CALLBACK_CLIENT_WRITEABLE) c = Ok tt c' ∧
    c_trace c' = c_trace c ++
      WWrite wsi (print (connect_msg (c_world c) version pinfo)) ok :: rest.
Proof using print_fits JL.
  intros Hi Hm Hc Hv.
  assert (wp (_ ← callback_broker print wsi LWS_CALLBACK_CLIENT_ESTABLISHED;
     callback_broker print wsi LWS_CALLBACK_CLIENT_WRITEABLE)
    (λ _ c', ∃ pinfo ok rest, c_trace c' = c_trace c ++
      WWrite wsi (print (connect_msg (c_world c) version pinfo)) ok :: rest)
    (λ _, False) no_fault c) as H.
  { simpl. apply wp_bind, wp_bind, wp_modify, wp_bind, wp_modify, wp_bind.
    set (c1 := _ <| c_websocket := _ |>).
    apply (run_proto_spec _ _ c1 v); [apply good_logger|apply Hi..|].
    eapply wp_mono; [by apply (connect_outcome (c_world c1))|..]; try done.
    intros _ w' (_ & _ & Hsent) v1 ms cs c2 Hd [_ Hcs].
    simpl in Hsent. rewrite Hv in Hsent. destruct Hsent as (pinfo & es & Ho & Hes).
    specialize (Hcs Hc). rewrite (emitted_outputs (c_world c1) _ _ Ho), Hes in Hcs.
    assert (idle c1 v) as Hi1 by by destruct Hi.
    pose proof (idle_handed _ _ _ _ _ _ Hi1 Hd) as Hi2.
    pose proof (handed_fields _ _ _ _ _ _ Hd) as (H1 & H2 & _).
    apply wp_bind, wp_modify, wp_modify.
    apply (client_writeable_spec _ v1); [by destruct Hi2|].
    intros v' evs ms2 c3 _ _ _ Ht Hes2 _ _ _ _ _ _.
    pose proof (hd_connect _ _ _ _ _ _ Hd) as Hcn. rewrite Hcs, last_app in Hcn. simpl in Hcn.
    unfold pending in Hes2. rewrite Hcn in Hes2. simpl in Hes2.
    inversion Hes2 as [|m e l evs' He Hrest]; subst. unfold outcome_of in He. simpl in He, Ht.
    rewrite H2 in He. destruct He as [ok ->]. exists pinfo, ok, evs'. by rewrite Ht, H1. }
  unfold wp in H. case_match; [|done..]. match goal with u : () |- _ => destruct u end.
  destruct H as (pinfo & ok & rest & H). by eexists _, pinfo, ok, rest.
Qed.

(** ** The depth of logging *)

Definition recursing (c : client) : Prop := is_recursion (c_log c) = true.

Lemma logger_recursing n comp sv text c :
  recursing c → logger print n comp sv text c = Ok tt c.
Proof using. destruct n; [done|]. intros Hr. by apply uc_log_recursion. Qed.

Lemma in_tx_log {A} (m : M txs A) c : wp (in_tx m) (λ _ c', c_log c' = c_log c) (λ _, True) any_fault c.
Proof using. unfold wp, in_tx. by destruct (m (c_tx c)). Qed.

Lemma deliver_depth n e c :
  recursing c → deliver print (logger print n) e c = deliver print (logger print 0) e c.
Proof using.
  intros Hr. destruct e as [j|j|sv text| | | |]; simpl; try done.
  - unfold txq_msg_proto_cb, mbind, M_bind.
    pose proof (in_tx_log (txq_new (print j)) c) as Hl. unfold wp in Hl.
    destruct (in_tx (txq_new (print j)) c) as [[p|] c1|c1|f]; [done| |done..].
    apply logger_recursing. unfold recursing. by rewrite Hl.
  - unfold txq_connect_msg_proto_cb, mbind, M_bind.
    pose proof (in_tx_log (txq_new (print j)) c) as Hl. unfold wp in Hl.
    destruct (in_tx (txq_new (print j)) c) as [[p|] c1|c1|f]; [done| |done..].
    apply logger_recursing. unfold recursing. by rewrite Hl.
  - by apply logger_recursing.
Qed.

Lemma deliver_log e c :
  wp (deliver print (logger print 0) e) (λ _ c', c_log c' = c_log c) (λ _, True) any_fault c.
Proof using.
  destruct e as [j|j| | | | |]; simpl; try done.
  - unfold txq_msg_proto_cb. apply wp_bind. eapply wp_mono; [apply in_tx_log|..]; try done.
    intros [p|] c1 H1; [|done]. apply wp_bind. eapply wp_mono; [apply in_tx_log|..]; try done.
    intros ? c2 H2. apply wp_bind, wp_gets, wp_when; intros _; [apply wp_modify|]; simpl; congruence.
  - unfold txq_connect_msg_proto_cb. apply wp_bind. eapply wp_mono; [apply in_tx_log|..]; try done.
    intros [p|] c1 H1; [|done]. apply wp_bind. eapply wp_mono; [apply in_tx_log|..]; try done.
    intros ? c2 H2. apply wp_bind, wp_gets, wp_when; intros _; [apply wp_modify|]; simpl; congruence.
Qed.

Lemma deliver_all_depth n es c :
  recursing c →
  for_each es (deliver print (logger print n)) c = for_each es (deliver print (logger print 0)) c.
Proof using.
  revert c. induction es as [|e es IH]; intros c Hr; [done|]. cbn [for_each].
  rewrite deliver_depth by done. pose proof (deliver_log e c) as Hl. unfold wp in Hl.
  destruct (deliver print (logger print 0) e c) as [[] c1|c1|f]; [|done..].
  apply IH. unfold recursing. by rewrite Hl.
Qed.

(** A line logged while another one is being sent is dropped: however deep
    the loggers are allowed to nest, the result is the one of a single level,
    so the mutual calls of uc_log and log_send end. *)
Theorem logger_depth (n : nat) comp sv text (c : client) :
  logger print (S n) comp sv text c = logger print 1 comp sv text c.
Proof using.
  cbn [logger]. unfold uc_log, mbind, M_bind, gets. 
  destruct (is_recursion _); [done|]. destruct (sv <? 0); [done|]. destruct (_ || _); [done|].
  cbn [set_recursion modify]. unfold set_recursion, modify, run_proto.
  destruct (log_send _ _ _) as [[] w|w|f]; [|..|done].
  all: by rewrite deliver_all_depth.
Qed.
End spec.

(** ** On the sample platform: one message waits, a connect message too *)
Section witnesses.
#[local] Existing Instances jtree_cjson jtree_laws sample_platform sample_libc sample_est amd64.

#[local] Instance sample_lws : Lws.
Proof. refine {| LWS_PRE := 20 |}. done. Defined.

Definition sample_print (j : @json jtree_cjson) : string := "{}".
Lemma sample_print_fits j : fits (sample_print j).
Proof. done. Qed.

Definition sample_txs : txs :=
  mk_txs [] {[1%positive := mk_txq None 21 "a"; 2%positive := mk_txq None 21 "b"]}
    (Some 1%positive) (Some 1%positive) (Some 2%positive).
Definition sample_view : view :=
  mk_view None [] None None (Some (2%positive, "b")) [(1%positive, "a")].

Definition sample_log : ulog := mk_ulog [0; 4; 4; 4] true false.
Definition sample_wire (w : world) : client :=
  mk_client _ _ sample_txs sample_log w client_default true true (Some 1%positive) None 1 0 0 ∅ false ∅
    false [] [].

Lemma sample_idle w : idle (sample_wire w) sample_view.
Proof.
  split; [|done..]. split.
  - split; [done|]. exists (mk_txq None 21 "a"). split_and!; [reflexivity|split; reflexivity|reflexivity].
  - done.
  - done.
  - split; [done|]. exists (mk_txq None 21 "b"). split_and!; [reflexivity|split; reflexivity|reflexivity].
  - done.
  - done.
  - apply (bool_decide_unpack _). vm_compute. exact I.
  - intros a [m Hm]. simpl in Hm. destruct (decide (a = 1%positive)) as [->|H1]; [set_solver|].
    destruct (decide (a = 2%positive)) as [->|H2]; [set_solver|].
    by rewrite lookup_insert_ne, lookup_singleton_ne in Hm.
Qed.

Lemma callback_refines_outbox_witness :
  idle (sample_wire (sample_world 0)) sample_view ∧
  wp (callback_broker sample_print 1%positive LWS_CALLBACK_CLIENT_WRITEABLE)
    (λ _ c', callback_post LWS_CALLBACK_CLIENT_WRITEABLE 1%positive (sample_wire (sample_world 0))
       sample_view c')
    (λ _, False) (callback_fault LWS_CALLBACK_CLIENT_WRITEABLE (sample_wire (sample_world 0)))
    (sample_wire (sample_world 0)).
Proof.
  split; [apply sample_idle|].
  apply (callback_refines_outbox sample_print sample_print_fits), sample_idle.
Defined.

Lemma flush_sends_all_witness :
  c_websocket (sample_wire (sample_world 0)) = Some 1%positive ∧
  ∃ c' oks, client_writeable sample_print (sample_wire (sample_world 0)) = Ok tt c' ∧
    length oks = 2%nat ∧ c_trace c' = zip_with (WWrite 1) ["b"; "a"] oks ∧
    (Forall (eq true) oks → t_mem (c_tx c') = ∅).
Proof.
  split; [reflexivity|].
  exact (flush_sends_all sample_print sample_print_fits 1 (sample_wire (sample_world 0)) sample_view
           (sample_idle _) eq_refl).
Defined.

Lemma session_starts_with_connect_witness :
  ∃ version, json_file sample_boot (cl_ols_client_version_file (w_client sample_boot)) = Some version ∧
  ∃ c' pinfo ok rest,
    (_ ← callback_broker sample_print 7%positive LWS_CALLBACK_CLIENT_ESTABLISHED;
     callback_broker sample_print 7%positive LWS_CALLBACK_CLIENT_WRITEABLE) (sample_wire sample_boot)
      = Ok tt c' ∧
    c_trace c' = WWrite 7 (sample_print (connect_msg sample_boot version pinfo)) ok :: rest.
Proof.
  eexists. split; [vm_compute; reflexivity|].
  apply (session_starts_with_connect sample_print sample_print_fits 7 (sample_wire sample_boot)
           sample_view); [apply sample_idle|reflexivity|reflexivity|vm_compute; reflexivity].
Defined.
End witnesses.
