(* ===== verification/Interleave.v ===== *)
(** * The service thread and the threads that send

    The platform's threads hand messages over while the service thread runs
    the websocket callback; [txqmtx] protects each access to the queue, and
    between two of them anything may happen.  [sys_step] is one such access,
    or a part of the callback that touches no shared variable.  The wake-up is
    a protocol of its own: a sender enqueues, then calls [lws_cancel_service];
    libwebsockets answers with LWS_CALLBACK_EVENT_WAIT_CANCELLED, which asks
    for LWS_CALLBACK_CLIENT_WRITEABLE, which empties the queue.  The theorem is
    that no interleaving loses a wake-up. *)

From S2P Require Import Prelude CNum CStr Log Txq Bitmap Router Json PlatTypes World ProtoConv Messages CfgServices CfgParse Handlers Dispatch Connect Events Sample Client ClientSpec.
#[local] Open Scope list_scope.

(** Where the service thread is. *)
Inductive service_pc :=
  | SIdle                                 (* in the poll loop *)
  | SEstablished (wsi : positive)         (* the socket is set, the callback not over *)
  | SPulled (txq : option positive)       (* between the two pulls *)
  | SDraining (txq : option positive).    (* in the loop *)

Record sys `{CJson, Platform} := mk_sys {
  y_client : client;
  y_pc : service_pc;
  y_posts : nat     (* threads between their enqueue and lws_cancel_service *)
}.

Section interleave.
Context `{J : CJson, P : Platform, T : CTarget, L : CLibc, E : EstClient, W : Lws, JL : !CJsonLaws}.
Context (print : json → string) (print_fits : ∀ j, fits (print j)).

(** [txq_msg_proto_cb] and [txq_connect_msg_proto_cb] up to the end of their
    critical section: whether a message was queued. *)
Definition post (put : positive → M txs unit) (data : string) : M client bool :=
  in_tx (msg ← txq_new data;
         match msg with Some p => _ ← put p; ret true | None => ret false end).

(** The reasons whose handling no other thread can get into the middle of. *)
Definition whole (reason : lws_callback_reasons) : bool :=
  match reason with
  | LWS_CALLBACK_CLIENT_ESTABLISHED | LWS_CALLBACK_CLIENT_WRITEABLE
  | LWS_CALLBACK_EVENT_WAIT_CANCELLED => false
  | _ => true
  end.

Inductive sys_step : sys → sys → Prop :=
  (* any thread *)
  | ss_post data c pc n b c' :
      fits data → post txq_enqueue data c = Ok b c' →
      sys_step (mk_sys _ _ c pc n) (mk_sys _ _ c' pc (if b : bool then S n else n))
  | ss_post_connect data c pc n b c' :
      fits data → post txq_connect_put data c = Ok b c' →
      sys_step (mk_sys _ _ c pc n) (mk_sys _ _ c' pc (if b : bool then S n else n))
  | ss_cancel c pc n c' :
      (context ← gets c_context; when context lws_cancel_service) c = Ok tt c' →
      sys_step (mk_sys _ _ c pc (S n)) (mk_sys _ _ c' pc n)
  (* the service thread *)
  | ss_context c n :      (* context = lws_create_context(&info) *)
      sys_step (mk_sys _ _ c SIdle n) (mk_sys _ _ (c <| c_context := true |>) SIdle n)
  | ss_callback wsi reason c n c' :
      whole reason = true → callback_broker print wsi reason c = Ok tt c' →
      sys_step (mk_sys _ _ c SIdle n) (mk_sys _ _ c' SIdle n)
  | ss_established wsi c n :
      c_context c = true →
      sys_step (mk_sys _ _ c SIdle n)
        (mk_sys _ _ (c <| c_conn_time := c_now c |> <| c_websocket := Some wsi |>)
           (SEstablished wsi) n)
  | ss_established_end wsi c n c' :
      (_ ← modify (λ c, c <| c_conn_successfull := 1 |>); lws_callback_on_writable wsi) c = Ok tt c' →
      sys_step (mk_sys _ _ c (SEstablished wsi) n) (mk_sys _ _ c' SIdle n)
  | ss_wait_cancelled c n c' :
      c_cancel c = true → wait_cancelled (c <| c_cancel := false |>) = Ok tt c' →
      sys_step (mk_sys _ _ c SIdle n) (mk_sys _ _ c' SIdle n)
  | ss_writeable wsi c n txq c' :
      wsi ∈ c_writable c →
      in_tx txq_pull (c <| c_writable := c_writable c ∖ {[wsi]} |>) = Ok txq c' →
      sys_step (mk_sys _ _ c SIdle n) (mk_sys _ _ c' (SPulled txq) n)
  | ss_link txq c n txq' c' :
      in_tx (m ← txq_connect_pull; txq_link m txq) c = Ok txq' c' →
      sys_step (mk_sys _ _ c (SPulled txq) n) (mk_sys _ _ c' (SDraining txq') n)
  | ss_drain m c n txq' c' :
      writeable_step print m c = Ok txq' c' →
      sys_step (mk_sys _ _ c (SDraining (Some m)) n) (mk_sys _ _ c' (SDraining txq') n)
  | ss_drained c n :
      sys_step (mk_sys _ _ c (SDraining None) n) (mk_sys _ _ c SIdle n).

(** A client that has not been called yet. *)
Definition sys_init (y : sys) : Prop :=
  owned view_init (c_tx (y_client y)) ∧ c_websocket (y_client y) = None ∧
  y_pc y = SIdle ∧ y_posts y = 0%nat.

Definition reachable (y : sys) : Prop := ∃ y0, sys_init y0 ∧ rtc sys_step y0 y.

(** ** The invariant *)

(** Who holds the list in the middle of the callback. *)
Definition pc_ok (pc : service_pc) (v : view) : Prop :=
  match pc with
  | SIdle | SEstablished _ => v_held v = [] ∧ v_hp v = None
  | SPulled txq | SDraining txq => v_hp v = txq
  end.

(** Something will look at the queue, at the connect message. *)
Definition wake_due (y : sys) (wsi : positive) : Prop :=
  c_cancel (y_client y) = true ∨ wsi ∈ c_writable (y_client y) ∨ (0 < y_posts y)%nat
  ∨ y_pc y = SEstablished wsi.

Record sys_ok (y : sys) (v : view) : Prop := {
  so_owned : owned v (c_tx (y_client y));
  so_cur : v_cur v = None;
  so_new : v_new v = None;
  so_pc : pc_ok (y_pc y) v;
  so_context : c_context (y_client y) = false → c_websocket (y_client y) = None;
  so_established : ∀ wsi, y_pc y = SEstablished wsi → c_websocket (y_client y) = Some wsi;
  so_queue : ∀ wsi, c_websocket (y_client y) = Some wsi → v_queue v ≠ [] → wake_due y wsi;
  so_connect : ∀ wsi, c_websocket (y_client y) = Some wsi → v_connect v ≠ None →
    wake_due y wsi ∨ ∃ txq, y_pc y = SPulled txq
}.

Lemma wp_ok {S A} (m : M S A) Q X F s a s' : wp m Q X F s → m s = Ok a s' → Q a s'.
Proof. unfold wp. by intros H Hm; rewrite Hm in H. Qed.

(** What is waiting can only be new if the message counts as a post. *)
Lemma post_queue_spec data c v :
  fits data → owned v (c_tx c) → v_new v = None →
  wp (post txq_enqueue data) (λ b c', ∃ t v', c' = c <| c_tx := t |> ∧ owned v' t ∧
     v_hp v' = v_hp v ∧ v_held v' = v_held v ∧ v_cur v' = v_cur v ∧ v_new v' = None ∧
     v_connect v' = v_connect v ∧ (b = false → v_queue v' = v_queue v)) (λ _, False) no_fault c.
Proof.
  intros Hf Ho Hn. apply wp_in_tx, wp_bind, (txq_new_spec data v); [done..| |].
  - intros t Ho' _ _. apply wp_ret. by exists t, v.
  - intros p t Ho' _. set (v1 := v <| v_new := _ |>) in Ho'.
    apply wp_bind, (txq_enqueue_spec p data v1); [done..|]. intros t2 Ho2 _. apply wp_ret. eexists t2, _. by split_and!; [done|exact Ho2|..].
Qed.

Lemma post_connect_spec data c v :
  fits data → owned v (c_tx c) → v_new v = None →
  wp (post txq_connect_put data) (λ b c', ∃ t v', c' = c <| c_tx := t |> ∧ owned v' t ∧
     v_hp v' = v_hp v ∧ v_held v' = v_held v ∧ v_cur v' = v_cur v ∧ v_new v' = None ∧
     v_queue v' = v_queue v ∧ (b = false → v_connect v' = v_connect v)) (λ _, False) no_fault c.
Proof.
  intros Hf Ho Hn. apply wp_in_tx, wp_bind, (txq_new_spec data v); [done..| |].
  - intros t Ho' _ _. apply wp_ret. by exists t, v.
  - intros p t Ho' _. set (v1 := v <| v_new := _ |>) in Ho'.
    apply wp_bind, (txq_connect_put_spec p data v1); [done..|]. intros t2 Ho2 _. apply wp_ret. eexists t2, _. by split_and!; [done|exact Ho2|..].
Qed.

Lemma wake_mono c c' pc pc' n n' wsi :
  (c_cancel c = true → c_cancel c' = true) → (wsi ∈ c_writable c → wsi ∈ c_writable c') →
  (n <= n')%nat → (pc = SEstablished wsi → pc' = pc) →
  wake_due (mk_sys _ _ c pc n) wsi → wake_due (mk_sys _ _ c' pc' n') wsi.
Proof.
  unfold wake_due. simpl. intros H1 H2 H3 H4 [?|[?|[?|?]]]; auto.
  - right; right; left. lia.
  - right; right; right. rewrite H4; done.
Qed.

Lemma init_ok y : sys_init y → sys_ok y view_init.
Proof. intros (Ho & Hw & Hp & _). split; try done; rewrite ?Hp, ?Hw; done. Qed.

(** A callback that ran as a whole: what is new was announced. *)
Record announced (c : client) (v : view) (c' : client) (v' : view) : Prop := {
  an_idle : idle c' v';
  an_context : c_context c' = c_context c;
  an_writable : c_writable c' = c_writable c;
  an_cancel : c_cancel c = true → c_cancel c' = true;
  an_websocket : c_websocket c' = None ∨ c_websocket c' = c_websocket c;
  an_new : c_context c = true → c_cancel c' = false →
    (v_queue v' ≠ [] → v_queue v ≠ []) ∧ (v_connect v' ≠ None → v_connect v ≠ None)
}.

Lemma announced_same c v c' :
  idle c' v → c_context c' = c_context c → c_writable c' = c_writable c →
  c_cancel c' = c_cancel c → c_websocket c' = None ∨ c_websocket c' = c_websocket c →
  announced c v c' v.
Proof. intros. split; try done; congruence. Qed.

Lemma announced_handed c v ms cs c' v' :
  idle c v → handed c v ms cs c' v' → announced c v c' v'.
Proof.
  intros Hi Hd. pose proof (handed_fields _ _ _ _ _ _ Hd) as (H1 & H2 & H3 & H4 & H5 & _).
  pose proof (hd_cancel _ _ _ _ _ _ Hd) as Hc.
  split; [by eapply idle_handed|done|done|by rewrite Hc; intros ->|by right|].
  intros Hx Hn. rewrite Hc, Hx in Hn. apply orb_false_iff in Hn as [_ Hn]. simpl in Hn.
  apply bool_decide_eq_false in Hn. apply dec_stable in Hn. apply app_nil in Hn as [-> ->].
  pose proof (hd_queue _ _ _ _ _ _ Hd) as Hq. pose proof (hd_connect _ _ _ _ _ _ Hd) as Hcn.
  rewrite app_nil_r in Hq, Hcn. rewrite last_option in Hcn. split.
  - intros Hv E0. rewrite E0 in Hq. by apply fmap_nil_inv in Hq.
  - intros Hv E0. rewrite E0 in Hcn. by destruct (v_connect v').
Qed.

Lemma announced_trans c v c1 v1 c2 v2 :
  announced c v c1 v1 → announced c1 v1 c2 v2 → announced c v c2 v2.
Proof.
  intros [A1 B1 C1 D1 E1 F1] [A2 B2 C2 D2 E2 F2]. split; try congruence; auto.
  - destruct E2 as [->| ->]; auto.
  - intros Hx Hn. rewrite B1 in F2. destruct (F2 Hx Hn) as [G1 G2].
    destruct (c_cancel c1) eqn:Ec; [by rewrite D2 in Hn|]. destruct (F1 Hx eq_refl). auto.
Qed.

Lemma whole_announced wsi reason c v :
  whole reason = true → idle c v →
  wp (callback_broker print wsi reason) (λ _ c', ∃ v', announced c v c' v')
    (λ _, False) any_fault c.
Proof using print_fits JL.
  intros Hw Hi.
  assert (∀ c', idle c' v → c_context c' = c_context c → c_writable c' = c_writable c →
    c_cancel c' = c_cancel c → c_websocket c' = None ∨ c_websocket c' = c_websocket c →
    ∃ v', announced c v c' v') as Hsame by (intros; exists v; by apply announced_same).
  destruct reason as [| | | | | | |text| | | | |]; try done; simpl; try by (apply wp_ret, Hsame; auto).
  - unfold gateway_cert_trust. apply wp_bind, wp_bind, wp_gets, wp_ret, wp_when; intros _.
    + apply wp_modify, Hsame; auto. by destruct Hi.
    + apply Hsame; auto.
  - apply wp_bind, wp_lws_outcome. intros b l. destruct b; simpl; [|by apply wp_faulty].
    unfold sul_connect_attempt. apply wp_bind, wp_modify, wp_bind, wp_gets, wp_bind, wp_lws_outcome.
    intros b l2. apply wp_bind, wp_modify, wp_when; intros _; [apply wp_modify|];
      (apply Hsame; auto; by destruct Hi).
  - apply wp_bind, wp_gets. destruct (c_vhd c); simpl; [|by apply wp_faulty].
    apply wp_modify, Hsame; auto. by destruct Hi.
  - apply (proto_spec print print_fits _ c v); [done..|]. intros v' ms cs c2 Hd. exists v'. by eapply announced_handed.
  - apply wp_bind, (client_log_spec print print_fits _ _ _ _ v); [apply Hi..|]. intros v' ms c2 Hd.
    pose proof (announced_handed _ _ _ _ _ _ Hi Hd) as Ha. apply wp_bind, wp_modify.
    pose proof (an_idle _ _ _ _ Ha) as Hi2.
    apply (client_closed_spec _ v'); [by destruct Hi2|done|].
    intros c' Hi' _ Hws _ _ Hx Hr Hc. exists v'. eapply announced_trans; [exact Ha|].
    apply announced_same; auto.
  - apply (client_closed_spec _ v); [done..|]. intros c' Hi' _ Hws _ _ Hx Hr Hc. apply Hsame; auto.
Qed.

(** ** Preservation *)
(** A sender's step: only the queue, or the connect message, changes. *)
Lemma post_ok c pc n v b t v' :
  sys_ok (mk_sys _ _ c pc n) v → owned v' t →
  v_hp v' = v_hp v → v_held v' = v_held v → v_cur v' = v_cur v → v_new v' = None →
  (b = false → v_queue v' = v_queue v ∧ v_connect v' = v_connect v) →
  sys_ok (mk_sys _ _ (c <| c_tx := t |>) pc (if b : bool then S n else n)) v'.
Proof.
  intros [Ho Hcu Hn Hpc Hx Hse Hq Hc] Ho' E1 E2 E3 E4 E5. simpl in *.
  split; simpl; try done; try congruence.
  - unfold pc_ok in *. destruct pc; rewrite ?E1, ?E2; done.
  - intros wsi Hw Hne. destruct b; [right; right; left; simpl; lia|].
    destruct (E5 eq_refl) as [E6 E7]. rewrite E6 in Hne.
    eapply wake_mono, (Hq wsi Hw Hne); auto.
  - intros wsi Hw Hne. destruct b; [left; right; right; left; simpl; lia|].
    destruct (E5 eq_refl) as [E6 E7]. rewrite E7 in Hne.
    destruct (Hc wsi Hw Hne) as [Hk|?]; [left|by right]. eapply wake_mono, Hk; auto.
Qed.

Lemma sys_idle c n v : sys_ok (mk_sys _ _ c SIdle n) v → idle c v.
Proof. intros [Ho Hcu Hn [Hh Hp] _ _ _ _]. by split. Qed.

(** Back in the poll loop after a callback. *)
Lemma announced_ok c n v c' v' :
  sys_ok (mk_sys _ _ c SIdle n) v → announced c v c' v' → sys_ok (mk_sys _ _ c' SIdle n) v'.
Proof.
  intros [Ho Hcu Hn Hpc Hx Hse Hq Hc] [[Ao Ap Ah Acu An] Ax Ar Ac Aw Anew]. simpl in *.
  assert (∀ wsi, c_websocket c' = Some wsi → c_websocket c = Some wsi ∧ c_context c = true) as Hws.
  { intros wsi Hw. destruct Aw as [Aw|Aw]; [congruence|]. rewrite Aw in Hw. split; [done|].
    destruct (c_context c); [done|]. rewrite Hx in Hw; done. }
  assert (∀ wsi, wake_due (mk_sys _ _ c SIdle n) wsi → wake_due (mk_sys _ _ c' SIdle n) wsi) as Hm.
  { intros wsi. apply wake_mono; [done|by rewrite Ar|done|done]. }
  split; simpl; try done.
  - rewrite Ax. intros Hf. specialize (Hx Hf). destruct Aw as [?|Aw]; [done|congruence].
  - intros wsi Hw Hne. destruct (Hws wsi Hw) as [Hw0 Hx0].
    destruct (c_cancel c') eqn:Ec; [by left|]. destruct (Anew Hx0 eq_refl) as [A1 A2]. eauto.
  - intros wsi Hw Hne. destruct (Hws wsi Hw) as [Hw0 Hx0].
    destruct (c_cancel c') eqn:Ec; [by left; left|]. destruct (Anew Hx0 eq_refl) as [A1 A2].
    destruct (Hc wsi Hw0 (A2 Hne)) as [?|[? [=]]]. left. auto.
Qed.

(** A part of LWS_CALLBACK_CLIENT_WRITEABLE: the queue may only have been
    emptied, or grown together with a call of lws_cancel_service. *)
Lemma part_ok c pc n v c' pc' v' :
  sys_ok (mk_sys _ _ c pc n) v → owned v' (c_tx c') → v_cur v' = None → v_new v' = None →
  pc_ok pc' v' → (∀ wsi, pc' ≠ SEstablished wsi) →
  c_context c' = c_context c → c_websocket c' = c_websocket c →
  (∀ wsi, c_websocket c = Some wsi → v_queue v' ≠ [] → wake_due (mk_sys _ _ c' pc' n) wsi) →
  (∀ wsi, c_websocket c = Some wsi → v_connect v' ≠ None →
     wake_due (mk_sys _ _ c' pc' n) wsi ∨ ∃ txq, pc' = SPulled txq) →
  sys_ok (mk_sys _ _ c' pc' n) v'.
Proof.
  intros [Ho Hcu Hn Hpc Hx Hse Hq Hc] Ho' Hcu' Hn' Hpc' Hne' Ex Ew Hq' Hc'. simpl in *.
  split; simpl; rewrite ?Ex, ?Ew; try done. intros wsi ->. by destruct (Hne' wsi).
Qed.

Lemma drain_spec m s l c v :
  v_hp v = Some m → v_held v = (m, s) :: l → v_cur v = None → v_new v = None → owned v (c_tx c) →
  wp (writeable_step print m) (λ hp c', ∃ v' e ms, pumped c v [e] ms c' v' ∧ v_hp v' = hp)
    (λ _, False) no_fault c.
Proof using print_fits JL.
  intros. apply (writeable_step_spec print print_fits m s l c v); [done..|].
  intros v' e ms c' Hp _ _. by exists v', e, ms.
Qed.

Lemma step_ok y v y' : sys_ok y v → sys_step y y' → ∃ v', sys_ok y' v'.
Proof using print_fits JL.
  intros Hok Hs. pose proof Hok as [Ho Hcu Hn Hpc Hx Hse Hq Hc].
  destruct Hs as [data c pc n b c' Hf Hp|data c pc n b c' Hf Hp|c pc n c' Hp|c n|wsi reason c n c' Hw Hp
    |wsi c n Hcx|wsi c n c' Hp|c n c' Hca Hp|wsi c n txq c' Hw Hp|txq c n txq' c' Hp|m c n txq' c' Hp|c n];
    simpl in *.
  - destruct (wp_ok _ _ _ _ _ _ _ (post_queue_spec data c v Hf Ho Hn) Hp)
      as (t & v' & -> & Ho' & E1 & E2 & E3 & E4 & E5 & E6). exists v'. eapply post_ok; eauto.
  - destruct (wp_ok _ _ _ _ _ _ _ (post_connect_spec data c v Hf Ho Hn) Hp)
      as (t & v' & -> & Ho' & E1 & E2 & E3 & E4 & E5 & E6). exists v'. eapply post_ok; eauto.
  - exists v.
    assert (c' = c ∧ c_context c = false ∨ c' = c <| c_cancel := true |>) as [[-> Hcx]| ->].
    { refine (wp_ok _ (λ _ c', c' = c ∧ c_context c = false ∨ c' = c <| c_cancel := true |>)
        (λ _, False) no_fault _ _ _ _ Hp).
      apply wp_bind, wp_gets, wp_when; intros Hb; [by apply wp_modify; right|by left]. }
    + specialize (Hx Hcx). split; simpl; try done; intros w Hw; congruence.
    + split; simpl; try done; [by left|by left; left].
  - exists v. by split.
  - destruct (wp_ok _ _ _ _ _ _ _ (whole_announced wsi reason c v Hw (sys_idle _ _ _ Hok)) Hp) as (v' & Ha).
    exists v'. by eapply announced_ok.
  - exists v. split; simpl; try done; [by rewrite Hcx|by intros w [= <-]|..].
    + intros w [= <-] _. by do 3 right.
    + intros w [= <-] _. left. by do 3 right.
  - injection Hp as <-. specialize (Hse _ eq_refl). exists v. split; simpl; try done.
    + intros w Hw Hne. right. left. simpl. set_solver.
    + intros w Hw Hne. left. right. left. simpl. set_solver.
  - unfold wait_cancelled, gets, mbind, M_bind in Hp. simpl in Hp. exists v.
    destruct (c_websocket c) as [w|] eqn:Ew; injection Hp as <-.
    + eapply part_ok; try done; simpl; rewrite ?Ew; try done.
      * intros x [= <-] _. right. left. simpl. set_solver.
      * intros x [= <-] _. left. right. left. simpl. set_solver.
    + eapply part_ok; try done; simpl; by rewrite ?Ew.
  - pose proof Hpc as [Hh Hhp]. match type of Hp with in_tx _ ?x = _ => set (c1 := x) in Hp end.
    assert (wp (in_tx txq_pull) (λ hp c2, ∃ t, c2 = c1 <| c_tx := t |> ∧
      owned (v <| v_hp := hp |> <| v_held := v_queue v |> <| v_queue := [] |>) t)
      (λ _, False) no_fault c1) as Hsp.
    { apply wp_in_tx, (txq_pull_spec v); [done..|]. intros hp t Ho' _. by exists t. }
    destruct (wp_ok _ _ _ _ _ _ _ Hsp Hp) as (t & -> & Ho'). eexists.
    eapply part_ok; [exact Hok|simpl; exact Ho'|..]; simpl; try done.
    intros x _ _. right. by exists txq.
  - simpl in Hpc.
    assert (wp (in_tx (m ← txq_connect_pull; txq_link m (v_hp v))) (λ hp c2, ∃ t, c2 = c <| c_tx := t |> ∧
      owned (v <| v_hp := hp |> <| v_held := option_list (v_connect v) ++ v_held v |>
               <| v_connect := None |>) t)
      (λ _, False) no_fault c) as Hsp.
    { apply wp_in_tx, (txq_connect_spec v); [done..|]. intros hp t Ho' _. by exists t. }
    rewrite Hpc in Hsp. destruct (wp_ok _ _ _ _ _ _ _ Hsp Hp) as (t & -> & Ho'). eexists.
    eapply part_ok; [exact Hok|simpl; exact Ho'|..]; simpl; try done.
    intros x Hw Hne. eapply wake_mono, (Hq x Hw Hne); auto. by intros [=].
  - pose proof (ow_held _ _ Ho) as Hh. rewrite Hpc in Hh.
    destruct (v_held v) as [|[a s] l] eqn:El; [done|]. destruct Hh as ([= <-] & _).
    destruct (wp_ok _ _ _ _ _ _ _ (drain_spec m s l c v Hpc El Hcu Hn Ho) Hp)
      as (v' & e & ms & [O1 B1 C1 Q1 N1 T1 R1 F1 K1] & <-). exists v'.
    assert (c_context c' = c_context c ∧ c_websocket c' = c_websocket c ∧
      c_writable c' = c_writable c) as (G1 & G2 & G3) by by rewrite R1.
    assert (∀ x, wake_due (mk_sys _ _ c (SDraining (Some m)) n) x →
      wake_due (mk_sys _ _ c' (SDraining (v_hp v')) n) x) as Hm.
    { intros x. apply wake_mono; [by rewrite K1; intros ->|by rewrite G3|done|done]. }
    eapply (part_ok _ _ _ _ _ _ _ Hok O1); try done.
    + intros x Hw Hne. destruct ms as [|t ms].
      * apply Hm, (Hq x Hw). intros E0. rewrite E0 in Q1. by apply fmap_nil_inv in Q1.
      * left. simpl. rewrite K1. destruct (c_context c); [by rewrite orb_true_r|].
        rewrite Hx in Hw; done.
    + intros x Hw Hne. destruct (Hc x Hw) as [?|[? [=]]]; [|left; by apply Hm].
      intros E0. rewrite E0 in N1. by destruct (v_connect v').
  - pose proof (ow_held _ _ Ho) as Hh. rewrite Hpc in Hh.
    destruct (v_held v) as [|[a s] l] eqn:El; [|by destruct Hh as [[=] _]].
    exists v. eapply (part_ok _ _ _ _ _ _ _ Hok Ho); try done.
    + intros x Hw Hne. eapply wake_mono, (Hq x Hw Hne); auto. by intros [=].
    + intros x Hw Hne. destruct (Hc x Hw Hne) as [Hd|[? [=]]]. left.
      eapply wake_mono, Hd; auto. by intros [=].
Qed.

Lemma reachable_ok y : reachable y → ∃ v, sys_ok y v.
Proof using print_fits JL.
  intros (y0 & Hi & Hr). assert (∃ v, sys_ok y0 v) as Hok by (exists view_init; by apply init_ok).
  clear Hi. induction Hr as [y|y1 y2 y3 Hs _ IH]; [done|]. destruct Hok as [v Hok].
  apply IH. by eapply step_ok.
Qed.

(** C28: in every reachable state in which the service thread is about to poll,
    no sender is between its enqueue and its wake-up call, the socket is open
    and a message waits, libwebsockets has been asked for a callback that
    leads to LWS_CALLBACK_CLIENT_WRITEABLE. *)
Theorem no_lost_wakeup (c : client) (wsi : positive) :
  reachable (mk_sys _ _ c SIdle 0) → c_websocket c = Some wsi →
  t_txqhead (c_tx c) ≠ None ∨ t_txconnect (c_tx c) ≠ None →
  c_cancel c = true ∨ wsi ∈ c_writable c.
Proof using print_fits JL.
  intros Hr Hw Hne. destruct (reachable_ok _ Hr) as (v & [Ho Hcu Hn Hpc Hx Hse Hq Hc]). simpl in *.
  assert (wake_due (mk_sys _ _ c SIdle 0) wsi) as Hd.
  { destruct Hne as [Hne|Hne].
    - apply Hq; [done|]. intros E0. pose proof (ow_queue _ _ Ho) as Hl. by rewrite E0 in Hl.
    - destruct (Hc wsi Hw) as [?|[? [=]]]; [|done]. intros E0.
      pose proof (ow_connect _ _ Ho) as Hl. by rewrite E0 in Hl. }
  destruct Hd as [?|[?|[?|[=]]]]; auto. simpl in *. lia.
Qed.
End interleave.

(** ** A session in which a thread has queued a message *)
Section witness.
#[local] Existing Instances jtree_cjson jtree_laws sample_platform sample_libc sample_est amd64 sample_lws.

Definition fresh_client : client :=
  sample_wire (sample_world 0) <| c_tx := txs_init [] |> <| c_websocket := None |>
    <| c_context := false |>.

(** The context is created, the socket opens, a message is queued, the thread
    that queued it calls lws_cancel_service. *)
Definition open_client : client :=
  fresh_client <| c_context := true |> <| c_websocket := Some 1%positive |>
    <| c_conn_successfull := 1 |> <| c_writable := {[1%positive]} |>.
Definition posted_client : client :=
  open_client <| c_tx := mk_txs [] {[fresh (∅ : gset positive) := mk_txq None 21 "a"]}
    (Some (fresh (∅ : gset positive))) (Some (fresh (∅ : gset positive))) None |>.
Definition queued_client : client := posted_client <| c_cancel := true |>.

Lemma open_client_reachable : reachable sample_print (mk_sys _ _ open_client SIdle 0).
Proof.
  exists (mk_sys _ _ fresh_client SIdle 0). split.
  { split; [apply owned_init|done]. }
  eapply rtc_l; [apply ss_context|].
  eapply rtc_l; [by apply (ss_established _ 1%positive)|].
  eapply rtc_l; [by eapply ss_established_end|]. apply rtc_refl.
Qed.

Lemma queued_reachable : reachable sample_print (mk_sys _ _ queued_client SIdle 0).
Proof.
  destruct open_client_reachable as (y0 & Hi & Hr). exists y0. split; [exact Hi|].
  eapply rtc_r; [eapply rtc_r; [exact Hr|]|].
  - apply (ss_post _ "a" open_client SIdle 0 true posted_client); [done|reflexivity].
  - apply (ss_cancel _ posted_client SIdle 0 queued_client). reflexivity.
Qed.

Lemma no_lost_wakeup_witness :
  reachable sample_print (mk_sys _ _ queued_client SIdle 0) ∧
  (c_cancel queued_client = true ∨ 1%positive ∈ c_writable queued_client).
Proof.
  split; [apply queued_reachable|].
  apply (no_lost_wakeup sample_print sample_print_fits queued_client 1%positive queued_reachable);
    [reflexivity|left; discriminate].
Defined.
End witness.
