(* ===== verification/Est.v ===== *)
(** * The EST client ([est-client.c])

    Certificate enrolment over RFC 7030.  OpenSSL and the private data of
    libcurl are outside the repository: [OpenSsl] names the calls the code
    makes on a certificate, a key or a PKCS#7 message and what they return.
    [est] is the rest of what a call depends on: the files, the environment,
    the error message kept for [est_get_error], the outcome of the allocations
    to come ([e_heap]: the next one fails when the head is [false]), of the
    file operations to come ([e_io]), how much of what is written to them the
    next files hold once they are closed ([e_disk]: all of it when there is no
    entry), and the outcome of the HTTP requests to come: an error
    of libcurl, or the pieces of the body it hands to [est_write_callback].
    [e_requests] is the list of the requests made, oldest first. *)

From S2P Require Import Prelude CNum CStr.
#[local] Open Scope list_scope.

Definition EST_SUCCESS : Z := 0.
Definition EST_ERROR_GENERAL : Z := -1.
Definition EST_ERROR_NETWORK : Z := -2.
Definition EST_ERROR_CRYPTO : Z := -3.
Definition EST_ERROR_MEMORY : Z := -4.
Definition EST_ERROR_INVALID : Z := -5.

Definition EST_SERVER_PROD : string := "est.certificates.open-lan.org".
Definition EST_SERVER_QA : string := "qaest.certificates.open-lan.org:8001".
Definition EST_PATH_SIMPLEENROLL : string := "/.well-known/est/simpleenroll".
Definition EST_PATH_SIMPLEREENROLL : string := "/.well-known/est/simplereenroll".
Definition EST_PATH_CACERTS : string := "/.well-known/est/cacerts".

Class OpenSsl := {
  X509 : Type;
  EVP_PKEY : Type;
  (* PEM_read_X509, PEM_read_PrivateKey on the text of a file *)
  PEM_read_X509 : string → option X509;
  PEM_read_PrivateKey : string → option EVP_PKEY;
  (* X509_get_issuer_name followed by X509_NAME_oneline *)
  X509_issuer : X509 → option string;
  (* X509_get_subject_name, as X509_NAME_oneline prints it *)
  X509_subject : X509 → option string;
  (* X509_REQ_sign of a request with that subject *)
  X509_REQ : Type;
  X509_REQ_sign : string → EVP_PKEY → option X509_REQ;
  (* i2d_X509_REQ_bio: the DER encoding, in base 64 *)
  i2d_X509_REQ : X509_REQ → option string;
  (* d2i_PKCS7_bio of base 64 text, and the certificates of the message when
     it is signed *)
  d2i_PKCS7 : string → option (option (list X509));
  PEM_write_X509 : X509 → option string
}.

Record est_request := mk_est_request {
  rq_url : string;
  rq_cert : string;
  rq_key : string;
  rq_ca : option string;
  rq_post : option string
}.

Record est := mk_est {
  e_files : gmap string string;
  e_env : gmap string string;
  e_error : string;                          (* est_error_msg *)
  e_heap : list bool;
  e_io : list bool;
  e_disk : list nat;
  e_http : list (option (list string));
  e_requests : list est_request
}.
#[export] Instance eta_est : Eta est := λ r,
  mk_est (e_files r) (e_env r) (e_error r) (e_heap r) (e_io r) (e_disk r) (e_http r) (e_requests r).

(** [strstr(s, sub) != NULL] *)
Fixpoint contains (sub s : string) : bool :=
  String.prefix sub s || match s with String _ r => contains sub r | EmptyString => false end.

(** [struct est_memory] *)
Record est_memory := mk_est_memory { mem_data : option string; mem_size : Z }.

Section est_ops.
Context `{O : OpenSsl}.

Definition e_alloc : M est bool := λ e,
  match e_heap e with [] => Ok true e | b :: h => Ok b (e <| e_heap := h |>) end.
Definition e_io_next : M est bool := λ e,
  match e_io e with [] => Ok true e | b :: h => Ok b (e <| e_io := h |>) end.

(** What a file holds after it was written and closed: [fclose] writes out
    what [fwrite] has buffered, and its result is not looked at. *)
Definition e_stored (data : string) : M est string := λ e,
  match e_disk e with [] => Ok data e | n :: d => Ok (stake n data) (e <| e_disk := d |>) end.

(** The message buffer holds 512 bytes; the text is the format string. *)
Definition est_set_error (fmt : string) : M est unit :=
  modify (λ e, e <| e_error := c_snprintf_s 512 fmt |>).

Definition est_get_error : M est string :=
  msg ← gets e_error; ret (if streq msg "" then "Unknown error" else msg).

(** A return code and the out parameter. *)
Definition est_result : Type := Z * option string.
Definition est_fail (fmt : string) (code : Z) : M est est_result :=
  _ ← est_set_error fmt; ret (code, None).

(** The value libcurl compares with the size of the piece, and the buffer. *)
Definition est_write_callback (contents : string) (mem : est_memory) : M est (Z * est_memory) :=
  let realsize := slen contents in
  ptr ← e_alloc;
  if negb ptr then _ ← est_set_error "Out of memory"; ret (0, mem)
  else
    ret (realsize, mk_est_memory (Some (default "" (mem_data mem) +:+ contents))
                     (wrap 64 (mem_size mem + realsize))).

(** [fopen(path, "r")] of an existing file. *)
Definition est_read_file (path : string) : M est (option string) :=
  files ← gets e_files; ret (files !! path).

Definition est_get_cert_issuer (cert_path : string) : M est (option string) :=
  f ← est_read_file cert_path;
  match f with
  | None => _ ← est_set_error "Cannot open certificate: %s"; ret None
  | Some text =>
      match PEM_read_X509 text with
      | None => _ ← est_set_error "Failed to parse certificate"; ret None
      | Some cert =>
          match X509_issuer cert with
          | None => _ ← est_set_error "Failed to get certificate issuer"; ret None
          | Some issuer => ret (Some issuer)
          end
      end
  end.

Definition est_get_server_url (cert_path : string) : M est (option string) :=
  env ← gets e_env;
  match env !! "EST_SERVER" with
  | Some (String _ _ as s) => ret (Some s)
  | _ =>
      issuer ← est_get_cert_issuer cert_path;
      ret (Some match issuer with
                | None => EST_SERVER_PROD
                | Some issuer =>
                    if contains "OpenLAN Demo Birth CA" issuer then EST_SERVER_QA
                    else if contains "OpenLAN Birth Issuing CA" issuer then EST_SERVER_PROD
                    else EST_SERVER_PROD
                end)
  end.

(** The allocations after the encoding: the base 64 filter and its sink are
    not tested. *)
Definition est_csr_encode (b64 : string) : M est est_result :=
  filter ← e_alloc;
  if negb filter then faulty NullDeref
  else
    sink ← e_alloc;
    if negb sink then faulty Uninitialised
    else
      out ← e_alloc;
      if negb out then est_fail "Out of memory" EST_ERROR_MEMORY
      else ret (EST_SUCCESS, Some b64).

Definition est_csr_sign (subject : string) (key : EVP_PKEY) : M est est_result :=
  req ← e_alloc;
  if negb req then est_fail "Failed to create CSR" EST_ERROR_MEMORY
  else
    match X509_REQ_sign subject key with
    | None => est_fail "Failed to sign CSR" EST_ERROR_CRYPTO
    | Some req =>
        bio ← e_alloc;
        if negb bio then est_fail "Failed to create BIO" EST_ERROR_MEMORY
        else
          match i2d_X509_REQ req with
          | None => est_fail "Failed to write CSR" EST_ERROR_CRYPTO
          | Some b64 => est_csr_encode b64
          end
    end.

Definition est_generate_csr (cert_path key_path : string) : M est est_result :=
  cert_file ← est_read_file cert_path;
  match cert_file with
  | None => est_fail "Cannot open certificate: %s" EST_ERROR_GENERAL
  | Some text =>
      match PEM_read_X509 text with
      | None => est_fail "Failed to parse certificate" EST_ERROR_CRYPTO
      | Some cert =>
          match X509_subject cert with
          | None => est_fail "Failed to get certificate subject" EST_ERROR_CRYPTO
          | Some subject =>
              dup ← e_alloc;
              if negb dup then est_fail "Failed to duplicate subject name" EST_ERROR_MEMORY
              else
                key_file ← est_read_file key_path;
                match key_file with
                | None => est_fail "Cannot open private key: %s" EST_ERROR_GENERAL
                | Some text =>
                    match PEM_read_PrivateKey text with
                    | None => est_fail "Failed to parse private key" EST_ERROR_CRYPTO
                    | Some key => est_csr_sign subject key
                    end
                end
          end
      end
  end.

(** The certificates one after the other; [None] when one cannot be written. *)
Fixpoint pem_bundle (certs : list X509) : option string :=
  match certs with
  | [] => Some ""
  | c :: certs =>
      match PEM_write_X509 c, pem_bundle certs with
      | Some p, Some r => Some (p +:+ r)
      | _, _ => None
      end
  end.

Definition est_pkcs7_to_pem (pkcs7_data : option string) (pkcs7_len : Z) : M est est_result :=
  match pkcs7_data with
  | None => est_fail "Invalid arguments" EST_ERROR_INVALID
  | Some data =>
      if pkcs7_len =? 0 then est_fail "Invalid arguments" EST_ERROR_INVALID
      else
        filter ← e_alloc;
        if negb filter then faulty NullDeref
        else
          match d2i_PKCS7 (stake (Z.to_nat pkcs7_len) data) with
          | None => est_fail "Failed to parse PKCS#7 data" EST_ERROR_CRYPTO
          | Some None | Some (Some []) => est_fail "No certificates in PKCS#7" EST_ERROR_CRYPTO
          | Some (Some certs) =>
              out ← e_alloc;
              if negb out then est_fail "Failed to create output BIO" EST_ERROR_MEMORY
              else
                match pem_bundle certs with
                | None => est_fail "Failed to write certificate" EST_ERROR_CRYPTO
                | Some pem =>
                    b ← e_alloc;
                    if negb b then est_fail "Out of memory" EST_ERROR_MEMORY
                    else ret (EST_SUCCESS, Some pem)
                end
          end
  end.

(** libcurl hands over the pieces until the callback returns another size than
    the piece's; whether it took them all, and the buffer. *)
Fixpoint curl_receive (pieces : list string) (mem : est_memory) : M est (bool * est_memory) :=
  match pieces with
  | [] => ret (true, mem)
  | p :: pieces =>
      '(n, mem) ← est_write_callback p mem;
      if n =? slen p then curl_receive pieces mem else ret (false, mem)
  end.

Definition curl_easy_perform (rq : est_request) : M est (bool * est_memory) := λ e,
  let e := e <| e_requests := e_requests e ++ [rq] |> in
  match e_http e with
  | [] => Ok (false, mk_est_memory None 0) e
  | None :: h => Ok (false, mk_est_memory None 0) (e <| e_http := h |>)
  | Some pieces :: h => curl_receive pieces (mk_est_memory None 0) (e <| e_http := h |>)
  end.

(** The response and its length. *)
Definition est_http_request (url cert key : string) (ca_bundle post_data : option string)
    : M est (Z * est_memory) :=
  curl ← e_alloc;
  if negb curl then
    _ ← est_set_error "Failed to initialize CURL"; ret (EST_ERROR_GENERAL, mk_est_memory None 0)
  else
    let post := match post_data with Some (String _ _) => post_data | _ => None end in
    '(ok, response) ← curl_easy_perform (mk_est_request url cert key ca_bundle post);
    if negb ok then
      _ ← est_set_error "CURL error: %s"; ret (EST_ERROR_NETWORK, mk_est_memory None 0)
    else ret (EST_SUCCESS, response).

(** [snprintf(url, sizeof(url), "https://%s%s", est_server, path)] *)
Definition est_url (est_server path : string) : string :=
  c_snprintf_s 512 ("https://" +:+ est_server +:+ path).

Definition est_simple_enroll (est_server birth_cert birth_key : string)
    (ca_bundle : option string) : M est est_result :=
  '(ret1, csr) ← est_generate_csr birth_cert birth_key;
  if negb (ret1 =? EST_SUCCESS) then ret (ret1, None)
  else
    '(ret2, response) ← est_http_request (est_url est_server EST_PATH_SIMPLEENROLL)
       birth_cert birth_key ca_bundle csr;
    if negb (ret2 =? EST_SUCCESS) then ret (ret2, None)
    else est_pkcs7_to_pem (mem_data response) (mem_size response).

Definition est_simple_reenroll (est_server operational_cert key : string)
    (ca_bundle : option string) : M est est_result :=
  '(ret1, csr) ← est_generate_csr operational_cert key;
  if negb (ret1 =? EST_SUCCESS) then ret (ret1, None)
  else
    '(ret2, response) ← est_http_request (est_url est_server EST_PATH_SIMPLEREENROLL)
       operational_cert key ca_bundle csr;
    if negb (ret2 =? EST_SUCCESS) then ret (ret2, None)
    else est_pkcs7_to_pem (mem_data response) (mem_size response).

Definition est_get_cacerts (est_server cert key : string) (ca_bundle : option string)
    : M est est_result :=
  '(ret1, response) ← est_http_request (est_url est_server EST_PATH_CACERTS)
     cert key ca_bundle None;
  if negb (ret1 =? EST_SUCCESS) then ret (ret1, None)
  else est_pkcs7_to_pem (mem_data response) (mem_size response).

(** Opening the file for writing empties it.  Whether [fwrite] took everything
    is tested; what the file then holds may be less, in both cases. *)
Definition est_save_cert (cert_data : string) (file_path : string) : M est Z :=
  if streq cert_data "" then _ ← est_set_error "Invalid arguments"; ret EST_ERROR_INVALID
  else
    f ← e_io_next;
    if negb f then _ ← est_set_error "Cannot create file: %s"; ret EST_ERROR_GENERAL
    else
      n ← e_io_next;
      stored ← e_stored cert_data;
      _ ← modify (λ e, e <| e_files := <[file_path := stored]> (e_files e) |>);
      if negb n then _ ← est_set_error "Failed to write to file: %s"; ret EST_ERROR_GENERAL
      else ret EST_SUCCESS.
End est_ops.
