(* ===== verification/EstSpec.v ===== *)
(** * What an enrolment returns *)

From S2P Require Import Prelude CNum CStr Est.
#[local] Open Scope list_scope.

Section est_spec.
Context `{O : OpenSsl}.

(** ** The body of a response *)
Definition body (pieces : list string) : string := foldr String.append "" pieces.

Lemma string_app_assoc (a b c : string) : (a +:+ b) +:+ c = a +:+ (b +:+ c).
Proof. induction a as [|x a IH]; [done|]. change (String x ((a +:+ b) +:+ c) = String x (a +:+ (b +:+ c))). by rewrite IH. Qed.
Lemma string_app_nil (a : string) : a +:+ "" = a.
Proof. induction a as [|x a IH]; [done|]. change (String x (a +:+ "") = String x a). by rewrite IH. Qed.

Lemma slen_body pieces : slen (body pieces) = foldr (λ p n, slen p + n) 0 pieces.
Proof. induction pieces as [|p pieces IH]; [done|]. simpl. by rewrite slen_app, IH. Qed.

(** ** With memory to spare *)
Definition no_mem_loss (e : est) : Prop := e_heap e = [].

Lemma wp_e_alloc (Q : bool → est → Prop) X F e : no_mem_loss e → Q true e → wp e_alloc Q X F e.
Proof. unfold no_mem_loss, wp, e_alloc. by intros ->. Qed.

(** Only the message changed. *)
Record kept (e e' : est) : Prop := {
  kp_files : e_files e' = e_files e;
  kp_env : e_env e' = e_env e;
  kp_io : e_io e' = e_io e;
  kp_disk : e_disk e' = e_disk e;
  kp_http : e_http e' = e_http e;
  kp_requests : e_requests e' = e_requests e;
  kp_heap : no_mem_loss e'
}.
Lemma kept_refl e : no_mem_loss e → kept e e.
Proof. by split. Qed.

(** What a call promises: the code is EST_SUCCESS exactly when there is a
    result, the result is the expected one, and a failure leaves a message. *)
Definition promised (expected : option string) (e : est) (r : est_result) (e' : est) : Prop :=
  kept e e' ∧ r.2 = expected ∧ (r.1 = EST_SUCCESS ↔ is_Some expected) ∧
  (expected = None → e_error e' ≠ "").

Lemma est_fail_spec fmt code e0 e (Q : est_result → est → Prop) X F :
  kept e0 e → code ≠ EST_SUCCESS → c_snprintf_s 512 fmt ≠ "" →
  (∀ r e', promised None e0 r e' → Q r e') → wp (est_fail fmt code) Q X F e.
Proof.
  intros [H1 H2 H3 H4 H5 H6 H7] Hc Hf HQ. apply wp_bind, wp_modify, wp_ret, HQ.
  split; [by split|]. split; [done|]. split; [|done]. by split; [|intros []].
Qed.

Lemma est_ok_spec s e0 e (Q : est_result → est → Prop) X F :
  kept e0 e → (∀ r e', promised (Some s) e0 r e' → Q r e') →
  wp (ret (EST_SUCCESS, Some s)) Q X F e.
Proof. intros Hk HQ. apply wp_ret, HQ. split; [done|]. by split_and!. Qed.

(** The end of an operation, and an allocation. *)
Ltac est_done :=
  first [ eapply est_ok_spec; [by apply kept_refl|eassumption]
        | eapply est_fail_spec; [by apply kept_refl|done|done|eassumption] ].
Ltac est_alloc := apply wp_bind, wp_e_alloc; [done|]; simpl.

(** ** The request: the subject of the certificate, signed with the key *)
Definition csr_expected (e : est) (cert key : string) : option string :=
  text ← e_files e !! cert;
  x ← PEM_read_X509 text;
  subject ← X509_subject x;
  ktext ← e_files e !! key;
  k ← PEM_read_PrivateKey ktext;
  req ← X509_REQ_sign subject k;
  i2d_X509_REQ req.

Lemma est_generate_csr_spec cert key e (Q : est_result → est → Prop) X F :
  no_mem_loss e → (∀ r e', promised (csr_expected e cert key) e r e' → Q r e') →
  wp (est_generate_csr cert key) Q X F e.
Proof.
  intros Hm HQ. unfold est_generate_csr, est_read_file, csr_expected in *.
  apply wp_bind, wp_bind, wp_gets, wp_ret.
  destruct (e_files e !! cert) as [text|]; simpl in HQ; [|est_done].
  destruct (PEM_read_X509 text) as [x|]; simpl in HQ; [|est_done].
  destruct (X509_subject x) as [subject|]; simpl in HQ; [|est_done].
  est_alloc. apply wp_bind, wp_bind, wp_gets, wp_ret.
  destruct (e_files e !! key) as [ktext|]; simpl in HQ; [|est_done].
  destruct (PEM_read_PrivateKey ktext) as [k|]; simpl in HQ; [|est_done].
  unfold est_csr_sign. est_alloc.
  destruct (X509_REQ_sign subject k) as [req|]; simpl in HQ; [|est_done].
  est_alloc. destruct (i2d_X509_REQ req) as [b64|]; [|est_done].
  unfold est_csr_encode. est_alloc. est_alloc. est_alloc. est_done.
Qed.

(** ** The response: the certificates of a signed PKCS#7 message *)
Definition pem_expected (data : string) : option string :=
  certs ← d2i_PKCS7 data;
  certs ← certs;
  if bool_decide (certs = []) then None else pem_bundle certs.

Lemma est_pkcs7_spec data e (Q : est_result → est → Prop) X F :
  no_mem_loss e → data ≠ "" → slen data < 2 ^ 64 →
  (∀ r e', promised (pem_expected data) e r e' → Q r e') →
  wp (est_pkcs7_to_pem (Some data) (slen data)) Q X F e.
Proof.
  intros Hm Hd Hf HQ. unfold est_pkcs7_to_pem, pem_expected in *.
  destruct (Z.eqb_spec (slen data) 0) as [E|E].
  { exfalso. apply Hd. unfold slen in E. destruct data; [done|]. simpl in E. lia. }
  est_alloc. rewrite (stake_all _ data) by (unfold slen; lia).
  destruct (d2i_PKCS7 data) as [[[|c certs]|]|]; simpl in HQ; try est_done.
  est_alloc. cbn [pem_bundle] in HQ |- *.
  destruct (PEM_write_X509 c) as [p|]; [|est_done].
  destruct (pem_bundle certs) as [r|]; [|est_done]. est_alloc. est_done.
Qed.

(** ** The exchange *)
Definition response_expected (e : est) : option string :=
  match e_http e with Some pieces :: _ => Some (body pieces) | _ => None end.

Definition response_fits (e : est) : Prop :=
  ∀ data, response_expected e = Some data → slen data < 2 ^ 64.

Lemma curl_receive_spec pieces mem e (Q : bool * est_memory → est → Prop) X F :
  no_mem_loss e → mem_size mem = slen (default "" (mem_data mem)) →
  slen (default "" (mem_data mem)) + slen (body pieces) < 2 ^ 64 →
  (∀ mem' , default "" (mem_data mem') = default "" (mem_data mem) +:+ body pieces →
     mem_size mem' = slen (default "" (mem_data mem')) → Q (true, mem') e) →
  wp (curl_receive pieces mem) Q X F e.
Proof.
  revert mem. induction pieces as [|p pieces IH]; intros mem Hm Hs Hf HQ; simpl.
  - apply wp_ret, HQ; [|done]. simpl. by rewrite string_app_nil.
  - simpl in Hf. rewrite slen_app in Hf.
    assert (0 ≤ slen p ∧ 0 ≤ slen (body pieces) ∧ 0 ≤ slen (default "" (mem_data mem))) as (? & ? & ?)
      by (unfold slen; lia).
    unfold est_write_callback. apply wp_bind, wp_bind, wp_e_alloc; [done|]. simpl.
    apply wp_ret. rewrite Z.eqb_refl.
    apply IH; simpl; [done|..].
    + rewrite slen_app, Hs. apply wrap_small. lia.
    + rewrite slen_app. lia.
    + intros mem' Hd Hs'. apply HQ; [|done]. by rewrite Hd, string_app_assoc.
Qed.

(** The body goes out when there is one. *)
Definition post_of (csr : option string) : option string :=
  match csr with Some (String _ _) => csr | _ => None end.

Lemma est_http_request_spec url cert key ca post e (Q : Z * est_memory → est → Prop) X F :
  no_mem_loss e → response_fits e →
  (∀ code mem e', e_files e' = e_files e → e_env e' = e_env e → e_io e' = e_io e → e_disk e' = e_disk e →
     no_mem_loss e' → e_http e' = tail (e_http e) →
     e_requests e' = e_requests e ++ [mk_est_request url cert key ca (post_of post)] →
     match response_expected e with
     | Some data => code = EST_SUCCESS ∧ default "" (mem_data mem) = data ∧
         mem_size mem = slen data
     | None => code ≠ EST_SUCCESS ∧ e_error e' ≠ ""
     end → Q (code, mem) e') →
  wp (est_http_request url cert key ca post) Q X F e.
Proof.
  intros Hm Hf HQ. unfold est_http_request, response_fits, response_expected in *. est_alloc.
  apply wp_bind. unfold wp at 1, curl_easy_perform. simpl.
  destruct (e_http e) as [|[pieces|] h]; simpl.
  - apply wp_bind, wp_modify, wp_ret, HQ; done.
  - specialize (Hf _ eq_refl).
    match goal with |- context [curl_receive pieces ?m ?s] =>
      apply (curl_receive_spec pieces m s); [done|done|change (0 + slen (body pieces) < 2 ^ 64); lia|] end.
    intros mem' Hd Hs. simpl. apply wp_ret, HQ; try done.
    simpl in Hd. split; [done|]. rewrite Hs. by rewrite Hd.
  - apply wp_bind, wp_modify, wp_ret, HQ; done.
Qed.

Definition enroll_expected (e : est) (cert key : string) : option string :=
  _ ← csr_expected e cert key;
  data ← response_expected e;
  if streq data "" then None else pem_expected data.

(** The state after an exchange. *)
Record exchanged (e : est) (rqs : list est_request) (e' : est) : Prop := {
  ex_files : e_files e' = e_files e;
  ex_env : e_env e' = e_env e;
  ex_io : e_io e' = e_io e;
  ex_disk : e_disk e' = e_disk e;
  ex_heap : no_mem_loss e';
  ex_http : e_http e' = drop (length rqs) (e_http e);
  ex_requests : e_requests e' = e_requests e ++ rqs
}.

Definition answered (expected : option string) (e : est) (rqs : list est_request)
    (r : est_result) (e' : est) : Prop :=
  exchanged e rqs e' ∧ r.2 = expected ∧ (r.1 = EST_SUCCESS ↔ is_Some expected) ∧
  (expected = None → e_error e' ≠ "").

(** The second half, shared by the three operations. *)
Lemma exchange_spec url cert key ca post e :
  no_mem_loss e → response_fits e →
  wp ('(ret2, response) ← est_http_request url cert key ca post;
      if negb (ret2 =? EST_SUCCESS) then ret (ret2, None)
      else est_pkcs7_to_pem (mem_data response) (mem_size response))
    (answered (data ← response_expected e; if streq data "" then None else pem_expected data) e
       [mk_est_request url cert key ca (post_of post)]) (λ _, False) no_fault e.
Proof.
  intros Hm Hf. apply wp_bind, est_http_request_spec; [done..|].
  intros code mem e1 E1 E2 E3 E7 E4 E6 E5 Hr. unfold response_fits in Hf.
  assert (∀ e', kept e1 e' → exchanged e [mk_est_request url cert key ca (post_of post)] e') as Hk.
  { intros e' []. split; try congruence. simpl. rewrite kp_http0, E6. by destruct (e_http e). }
  destruct (response_expected e) as [data|]; simpl.
  - destruct Hr as (-> & Hd & Hs). simpl. specialize (Hf _ eq_refl).
    destruct (String.eqb_spec data "") as [->|Hne].
    + unfold streq. simpl. rewrite Hs. unfold est_pkcs7_to_pem. simpl.
      destruct (mem_data mem) as [d|]; simpl;
        (eapply est_fail_spec; [by apply kept_refl|done|done|]; intros r e' (H1 & H2 & H3 & H4);
         split; [by apply Hk|done]).
    + unfold streq. rewrite (proj2 (String.eqb_neq _ _)) by done.
      destruct (mem_data mem) as [d|]; simpl in Hd; [|by subst]. subst d. rewrite Hs.
      apply est_pkcs7_spec; [done..|]. intros r e' (H1 & H2 & H3 & H4). split; [by apply Hk|done].
  - destruct Hr as (Hc & He). rewrite (proj2 (Z.eqb_neq _ _)) by done. apply wp_ret.
    split; [by apply Hk, kept_refl|]. simpl. split; [done|]. split; [|done]. split; [done|by intros []].
Qed.

(** C34: an enrolment signs a request for the subject of the device's
    certificate, sends it to the server's simpleenroll address with that
    certificate, and returns the certificates of the signed answer, its pieces
    put together; every other outcome is an error with a message, and nothing
    is sent when the request cannot be made. *)
Theorem est_enroll_exact (server cert key : string) (ca : option string) (e : est) :
  no_mem_loss e → response_fits e →
  wp (est_simple_enroll server cert key ca)
    (answered (enroll_expected e cert key) e
       (match csr_expected e cert key with
        | Some csr => [mk_est_request (est_url server EST_PATH_SIMPLEENROLL) cert key ca
                         (post_of (Some csr))]
        | None => []
        end)) (λ _, False) no_fault e.
Proof.
  intros Hm Hf. unfold est_simple_enroll, enroll_expected.
  apply wp_bind, est_generate_csr_spec; [done|]. intros [code csr] e1 ([E1 E2 E3 E7 E4 E5 E6] & Hr & Hc & He).
  simpl in Hr, Hc. subst csr. destruct (csr_expected e cert key) as [csr|] eqn:Ecsr; simpl.
  - rewrite (proj2 Hc) by done. simpl.
    assert (response_expected e1 = response_expected e) as Ex by by unfold response_expected; rewrite E4.
    eapply wp_mono; [apply exchange_spec; [done|unfold response_fits; by rewrite Ex]|..]; try done.
    rewrite Ex. intros r e' ([H1 H2 H3 H8 H4 H6 H7] & H5). split; [|done].
    split; [congruence..|done|by rewrite H6, E4|by rewrite H7, E5].
  - assert (code ≠ EST_SUCCESS) as Hne by (intros Hcd; by destruct (proj1 Hc Hcd)).
    rewrite (proj2 (Z.eqb_neq _ _)) by done. apply wp_ret.
    split; [split; [congruence..|done|by rewrite E4|by rewrite app_nil_r]|]. simpl. split_and!; [done| |auto].
    by split; [|intros []].
Qed.
End est_spec.
