(* ===== verification/Boot.v ===== *)
(** * Start-up and the main loop ([main], [ucentral-client.c])

    What runs before the service loop: the identity read from the birth
    certificate, the device id, the enrolment of the operational certificate,
    the gateway's address, the password left by a reset.  [boot] is the client
    with the EST client's state, whose files are the files of the device.
    [exit] and [goto exit] are failures.  At the end, the signal thread against
    the loop of [main], as steps. *)

From S2P Require Import Prelude CNum CStr Bitmap Router Json PlatTypes World ProtoConv Messages CfgServices CfgParse Handlers Dispatch Connect Events Log Txq Client Est.
From Stdlib Require Import Ascii.
#[local] Open Scope list_scope.

Definition UCENTRAL_DEVID_F_MAX_LEN : Z := 36.

(** ** Text *)

(** [strrchr(s, ch)]: the text before the last [ch] and the one after it. *)
Fixpoint strrchr (ch : ascii) (s : string) : option (string * string) :=
  match s with
  | EmptyString => None
  | String c r =>
      match strrchr ch r with
      | Some (a, b) => Some (String c a, b)
      | None => if Ascii.eqb c ch then Some (EmptyString, r) else None
      end
  end.

(** [strtol(s, NULL, 10)], 64 bits. *)
Definition strtol (s : string) : Z :=
  match skip_space s with
  | EmptyString => 0
  | String c r =>
      let '(neg, body) :=
        if Ascii.eqb c "-" then (true, r)
        else if Ascii.eqb c "+" then (false, r) else (false, String c r) in
      let v := default 0 (digits body) in
      if neg then Z.max (- v) (- 2 ^ 63) else Z.min v (2 ^ 63 - 1)
  end.
(** glibc's [atoi]: [(int)strtol(...)]. *)
Definition atoi (s : string) : Z := wrap_signed 32 (strtol s).

(** The text in front of the first NUL of some bytes. *)
Fixpoint before_nul (s : string) : option string :=
  match s with
  | EmptyString => None
  | String c r =>
      if Ascii.eqb c zero then Some EmptyString
      else match before_nul r with Some t => Some (String c t) | None => None end
  end.

(** [for (i = 10; i < 63; ++i) CN[i] = tolower(CN[i])] and [&CN[10]]. *)
Definition cn_serial (cn : string) : string := lower (String.substring 10 53 cn).
Definition cn_lower (cn : string) : string :=
  stake 10 cn +:+ (cn_serial cn +:+ String.substring 63 1 cn).

#[export] Instance eta_client_id : Eta client_id := λ r,
  mk_client_id (cl_serial r) (cl_firmware r) (cl_ols_client_version_file r)
    (cl_ols_schema_version_file r).

Record boot `{CJson, Platform} := mk_boot {
  b_client : client;
  b_est : est;
  b_password_fd : option string   (* what the password file holds *)
}.
#[export] Instance eta_boot `{CJson, Platform} : Eta boot := λ r,
  mk_boot _ _ (b_client r) (b_est r) (b_password_fd r).

Section boot.
Context `{J : CJson, P : Platform, T : CTarget, L : CLibc, EC : EstClient, W : Lws, O : OpenSsl}.
Context (print : json → string).

Definition in_client {A} (m : M client A) : M boot A := λ b,
  match m (b_client b) with
  | Ok a c => Ok a (b <| b_client := c |>)
  | Err c => Err (b <| b_client := c |>)
  | Fault f => Fault f
  end.
Definition in_est {A} (m : M est A) : M boot A := λ b,
  match m (b_est b) with
  | Ok a e => Ok a (b <| b_est := e |>)
  | Err e => Err (b <| b_est := e |>)
  | Fault f => Fault f
  end.
Definition config : M boot client_config := gets (λ b, c_config (b_client b)).
Definition upd_config (f : client_config → client_config) : M boot unit :=
  in_client (modify (λ c, c <| c_config := f (c_config c) |>)).
(** [client.serial] and [client.firmware], which the protocol layer reads. *)
Definition upd_identity (f : client_id → client_id) : M boot unit :=
  in_client (modify (λ c, c <| c_world := c_world c <| w_client := f (w_client (c_world c)) |> |>)).
Definition b_plat {A} (f : pst → A * pst) : M boot A := in_client (λ c,
  let '(a, p) := f (w_plat (c_world c)) in Ok a (c <| c_world := c_world c <| w_plat := p |> |>)).
Definition b_log (text : string) : M boot unit := in_client (C_LOG_ERR print text).
Definition b_err {A} (text : string) : M boot A := _ ← b_log text; fail.

(** [stat(path, &st) == 0] *)
Definition exists_file (path : string) : M boot bool :=
  e ← gets b_est; ret (non_null (e_files e !! path)).
Definition read_file (path : string) : M boot (option string) :=
  e ← gets b_est; ret (e_files e !! path).

(** ** Identity *)

(** [X509_NAME_oneline] writes at most [size] bytes with the final NUL. *)
Definition ssl_cert_get_common_name (size : nat) (cert_path : string) : M boot string :=
  fp ← read_file cert_path;
  match fp with
  | None => b_err "Failed to open file: %s"
  | Some text =>
      match PEM_read_X509 text with
      | None => b_err "Failed to read PEM cert"
      | Some cert => ret (stake (size - 1) (default "" (X509_subject cert)))
      end
  end.

(** The part of [client_config_read] that reads the dev-id file: its size, one
    item of that size, and a NUL over the last byte read. *)
Definition devid_read (text : string) : option string :=
  let size := slen text in
  let size := if size <? UCENTRAL_DEVID_F_MAX_LEN then size else UCENTRAL_DEVID_F_MAX_LEN + 1 in
  if (size =? 0) || (slen text <? size) then None
  else Some (stake (Z.to_nat (size - 1)) text).

Definition client_config_read : M boot unit :=
  cfg ← config;
  let cert_for_cn := default (UCENTRAL_CONFIG "cert.pem") (cc_cert cfg) in
  cn ← try (ssl_cert_get_common_name 63 cert_for_cn);
  match cn with
  | None => b_err "CN read from cert failed (%s)"
  | Some cn =>
      _ ← upd_config (λ c, c <| cc_CN := cn_lower cn |>);
      _ ← upd_identity (λ i, i <| cl_serial := cn_serial cn |>);
      f_devid ← read_file (UCENTRAL_CONFIG "dev-id");
      match f_devid with
      | None => b_err "Failed to open devid ('%s') file (%d)"
      | Some text =>
          _ ← (if slen text <? UCENTRAL_DEVID_F_MAX_LEN
               then b_log "dev-id file suspiciously < than %u.. trying anyway" else ret tt);
          match devid_read text with
          | None => b_err "Failed to read devid string to buf (%d)"
          | Some devid => upd_config (λ c, c <| cc_devid := devid |>)
          end
      end
  end.

(** ** Enrolment *)

(** Which certificate and CA the connection will use. *)
Definition use_certs (cert ca : string) : M boot unit :=
  upd_config (λ c, c <| cc_cert := Some cert |> <| cc_ca := Some ca |>).

Definition operational_cert : string := UCENTRAL_CONFIG "operational.pem".
Definition operational_ca : string := UCENTRAL_CONFIG "operational.ca".
Definition birth_cert : string := UCENTRAL_CONFIG "cert.pem".
Definition birth_key : string := UCENTRAL_CONFIG "key.pem".
Definition birth_ca : string := UCENTRAL_CONFIG "cas.pem".

(** [return -1] with the birth certificate as the fallback. *)
Definition fall_back (text : string) : M boot unit :=
  _ ← b_log text; _ ← use_certs birth_cert birth_ca; fail.

Definition pki2_check_and_enroll : M boot unit :=
  have ← exists_file operational_cert;
  if (have : bool) then use_certs operational_cert operational_ca
  else
    birth ← exists_file birth_cert;
    if negb birth then b_err "PKI 2.0: No birth certificate found at %s"
    else
      est_server ← in_est (Est.est_get_server_url birth_cert);
      match est_server with
      | None => fall_back "PKI 2.0: Failed to determine EST server"
      | Some est_server =>
          '(code, enrolled_cert) ← in_est (est_simple_enroll est_server birth_cert birth_key (Some birth_ca));
          if negb (code =? EST_SUCCESS) then fall_back "PKI 2.0: EST enrollment failed: %s"
          else
            enrolled_cert ← deref enrolled_cert;
            code ← in_est (est_save_cert enrolled_cert operational_cert);
            if negb (code =? EST_SUCCESS)
            then fall_back "PKI 2.0: Failed to save operational certificate: %s"
            else
              '(code, ca_certs) ← in_est (est_get_cacerts est_server operational_cert birth_key (Some birth_ca));
              _ ← (if code =? EST_SUCCESS then
                     ca_certs ← deref ca_certs;
                     _ ← in_est (est_save_cert ca_certs operational_ca); ret tt
                   else ret tt);
              use_certs operational_cert operational_ca
      end.

(** ** The gateway *)
Definition gateway_parse (gw_host : string) (port : Z) : option (string * Z) :=
  match strrchr ":" gw_host with
  | Some (String _ _ as host, rest) =>
      let env_port := atoi rest in
      if env_port =? 0 then None
      else Some (host, if (port =? 0) || (port =? 15002) then wrap_signed 16 env_port else port)
  | _ => Some (gw_host, port)
  end.

Definition gateway_get : M boot unit :=
  c ← gets b_client;
  match c_env c !! "UC_GATEWAY_ADDRESS" with
  | None => b_err "No gateway address configured. Set UC_GATEWAY_ADDRESS environment variable."
  | Some gw_host =>
      match gateway_parse gw_host (cc_port (c_config c)) with
      | None => b_err "Invalid port in UC_GATEWAY_ADDRESS: %s"
      | Some (host, port) => upd_config (λ c, c <| cc_server := Some host |> <| cc_port := port |>)
      end
  end.

(** ** The password left by a reset

    [pass] is an uninitialised array of [*len] bytes; the value returned is
    what [strncpy] wrote at its start. *)
Definition get_updated_pass (len : Z) : M boot string :=
  fd ← gets b_password_fd;
  match fd with
  | None => fail
  | Some text =>
      opened ← in_est e_io_next;
      if negb opened then b_err "Failed to open %s"
      else
      let password_size := Z.min (slen text) 64 in
      if password_size =? 64 then b_err "%s is too big"
      else if password_size =? 0 then b_err "failed to read %s"
      else if len <? password_size then b_err "out buffer is too small (%lu < %lu)"
      else
        removed ← in_est e_io_next;
        if negb removed then b_err "Failed to remove %s"
        else
          _ ← modify (λ b, b <| b_password_fd := None |>);
          ret text
  end.

(** [deviceupdate_send(password)]: the array is read up to its first NUL. *)
Definition password_send (pass : string) : M boot unit :=
  match before_nul pass with
  | Some text => in_client (proto print (deviceupdate_send (Some text)))
  | None => faulty Uninitialised
  end.

(** ** The service loop *)
Record loop_state := mk_loop_state {
  l_password : option string;     (* password_len is not 0 *)
  l_reboot_reason_sent : bool
}.

(** One [lws_service_tsi], which makes the callbacks [reasons], and what [main]
    does after it. *)
Definition service_once (reasons : list (positive * lws_callback_reasons)) (l : loop_state)
    : M boot loop_state :=
  _ ← for_each reasons (λ r, in_client (callback_broker print r.1 r.2));
  c ← gets b_client;
  if c_conn_successfull c =? 0 then ret l
  else
    _ ← match l_password l with Some p => password_send p | None => ret tt end;
    _ ← (if l_reboot_reason_sent l then ret tt
         else in_client (proto print device_rebootcause_send));
    ret (mk_loop_state None true).

(** [while (!uc_loop_interrupted_get())]: one element per iteration. *)
Definition service_loop (rounds : list (list (positive * lws_callback_reasons))) (l : loop_state)
    : M boot loop_state :=
  fold_m (λ l reasons, service_once reasons l) rounds l.

(** ** [main], up to the loop

    [plat_revision_get] fills [client.firmware], of 64 bytes, with a string. *)
Definition main_start (plat_init : pst → Z * pst) (plat_revision_get : pst → string * pst)
    : M boot loop_state :=
  _ ← in_client (modify (λ c, c <| c_log := uc_log_severity_set UC_LOG_COMPONENT_PLAT UC_LOG_SV_ERR
        (uc_log_severity_set UC_LOG_COMPONENT_CLIENT UC_LOG_SV_ERR
          (uc_log_severity_set UC_LOG_COMPONENT_PROTO UC_LOG_SV_ERR
             (uc_log_send_cb_register (c_log c)))) |>));
  ok ← attempt client_config_read;
  if negb ok then _ ← in_client (C_LOG_CRIT print "client_config_read failed"); fail
  else
    r ← b_plat plat_init;
    _ ← (if r =? 0 then ret tt
         else in_client (C_LOG_CRIT print "Platform initialization failed"));
    firmware ← b_plat plat_revision_get;
    _ ← upd_identity (λ i, i <| cl_firmware := firmware |>);
    _ ← attempt pki2_check_and_enroll;
    _ ← gateway_get;
    _ ← in_client set_conn_time;
    context ← in_client lws_outcome;
    if negb context then fail
    else
      _ ← in_client (modify (λ c, c <| c_context := true |>));
      pass ← try (get_updated_pass 64);
      _ ← in_client (proto print proto_start);
      ret (mk_loop_state pass false).

(** ** The end of [main]: what is still queued is freed. *)
Definition main_exit : M boot unit :=
  _ ← in_client (proto print proto_stop);
  in_client (in_tx (txq ← txq_pull; txq_free txq)).

(** ** The redirector, kept for reference and not called *)
Definition redirector_file : string := "/tmp/ucentral-redirector.json".

(** The first member of [fields] named Redirector. *)
Fixpoint redirector_server (fields : list json) : option json :=
  match fields with
  | [] => None
  | field :: fields =>
      match string_value (get_item_ci (Some field) "name") with
      | Some name =>
          if streq "Redirector" name then get_item_ci (Some field) "value"
          else redirector_server fields
      | None => redirector_server fields
      end
  end.

(** The result of [fstat] and [mmap] is part of reading the file. *)
Definition ucentral_redirector_parse : M boot string :=
  file ← read_file redirector_file;
  match file with
  | None => b_err "Failed to open '%s' for reading"
  | Some text =>
      match cJSON_Parse text with
      | None => b_err "Redirector str parse failed (%s)"
      | Some redirector =>
          let fields := get_item_ci (Some redirector) "fields" in
          if negb (is_array fields) then
            b_err "Redirector parse failed: 'fields' array is not found"
          else
            let server := redirector_server (for_each_child fields) in
            match string_value server with
            | Some s => if is_string server then ret s
                        else b_err "Redirector parse failed: 'server' key invalid"
            | None => b_err "Redirector parse failed: 'server' key invalid"
            end
      end
  end.

Definition redirector_host_get : M boot string :=
  c ← gets b_client;
  ret match c_env c !! "UC_REDIRECTOR_URL" with
      | Some v => c_snprintf_s 512 v
      | None => "https://clientauth.one.digicert.com/iot/api/v2/device"
      end.

(** The URL is built in an array of 256 bytes. *)
Definition firstcontact_url : M boot string :=
  host ← redirector_host_get;
  cfg ← config;
  c_strcpy 256 (host +:+ "/" +:+ cc_devid cfg).
End boot.

(** ** The signal thread ([ucentral-client.c])

    [sigthread_cb] waits for SIGQUIT, sets [interrupted] and wakes the service
    loop through the context [main] has published with [sigthread_context_set];
    [main] publishes it, then tests [interrupted] before every
    [lws_service_tsi].  Each access to the two variables is one critical
    section of [sigthread_mtx]; a step below is one of them, or a call of
    libwebsockets.  [lws_service_tsi] returns when a cancel is pending, or
    after any other event. *)

Inductive main_pc :=
  | MSetup        (* before sigthread_context_set *)
  | MTest         (* at uc_loop_interrupted_get *)
  | MService      (* in lws_service_tsi *)
  | MExit.        (* past the loop *)

Inductive sig_pc :=
  | GWait                    (* in sigwait *)
  | GSet                     (* at uc_loop_interrupted_set *)
  | GGet                     (* at sigthread_context_get *)
  | GCancel (ctx : bool)     (* at the test of the context *)
  | GDone.

Record quit_state := mk_quit_state {
  q_interrupted : bool;
  q_sigthread_context : bool;   (* sigthread_context is not NULL *)
  q_cancel : bool;              (* lws_cancel_service is pending *)
  q_main : main_pc;
  q_sig : sig_pc
}.
#[export] Instance eta_quit : Eta quit_state := λ r,
  mk_quit_state (q_interrupted r) (q_sigthread_context r) (q_cancel r) (q_main r) (q_sig r).

(** The critical sections. *)
Definition uc_loop_interrupted_set (value : bool) (s : quit_state) : bool * quit_state :=
  (q_interrupted s, s <| q_interrupted := value |>).
Definition uc_loop_interrupted_get (s : quit_state) : bool := q_interrupted s.
Definition sigthread_context_set (c : bool) (s : quit_state) : quit_state :=
  s <| q_sigthread_context := c |>.
Definition sigthread_context_get (s : quit_state) : bool := q_sigthread_context s.

(** One step of [main]'s loop. *)
Inductive main_step : quit_state → quit_state → Prop :=
  | ms_setup s : q_main s = MSetup →
      main_step s (sigthread_context_set true s <| q_main := MTest |>)
  | ms_test s : q_main s = MTest →
      main_step s (s <| q_main := if uc_loop_interrupted_get s then MExit else MService |>)
  | ms_return s : q_main s = MService →      (* an event, or the cancel *)
      main_step s (s <| q_main := MTest |> <| q_cancel := false |>).

(** One step of [sigthread_cb]; the signal may come at any time. *)
Inductive sig_step : quit_state → quit_state → Prop :=
  | gs_signal s : q_sig s = GWait → sig_step s (s <| q_sig := GSet |>)
  | gs_set s : q_sig s = GSet →
      sig_step s ((uc_loop_interrupted_set true s).2 <| q_sig := GGet |>)
  | gs_get s : q_sig s = GGet →
      sig_step s (s <| q_sig := GCancel (sigthread_context_get s) |>)
  | gs_cancel s c : q_sig s = GCancel c →
      sig_step s (s <| q_cancel := c || q_cancel s |> <| q_sig := GDone |>).

Inductive quit_step (s s' : quit_state) : Prop :=
  | qs_main : main_step s s' → quit_step s s'
  | qs_sig : sig_step s s' → quit_step s s'.

Definition quit_init : quit_state := mk_quit_state false false false MSetup GWait.

(** ** The invariant *)
Record quit_ok (s : quit_state) : Prop := {
  qo_set : q_sig s ≠ GWait → q_sig s ≠ GSet → q_interrupted s = true;
  qo_context : q_main s ≠ MSetup → q_sigthread_context s = true;
  (* blocked in the service although interrupted: the wake-up is on its way *)
  qo_wake : q_main s = MService → q_interrupted s = true →
    q_cancel s = true ∨ q_sig s = GGet ∨ q_sig s = GCancel true;
  qo_before : q_sig s = GWait ∨ q_sig s = GSet → q_interrupted s = false;
  qo_published : q_sig s = GCancel false → q_main s = MService → False
}.

Lemma quit_step_ok s s' : quit_ok s → quit_step s s' → quit_ok s'.
Proof.
  intros [H1 H2 H3 H4 H5] [Hs|Hs]; destruct Hs as [[i x k m g]|[i x k m g]|[i x k m g]|[i x k m g] c] ||
    destruct Hs as [[i x k m g]|[i x k m g]|[i x k m g]]; simpl in *; subst;
    split; unfold uc_loop_interrupted_get, sigthread_context_get in *; simpl in *.
  all: first [solve [intuition congruence]
             |destruct i; first [solve [intuition congruence]
                                |destruct m, x; solve [intuition congruence]
                                |destruct c; solve [intuition congruence]]].
Qed.

Definition quit_reachable : quit_state → Prop := rtc quit_step quit_init.

Lemma quit_reachable_ok s : quit_reachable s → quit_ok s.
Proof.
  unfold quit_reachable. assert (quit_ok quit_init) as H0 by (split; done).
  revert H0. generalize quit_init. induction 2; eauto using quit_step_ok.
Qed.

(** C35: a SIGQUIT is never lost: once the signal thread is done, [main] is past
    the loop, about to test [interrupted] and leave it, about to publish the
    context and then test, or in lws_service_tsi with a wake-up pending. *)
Theorem quit_not_lost (s : quit_state) :
  quit_reachable s → q_sig s = GDone →
  q_interrupted s = true ∧ (q_main s = MService → q_cancel s = true).
Proof.
  intros Hr Hg. destruct (quit_reachable_ok s Hr) as [H1 H2 H3 H4 H5]. rewrite Hg in *.
  assert (q_interrupted s = true) as Hi by by apply H1. split; [done|].
  intros Hm. destruct (H3 Hm Hi) as [?|[?|?]]; done.
Qed.

Lemma quit_not_lost_witness :
  ∃ s, quit_reachable s ∧ q_sig s = GDone ∧ q_main s = MService ∧
    (q_interrupted s = true ∧ (q_main s = MService → q_cancel s = true)).
Proof.
  exists (mk_quit_state true true true MService GDone).
  assert (quit_reachable (mk_quit_state true true true MService GDone)) as Hr.
  { eapply rtc_l; [by apply qs_main, ms_setup|]. eapply rtc_l; [by apply qs_main, ms_test|].
    eapply rtc_l; [by apply qs_sig, gs_signal|]. eapply rtc_l; [by apply qs_sig, gs_set|].
    eapply rtc_l; [by apply qs_sig, gs_get|].
    eapply rtc_l; [by apply qs_sig, (gs_cancel _ true)|]. apply rtc_refl. }
  split; [exact Hr|]. split; [reflexivity|]. split; [reflexivity|].
  apply (quit_not_lost _ Hr). reflexivity.
Defined.
