(* ===== verification/BootSpec.v ===== *)
(** * What start-up establishes *)

From S2P Require Import Prelude CNum CStr Log Txq Bitmap Router Json PlatTypes World ProtoConv Messages CfgServices CfgParse Handlers Dispatch Connect Events Est EstSpec Sample Client ClientSpec Boot.
From Stdlib Require Import Ascii.
#[local] Open Scope list_scope.

(** ** The gateway's address *)
Fixpoint has_char (ch : ascii) (s : string) : bool :=
  match s with
  | EmptyString => false
  | String c r => Ascii.eqb c ch || has_char ch r
  end.

Lemma strrchr_none ch s : has_char ch s = false → strrchr ch s = None.
Proof.
  induction s as [|c s IH]; [done|]. simpl. intros [Hc Hs]%orb_false_iff.
  by rewrite IH, Hc.
Qed.

Lemma strrchr_last ch h s :
  has_char ch s = false → strrchr ch (h +:+ String ch s) = Some (h, s).
Proof.
  intros Hs. induction h as [|c h IH].
  - change ("" +:+ String ch s) with (String ch s). simpl. by rewrite (strrchr_none ch s Hs), Ascii.eqb_refl.
  - change (String c h +:+ String ch s) with (String c (h +:+ String ch s)). simpl. by rewrite IH.
Qed.

(** Decimal text holds digits only. *)
Lemma dec_aux_no_colon fuel n acc :
  0 ≤ n → has_char ":" acc = false → has_char ":" (dec_aux fuel n acc) = false.
Proof.
  revert n acc. induction fuel as [|fuel IH]; intros n acc Hn Ha; [done|]. cbn [dec_aux].
  assert (has_char ":" (String (digit_char (n mod 10)) acc) = false) as Hs.
  { simpl. rewrite Ha, orb_false_r.
    pose proof (Z.mod_pos_bound n 10 ltac:(lia)) as Hm. revert Hm. generalize (n mod 10). intros d Hm.
    assert (d = 0 ∨ d = 1 ∨ d = 2 ∨ d = 3 ∨ d = 4 ∨ d = 5 ∨ d = 6 ∨ d = 7 ∨ d = 8 ∨ d = 9)
      as Hc by lia. by repeat destruct Hc as [->|Hc]; subst. }
  destruct (n / 10 =? 0); [done|]. apply IH; [apply Z.div_pos; lia|done].
Qed.

Lemma strtol_dec n : 0 ≤ n < 2 ^ 63 → strtol (dec n) = n.
Proof.
  intros Hn. unfold dec, strtol.
  destruct (digits_from_dec_aux 20 n "") as (d & r & -> & Hd & Hr); [simpl; lia|lia|].
  destruct (digit_char_not_special d Hd) as (Hs & Hm & Hp).
  cbn [skip_space]. rewrite Hs, Hm, Hp. cbn [digits]. rewrite digit_val_char by done.
  cbn [default]. rewrite Hr. cbn. lia.
Qed.

Lemma atoi_dec n : 0 ≤ n < 2 ^ 31 → atoi (dec n) = n.
Proof. intros Hn. unfold atoi. rewrite strtol_dec by lia. by apply wrap_signed_small. Qed.

(** UC_GATEWAY_ADDRESS written as host:port gives back the host, whatever
    colons it holds, and the port; a port above 32767 becomes negative in
    client.port, an int16_t. *)
Theorem gateway_address_read (host : string) (port : Z) :
  host ≠ "" → 0 < port < 2 ^ 16 →
  gateway_parse (host +:+ ":" +:+ dec port) 15002 =
    Some (host, if port <? 2 ^ 15 then port else port - 2 ^ 16).
Proof.
  intros Hh Hp. unfold gateway_parse.
  change (host +:+ ":" +:+ dec port) with (host +:+ String ":" (dec port)).
  rewrite strrchr_last by (apply dec_aux_no_colon; [lia|done]). destruct host as [|c host]; [done|].
  rewrite atoi_dec by lia. rewrite (proj2 (Z.eqb_neq port 0)) by lia. simpl.
  unfold wrap_signed. rewrite wrap_small by lia. done.
Qed.

Lemma gateway_address_read_witness :
  ("fe80::1" ≠ "" ∧ 0 < 40000 < 2 ^ 16) ∧
  gateway_parse ("fe80::1" +:+ ":" +:+ dec 40000) 15002 = Some ("fe80::1", -25536).
Proof.
  split; [split; [discriminate|lia]|].
  apply (gateway_address_read "fe80::1" 40000); [discriminate|lia].
Defined.

(** ** The device id *)

(** The dev-id file gives its text without the last byte when it is
    shorter than 36 bytes, and its first 36 bytes when it is longer; the size
    in between, 36 bytes, which is the length of an id without a line feed, is
    refused, as is an empty file.  What is kept always fits client.devid. *)
Theorem devid_read_exact (text : string) :
  devid_read text =
    (if slen text =? 0 then None
     else if slen text <? 36 then Some (stake (String.length text - 1) text)
     else if slen text =? 36 then None
     else Some (stake 36 text)) ∧
  (∀ devid, devid_read text = Some devid → slen devid < UCENTRAL_DEVID_F_MAX_LEN + 1).
Proof.
  assert (0 ≤ slen text) as H0 by (unfold slen; lia).
  assert (∀ x, devid_read text = x → (x =
    (if slen text =? 0 then None
     else if slen text <? 36 then Some (stake (String.length text - 1) text)
     else if slen text =? 36 then None
     else Some (stake 36 text))) ∧ (∀ devid, x = Some devid → slen devid < 37)) as H; [|by apply H].
  intros x <-. unfold devid_read, UCENTRAL_DEVID_F_MAX_LEN.
  destruct (Z.ltb_spec (slen text) 36) as [Hl|Hl].
  - destruct (Z.eqb_spec (slen text) 0) as [E|E]; [done|].
    rewrite (proj2 (Z.ltb_ge _ _)) by lia. simpl.
    replace (Z.to_nat (slen text - 1)) with (String.length text - 1)%nat by (unfold slen; lia).
    split; [done|]. intros devid [= <-]. pose proof (slen_stake (String.length text - 1) text).
    unfold slen in *. lia.
  - rewrite (proj2 (Z.eqb_neq (slen text) 0)) by lia. simpl.
    destruct (Z.eqb_spec (slen text) 36) as [E|E].
    + by rewrite E.
    + rewrite (proj2 (Z.ltb_ge _ _)) by lia. change (Z.to_nat (36 + 1 - 1)) with 36%nat.
      split; [done|]. intros devid [= <-]. pose proof (slen_stake 36 text). lia.
Qed.

(** ** Enrolment at start-up *)
Section enrolment.
Context `{J : CJson, P : Platform, T : CTarget, L : CLibc, EC : EstClient, W : Lws, O : OpenSsl, JL : !CJsonLaws}.
Context (print : json → string) (print_fits : ∀ j, fits (print j)).

Lemma wp_in_client {A} (m : M client A) (Q : A → boot → Prop) (X : boot → Prop) F b :
  wp m (λ a c, Q a (b <| b_client := c |>)) (λ c, X (b <| b_client := c |>)) F (b_client b) →
  wp (in_client m) Q X F b.
Proof. unfold wp, in_client. by destruct (m (b_client b)). Qed.

Lemma wp_in_est {A} (m : M est A) (Q : A → boot → Prop) (X : boot → Prop) F b :
  wp m (λ a e, Q a (b <| b_est := e |>)) (λ e, X (b <| b_est := e |>)) F (b_est b) →
  wp (in_est m) Q X F b.
Proof. unfold wp, in_est. by destruct (m (b_est b)). Qed.

(** The service thread is idle. *)
Definition boot_idle (b : boot) : Prop := ∃ v, idle (b_client b) v.

(** What a line of the log may change. *)
Record logged (b b' : boot) : Prop := {
  lo_idle : boot_idle b';
  lo_est : b_est b' = b_est b;
  lo_config : c_config (b_client b') = c_config (b_client b);
  lo_password : b_password_fd b' = b_password_fd b
}.

Lemma b_log_spec text b (Q : unit → boot → Prop) X F :
  boot_idle b → (∀ b', logged b b' → Q tt b') → wp (b_log print text) Q X F b.
Proof using print_fits JL.
  intros [v Hi] HQ. apply wp_in_client, (client_log_spec print print_fits _ _ _ _ v); [apply Hi..|].
  intros v' ms c' Hd. apply HQ. split; try done.
  - exists v'. by eapply idle_handed.
  - simpl. by rewrite (hd_rest _ _ _ _ _ _ Hd).
Qed.

Definition certs_used (b : boot) : option string * option string :=
  (cc_cert (c_config (b_client b)), cc_ca (c_config (b_client b))).

Lemma use_certs_spec cert ca b (Q : unit → boot → Prop) X F :
  (∀ b', b_est b' = b_est b → certs_used b' = (Some cert, Some ca) → Q tt b') →
  wp (use_certs cert ca) Q X F b.
Proof. intros HQ. apply wp_in_client, wp_modify, HQ; done. Qed.

Lemma fall_back_spec text b (Q : unit → boot → Prop) (X : boot → Prop) F :
  boot_idle b →
  (∀ b', b_est b' = b_est b → certs_used b' = (Some birth_cert, Some birth_ca) → X b') →
  wp (fall_back print text) Q X F b.
Proof using print_fits JL.
  intros Hi HX. apply wp_bind, b_log_spec; [done|]. intros b1 [H1 H2 H3 H4].
  apply wp_bind, use_certs_spec. intros b2 E2 Hc. apply wp_fail, HX; [congruence|done].
Qed.

Definition all_fit (e : est) : Prop :=
  ∀ pieces, Some pieces ∈ e_http e → slen (body pieces) < 2 ^ 64.

Lemma all_fit_response e : all_fit e → response_fits e.
Proof.
  unfold all_fit, response_fits, response_expected. intros H data.
  destruct (e_http e) as [|[pieces|] h]; try done. intros [= <-]. apply H. by left.
Qed.

Lemma server_url_spec path e (Q : option string → est → Prop) X F :
  (∀ s e', e_files e' = e_files e → e_heap e' = e_heap e → e_http e' = e_http e →
     e_io e' = e_io e → e_disk e' = e_disk e → Q (Some s) e') →
  wp (Est.est_get_server_url path) Q X F e.
Proof.
  intros HQ. unfold Est.est_get_server_url, est_get_cert_issuer, est_read_file. apply wp_bind, wp_gets.
  assert (wp (issuer ← (f ← (files ← gets e_files; ret (files !! path));
      match f with
      | None => _ ← est_set_error "Cannot open certificate: %s"; ret None
      | Some text => match PEM_read_X509 text with
          | None => _ ← est_set_error "Failed to parse certificate"; ret None
          | Some cert => match X509_issuer cert with
              | None => _ ← est_set_error "Failed to get certificate issuer"; ret None
              | Some issuer => ret (Some issuer)
              end
          end
      end);
      ret (Some match issuer with
                | None => EST_SERVER_PROD
                | Some issuer =>
                    if contains "OpenLAN Demo Birth CA" issuer then EST_SERVER_QA
                    else if contains "OpenLAN Birth Issuing CA" issuer then EST_SERVER_PROD
                    else EST_SERVER_PROD
                end)) Q X F e) as Hd.
  { wp_steps; by apply HQ. }
  destruct (e_env e !! "EST_SERVER") as [[|c s]|]; [exact Hd|by apply wp_ret, HQ|exact Hd].
Qed.

(** Files hold what was written to them; no operation on them fails. *)
Definition disk_ok (e : est) : Prop := e_disk e = [].
Definition files_ok (e : est) : Prop := e_io e = [] ∧ disk_ok e.
(** Of the files [old], [path] now holds a prefix of [data], all of it if files
    hold what was written to them. *)
Definition stored (e : est) (old : gmap string string) (path data : string) (files : gmap string string) : Prop :=
  ∃ n, files = <[path := stake n data]> old ∧ (disk_ok e → stake n data = data).

Lemma est_save_spec data path e (Q : Z → est → Prop) X F :
  (∀ code e', (code = EST_SUCCESS → data ≠ "" ∧ stored e (e_files e) path data (e_files e')) →
     (code ≠ EST_SUCCESS → e_files e' = e_files e ∨ data ≠ "" ∧ stored e (e_files e) path data (e_files e')) →
     e_heap e' = e_heap e → e_http e' = e_http e → (disk_ok e → disk_ok e') →
     (e_io e = [] → e_io e' = [] ∧ (data ≠ "" → code = EST_SUCCESS)) → Q code e') →
  wp (est_save_cert data path) Q X F e.
Proof.
  intros HQ. unfold est_save_cert, est_set_error.
  assert (∀ (Q : bool → est → Prop) e, (∀ b l, (e_io e = [] → b = true ∧ l = []) → Q b (e <| e_io := l |>)) →
    wp e_io_next Q X F e) as Hio.
  { clear. intros Q e HQ. unfold e_io_next, wp. destruct (e_io e) as [|b l] eqn:El; [|by apply HQ].
    specialize (HQ true [] ltac:(done)). destruct e; simpl in *. by subst. }
  destruct (streq data "") eqn:Ed.
  { unfold streq in Ed. apply String.eqb_eq in Ed. subst. apply wp_bind, wp_modify, wp_ret, HQ; try done. by left. }
  assert (data ≠ "") as Hne by (by intros ->).
  apply wp_bind, Hio. intros b1 l1 Hl1. destruct b1; simpl.
  2:{ apply wp_bind, wp_modify, wp_ret, HQ; try done; [by left|]. intros He. by destruct (Hl1 He). }
  apply wp_bind, Hio. intros b2 l2 Hl2. simpl in Hl2. apply wp_bind.
  assert (∀ t e', (∃ n, t = stake n data ∧ (disk_ok e → stake n data = data)) →
    e_files e' = <[path := t]> (e_files e) → stored e (e_files e) path data (e_files e')) as Hst.
  { intros t e' (n & -> & Hn) Hf. by exists n. }
  assert (∀ t e', e_heap e' = e_heap e → e_http e' = e_http e → (disk_ok e → disk_ok e') →
    e_files e' = e_files e → e_io e' = l2 → (∃ n, t = stake n data ∧ (disk_ok e → stake n data = data)) →
    wp (_ ← modify (λ e, e <| e_files := <[path := t]> (e_files e) |>);
        if negb b2 then _ ← modify (λ e, e <| e_error := c_snprintf_s 512 "Failed to write to file: %s" |>);
                        ret EST_ERROR_GENERAL
        else ret EST_SUCCESS) Q X F e') as Hend.
  { intros t e' H1 H2 H3 H4 H5 Ht. apply wp_bind, wp_modify. rewrite <- H4 in Hst.
    assert (e_io e = [] → b2 = true ∧ l2 = []) as Hb by (intros He; destruct (Hl1 He) as [_ ->]; by apply Hl2).
    destruct b2; cbn [negb].
    - apply wp_ret, HQ; [|done|done..|]; [|intros He; split; [|done]; by destruct (Hb He) as [_ ?]; subst].
      intros _. split; [done|]. rewrite <- H4. by apply (Hst t).
    - apply wp_bind, wp_modify, wp_ret, HQ; [done| |done..|intros He; by destruct (Hb He)].
      intros _. right. split; [done|]. rewrite <- H4. by apply (Hst t). }
  unfold wp at 1, e_stored, set. cbn. destruct (e_disk e) as [|n d] eqn:Edisk.
  - apply Hend; try done. exists (String.length data). by rewrite stake_all.
  - apply Hend; try done; unfold disk_ok; rewrite Edisk; [done|]. by exists n.
Qed.

(** ** What the certificates end up being *)

(** What the server answers to the second request. *)
Definition ca_expected (e : est) : option string :=
  data ← response_expected (e <| e_http := tail (e_http e) |>); if streq data "" then None else pem_expected data.
Definition saved_ca (e : est) (files files' : gmap string string) : Prop :=
  files' = files ∨
  ∃ ca, ca_expected e = Some ca ∧ ca ≠ "" ∧ stored e files operational_ca ca files'.

Definition enrolled (b b' : boot) : Prop :=
  let e := b_est b in
  certs_used b' = (Some operational_cert, Some operational_ca) ∧
  ∃ cert files, enroll_expected e birth_cert birth_key = Some cert ∧ cert ≠ "" ∧
    stored e (e_files e) operational_cert cert files ∧ saved_ca e files (e_files (b_est b')) ∧
    (files_ok e → ∀ ca, ca_expected e = Some ca → ca ≠ "" →
       e_files (b_est b') = <[operational_ca := ca]> (<[operational_cert := cert]> (e_files e))).

Definition not_enrolled (b b' : boot) : Prop :=
  let e := b_est b in
  match e_files e !! birth_cert with
  | None => certs_used b' = certs_used b ∧ e_files (b_est b') = e_files e
  | Some _ =>
      certs_used b' = (Some birth_cert, Some birth_ca) ∧
      (e_files (b_est b') = e_files e ∨
       ¬ files_ok e ∧ ∃ cert, enroll_expected e birth_cert birth_key = Some cert ∧ cert ≠ "" ∧
         stored e (e_files e) operational_cert cert (e_files (b_est b')))
  end.

Lemma enroll_expected_same e e' cert key :
  e_files e' = e_files e → e_http e' = e_http e →
  enroll_expected e' cert key = enroll_expected e cert key.
Proof. unfold enroll_expected, csr_expected, response_expected. by intros -> ->. Qed.

(** The CA certificates, which the result does not depend on. *)
Lemma ca_outcome server (e : est) (b3 : boot) (files : gmap string string) (Q : unit → boot → Prop) X :
  no_mem_loss (b_est b3) → response_fits (b_est b3) → e_files (b_est b3) = files →
  e_http (b_est b3) = tail (e_http e) → (disk_ok e → disk_ok (b_est b3)) → (files_ok e → e_io (b_est b3) = []) →
  (∀ b', saved_ca e files (e_files (b_est b')) →
     (files_ok e → ∀ ca, ca_expected e = Some ca → ca ≠ "" → e_files (b_est b') = <[operational_ca := ca]> files) →
     certs_used b' = (Some operational_cert, Some operational_ca) → Q tt b') →
  wp ('(code, ca_certs) ← in_est (est_get_cacerts server operational_cert birth_key (Some birth_ca));
      _ ← (if code =? EST_SUCCESS then
             ca_certs ← deref ca_certs; _ ← in_est (est_save_cert ca_certs operational_ca); ret tt
           else ret tt);
      use_certs operational_cert operational_ca) Q X no_fault b3.
Proof using.
  intros Hm Hf Hfiles Hh Hd Hio HQ. apply wp_bind, wp_in_est.
  eapply wp_mono; [by apply (exchange_spec (est_url server EST_PATH_CACERTS) operational_cert
    birth_key (Some birth_ca) None)|..]; [|done..].
  assert ((data ← response_expected (b_est b3); if streq data "" then None else pem_expected data) = ca_expected e)
    as Eca by (unfold ca_expected, response_expected; cbn; by rewrite Hh).
  rewrite Eca. intros [code ca] e4 ([Y1 Y2 Y3 Y4 Y5 Y6 Y7] & Hca & Hcode & _). simpl in Hca, Hcode. subst ca.
  apply wp_bind. destruct (Z.eqb_spec code EST_SUCCESS) as [->|Hne].
  - destruct (proj1 Hcode eq_refl) as [pem Hpem]. rewrite Hpem. apply wp_bind, wp_ret, wp_bind, wp_in_est, est_save_spec.
    intros code5 e5 Hs5 Hf5 _ _ _ Hio5. cbn [b_est set] in *. rewrite Y1, Hfiles in *.
    apply wp_ret, use_certs_spec. intros b' E5 Hc'. apply HQ; [..|done]; rewrite E5; cbn [b_est set].
    + assert (pem ≠ "" → stored e4 files operational_ca pem (e_files e5) → saved_ca e files (e_files e5)) as Hst.
      { intros Hp (n & E & Hn). right. exists pem. split_and!; [done|done|]. exists n. split; [done|].
        intros Hdisk. apply Hn. unfold disk_ok. rewrite Y4. by apply Hd. }
      destruct (decide (code5 = EST_SUCCESS)) as [Hc|Hc]; [destruct (Hs5 Hc); by apply Hst|].
      destruct (Hf5 Hc) as [->|[? ?]]; [by left|by apply Hst].
    + intros Hok ca Eq Hp. assert (ca = pem) as -> by congruence. clear Eq.
      destruct (Hio5 ltac:(rewrite Y3; by apply Hio)) as [_ Hc].
      destruct (Hs5 (Hc Hp)) as (_ & n & E & Hn). rewrite E, Hn; [done|]. unfold disk_ok. rewrite Y4. by apply Hd, Hok.
  - apply wp_ret, use_certs_spec. intros b' E5 Hc'. apply HQ; [left|..|done]; rewrite E5; cbn [b_est set]; [congruence|].
    intros _ ca Hcas Hp. exfalso. apply Hne, Hcode. by rewrite Hcas.
Qed.

(** C31: Enrolment at start-up, of a device without an operational certificate.
    It either takes the certificate the server answered with, and connects with
    the operational files, or it connects with its birth certificate (with
    none, when it has none).  When it succeeds the operational certificate file
    holds that certificate or, since [fclose] is not looked at, a prefix of it
    (all of it when files hold what is written to them); the CA file is as it was,
    or holds a prefix of the answer to the second request likewise, and the
    whole of it when no operation on files fails and the answer has any.  When
    it fails the files are what they were, except that a certificate whose
    writing failed leaves a prefix of itself in the operational file. *)
Theorem pki2_outcome (b : boot) :
  boot_idle b → no_mem_loss (b_est b) → all_fit (b_est b) →
  e_files (b_est b) !! operational_cert = None →
  wp (pki2_check_and_enroll print) (λ _ b', enrolled b b') (λ b', not_enrolled b b') no_fault b.
Proof using print_fits JL.
  intros Hi Hm Hf Hno. unfold pki2_check_and_enroll, exists_file, not_enrolled.
  apply wp_bind, wp_bind, wp_gets, wp_ret. rewrite Hno. simpl.
  apply wp_bind, wp_bind, wp_gets, wp_ret.
  destruct (e_files (b_est b) !! birth_cert) as [birth|] eqn:Eb; simpl.
  2:{ apply wp_bind, b_log_spec; [done|]. intros b1 [H1 H2 H3 H4]. apply wp_fail.
      unfold certs_used. by rewrite H2, H3. }
  apply wp_bind, wp_in_est, server_url_spec. intros server e1 E1 E2 E3 E4 E5.
  apply wp_bind, wp_in_est. simpl.
  assert (no_mem_loss e1) as Hm1 by by unfold no_mem_loss; rewrite E2.
  assert (all_fit e1) as Hf1 by by unfold all_fit; rewrite E3.
  eapply wp_mono; [by apply est_enroll_exact, all_fit_response|..]; [|done..].
  intros [code cert] e2 ([X1 X2 X3 X4 X5 X6 X7] & Hc & Hcode & _). simpl in Hc, Hcode.
  rewrite (enroll_expected_same (b_est b) e1) in Hc, Hcode by done. subst cert.
  destruct (enroll_expected (b_est b) birth_cert birth_key) as [cert|] eqn:Ex.
  2:{ assert (code ≠ EST_SUCCESS) as Hne by (intros Hcd; by destruct (proj1 Hcode Hcd)).
      rewrite (proj2 (Z.eqb_neq _ _)) by done. apply fall_back_spec; [exact Hi|].
      intros b' H1 H2. split; [done|]. left. rewrite H1. simpl. congruence. }
  assert (is_Some (csr_expected e1 birth_cert birth_key)) as [csr Ecsr].
  { revert Ex. rewrite <- (enroll_expected_same (b_est b) e1) by done. unfold enroll_expected.
    destruct (csr_expected e1 _ _); [by eexists|done]. }
  rewrite Ecsr in X6. cbn [length drop] in X6.
  rewrite (proj2 Hcode) by done. simpl. apply wp_bind, wp_ret, wp_bind, wp_in_est, est_save_spec.
  intros code3 e3 Hs Hf3 H3 H4 Hd3 Hio3. cbn [b_est set] in *. rewrite X1, E1 in Hs, Hf3.
  assert (∀ fs, stored e2 (e_files (b_est b)) operational_cert cert fs →
                stored (b_est b) (e_files (b_est b)) operational_cert cert fs) as Hst.
  { intros fs (n & -> & Hn). exists n. split; [done|]. intros Hok. apply Hn. unfold disk_ok in *. congruence. }
  destruct (Z.eqb_spec code3 EST_SUCCESS) as [->|Hne]; simpl.
  2:{ apply fall_back_spec; [exact Hi|]. intros b' H1 H2. split; [done|]. rewrite H1. simpl.
      destruct (Hf3 Hne) as [->|[Hcne Hpre]]; [by left|right]. split; [|by exists cert; split_and!; [..|apply Hst]].
      intros [Hok _]. apply Hne, Hio3; [congruence|done]. }
  destruct (Hs eq_refl) as [Hcne Hpre].
  apply (ca_outcome server (b_est b) _ (e_files e3)); cbn [b_est set]; try done.
  - unfold no_mem_loss. rewrite H3. exact X5.
  - apply all_fit_response. intros pieces. rewrite H4, X6. intros Hin. apply Hf1.
    destruct (e_http e1) as [|h t]; [done|]. by right.
  - rewrite H4, X6, E3. by destruct (e_http (b_est b)).
  - intros Hok. apply Hd3. unfold disk_ok in *. congruence.
  - intros [Hok _]. apply Hio3. congruence.
  - intros b' Hca Hexact Hused. split; [done|]. exists cert, (e_files e3). split_and!; [done|done|by apply Hst|done|].
    intros Hok ca Hcas Hp. rewrite (Hexact Hok ca Hcas Hp). destruct (Hst _ Hpre) as (n & -> & Hn).
    by rewrite Hn by apply Hok.
Qed.

(** An operational certificate that could not be written in full is taken for
    a good one by the next start. *)
Lemma failed_save_looks_enrolled (b : boot) :
  e_files (b_est b) !! operational_cert = Some "" →
  wp (pki2_check_and_enroll print)
    (λ _ b', certs_used b' = (Some operational_cert, Some operational_ca) ∧ b_est b' = b_est b)
    (λ _, False) no_fault b.
Proof using.
  intros Hf. unfold pki2_check_and_enroll, exists_file. apply wp_bind, wp_bind, wp_gets, wp_ret.
  rewrite Hf. simpl. by apply use_certs_spec.
Qed.

(** ** The password *)
Lemma before_nul_none s : has_char zero s = false → before_nul s = None.
Proof using.
  induction s as [|c s IH]; [done|]. simpl. intros [-> Hs]%orb_false_iff. by rewrite IH.
Qed.

Lemma wp_e_io_next (e : est) (Q : bool → est → Prop) X F :
  e_io e = [] → Q true e → wp e_io_next Q X F e.
Proof using. unfold wp, e_io_next. by intros ->. Qed.

(** The password file is written without a terminating NUL, and is read
    into an uninitialised array of which only its bytes are set: sending the
    password reads the array past them. *)
Theorem password_read_past_end (text : string) (b : boot) :
  b_password_fd b = Some text → has_char zero text = false → 0 < slen text < 64 →
  e_io (b_est b) = [] →
  (pass ← get_updated_pass print 64; password_send print pass) b = Fault Uninitialised.
Proof using.
  intros Hp Hz Hs Hio.
  assert (wp (pass ← get_updated_pass print 64; password_send print pass) (λ _ _, False)
    (λ _, False) (λ f, f = Uninitialised) b) as H.
  { unfold get_updated_pass. apply wp_bind, wp_bind, wp_gets. rewrite Hp.
    apply wp_bind, wp_in_est, wp_e_io_next; [done|]. cbn [negb].
    rewrite Z.min_l by lia. rewrite (proj2 (Z.eqb_neq _ _)) by lia.
    rewrite (proj2 (Z.eqb_neq _ _)) by lia. rewrite (proj2 (Z.ltb_ge _ _)) by lia.
    apply wp_bind, wp_in_est, wp_e_io_next; [done|]. cbn [negb].
    apply wp_bind, wp_modify, wp_ret. unfold password_send. rewrite before_nul_none by done.
    by apply wp_faulty. }
  unfold wp in H. case_match; [done..|]. by subst.
Qed.

(** ** The service loop *)
Fixpoint callbacks (rounds : list (list (positive * lws_callback_reasons))) : M boot unit :=
  match rounds with
  | [] => ret tt
  | reasons :: rounds =>
      _ ← for_each reasons (λ r, in_client (callback_broker print r.1 r.2)); callbacks rounds
  end.

(** Once the reboot cause and the password have gone out the loop only
    serves callbacks, however often the device reconnects. *)
Theorem loop_sends_once rounds (b : boot) :
  service_loop print rounds (mk_loop_state None true) b =
  (_ ← callbacks rounds; ret (mk_loop_state None true)) b.
Proof using.
  revert b. induction rounds as [|reasons rounds IH]; intros b; [done|].
  unfold service_loop in *. cbn [fold_m callbacks]. unfold service_once at 1, mbind, M_bind, gets, ret.
  unfold mbind, M_bind, ret in IH.
  destruct (for_each _ _ b) as [[] b1|b1|f]; [|done..].
  destruct (c_conn_successfull (b_client b1) =? 0); simpl; apply IH.
Qed.
End enrolment.

(** ** The EST client as the message handlers see it

    [Handlers] is written against the interface [EstClient]; this is the
    implementation behind it, on the files the handler hands over. *)
Section interface.
Context `{O : OpenSsl}.

Definition est_with (e0 : est) (fs : list (string * option string)) : est :=
  foldr (λ f e, e <| e_files := partial_alter (λ _, f.2) f.1 (e_files e) |>) e0 fs.

Definition est_client_of (e0 : est) : EstClient := {|
  Handlers.est_get_server_url cert :=
    match Est.est_get_server_url birth_cert (est_with e0 [(birth_cert, cert)]) with
    | Ok u _ => u
    | _ => None
    end;
  Handlers.est_simple_reenroll server cert key ca :=
    match Est.est_simple_reenroll server operational_cert birth_key (Some birth_ca)
            (est_with e0 [(operational_cert, cert); (birth_key, key); (birth_ca, ca)]) with
    | Ok r _ => r.2
    | _ => None
    end
|}.

(** The server is always known: the failure branches of the callers are never
    taken. *)
Lemma est_server_known e0 cert :
  is_Some (@Handlers.est_get_server_url (est_client_of e0) cert).
Proof.
  unfold Handlers.est_get_server_url, est_client_of. set (e := est_with e0 _).
  assert (wp (Est.est_get_server_url birth_cert) (λ u _, is_Some u) (λ _, False) no_fault e) as H
    by by apply server_url_spec.
  unfold wp in H. by destruct (Est.est_get_server_url birth_cert e).
Qed.
End interface.

(** ** A device before its first enrolment *)
Section witnesses.
#[local] Existing Instances jtree_cjson jtree_laws sample_platform sample_libc sample_est amd64 sample_lws.

#[local] Instance sample_openssl : OpenSsl := {|
  X509 := string; EVP_PKEY := string;
  PEM_read_X509 := Some; PEM_read_PrivateKey := Some; X509_issuer := Some; X509_subject := Some;
  X509_REQ := string; X509_REQ_sign subject key := Some (subject +:+ "|" +:+ key); i2d_X509_REQ := Some;
  d2i_PKCS7 data := Some (Some [data]); PEM_write_X509 := Some
|}.

Definition sample_files : gmap string string :=
  {[ birth_cert := "birth"; birth_key := "key" ]}.
Definition sample_est_state : est :=
  mk_est sample_files ∅ "" [] [] [] [Some ["oper"; "ational"]; Some ["ca"]] [].
Definition sample_device : boot :=
  mk_boot _ _ (sample_wire (sample_world 0)) sample_est_state (Some "secret").

Lemma sample_device_fits : all_fit (b_est sample_device).
Proof. intros pieces Hp. apply elem_of_cons in Hp as [[= ->]|[= ->]%list_elem_of_singleton]; vm_compute; reflexivity. Qed.

Lemma est_enroll_exact_witness :
  (no_mem_loss sample_est_state ∧ response_fits sample_est_state) ∧
  enroll_expected sample_est_state birth_cert birth_key = Some "operational" ∧
  ∃ r e', est_simple_enroll "est" birth_cert birth_key None sample_est_state = Ok r e' ∧
    r.2 = Some "operational".
Proof.
  pose proof (all_fit_response _ sample_device_fits) as Hf.
  split; [split; [reflexivity|exact Hf]|]. split; [vm_compute; reflexivity|].
  pose proof (est_enroll_exact "est" birth_cert birth_key None sample_est_state eq_refl Hf) as H.
  unfold wp in H. destruct (est_simple_enroll _ _ _ _ _) as [r e'|e'|f]; [|destruct H..].
  exists r, e'. split; [reflexivity|]. destruct H as (_ & H & _). rewrite H. vm_compute. reflexivity.
Defined.

Lemma pki2_outcome_witness :
  (no_mem_loss (b_est sample_device) ∧ e_files (b_est sample_device) !! operational_cert = None) ∧
  wp (pki2_check_and_enroll sample_print) (λ _ b', enrolled sample_device b')
    (λ b', not_enrolled sample_device b') no_fault sample_device.
Proof.
  split; [split; reflexivity|].
  apply (pki2_outcome sample_print sample_print_fits sample_device);
    [exists sample_view; apply sample_idle|reflexivity|apply sample_device_fits|reflexivity].
Defined.

Lemma password_read_past_end_witness :
  (b_password_fd sample_device = Some "secret" ∧ 0 < slen "secret" < 64) ∧
  (pass ← get_updated_pass sample_print 64; password_send sample_print pass) sample_device
    = Fault Uninitialised.
Proof.
  split; [split; [reflexivity|split; reflexivity]|].
  apply (password_read_past_end sample_print "secret" sample_device);
    [reflexivity|reflexivity|split; reflexivity|reflexivity].
Defined.
End witnesses.
