(* ===== verification/JsonParser.v ===== *)
(** * The streaming JSON reader ([ucentral-json-parser.c])

    [uc_lejp_parse] is the callback of the lejp parser of libwebsockets: it
    builds a cJSON tree from the events, with the containers that are still
    open on a stack.  The nodes live in a store ([p_mem]), since the stack, the
    members of a container and [root] point at the same node; addresses are
    not used again ([p_next]).  lejp itself is outside the repository: one
    byte makes it call back zero or more times, each call's return value
    telling it to go on or to stop ([lejp_run]).  A callback in turn calls
    [lejp_parser_push] and [lejp_parser_pop] on the context it is given and
    looks at neither result, so what they do is lejp's: the calls of a callback
    are kept ([p_calls]), and lejp goes on knowing them. *)

From S2P Require Import Prelude CNum CStr Json.
From Stdlib Require Import Ascii.
#[local] Open Scope list_scope.

(** [LEJP_MAX_DEPTH] of libwebsockets; [LEJP_CONTINUE] is -1. *)
Class LejpConsts := { LEJP_MAX_DEPTH : nat; lejp_depth_pos : (0 < LEJP_MAX_DEPTH)%nat }.
Definition LEJP_CONTINUE : Z := -1.

Inductive lejp_event :=
  | LEJPCB_CONSTRUCTED
  | LEJPCB_DESTRUCTED
  | LEJPCB_START
  | LEJPCB_COMPLETE
  | LEJPCB_FAILED
  | LEJPCB_PAIR_NAME (path : string)
  | LEJPCB_VAL_TRUE
  | LEJPCB_VAL_FALSE
  | LEJPCB_VAL_NULL
  | LEJPCB_VAL_NUM (buf : string)          (* _INT and _FLOAT *)
  | LEJPCB_VAL_STR_START
  | LEJPCB_VAL_STR_CHUNK (buf : string)
  | LEJPCB_VAL_STR_END (buf : string)
  | LEJPCB_ARRAY_START
  | LEJPCB_ARRAY_END
  | LEJPCB_OBJECT_START
  | LEJPCB_OBJECT_END
  | LEJPCB_OTHER.

(** What a callback asks of the parsing stack of the context. *)
Inductive lejp_call :=
  | lejp_parser_push
  | lejp_parser_pop.
#[export] Instance lejp_call_eq_dec : EqDecision lejp_call.
Proof. solve_decision. Defined.

(** A cJSON item. *)
Inductive jnode :=
  | NLeaf (v : jtree)
  | NArr (items : list positive)
  | NObj (members : list (string * positive)).

(** What the callbacks of the user saw. *)
Inductive parse_result :=
  | Parsed (mem : gmap positive jnode) (root : option positive)
  | ParseError.

Record uc_json_parser := mk_parser {
  p_heap : list bool;                   (* outcome of the allocations to come *)
  p_mem : gmap positive jnode;
  p_next : positive;
  p_root : option positive;
  p_str : option string;
  p_strsz : Z;
  p_is_continue : bool;
  p_sp : Z;                             (* int *)
  p_stack : list (option positive);     (* cJSON *stack[LEJP_MAX_DEPTH] *)
  p_name : string;
  p_calls : list lejp_call;             (* not seen by lejp yet *)
  p_results : list parse_result
}.
#[export] Instance eta_parser : Eta uc_json_parser := λ r,
  mk_parser (p_heap r) (p_mem r) (p_next r) (p_root r) (p_str r) (p_strsz r) (p_is_continue r)
    (p_sp r) (p_stack r) (p_name r) (p_calls r) (p_results r).

Section parser.
Context `{LC : LejpConsts}.
(** [sscanf(buf, "%lf", &d)] when it converts. *)
Context (sscanf_lf : string → option double).

Definition p_alloc : M uc_json_parser bool := λ s,
  match p_heap s with [] => Ok true s | b :: h => Ok b (s <| p_heap := h |>) end.

(** A cJSON constructor. *)
Definition cJSON_Create (n : jnode) : M uc_json_parser (option positive) :=
  b ← p_alloc;
  if negb b then ret None
  else
    p ← gets p_next;
    _ ← modify (λ s, s <| p_mem := <[p := n]> (p_mem s) |> <| p_next := Pos.succ p |>);
    ret (Some p).

(** The nodes below [p]. *)
Fixpoint nodes_below (fuel : nat) (mem : gmap positive jnode) (p : positive) : list positive :=
  match fuel with
  | O => []
  | S fuel =>
      p :: match mem !! p with
           | Some (NArr items) => items ≫= nodes_below fuel mem
           | Some (NObj members) => members.*2 ≫= nodes_below fuel mem
           | _ => []
           end
  end.
Definition cJSON_Delete (p : option positive) : M uc_json_parser unit :=
  match p with
  | None => ret tt
  | Some p =>
      mem ← gets p_mem;
      _ ← of_option UseAfterFree (mem !! p);
      modify (λ s, s <| p_mem :=
        foldr delete (p_mem s) (nodes_below (S (size (p_mem s))) (p_mem s) p) |>)
  end.

(** [stack[sp]] *)
Definition stack_get (i : Z) : M uc_json_parser (option positive) :=
  stack ← gets p_stack;
  if i <? 0 then faulty OutOfBounds else of_option OutOfBounds (stack !! Z.to_nat i).

(** err: and cleanup: *)
Definition parse_cleanup (code : Z) : M uc_json_parser Z :=
  _ ← modify (λ s, s <| p_sp := 0 |> <| p_str := None |> <| p_strsz := 0 |>);
  root ← gets p_root;
  _ ← cJSON_Delete root;
  _ ← modify (λ s, s <| p_root := None |>);
  ret code.
Definition parse_err : M uc_json_parser Z := parse_cleanup (-1).

Definition user_callback (r : uc_json_parser → parse_result) : M uc_json_parser unit :=
  modify (λ s, s <| p_results := p_results s ++ [r s] |>).

(** A call on the context whose result is not looked at. *)
Definition on_ctx (c : lejp_call) : M uc_json_parser unit :=
  modify (λ s, s <| p_calls := p_calls s ++ [c] |>).

(** [cJSON_AddItemToObject(parent, uctx->name, cur)]: the key is copied; when
    there is no memory for it the item stays outside, and the result is not
    looked at. *)
Definition cJSON_AddItemToObject (p : positive) (members : list (string * positive)) (c : positive)
    : M uc_json_parser unit :=
  b ← p_alloc;
  if negb b then ret tt
  else
    name ← gets p_name;
    modify (λ s, s <| p_mem := <[p := NObj (members ++ [(name, c)])]> (p_mem s) |>).

(** The end of [uc_lejp_parse]: the new item goes to its parent. *)
Definition attach (parent cur : option positive) : M uc_json_parser Z :=
  match cur with
  | None => ret 0
  | Some c =>
      mem ← gets p_mem;
      let set_root := modify (λ s, s <| p_root := match p_root s with Some r => Some r | None => Some c end |>) in
      match parent with
      | None => _ ← set_root; ret 0
      | Some p =>
          match mem !! p with
          | None => faulty UseAfterFree
          | Some (NObj members) =>
              _ ← cJSON_AddItemToObject p members c;
              _ ← set_root; ret 0
          | Some (NArr items) =>
              _ ← modify (λ s, s <| p_mem := <[p := NArr (items ++ [c])]> (p_mem s) |>);
              _ ← set_root; ret 0
          | Some (NLeaf _) => _ ← cJSON_Delete (Some c); parse_err
          end
      end
  end.

(** [if (!(cur = cJSON_Create...())) goto err;] *)
Definition create (parent : option positive) (n : jnode) : M uc_json_parser Z :=
  cur ← cJSON_Create n;
  match cur with None => parse_err | Some _ => attach parent cur end.

(** [stack[++sp] = cur], when the stack has room; the new item is not attached
    yet when it has not. *)
Definition push (parent : option positive) (n : jnode) : M uc_json_parser Z :=
  cur ← cJSON_Create n;
  match cur with
  | None => parse_err
  | Some _ =>
      _ ← on_ctx lejp_parser_push;
      sp ← gets p_sp;
      if Z.of_nat LEJP_MAX_DEPTH <=? sp + 1 then parse_err
      else
        _ ← modify (λ s, s <| p_sp := sp + 1 |>
                           <| p_stack := <[Z.to_nat (sp + 1) := cur]> (p_stack s) |>);
        attach parent cur
  end.

Definition pop : M uc_json_parser Z :=
  _ ← modify (λ s, s <| p_sp := p_sp s - 1 |>);
  sp ← gets p_sp;
  if sp <? 0 then parse_err else _ ← on_ctx lejp_parser_pop; ret 0.

(** [realloc(uctx->str, uctx->strsz + ctx->npos)], the copy over the old NUL
    and the new size.  With [strsz] 0 the copy would start before the buffer. *)
Definition str_append (buf : string) : M uc_json_parser bool :=
  b ← p_alloc;
  if negb b then ret false
  else
    strsz ← gets p_strsz;
    _ ← (if strsz <? 1 then faulty BufferOverflow else ret tt);
    _ ← modify (λ s, s <| p_str := Some (stake (Z.to_nat (p_strsz s - 1)) (default "" (p_str s)) +:+ buf) |>
                       <| p_strsz := p_strsz s + slen buf |>);
    ret true.

Definition uc_lejp_parse (reason : lejp_event) : M uc_json_parser Z :=
  sp ← gets p_sp;
  parent ← stack_get sp;
  match reason with
  | LEJPCB_CONSTRUCTED | LEJPCB_START => ret 0
  | LEJPCB_DESTRUCTED => parse_cleanup 0
  | LEJPCB_COMPLETE =>
      _ ← user_callback (λ s, Parsed (p_mem s) (p_root s)); parse_cleanup 0
  | LEJPCB_FAILED => _ ← user_callback (λ _, ParseError); parse_err
  | LEJPCB_PAIR_NAME path => _ ← modify (λ s, s <| p_name := path |>); ret 0
  | LEJPCB_VAL_TRUE => create parent (NLeaf (JBool true))
  | LEJPCB_VAL_FALSE => create parent (NLeaf (JBool false))
  | LEJPCB_VAL_NULL => create parent (NLeaf JNull)
  | LEJPCB_VAL_NUM buf =>
      match sscanf_lf buf with
      | None => parse_err
      | Some d => create parent (NLeaf (JNum d))
      end
  | LEJPCB_VAL_STR_START => _ ← modify (λ s, s <| p_strsz := 1 |>); ret 0
  | LEJPCB_VAL_STR_CHUNK buf => ok ← str_append buf; if negb ok then parse_err else ret 0
  | LEJPCB_VAL_STR_END buf =>
      ok ← str_append buf;
      if negb ok then parse_err
      else
        str ← gets p_str;
        cur ← cJSON_Create (NLeaf (JStr (default "" str)));
        match cur with
        | None => parse_err
        | Some _ =>
            _ ← modify (λ s, s <| p_str := None |> <| p_strsz := 0 |>);
            attach parent cur
        end
  | LEJPCB_ARRAY_START => push parent (NArr [])
  | LEJPCB_OBJECT_START => push parent (NObj [])
  | LEJPCB_ARRAY_END | LEJPCB_OBJECT_END => pop
  | LEJPCB_OTHER => parse_err
  end.

(** ** Feeding

    What lejp does with one byte: call back and go on with the answer and with
    what the callback asked of the parsing stack, or return. *)
Section feed.
Context {lejp_ctx : Type}.
Inductive lejp_run :=
  | LCall (e : lejp_event) (k : Z → list lejp_call → lejp_run)
  | LReturn (rc : Z) (ctx : lejp_ctx).
Context (lejp_parse : lejp_ctx → ascii → lejp_run) (lejp_construct : lejp_ctx).

Fixpoint run_lejp (r : lejp_run) : M uc_json_parser (Z * lejp_ctx) :=
  match r with
  | LReturn rc ctx => ret (rc, ctx)
  | LCall e k => λ s,
      match uc_lejp_parse e s with
      | Ok v s' => run_lejp (k v (p_calls s')) (s' <| p_calls := [] |>)
      | Err s' => Err s'
      | Fault f => Fault f
      end
  end.

(** One iteration of the loop on the byte [c]: whether to move past it, and
    the context.  [lejp_destruct] and [lejp_construct] call back too. *)
Definition feed_byte (c : ascii) (ctx : lejp_ctx) : M uc_json_parser (bool * lejp_ctx) :=
  '(rc, ctx) ← run_lejp (lejp_parse ctx c);
  if rc =? LEJP_CONTINUE then
    _ ← modify (λ s, s <| p_is_continue := true |>); ret (true, ctx)
  else
    _ ← uc_lejp_parse LEJPCB_DESTRUCTED;
    _ ← uc_lejp_parse LEJPCB_CONSTRUCTED;
    cont ← gets p_is_continue;
    _ ← modify (λ s, s <| p_is_continue := false |>);
    ret ((0 <=? rc) || negb cont, lejp_construct).

(** The loop; [None] when the fuel runs out. *)
Fixpoint feed_loop (fuel : nat) (s : string) (ctx : lejp_ctx)
    : M uc_json_parser (option lejp_ctx) :=
  match s with
  | EmptyString => ret (Some ctx)
  | String c r =>
      match fuel with
      | O => ret None
      | S fuel =>
          '(next, ctx) ← feed_byte c ctx;
          feed_loop fuel (if (next : bool) then r else s) ctx
      end
  end.

(** Every byte is looked at twice at most. *)
Definition uc_json_parser_feed (s : string) (ctx : lejp_ctx) : M uc_json_parser (option lejp_ctx) :=
  feed_loop (2 * String.length s) s ctx.
End feed.

Definition uc_json_parser_init (heap : list bool) : uc_json_parser :=
  mk_parser heap ∅ 1 None None 0 false 0 (replicate LEJP_MAX_DEPTH None) "" [] [].

Definition uc_json_parser_uninit : M uc_json_parser unit :=
  _ ← uc_lejp_parse LEJPCB_DESTRUCTED;
  root ← gets p_root;
  _ ← cJSON_Delete root;
  modify (λ s, uc_json_parser_init (p_heap s) <| p_mem := p_mem s |> <| p_next := p_next s |>
                 <| p_results := p_results s |>).
End parser.
