(* ===== verification/JsonTree.v ===== *)
(** * The events of a document build its tree

    [emits t es]: lejp calls back with the events [es] for the value [t], a
    string cut into chunks anywhere, a number as the text [sscanf] reads, a
    member with its name.  What the callback finds in [ctx->path] for that
    member is not its name in general: it is the path from the container in
    which the last parser was pushed ([said]), so it depends on what the
    callbacks before it asked of the parsing stack ([obeys]).
    [rep mem lo t hi]: the items of [t] fill the addresses from [lo], its own,
    to [hi].  Running the events of a document hands the user its tree, and
    afterwards no item of it is left in memory. *)

From S2P Require Import Prelude CNum CStr Json JsonParser JsonParserSpec.
From Stdlib Require Import Ascii.
#[local] Open Scope list_scope.

(** The parsing stack of lejp and [ctx->path], from its documentation: a push
    fails when the stack is full, a pop when it is empty; the path is relative
    to where the parser on top was pushed.  [lejp_path n at]: the text of the
    path [at] for a parser pushed where the path had [n] parts. *)
Class LejpPaths := {
  LEJP_MAX_PARSING_STACK_DEPTH : nat;
  lejp_path : nat → list string → string;
  lejp_path_own : ∀ at_ k, lejp_path (length at_) (at_ ++ [k]) = k
}.

(** Where lejp is in the document. *)
Record lejp_pos := mk_pos {
  l_here : list string;            (* the path of the value to come *)
  l_open : list (list string);     (* that of the members of each open container *)
  l_pushed : list nat              (* for each parser pushed, the length of the path there *)
}.
Definition lejp_start : lejp_pos := mk_pos [] [] [].

(** The path of a member called [k]. *)
Definition member_path (w : lejp_pos) (k : string) : list string := default [] (head (l_open w)) ++ [k].
(** What the callback gets: a member's name as the path. *)
Definition said `{LejpPaths} (w : lejp_pos) (e : lejp_event) : lejp_event :=
  match e with
  | LEJPCB_PAIR_NAME k => LEJPCB_PAIR_NAME (lejp_path (default 0%nat (head (l_pushed w))) (member_path w k))
  | e => e
  end.
(** A call of the callback. *)
Definition obeys `{LejpPaths} (w : lejp_pos) (c : lejp_call) : lejp_pos :=
  match c with
  | lejp_parser_push =>
      if (S (length (l_pushed w)) <? LEJP_MAX_PARSING_STACK_DEPTH)%nat
      then mk_pos (l_here w) (l_open w) (length (l_here w) :: l_pushed w) else w
  | lejp_parser_pop => mk_pos (l_here w) (l_open w) (tail (l_pushed w))
  end.
(** Past the event. *)
Definition moved (e : lejp_event) (w : lejp_pos) : lejp_pos :=
  match e with
  | LEJPCB_PAIR_NAME k => mk_pos (member_path w k) (l_open w) (l_pushed w)
  | LEJPCB_OBJECT_START => mk_pos (l_here w) (l_here w :: l_open w) (l_pushed w)
  | LEJPCB_ARRAY_START =>
      let items := l_here w ++ ["[]"] in mk_pos items (items :: l_open w) (l_pushed w)
  | LEJPCB_OBJECT_END | LEJPCB_ARRAY_END =>
      mk_pos (default [] (head (tail (l_open w)))) (tail (l_open w)) (l_pushed w)
  | _ => w
  end.

Section tree.
Context `{LC : LejpConsts} `{LP : LejpPaths} (sscanf_lf : string → option double).

(** lejp calls back with the events of a document, one after the other. *)
Fixpoint run_events (es : list lejp_event) (w : lejp_pos) : M uc_json_parser lejp_pos :=
  match es with
  | [] => ret w
  | e :: es =>
      v ← uc_lejp_parse sscanf_lf (said w e);
      calls ← gets p_calls;
      _ ← modify (λ s, s <| p_calls := [] |>);
      if v =? 0 then run_events es (moved e (foldl obeys w calls)) else fail
  end.

(** ** The events of a value *)
Inductive emits : jtree → list lejp_event → Prop :=
  | emits_null : emits JNull [LEJPCB_VAL_NULL]
  | emits_true : emits (JBool true) [LEJPCB_VAL_TRUE]
  | emits_false : emits (JBool false) [LEJPCB_VAL_FALSE]
  | emits_num buf d : sscanf_lf buf = Some d → emits (JNum d) [LEJPCB_VAL_NUM buf]
  | emits_str chunks last :
      emits (JStr (String.concat EmptyString chunks +:+ last))
        (LEJPCB_VAL_STR_START :: (LEJPCB_VAL_STR_CHUNK <$> chunks) ++ [LEJPCB_VAL_STR_END last])
  | emits_arr l es : emits_items l es →
      emits (JArr l) (LEJPCB_ARRAY_START :: es ++ [LEJPCB_ARRAY_END])
  | emits_obj l es : emits_members l es →
      emits (JObj l) (LEJPCB_OBJECT_START :: es ++ [LEJPCB_OBJECT_END])
with emits_items : list jtree → list lejp_event → Prop :=
  | items_nil : emits_items [] []
  | items_cons t l es es' : emits t es → emits_items l es' → emits_items (t :: l) (es ++ es')
with emits_members : list (string * jtree) → list lejp_event → Prop :=
  | members_nil : emits_members [] []
  | members_cons k t l es es' : emits t es → emits_members l es' →
      emits_members ((k, t) :: l) (LEJPCB_PAIR_NAME k :: es ++ es').

Scheme emits_mut := Induction for emits Sort Prop
  with items_mut := Induction for emits_items Sort Prop
  with members_mut := Induction for emits_members Sort Prop.
Combined Scheme emits_ind3 from emits_mut, items_mut, members_mut.

(** Containers nested in one another. *)
Fixpoint depth (t : jtree) : nat :=
  match t with
  | JArr l => S (list_max (depth <$> l))
  | JObj l => S (list_max ((λ kv, depth kv.2) <$> l))
  | _ => 0
  end.

(** ** The tree in memory *)
Definition leaf (t : jtree) : bool :=
  match t with JArr _ | JObj _ => false | _ => true end.

Inductive rep (mem : gmap positive jnode) : positive → jtree → positive → Prop :=
  | rep_leaf a t : leaf t = true → mem !! a = Some (NLeaf t) → rep mem a t (Pos.succ a)
  | rep_arr a l items hi : mem !! a = Some (NArr items) →
      rep_items mem (Pos.succ a) l items hi → rep mem a (JArr l) hi
  | rep_obj a l members hi : mem !! a = Some (NObj members) →
      rep_members mem (Pos.succ a) l members hi → rep mem a (JObj l) hi
with rep_items (mem : gmap positive jnode) : positive → list jtree → list positive → positive → Prop :=
  | rep_items_nil a : rep_items mem a [] [] a
  | rep_items_cons a t m l items hi : rep mem a t m → rep_items mem m l items hi →
      rep_items mem a (t :: l) (a :: items) hi
with rep_members (mem : gmap positive jnode)
    : positive → list (string * jtree) → list (string * positive) → positive → Prop :=
  | rep_members_nil a : rep_members mem a [] [] a
  | rep_members_cons a k t m l members hi : rep mem a t m → rep_members mem m l members hi →
      rep_members mem a ((k, t) :: l) ((k, a) :: members) hi.

Scheme rep_mut := Induction for rep Sort Prop
  with rep_items_mut := Induction for rep_items Sort Prop
  with rep_members_mut := Induction for rep_members Sort Prop.
Combined Scheme rep_ind3 from rep_mut, rep_items_mut, rep_members_mut.

Lemma rep_bounds mem :
  (∀ a t hi, rep mem a t hi → (a < hi)%positive) ∧
  (∀ a l xs hi, rep_items mem a l xs hi → (a ≤ hi)%positive) ∧
  (∀ a l ms hi, rep_members mem a l ms hi → (a ≤ hi)%positive).
Proof. apply rep_ind3; intros; lia. Qed.

(** The tree depends on the memory it fills only. *)
Definition agree (lo hi : positive) (m m' : gmap positive jnode) : Prop :=
  ∀ a, (lo ≤ a)%positive → (a < hi)%positive → m' !! a = m !! a.

Lemma agree_sub lo hi lo' hi' m m' :
  (lo ≤ lo')%positive → (hi' ≤ hi)%positive → agree lo hi m m' → agree lo' hi' m m'.
Proof. intros H1 H2 H a ??. apply H; lia. Qed.

Lemma rep_agree mem mem' :
  (∀ a t hi, rep mem a t hi → agree a hi mem mem' → rep mem' a t hi) ∧
  (∀ a l xs hi, rep_items mem a l xs hi → agree a hi mem mem' → rep_items mem' a l xs hi) ∧
  (∀ a l ms hi, rep_members mem a l ms hi → agree a hi mem mem' → rep_members mem' a l ms hi).
Proof.
  destruct (rep_bounds mem) as (B1 & B2 & B3).
  apply rep_ind3; intros; try (by constructor).
  - constructor; [done|]. rewrite H; [done|lia..].
  - pose proof (B2 _ _ _ _ r). eapply rep_arr; [rewrite H0; [done|lia..]|].
    apply H. eapply agree_sub; [| |done]; lia.
  - pose proof (B3 _ _ _ _ r). eapply rep_obj; [rewrite H0; [done|lia..]|].
    apply H. eapply agree_sub; [| |done]; lia.
  - pose proof (B1 _ _ _ r). pose proof (B2 _ _ _ _ r0). econstructor.
    + apply H. eapply agree_sub; [| |done]; lia.
    + apply H0. eapply agree_sub; [| |done]; lia.
  - pose proof (B1 _ _ _ r). pose proof (B3 _ _ _ _ r0). econstructor.
    + apply H. eapply agree_sub; [| |done]; lia.
    + apply H0. eapply agree_sub; [| |done]; lia.
Qed.

Lemma nodes_below_S f mem a : nodes_below (S f) mem a =
  a :: match mem !! a with
       | Some (NArr items) => items ≫= nodes_below f mem
       | Some (NObj members) => members.*2 ≫= nodes_below f mem
       | _ => []
       end.
Proof. done. Qed.

(** Deleting the root reaches every item of the tree. *)
Lemma rep_covered mem :
  (∀ a t hi, rep mem a t hi → ∀ f b, (a ≤ b < hi)%positive → (Pos.to_nat hi ≤ f + Pos.to_nat a)%nat →
     b ∈ nodes_below f mem a) ∧
  (∀ a l xs hi, rep_items mem a l xs hi → ∀ f b, (a ≤ b < hi)%positive →
     (Pos.to_nat hi ≤ f + Pos.to_nat a)%nat → b ∈ xs ≫= nodes_below f mem) ∧
  (∀ a l ms hi, rep_members mem a l ms hi → ∀ f b, (a ≤ b < hi)%positive →
     (Pos.to_nat hi ≤ f + Pos.to_nat a)%nat → b ∈ ms.*2 ≫= nodes_below f mem).
Proof.
  destruct (rep_bounds mem) as (B1 & B2 & B3).
  apply rep_ind3; intros; try lia.
  - destruct f as [|f]; [lia|]. rewrite nodes_below_S. assert (b = a) as -> by lia. by left.
  - pose proof (B2 _ _ _ _ r). destruct f as [|f]; [lia|]. rewrite nodes_below_S, e.
    destruct (decide (b = a)) as [->|]; [by left|]. right. apply H; lia.
  - pose proof (B3 _ _ _ _ r). destruct f as [|f]; [lia|]. rewrite nodes_below_S, e.
    destruct (decide (b = a)) as [->|]; [by left|]. right. apply H; lia.
  - pose proof (B1 _ _ _ r). pose proof (B2 _ _ _ _ r0). rewrite bind_cons. apply elem_of_app.
    destruct (decide (b < m)%positive); [left; apply H|right; apply H0]; lia.
  - pose proof (B1 _ _ _ r). pose proof (B3 _ _ _ _ r0). rewrite fmap_cons, bind_cons. apply elem_of_app.
    destruct (decide (b < m)%positive); [left; apply H|right; apply H0]; lia.
Qed.

(** ** One callback, exactly *)
Definition idle (s : uc_json_parser) : Prop := p_heap s = [] ∧ p_calls s = [].
Definition quiet (s : uc_json_parser) : Prop := pinv false s ∧ idle s.

(** The new item [c] at the end of its parent. *)
Definition link (name : string) (c : positive) (n : jnode) : jnode :=
  match n with
  | NLeaf v => NLeaf v
  | NArr items => NArr (items ++ [c])
  | NObj members => NObj (members ++ [(name, c)])
  end.
Definition link_in (par : option positive) (name : string) (c : positive)
    (mem : gmap positive jnode) : gmap positive jnode :=
  match par with None => mem | Some p => alter (link name c) p mem end.

Lemma bind_ok {A B} (m : M uc_json_parser A) (k : A → M uc_json_parser B) s a s' :
  m s = Ok a s' → (m ≫= k) s = k a s'.
Proof. unfold mbind, M_bind. by intros ->. Qed.

Lemma insert_alter (f : jnode → jnode) p n (mem : gmap positive jnode) :
  mem !! p = Some n → <[p := f n]> mem = alter f p mem.
Proof.
  intros Hp. apply map_eq. intros q. destruct (decide (p = q)) as [->|].
  - by rewrite lookup_insert_eq, lookup_alter_eq, Hp.
  - by rewrite lookup_insert_ne, lookup_alter_ne.
Qed.

Lemma attach_to s c par : p_heap s = [] →
  (∀ p, par = Some p → ∃ n, p_mem s !! p = Some n ∧ is_container n = true) →
  attach par (Some c) s = Ok 0 (s <| p_mem := link_in par (p_name s) c (p_mem s) |>
                                  <| p_root := Some (default c (p_root s)) |>).
Proof.
  intros Hh Ht. unfold attach, mbind, M_bind, gets, modify, ret. destruct par as [p|].
  - destruct (Ht p eq_refl) as (n & Hp & Hn). rewrite Hp.
    destruct n as [|items|members]; [done|..]; simpl.
    + rewrite <- (insert_alter (link (p_name s) c) _ _ _ Hp). by destruct (p_root s).
    + rewrite <- (insert_alter (link (p_name s) c) _ _ _ Hp).
      unfold cJSON_AddItemToObject, mbind, M_bind, p_alloc, gets, modify. rewrite Hh. simpl.
      destruct s as [h m nx rt st sz ic sp sk nm cs rs]; simpl in *. subst. by destruct rt.
  - destruct s as [h m nx rt st sz ic sp sk nm cs rs]; simpl. by destruct rt.
Qed.

(** The state after a new item was created and linked. *)
Definition placed (n : jnode) (s : uc_json_parser) : uc_json_parser :=
  s <| p_mem := link_in (top s) (p_name s) (p_next s) (<[p_next s := n]> (p_mem s)) |>
    <| p_next := Pos.succ (p_next s) |>
    <| p_root := Some (default (p_next s) (p_root s)) |>.

Lemma create_call_ok n s : idle s →
  cJSON_Create n s = Ok (Some (p_next s)) (created n [] s).
Proof.
  intros [Hh _]. unfold cJSON_Create, mbind, M_bind, p_alloc, gets, modify, ret. rewrite Hh. simpl.
  unfold created. destruct s; simpl in *. by subst.
Qed.

Lemma open_created b n h s : pinv b s → ∀ p, top (created n h s) = Some p →
  ∃ m, p_mem (created n h s) !! p = Some m ∧ is_container m = true.
Proof.
  intros I p Hp. destruct (top_open _ _ _ (pinv_created b s n h I) Hp) as (_ & ?). done.
Qed.

Lemma created_heap n s : p_heap s = [] → created n [] s = created n (p_heap s) s.
Proof. by intros ->. Qed.

Lemma create_ok n s : quiet s → create (top s) n s = Ok 0 (placed n s).
Proof.
  intros [I Hh]. unfold create, mbind, M_bind. rewrite create_call_ok by done.
  change (attach (top (created n [] s)) (Some (p_next s)) (created n [] s) = Ok 0 (placed n s)).
  rewrite attach_to; [|done|by eapply open_created]. destruct Hh as [Hh _].
  unfold placed, created. destruct s; simpl in *. by subst.
Qed.

(** The same with the item on top of the stack. *)
Definition pushed (n : jnode) (s : uc_json_parser) : uc_json_parser :=
  placed n s <| p_sp := p_sp s + 1 |>
             <| p_stack := <[Z.to_nat (p_sp s + 1) := Some (p_next s)]> (p_stack s) |>.

Lemma push_ok n s : quiet s → is_container n = true → p_sp s + 1 < Z.of_nat LEJP_MAX_DEPTH →
  push (top s) n s = Ok 0 (pushed n s <| p_calls := [lejp_parser_push] |>).
Proof.
  intros [I Hh] Hn Hsp. unfold push, mbind, M_bind. rewrite create_call_ok by done.
  unfold on_ctx, gets, modify. cbn [p_sp p_calls set created].
  rewrite (proj2 (Z.leb_gt _ _)) by lia. destruct Hh as [Hh Hl].
  rewrite Hl. simpl app.
  set (s1 := created n [] s <| p_calls := [lejp_parser_push] |> <| p_sp := p_sp s + 1 |>
               <| p_stack := <[Z.to_nat (p_sp s + 1) := Some (p_next s)]> (p_stack s) |>).
  change (attach (top s) (Some (p_next s)) s1 = Ok 0 (pushed n s <| p_calls := [lejp_parser_push] |>)).
  rewrite (attach_to s1 (p_next s) (top s)); [|done|].
  { unfold s1, pushed, placed, created. destruct s; simpl in *. by subst. }
  (* the parent is below the new top *)
  intros p Ht. exact (open_created false n [] s I p Ht).
Qed.

Lemma step_inv e b s s' : pinv b s → (is_chunk e = true → b = true) →
  uc_lejp_parse sscanf_lf e s = Ok 0 s' → pinv (str_after e) s'.
Proof.
  intros I Hc Hr. pose proof (uc_lejp_parse_safe sscanf_lf b e s I Hc) as H.
  unfold wp in H. rewrite Hr in H. by destruct H as [[_ ?]|[? _]].
Qed.

(** The calls made on the context aside. *)
Lemma step_inv_calls e b s s' l : pinv b s → (is_chunk e = true → b = true) → str_after e = false →
  uc_lejp_parse sscanf_lf e s = Ok 0 (s' <| p_calls := l |>) → pinv false s'.
Proof.
  intros I Hc Ha Hr. eapply pinv_str; [exact (step_inv e b s _ I Hc Hr)|done..].
Qed.

Lemma step_quiet e b s s' : pinv b s → (is_chunk e = true → b = true) → str_after e = false →
  uc_lejp_parse sscanf_lf e s = Ok 0 s' → idle s' → quiet s'.
Proof.
  intros I Hc Ha Hr Hh. split; [|done]. rewrite <- Ha. by eapply step_inv.
Qed.

(** The callback reads the top of the stack first. *)
Lemma parse_top b s {A} (k : option positive → M uc_json_parser A) : pinv b s →
  (sp ← gets p_sp; parent ← stack_get sp; k parent) s = k (top s) s.
Proof.
  intros I. unfold stack_get, mbind, M_bind, gets. destruct (inv_sp _ _ I) as [Hs0 Hs1].
  rewrite (proj2 (Z.ltb_ge _ _)) by lia.
  destruct (lookup_lt_is_Some_2 (p_stack s) (Z.to_nat (p_sp s))) as [o Ho].
  { rewrite (inv_len _ _ I). lia. }
  unfold top. by rewrite Ho.
Qed.

Lemma run_calls e es w s s' calls : p_calls s' = [] →
  uc_lejp_parse sscanf_lf (said w e) s = Ok 0 (s' <| p_calls := calls |>) →
  run_events (e :: es) w s = run_events es (moved e (foldl obeys w calls)) s'.
Proof.
  intros Hl He. simpl. unfold mbind, M_bind. rewrite He. unfold gets, modify. simpl.
  f_equal. destruct s'; simpl in *. by subst.
Qed.

(** An event that neither opens nor closes a container, nor names a member. *)
Definition inner (e : lejp_event) : bool :=
  match e with
  | LEJPCB_PAIR_NAME _ | LEJPCB_ARRAY_START | LEJPCB_ARRAY_END
  | LEJPCB_OBJECT_START | LEJPCB_OBJECT_END => false
  | _ => true
  end.
Lemma run_cons e es w s s' : inner e = true → p_calls s' = [] →
  uc_lejp_parse sscanf_lf e s = Ok 0 s' → run_events (e :: es) w s = run_events es w s'.
Proof.
  intros Hi Hl He. rewrite (run_calls e es w s s' []); [by destruct e|done|].
  replace (said w e) with e by (by destruct e). rewrite He. f_equal.
  destruct s'; simpl in *. by subst.
Qed.

(** ** Strings *)

(** The string read so far is [c]. *)
Definition open_str (s : uc_json_parser) (c : string) : Prop :=
  stake (Z.to_nat (p_strsz s - 1)) (default "" (p_str s)) = c ∧ p_strsz s = 1 + slen c.

Definition appended (c : string) (s : uc_json_parser) : uc_json_parser :=
  s <| p_str := Some c |> <| p_strsz := 1 + slen c |>.

Lemma append_ok s c buf : pinv true s → idle s → open_str s c →
  str_append buf s = Ok true (appended (c +:+ buf) s).
Proof.
  intros I [Hh Hl] [Hc Hz]. pose proof (inv_str _ _ I eq_refl) as H1.
  unfold str_append, mbind, M_bind, p_alloc, gets, modify, ret. rewrite Hh. simpl.
  rewrite (proj2 (Z.ltb_ge _ _)) by lia. rewrite Hc, Hz.
  unfold appended. rewrite slen_app, Z.add_assoc. done.
Qed.

Lemma open_appended c s : open_str (appended c s) c.
Proof.
  split; [|done]. unfold appended. cbn [p_str p_strsz default set].
  apply stake_all. lia.
Qed.

Lemma appended_inv c s : pinv true s → pinv true (appended c s).
Proof. intros I. eapply pinv_str; [exact I|done..|]. simpl. unfold slen. lia. Qed.

Lemma chunks_ok chunks rest w s c : pinv true s → idle s → open_str s c →
  ∃ s', run_events ((LEJPCB_VAL_STR_CHUNK <$> chunks) ++ rest) w s = run_events rest w s' ∧
    pinv true s' ∧ idle s' ∧ open_str s' (c +:+ String.concat "" chunks) ∧
    ∃ st z, s' = s <| p_str := st |> <| p_strsz := z |>.
Proof.
  revert s c. induction chunks as [|b chunks IH]; intros s c I Hh Ho.
  - exists s. rewrite str_app_empty. split_and!; try done.
    exists (p_str s), (p_strsz s). by destruct s.
  - rewrite fmap_cons. simpl app. rewrite (run_cons _ _ _ _ (appended (c +:+ b) s)); [|done|apply Hh|].
    2:
    { unfold uc_lejp_parse. rewrite (parse_top true) by done. unfold mbind, M_bind.
      by rewrite (append_ok s c b). }
    destruct (IH (appended (c +:+ b) s) (c +:+ b)) as (s' & E1 & I' & Hh' & Ho' & st & z & E2).
    { by apply appended_inv. } { done. } { apply open_appended. }
    exists s'. split; [done|]. split; [done|]. split; [done|]. split.
    + by rewrite concat_cons, str_app_assoc.
    + exists st, z. by rewrite E2.
Qed.

Lemma string_ok chunks last rest w s : quiet s → ∃ s' st,
  run_events (LEJPCB_VAL_STR_START :: (LEJPCB_VAL_STR_CHUNK <$> chunks) ++
              LEJPCB_VAL_STR_END last :: rest) w s = run_events rest w s' ∧ quiet s' ∧
  s' = placed (NLeaf (JStr (String.concat "" chunks +:+ last))) (s <| p_str := st |>)
         <| p_str := None |> <| p_strsz := 0 |>.
Proof.
  intros [I Hh]. set (s1 := s <| p_strsz := 1 |>).
  assert (I1 : pinv true s1) by (eapply pinv_str; [exact I|done..]).
  rewrite (run_cons _ _ _ _ s1); [|done|apply Hh|].
  2:
  { unfold uc_lejp_parse. by rewrite (parse_top false). }
  destruct (chunks_ok chunks (LEJPCB_VAL_STR_END last :: rest) w s1 "" I1 Hh)
    as (s2 & -> & I2 & Hh2 & Ho & st & z & E2).
  { split; [|done]. unfold s1. simpl. unfold stake. by destruct (p_str s) as [[]|]. }
  set (c := "" +:+ String.concat "" chunks) in *.
  set (s3 := appended (c +:+ last) s2).
  set (s4 := placed (NLeaf (JStr (c +:+ last))) s3 <| p_str := None |> <| p_strsz := 0 |>).
  assert (E4 : uc_lejp_parse sscanf_lf (LEJPCB_VAL_STR_END last) s2 = Ok 0 s4).
  { unfold uc_lejp_parse. rewrite (parse_top true) by done.
    rewrite (bind_ok _ _ _ _ _ (append_ok s2 c last I2 Hh2 Ho)). cbn [negb]. fold s3.
    rewrite (bind_ok (gets p_str) _ s3 _ _ eq_refl).
    change (default "" (p_str s3)) with (c +:+ last).
    rewrite (bind_ok _ _ _ _ _ (create_call_ok _ s3 Hh2)). cbn beta iota.
    set (s5 := created (NLeaf (JStr (c +:+ last))) [] s3 <| p_str := None |> <| p_strsz := 0 |>).
    change (attach (top s5) (Some (p_next s3)) s5 = Ok 0 s4).
    rewrite attach_to; [|done|intros p Hp].
    - clear E2. unfold s4, s5, placed, created, s3, appended. clearbody c. clear -Hh2.
      destruct Hh2 as [Hh2 _]. destruct s2; simpl in *. by subst.
    - apply (open_created true _ [] s3); [by apply appended_inv|done]. }
  exists s4, (Some (c +:+ last)). split; [apply run_cons; [done|apply Hh2|done]|].
  split; [exact (step_quiet (LEJPCB_VAL_STR_END last) true s2 s4 I2 (λ _, eq_refl) eq_refl E4 Hh2)|].
  unfold s4, s3. rewrite E2. done.
Qed.

(** ** Whole values *)

(** What reading a value leaves alone. *)
Record kept (s s' : uc_json_parser) : Prop := {
  kept_quiet : quiet s';
  kept_sp : p_sp s' = p_sp s;
  kept_stack : ∀ i, Z.of_nat i ≤ p_sp s → p_stack s' !! i = p_stack s !! i;
  kept_results : p_results s' = p_results s
}.

(** The value [t] was read: its tree fills the memory from [p_next s] on, and
    its parent got one more member. *)
Record built (s s' : uc_json_parser) (t : jtree) : Prop := {
  built_kept : kept s s';
  built_root : p_root s' = Some (default (p_next s) (p_root s));
  built_rep : rep (p_mem s') (p_next s) t (p_next s');
  built_below : ∀ a, (a < p_next s)%positive →
    p_mem s' !! a = link_in (top s) (p_name s) (p_next s) (p_mem s) !! a
}.

(** The container [p] on top of the stack got the members of [l]. *)
Record filled (s s' : uc_json_parser) (p : positive) : Prop := {
  filled_kept : kept s s';
  filled_root : p_root s' = p_root s;
  filled_below : ∀ a, (a < p_next s)%positive → a ≠ p → p_mem s' !! a = p_mem s !! a;
  filled_next : (p_next s ≤ p_next s')%positive
}.

Lemma kept_self s : quiet s → kept s s.
Proof. by split. Qed.
Lemma kept_trans s1 s2 s3 : kept s1 s2 → kept s2 s3 → kept s1 s3.
Proof.
  intros [_ A2 A3 A4] [B1 B2 B3 B4]. split; [done|congruence| |congruence].
  intros i Hi. rewrite B3 by lia. by apply A3.
Qed.
Lemma kept_top s s' : kept s s' → quiet s → top s' = top s.
Proof.
  intros K [I _]. unfold top. rewrite (kept_sp _ _ K), (kept_stack _ _ K); [done|].
  destruct (inv_sp _ _ I). lia.
Qed.

Lemma link_in_ne par name c mem a : par ≠ Some a → link_in par name c mem !! a = mem !! a.
Proof. destruct par as [p|]; [|done]. intros. simpl. rewrite lookup_alter_ne; congruence. Qed.

Lemma placed_below n s a : quiet s → (a < p_next s)%positive →
  p_mem (placed n s) !! a = link_in (top s) (p_name s) (p_next s) (p_mem s) !! a.
Proof.
  intros _ Ha. unfold placed. cbn [p_mem set].
  assert (p_next s ≠ a) by lia. destruct (top s) as [p|]; simpl; [|by rewrite lookup_insert_ne].
  destruct (decide (p = a)) as [->|].
  - by rewrite !lookup_alter_eq, lookup_insert_ne.
  - by rewrite !lookup_alter_ne, lookup_insert_ne.
Qed.

Lemma top_lt s p : quiet s → top s = Some p → (p < p_next s)%positive.
Proof.
  intros [I _] Ht. destruct (top_open _ _ _ I Ht) as (_ & n & Hp & _).
  apply (inv_next _ _ I). eauto.
Qed.

Lemma placed_new n s : quiet s → p_mem (placed n s) !! p_next s = Some n.
Proof.
  intros Hq. unfold placed. cbn [p_mem set]. rewrite link_in_ne, lookup_insert_eq; [done|].
  intros Ht. pose proof (top_lt _ _ Hq Ht). lia.
Qed.

Lemma leaf_built e s t : quiet s → leaf t = true → is_chunk e = false → str_after e = false →
  uc_lejp_parse sscanf_lf e s = create (top s) (NLeaf t) s →
  uc_lejp_parse sscanf_lf e s = Ok 0 (placed (NLeaf t) s) ∧ built s (placed (NLeaf t) s) t.
Proof.
  intros Hq Hl Hc Ha He. rewrite create_ok in He by done. split; [done|].
  split; [split| | |]; try done.
  - eapply step_quiet; [apply Hq|by rewrite Hc|done|exact He|apply Hq].
  - apply rep_leaf; [done|by apply placed_new].
  - intros a ?. by apply placed_below.
Qed.

Lemma pushed_kept n e s : quiet s → is_container n = true →
  p_sp s + 1 < Z.of_nat LEJP_MAX_DEPTH → is_chunk e = false → str_after e = false →
  uc_lejp_parse sscanf_lf e s = push (top s) n s →
  uc_lejp_parse sscanf_lf e s = Ok 0 (pushed n s <| p_calls := [lejp_parser_push] |>) ∧
  quiet (pushed n s) ∧ top (pushed n s) = Some (p_next s).
Proof.
  intros Hq Hn Hsp Hc Ha He. rewrite push_ok in He by done. split; [done|]. split.
  - split; [|apply Hq]. eapply step_inv_calls; [apply Hq|by rewrite Hc|exact Ha|exact He].
  - unfold top, pushed. simpl. destruct Hq as [I _].
    rewrite list_lookup_insert_eq; [done|]. rewrite (inv_len _ _ I).
    destruct (inv_sp _ _ I). lia.
Qed.

(** Closing a container whose members were filled in. *)
Definition popped (s : uc_json_parser) : uc_json_parser := s <| p_sp := p_sp s - 1 |>.

Lemma pop_built n n' t e s s' : quiet s → is_container n = true →
  p_sp s + 1 < Z.of_nat LEJP_MAX_DEPTH → quiet (pushed n s) →
  filled (pushed n s) s' (p_next s) →
  (rep (p_mem s') (p_next s) t (p_next s')) →
  p_mem s' !! p_next s = Some n' →
  e = LEJPCB_ARRAY_END ∨ e = LEJPCB_OBJECT_END →
  uc_lejp_parse sscanf_lf e s' = Ok 0 (popped s' <| p_calls := [lejp_parser_pop] |>) ∧
  built s (popped s') t.
Proof.
  intros Hq Hn Hsp Hq1 Hf Hrep Hn' He. destruct Hf as [K R B _].
  destruct K as [Hq' K2 K3 K4]. destruct (inv_sp _ _ (proj1 Hq)) as [Hs0 _].
  simpl in K2.
  assert (E0 : uc_lejp_parse sscanf_lf e s' = Ok 0 (popped s' <| p_calls := [lejp_parser_pop] |>)).
  { unfold uc_lejp_parse. rewrite (parse_top false) by apply Hq'.
    destruct Hq' as (_ & _ & Hl).
    destruct He as [-> | ->]; unfold pop, on_ctx, mbind, M_bind, modify, gets; simpl;
      rewrite K2, Hl, (proj2 (Z.ltb_ge _ _)) by lia; unfold popped; by rewrite ?K2. }
  split; [done|]. split; [split| | |]; try done.
  - split; [|apply Hq']. eapply step_inv_calls; [apply Hq'| | |exact E0]; by destruct He as [-> | ->].
  - simpl. rewrite K2. lia.
  - intros i Hi. simpl. rewrite K3 by (simpl; lia). simpl.
    rewrite list_lookup_insert_ne; [done|lia].
  - intros a Ha. simpl. rewrite B by (simpl; lia). by apply placed_below.
Qed.

Lemma link_top s p n : quiet s → top s = Some p → p_mem s !! p = Some n → ∀ s' t, built s s' t →
  p_mem s' !! p = Some (link (p_name s) (p_next s) n).
Proof.
  intros Hq Ht Hp s' t Hb. rewrite (built_below _ _ _ Hb) by (by eapply top_lt).
  rewrite Ht. simpl. by rewrite lookup_alter_eq, Hp.
Qed.

Lemma built_filled s s' t p : quiet s → top s = Some p → is_Some (p_root s) → built s s' t →
  filled s s' p.
Proof.
  intros Hq Ht [r Hr] [K R P B]. split; [done|by rewrite R, Hr| |].
  - intros a Ha Hne. rewrite B by done. rewrite link_in_ne; [done|]. rewrite Ht. congruence.
  - pose proof (proj1 (rep_bounds _) _ _ _ P). lia.
Qed.

Lemma filled_trans s1 s2 s3 p : filled s1 s2 p → filled s2 s3 p → filled s1 s3 p.
Proof.
  intros [A1 A2 A3 A4] [B1 B2 B3 B4]. split; [by eapply kept_trans|congruence| |lia].
  intros a Ha Hne. rewrite B3 by (done || lia). by apply A3.
Qed.

Lemma agree_filled s s' p lo : filled s s' p → (p < lo)%positive → agree lo (p_next s) (p_mem s) (p_mem s').
Proof. intros F Hp a H1 H2. apply (filled_below _ _ _ F); [done|lia]. Qed.

(** Room for the containers of [ts] inside the open ones. *)
Definition room (s : uc_json_parser) (d : nat) : Prop :=
  p_sp s + Z.of_nat d < Z.of_nat LEJP_MAX_DEPTH.

Lemma room_kept s s' d : kept s s' → room s d → room s' d.
Proof. unfold room. intros K. by rewrite (kept_sp _ _ K). Qed.

(** Room for their parsers, too. *)
Definition push_room (w : lejp_pos) (d : nat) : Prop :=
  (length (l_pushed w) + d < LEJP_MAX_PARSING_STACK_DEPTH)%nat.
(** The same containers are open, with the same parsers. *)
Definition same_place (w w' : lejp_pos) : Prop := l_open w' = l_open w ∧ l_pushed w' = l_pushed w.
(** The innermost open container has its own parser. *)
Definition own_parser (w : lejp_pos) : Prop :=
  ∃ at_, head (l_open w) = Some at_ ∧ head (l_pushed w) = Some (length at_).

Lemma push_obeyed w d : push_room w (S d) →
  obeys w lejp_parser_push = mk_pos (l_here w) (l_open w) (length (l_here w) :: l_pushed w).
Proof. unfold push_room, obeys. intros H. by rewrite (proj2 (Nat.ltb_lt _ _)) by lia. Qed.

(** A member's name reaches the callback as it is. *)
Lemma said_name w k : own_parser w → said w (LEJPCB_PAIR_NAME k) = LEJPCB_PAIR_NAME k.
Proof.
  intros (at_ & E1 & E2). unfold said, member_path. rewrite E1, E2. simpl. by rewrite lejp_path_own.
Qed.

Definition value_runs (t : jtree) (es : list lejp_event) : Prop := ∀ s w rest,
  quiet s → room s (depth t) → push_room w (depth t) →
  ∃ s' w', run_events (es ++ rest) w s = run_events rest w' s' ∧ built s s' t ∧ same_place w w'.

Definition items_run (l : list jtree) (es : list lejp_event) : Prop := ∀ s w rest p xs,
  quiet s → room s (list_max (depth <$> l)) → push_room w (list_max (depth <$> l)) →
  top s = Some p → is_Some (p_root s) → p_mem s !! p = Some (NArr xs) →
  ∃ s' w' ys, run_events (es ++ rest) w s = run_events rest w' s' ∧ filled s s' p ∧
    same_place w w' ∧ p_mem s' !! p = Some (NArr (xs ++ ys)) ∧
    rep_items (p_mem s') (p_next s) l ys (p_next s').

Definition members_run (l : list (string * jtree)) (es : list lejp_event) : Prop := ∀ s w rest p xs,
  quiet s → room s (list_max ((λ kv, depth kv.2) <$> l)) →
  push_room w (list_max ((λ kv, depth kv.2) <$> l)) → own_parser w →
  top s = Some p → is_Some (p_root s) → p_mem s !! p = Some (NObj xs) →
  ∃ s' w' ys, run_events (es ++ rest) w s = run_events rest w' s' ∧ filled s s' p ∧
    same_place w w' ∧ p_mem s' !! p = Some (NObj (xs ++ ys)) ∧
    rep_members (p_mem s') (p_next s) l ys (p_next s').

Lemma leaf_runs e t : leaf t = true → inner e = true → is_chunk e = false → str_after e = false →
  (∀ s, quiet s → uc_lejp_parse sscanf_lf e s = create (top s) (NLeaf t) s) →
  value_runs t [e].
Proof.
  intros Hl Hi Hc Ha He s w rest Hq _ _. exists (placed (NLeaf t) s), w.
  destruct (leaf_built e s t Hq Hl Hc Ha (He s Hq)) as [Hr Hb].
  split; [by apply run_cons; [|apply Hq|]|done].
Qed.

Lemma string_runs chunks last : value_runs (JStr (String.concat "" chunks +:+ last))
  (LEJPCB_VAL_STR_START :: (LEJPCB_VAL_STR_CHUNK <$> chunks) ++ [LEJPCB_VAL_STR_END last]).
Proof.
  intros s w rest Hq _ _. destruct (string_ok chunks last rest w s Hq) as (s' & st & Hr & Hq' & E0).
  exists s', w. split; [by rewrite <- Hr, <- app_comm_cons, <- app_assoc|].
  set (v := JStr _) in *. set (s1 := s <| p_str := st |>) in *.
  assert (Hq1 : quiet s1) by (destruct Hq as [I ?]; split; [by eapply pinv_str|done]).
  subst s'. split; [|done]. split; [split| | |]; try done.
  - apply rep_leaf; [done|]. by apply (placed_new _ s1).
  - intros a Ha. by apply (placed_below _ s1).
Qed.

(** A container gets its parser, and lets it go. *)
Lemma enter_place w e d : push_room w (S d) → e = LEJPCB_ARRAY_START ∨ e = LEJPCB_OBJECT_START →
  ∃ w1, moved e (foldl obeys w [lejp_parser_push]) = w1 ∧ push_room w1 d ∧
    (e = LEJPCB_OBJECT_START → own_parser w1) ∧
    tail (l_open w1) = l_open w ∧ tail (l_pushed w1) = l_pushed w.
Proof.
  intros Hw He. eexists. split; [done|]. cbn [foldl]. rewrite (push_obeyed w d Hw).
  unfold push_room in *. destruct He as [-> | ->]; simpl; split_and!; (done || lia || eauto).
  intros _. eexists. by split.
Qed.

Lemma leave_place w w1 w2 e : same_place w1 w2 → e = LEJPCB_ARRAY_END ∨ e = LEJPCB_OBJECT_END →
  tail (l_open w1) = l_open w ∧ tail (l_pushed w1) = l_pushed w →
  same_place w (moved e (foldl obeys w2 [lejp_parser_pop])).
Proof.
  intros [E1 E2] He [E3 E4]. unfold same_place.
  destruct He as [-> | ->]; simpl; by rewrite E1, E2.
Qed.

Lemma array_runs l es : items_run l es →
  value_runs (JArr l) (LEJPCB_ARRAY_START :: es ++ [LEJPCB_ARRAY_END]).
Proof.
  intros IH s w rest Hq Hd Hw. unfold room in Hd. simpl depth in Hd, Hw.
  assert (Hsp : p_sp s + 1 < Z.of_nat LEJP_MAX_DEPTH) by lia.
  destruct (pushed_kept (NArr []) LEJPCB_ARRAY_START s Hq eq_refl Hsp eq_refl eq_refl)
    as (Hr & Hq1 & Ht1).
  { unfold uc_lejp_parse. by rewrite (parse_top false) by apply Hq. }
  destruct (enter_place w LEJPCB_ARRAY_START _ Hw) as (w1 & Ew & Hw1 & Ho & Hl); [by left|].
  destruct (IH (pushed (NArr []) s) w1 ([LEJPCB_ARRAY_END] ++ rest) (p_next s) [])
    as (s2 & w2 & ys & Hr2 & F & Hp & Hm & R);
    [done|unfold room; simpl; lia|done|done|simpl; eauto|by apply (placed_new _ s)|].
  destruct (pop_built (NArr []) (NArr ys) (JArr l) LEJPCB_ARRAY_END s s2) as (E3 & Hb);
    try done; [by eapply rep_arr|by left|].
  exists (popped s2), (moved LEJPCB_ARRAY_END (foldl obeys w2 [lejp_parser_pop])).
  split; [|split; [done|by apply (leave_place w w1); [|by left|]]].
  rewrite <- app_comm_cons, <- app_assoc, (run_calls LEJPCB_ARRAY_START _ w s (pushed (NArr []) s) [lejp_parser_push]);
    [|apply Hq|exact Hr].
  rewrite Ew, Hr2. apply run_calls; [apply F|exact E3].
Qed.

Lemma object_runs l es : members_run l es →
  value_runs (JObj l) (LEJPCB_OBJECT_START :: es ++ [LEJPCB_OBJECT_END]).
Proof.
  intros IH s w rest Hq Hd Hw. unfold room in Hd. simpl depth in Hd, Hw.
  assert (Hsp : p_sp s + 1 < Z.of_nat LEJP_MAX_DEPTH) by lia.
  destruct (pushed_kept (NObj []) LEJPCB_OBJECT_START s Hq eq_refl Hsp eq_refl eq_refl)
    as (Hr & Hq1 & Ht1).
  { unfold uc_lejp_parse. by rewrite (parse_top false) by apply Hq. }
  destruct (enter_place w LEJPCB_OBJECT_START _ Hw) as (w1 & Ew & Hw1 & Ho & Hl); [by right|].
  destruct (IH (pushed (NObj []) s) w1 ([LEJPCB_OBJECT_END] ++ rest) (p_next s) [])
    as (s2 & w2 & ys & Hr2 & F & Hp & Hm & R);
    [done|unfold room; simpl; lia|done|by apply Ho|done|simpl; eauto|by apply (placed_new _ s)|].
  destruct (pop_built (NObj []) (NObj ys) (JObj l) LEJPCB_OBJECT_END s s2) as (E3 & Hb);
    try done; [by eapply rep_obj|by right|].
  exists (popped s2), (moved LEJPCB_OBJECT_END (foldl obeys w2 [lejp_parser_pop])).
  split; [|split; [done|by apply (leave_place w w1); [|by right|]]].
  rewrite <- app_comm_cons, <- app_assoc, (run_calls LEJPCB_OBJECT_START _ w s (pushed (NObj []) s) [lejp_parser_push]);
    [|apply Hq|exact Hr].
  rewrite Ew, Hr2. apply run_calls; [apply F|exact E3].
Qed.

Lemma filled_refl s p : quiet s → filled s s p.
Proof. intros Hq. split; [by apply kept_self|done..]. Qed.

(** After a member, the rest of the members. *)
Lemma cons_runs s s1 s2 p t : quiet s → top s = Some p → built s s1 t → filled s s1 p →
  filled s1 s2 p → filled s s2 p ∧ rep (p_mem s2) (p_next s) t (p_next s1).
Proof.
  intros Hq Ht Hb F1 F2. split; [by eapply filled_trans|].
  eapply (rep_agree (p_mem s1)); [apply Hb|]. eapply agree_filled; [done|by eapply top_lt].
Qed.

Lemma same_place_trans w1 w2 w3 : same_place w1 w2 → same_place w2 w3 → same_place w1 w3.
Proof. intros [A1 A2] [B1 B2]. split; congruence. Qed.
Lemma push_room_same w w' d d' : same_place w w' → push_room w d → (d' ≤ d)%nat → push_room w' d'.
Proof. unfold push_room. intros [_ ->]. lia. Qed.
Lemma own_parser_same w w' : same_place w w' → own_parser w → own_parser w'.
Proof. unfold own_parser. by intros [-> ->]. Qed.

Lemma items_runs_cons t l es es' : value_runs t es → items_run l es' → items_run (t :: l) (es ++ es').
Proof.
  intros IH1 IH2 s w rest p xs Hq Hd Hw Ht Hr Hp. unfold room in Hd.
  change (list_max _) with (Nat.max (depth t) (list_max (depth <$> l))) in Hd, Hw.
  destruct (IH1 s w (es' ++ rest) Hq) as (s1 & w1 & E1 & Hb & P1);
    [unfold room; lia|unfold push_room in *; lia|].
  pose proof (built_filled _ _ _ _ Hq Ht Hr Hb) as F1.
  destruct F1 as [K1 R1 B1 N1] eqn:EF. clear EF.
  destruct (IH2 s1 w1 rest p (xs ++ [p_next s])) as (s2 & w2 & ys & E2 & F2 & P2 & Hm & R2).
  - apply K1.
  - unfold room. rewrite (kept_sp _ _ K1). lia.
  - eapply push_room_same; [done..|lia].
  - by rewrite (kept_top _ _ K1).
  - by rewrite R1.
  - by apply (link_top s p _ Hq Ht Hp _ _ Hb).
  - destruct (cons_runs s s1 s2 p t) as [F R]; try done.
    exists s2, w2, (p_next s :: ys).
    split_and!; [by rewrite <- app_assoc, E1|done|by eapply same_place_trans| |].
    + by rewrite <- app_assoc in Hm.
    + by econstructor.
Qed.

Lemma members_runs_cons k t l es es' : value_runs t es → members_run l es' →
  members_run ((k, t) :: l) (LEJPCB_PAIR_NAME k :: es ++ es').
Proof.
  intros IH1 IH2 s0 w0 rest p xs Hq0 Hd Hw0 Ho Ht Hr Hp. unfold room in Hd.
  change (list_max _) with (Nat.max (depth t) (list_max ((λ kv, depth kv.2) <$> l))) in Hd, Hw0.
  set (s := s0 <| p_name := k |>). set (w := moved (LEJPCB_PAIR_NAME k) w0).
  assert (E0 : uc_lejp_parse sscanf_lf (LEJPCB_PAIR_NAME k) s0 = Ok 0 s).
  { unfold uc_lejp_parse. by rewrite (parse_top false) by apply Hq0. }
  pose proof (step_quiet (LEJPCB_PAIR_NAME k) false s0 s (proj1 Hq0) (λ H, H) eq_refl E0 (proj2 Hq0)) as Hq.
  assert (F0 : filled s0 s p) by (split; [by split|done..]).
  assert (P0 : same_place w0 w) by done.
  destruct (IH1 s w (es' ++ rest) Hq) as (s1 & w1 & E1 & Hb & P1);
    [unfold room; simpl; lia|by eapply push_room_same; [..|apply Nat.le_max_l]|].
  pose proof (built_filled s _ _ _ Hq Ht Hr Hb) as F1.
  destruct F1 as [K1 R1 B1 N1] eqn:EF. clear EF.
  pose proof (same_place_trans _ _ _ P0 P1) as P01.
  destruct (IH2 s1 w1 rest p (xs ++ [(k, p_next s)])) as (s2 & w2 & ys & E2 & F2 & P2 & Hm & R2).
  - apply K1.
  - unfold room. rewrite (kept_sp _ _ K1). simpl. lia.
  - by eapply push_room_same; [..|apply Nat.le_max_r].
  - by eapply own_parser_same.
  - by rewrite (kept_top _ _ K1).
  - by rewrite R1.
  - by apply (link_top s p _ Hq Ht Hp _ _ Hb).
  - destruct (cons_runs s s1 s2 p t) as [F R]; try done.
    exists s2, w2, ((k, p_next s) :: ys). split_and!.
    + rewrite <- app_comm_cons, <- app_assoc.
      rewrite (run_calls (LEJPCB_PAIR_NAME k) _ w0 s0 s []), <- E2, <- E1; [done|apply Hq|].
      rewrite said_name, E0 by done. f_equal. clear -Hq. destruct Hq as (_ & _ & Hl).
      unfold s in *. destruct s0; simpl in *. by subst.
    + by eapply filled_trans.
    + by eapply same_place_trans.
    + by rewrite <- app_assoc in Hm.
    + by econstructor.
Qed.

Lemma emits_run :
  (∀ t es, emits t es → value_runs t es) ∧
  (∀ l es, emits_items l es → items_run l es) ∧
  (∀ l es, emits_members l es → members_run l es).
Proof.
  assert (Hleaf : ∀ s e (k : option positive → M uc_json_parser Z), quiet s →
    uc_lejp_parse sscanf_lf e s = (sp ← gets p_sp; parent ← stack_get sp; k parent) s →
    uc_lejp_parse sscanf_lf e s = k (top s) s).
  { intros s e k Hq ->. by rewrite (parse_top false) by apply Hq. }
  apply emits_ind3; intros.
  - apply leaf_runs; try done. intros s Hq. by apply (Hleaf s _ (λ p, create p _)).
  - apply leaf_runs; try done. intros s Hq. by apply (Hleaf s _ (λ p, create p _)).
  - apply leaf_runs; try done. intros s Hq. by apply (Hleaf s _ (λ p, create p _)).
  - apply leaf_runs; try done. intros s Hq. apply (Hleaf s _ (λ p, create p _)); [done|].
    unfold uc_lejp_parse. by rewrite e.
  - apply string_runs.
  - by apply array_runs.
  - by apply object_runs.
  - intros s w rest p xs Hq _ _ Ht _ Hp. exists s, w, []. rewrite app_nil_r.
    split_and!; [done|by apply filled_refl|done|done|constructor].
  - by apply items_runs_cons.
  - intros s w rest p xs Hq _ _ _ Ht _ Hp. exists s, w, []. rewrite app_nil_r.
    split_and!; [done|by apply filled_refl|done|done|constructor].
  - by apply members_runs_cons.
Qed.

(** ** Whole documents *)

(** The memory determines the tree. *)
Lemma rep_functional mem :
  (∀ a t hi, rep mem a t hi → ∀ t' hi', rep mem a t' hi' → t' = t ∧ hi' = hi) ∧
  (∀ a l xs hi, rep_items mem a l xs hi → ∀ l' hi', rep_items mem a l' xs hi' → l' = l ∧ hi' = hi) ∧
  (∀ a l ms hi, rep_members mem a l ms hi → ∀ l' hi', rep_members mem a l' ms hi' → l' = l ∧ hi' = hi).
Proof.
  apply rep_ind3.
  - intros a t Hl Hm t' hi' H. inversion H; by simplify_eq.
  - intros a l items hi Hm Hr IH t' hi' H. inversion H; simplify_eq.
    by destruct (IH _ _ ltac:(eassumption)) as [-> ->].
  - intros a l ms hi Hm Hr IH t' hi' H. inversion H; simplify_eq.
    by destruct (IH _ _ ltac:(eassumption)) as [-> ->].
  - intros a l' hi' H. by inversion H.
  - intros a t m l items hi R1 IH1 R2 IH2 l' hi' H. inversion H; subst.
    destruct (IH1 _ _ ltac:(eassumption)) as [-> ->].
    by destruct (IH2 _ _ ltac:(eassumption)) as [-> ->].
  - intros a l' hi' H. by inversion H.
  - intros a k t m l ms hi R1 IH1 R2 IH2 l' hi' H. inversion H; subst.
    destruct (IH1 _ _ ltac:(eassumption)) as [-> ->].
    by destruct (IH2 _ _ ltac:(eassumption)) as [-> ->].
Qed.

Lemma rep_filled mem :
  (∀ a t hi, rep mem a t hi → ∀ b, (a ≤ b < hi)%positive → is_Some (mem !! b)) ∧
  (∀ a l xs hi, rep_items mem a l xs hi → ∀ b, (a ≤ b < hi)%positive → is_Some (mem !! b)) ∧
  (∀ a l ms hi, rep_members mem a l ms hi → ∀ b, (a ≤ b < hi)%positive → is_Some (mem !! b)).
Proof.
  apply rep_ind3; intros; try lia.
  - assert (b = a) as -> by lia. eauto.
  - destruct (decide (b = a)) as [->|]; [eauto|]. apply H; lia.
  - destruct (decide (b = a)) as [->|]; [eauto|]. apply H; lia.
  - destruct (decide (b < m)%positive); [apply H|apply H0]; lia.
  - destruct (decide (b < m)%positive); [apply H|apply H0]; lia.
Qed.

Lemma size_filled (mem : gmap positive jnode) hi :
  (∀ b, (1 ≤ b < hi)%positive → is_Some (mem !! b)) → (Pos.to_nat hi ≤ S (size mem))%nat.
Proof.
  intros H. set (l := Pos.of_nat <$> seq 1 (Pos.to_nat hi - 1)).
  assert (Hn : NoDup l).
  { apply NoDup_fmap_2_strong; [|apply NoDup_seq]. intros x y [? _]%elem_of_seq [? _]%elem_of_seq E0.
    apply (f_equal Pos.to_nat) in E0. rewrite !Nat2Pos.id in E0; lia. }
  assert (Hs : l ⊆ elements (dom mem)).
  { intros b (n & -> & Hn'%elem_of_seq)%list_elem_of_fmap. apply elem_of_elements, elem_of_dom, H. lia. }
  pose proof (submseteq_length _ _ (NoDup_submseteq _ _ Hn Hs)) as Hl.
  unfold l in Hl. rewrite length_fmap, length_seq in Hl.
  rewrite <- size_dom. unfold size at 1, set_size. simpl. lia.
Qed.

Lemma delete_all_in (l : list positive) (m : gmap positive jnode) p : p ∈ l → foldr delete m l !! p = None.
Proof.
  induction l as [|q l IH]; intros Hp; [by apply not_elem_of_nil in Hp|]. simpl.
  rewrite lookup_delete. case_decide; [done|]. apply IH. set_solver.
Qed.

(** C29: a document whose containers fit the reader's stack and the parsing
    stack of lejp, and for which no allocation fails, reaches the user's
    callback as its tree, whatever the cuts of its strings: every member has
    its own name, since the parser pushed for its container makes the path
    relative to it and is popped again; the memory the callback is given holds
    the items of [t] from address 1 and is no other value's; and once the
    document is complete all of its items have been freed and the reader is as
    new. *)
Theorem document_read t es : emits t es → (depth t < LEJP_MAX_DEPTH)%nat →
  (depth t < LEJP_MAX_PARSING_STACK_DEPTH)%nat →
  ∃ mem hi w' s', run_events (LEJPCB_START :: es ++ [LEJPCB_COMPLETE]) lejp_start
      (uc_json_parser_init []) = Ok w' s' ∧
    p_results s' = [Parsed mem (Some 1%positive)] ∧
    (∀ t', (∃ hi', rep mem 1 t' hi') ↔ t' = t) ∧ rep mem 1 t hi ∧
    p_mem s' = ∅ ∧ p_sp s' = 0 ∧ p_root s' = None ∧ p_str s' = None ∧
    l_open w' = [] ∧ l_pushed w' = [].
Proof.
  intros He Hd Hw. set (s0 := uc_json_parser_init []).
  assert (Hq : quiet s0) by (split; [apply pinv_init|done]).
  assert (E0 : uc_lejp_parse sscanf_lf LEJPCB_START s0 = Ok 0 s0).
  { unfold uc_lejp_parse. by rewrite (parse_top false) by apply Hq. }
  destruct (proj1 emits_run t es He s0 lejp_start [LEJPCB_COMPLETE] Hq)
    as (s1 & w1 & E1 & [[[I Hh] K2 K3 K4] R P B] & [P1 P2]);
    [unfold room; simpl; lia|exact Hw|].
  simpl in R, P, K4. set (mem := p_mem s1) in *.
  set (nodes := nodes_below (S (size mem)) mem 1).
  assert (Hmem : foldr delete mem nodes = ∅).
  { apply map_eq. intros b. rewrite lookup_empty.
    destruct (decide (b < p_next s1)%positive) as [Hb|Hb].
    - apply delete_all_in, (proj1 (rep_covered mem) _ _ _ P); [lia|].
      pose proof (size_filled mem (p_next s1) (proj1 (rep_filled mem) _ _ _ P)). lia.
    - apply eq_None_not_Some. intros Hs%delete_all_lookup%(inv_next _ _ I). done. }
  destruct (inv_root _ _ I 1%positive R) as [n Hn].
  fold mem in Hn.
  set (s2 := s1 <| p_results := [Parsed mem (Some 1%positive)] |> <| p_sp := 0 |> <| p_str := None |>
               <| p_strsz := 0 |> <| p_mem := foldr delete mem nodes |> <| p_root := None |>).
  assert (EC : uc_lejp_parse sscanf_lf LEJPCB_COMPLETE s1 = Ok 0 s2).
  { unfold uc_lejp_parse. rewrite (parse_top false) by done.
    unfold user_callback, parse_cleanup, mbind, M_bind, modify, gets, ret. simpl.
    rewrite R, K4. unfold cJSON_Delete, mbind, M_bind, modify, gets. simpl p_mem.
    fold mem. rewrite Hn. done. }
  exists mem, (p_next s1), w1, s2. split.
  { rewrite (run_cons LEJPCB_START _ _ _ s0 eq_refl eq_refl E0), E1.
    by rewrite (run_cons LEJPCB_COMPLETE _ _ _ s2 eq_refl (proj2 Hh) EC). }
  simpl. split; [done|]. split_and!; try done.
  intros t'. split; [|intros ->; eauto].
  intros (hi' & P'). by destruct (proj1 (rep_functional mem) _ _ _ P _ _ P').
Qed.
End tree.

(** ** An evaluated example: an object with a string in two chunks, a number
    and an array *)
Definition sample_doc : jtree :=
  JObj [("a", JStr "xyz"); ("b", JArr [JNum (dbl_of_Z 7); JNull; JArr []])].
Definition sample_events : list lejp_event :=
  [LEJPCB_OBJECT_START; LEJPCB_PAIR_NAME "a"; LEJPCB_VAL_STR_START; LEJPCB_VAL_STR_CHUNK "x";
   LEJPCB_VAL_STR_END "yz"; LEJPCB_PAIR_NAME "b"; LEJPCB_ARRAY_START; LEJPCB_VAL_NUM "7";
   LEJPCB_VAL_NULL; LEJPCB_ARRAY_START; LEJPCB_ARRAY_END; LEJPCB_ARRAY_END; LEJPCB_OBJECT_END].

Lemma sample_emits : emits sample_lf sample_doc sample_events.
Proof.
  apply (emits_obj _ _ [LEJPCB_PAIR_NAME "a"; LEJPCB_VAL_STR_START; LEJPCB_VAL_STR_CHUNK "x";
   LEJPCB_VAL_STR_END "yz"; LEJPCB_PAIR_NAME "b"; LEJPCB_ARRAY_START; LEJPCB_VAL_NUM "7";
   LEJPCB_VAL_NULL; LEJPCB_ARRAY_START; LEJPCB_ARRAY_END; LEJPCB_ARRAY_END]).
  apply (members_cons _ "a" _ _ [LEJPCB_VAL_STR_START; LEJPCB_VAL_STR_CHUNK "x"; LEJPCB_VAL_STR_END "yz"]).
  { apply (emits_str _ ["x"] "yz"). }
  apply (members_cons _ "b" _ _ [LEJPCB_ARRAY_START; LEJPCB_VAL_NUM "7";
   LEJPCB_VAL_NULL; LEJPCB_ARRAY_START; LEJPCB_ARRAY_END; LEJPCB_ARRAY_END] []); [|constructor].
  apply (emits_arr _ _ [LEJPCB_VAL_NUM "7"; LEJPCB_VAL_NULL; LEJPCB_ARRAY_START; LEJPCB_ARRAY_END]).
  apply (items_cons _ _ _ [LEJPCB_VAL_NUM "7"]); [by constructor|].
  apply (items_cons _ _ _ [LEJPCB_VAL_NULL]); [constructor|].
  apply (items_cons _ _ _ [LEJPCB_ARRAY_START; LEJPCB_ARRAY_END] []); [|constructor].
  apply (emits_arr _ [] []). constructor.
Qed.

(** Names joined with dots; room for five parsers, the first among them. *)
Definition sample_path (n : nat) (at_ : list string) : string := String.concat "." (drop n at_).
#[export] Instance sample_paths : LejpPaths.
Proof.
  refine {| LEJP_MAX_PARSING_STACK_DEPTH := 5; lejp_path := sample_path |}.
  intros at_ k. unfold sample_path. by rewrite drop_app_length.
Defined.

Lemma document_read_witness : ∃ mem hi w' s',
  run_events sample_lf (LEJPCB_START :: sample_events ++ [LEJPCB_COMPLETE]) lejp_start
    (uc_json_parser_init []) = Ok w' s' ∧
  p_results s' = [Parsed mem (Some 1%positive)] ∧
  (∀ t', (∃ hi', rep mem 1 t' hi') ↔ t' = sample_doc) ∧ rep mem 1 sample_doc hi ∧
  p_mem s' = ∅ ∧ p_sp s' = 0 ∧ p_root s' = None ∧ p_str s' = None ∧
  l_open w' = [] ∧ l_pushed w' = [].
Proof.
  apply (document_read sample_lf sample_doc sample_events); [apply sample_emits|vm_compute; lia..].
Defined.

(** Deeper than the parsing stack of lejp the result of [lejp_parser_push],
    which nothing looks at, is -1: the member ["e"] of the fifth object is taken
    in as ["d.e"], and the pop for that object takes the parser of the fourth
    away, so that ["f"], the next member of the fourth, becomes ["c.f"]. *)
Definition deep_events : list lejp_event :=
  [LEJPCB_OBJECT_START; LEJPCB_PAIR_NAME "a"; LEJPCB_OBJECT_START; LEJPCB_PAIR_NAME "b";
   LEJPCB_OBJECT_START; LEJPCB_PAIR_NAME "c"; LEJPCB_OBJECT_START; LEJPCB_PAIR_NAME "d";
   LEJPCB_OBJECT_START; LEJPCB_PAIR_NAME "e"; LEJPCB_VAL_NULL; LEJPCB_OBJECT_END;
   LEJPCB_PAIR_NAME "f"; LEJPCB_VAL_NULL].
Definition member_names (r : res uc_json_parser lejp_pos) : list (list string) :=
  match r with
  | Ok _ s => (λ a, match p_mem s !! a with Some (NObj ms) => ms.*1 | _ => [] end) <$>
                [1; 2; 3; 4; 5]%positive
  | _ => []
  end.
Lemma too_deep_misnamed :
  member_names (run_events sample_lf deep_events lejp_start (uc_json_parser_init [])) =
  [["a"]; ["b"]; ["c"]; ["d"; "c.f"]; ["d.e"]].
Proof. vm_compute. reflexivity. Qed.

(** Without memory for the copy of its name a member is missing from the tree,
    and stays in memory when the tree is freed; the callback answers 0. *)
Lemma unnamed_leaks :
  match run_events sample_lf
      [LEJPCB_OBJECT_START; LEJPCB_PAIR_NAME "a"; LEJPCB_VAL_NULL; LEJPCB_OBJECT_END; LEJPCB_COMPLETE]
      lejp_start (uc_json_parser_init [true; true; false]) with
  | Ok _ s => Some (p_results s, p_mem s)
  | _ => None
  end = Some ([Parsed {[1%positive := NObj []; 2%positive := NLeaf JNull]} (Some 1%positive)],
              {[2%positive := NLeaf JNull]}).
Proof. vm_compute. reflexivity. Qed.

(** An array nested one level too deep is created before the stack is looked
    at, and the error path does not free it. *)
Definition deep_answers : list Z * option (gmap positive jnode * option positive) :=
  (fix go (n : nat) (s : uc_json_parser) (acc : list Z) :=
     match n with
     | O => (acc, Some (p_mem s, p_root s))
     | S n =>
         match uc_lejp_parse sample_lf LEJPCB_ARRAY_START s with
         | Ok v s' => go n s' (acc ++ [v])
         | _ => (acc, None)
         end
     end) LEJP_MAX_DEPTH (uc_json_parser_init []) [].
Lemma too_deep_leaks :
  deep_answers = (replicate 11 0 ++ [-1], Some ({[12%positive := NArr []]}, None)).
Proof. vm_compute. reflexivity. Qed.
