(* ===== verification/Notify.v ===== *)
(** * Notifications of the switch ([gnma/gnma_common.c], [plat-gnma.c])

    What the gNMI subscription of the client delivers, from the response of the
    device to the event message of [Events]: the callbacks of gnma_common.c read
    the response, those of plat-gnma.c translate it, those of proto.c send it. *)

From S2P Require Import Prelude CNum CStr Bitmap Router Json PlatTypes World ProtoConv Messages Events Gnma Gnmi.
#[local] Open Scope list_scope.

(** ** Responses

    The values the connector passes on; [v.str] is read whatever the type is. *)
Inductive gnmi_typed_value :=
  | TvString (str : string)
  | TvUint (u64 : Z)
  | TvBool (boolean : bool)
  | TvJsonIetf (str : string).
Inductive c_text := CNull | CText (s : string) | CWild.
Definition v_str (v : gnmi_typed_value) : c_text :=
  match v with
  | TvString s | TvJsonIetf s => CText s
  | TvUint u => if u =? 0 then CNull else CWild
  | TvBool b => if b then CWild else CNull
  end.
Definition strnonull (s : c_text) : c_text := match s with CNull => CText "" | s => s end.

Record gnmi_path_elem := mk_gnmi_path_elem { pe_name : string; pe_key : list (string * string) }.
Record gnmi_subscribe_update := mk_gnmi_subscribe_update {
  up_path : option (list gnmi_path_elem);
  up_val : option gnmi_typed_value }.
Record gnmi_notification := mk_gnmi_notification {
  nf_timestamp : Z;
  nf_prefix : list gnmi_path_elem;
  nf_update : list gnmi_subscribe_update }.
(** A response without an update is only a sync response. *)
Abbreviation gnmi_subscribe_response := (option gnmi_notification).

(** ** What gnma_common.c hands on *)
Record gnma_alarm := mk_gnma_alarm {
  ga_id : string;
  ga_resource : c_text;
  ga_text : c_text;
  ga_time_created : Z;
  ga_type_id : c_text;
  ga_severity : Z;
  ga_acknowledged : bool;
  ga_acknowledge_time : Z }.
#[export] Instance eta_gnma_alarm : Eta gnma_alarm := λ r,
  mk_gnma_alarm (ga_id r) (ga_resource r) (ga_text r) (ga_time_created r) (ga_type_id r) (ga_severity r)
    (ga_acknowledged r) (ga_acknowledge_time r).
Record gnma_linkstatus := mk_gnma_linkstatus { ls_timestamp : Z; ls_ifname : string; ls_up : bool }.
(** [status] and [faultcode] are 32 bytes that were zeroed. *)
Record gnma_poe_linkstatus := mk_gnma_poe_linkstatus { gp_timestamp : Z; gp_ifname : string; gp_status : string }.
Record gnma_poe_link_faultcode := mk_gnma_poe_link_faultcode {
  gf_timestamp : Z; gf_ifname : string; gf_faultcode : string }.
Record gnma_subscribe_callbacks S := mk_gnma_subscribe_callbacks {
  sc_alarm_cb : option (gnma_alarm → M S unit);
  sc_linkstatus_cb : option (gnma_linkstatus → M S unit);
  sc_poe_linkstatus_cb : option (gnma_poe_linkstatus → M S unit);
  sc_poe_link_faultcode_cb : option (gnma_poe_link_faultcode → M S unit) }.
Arguments mk_gnma_subscribe_callbacks {S}.
Arguments sc_alarm_cb {S}.
Arguments sc_linkstatus_cb {S}.
Arguments sc_poe_linkstatus_cb {S}.
Arguments sc_poe_link_faultcode_cb {S}.

Definition severity_str2int (s : c_text) : option Z :=
  match s with
  | CText s =>
      if streq "CRITICAL" s then Some 0 else if streq "MAJOR" s then Some 1
      else if streq "MINOR" s then Some 2 else if streq "WARNING" s then Some 3
      else if streq "INFORMATIONAL" s then Some 4 else None
  | _ => None
  end.

(** One update of an alarm. *)
Definition alarm_update {S} (a : gnma_alarm) (u : gnmi_subscribe_update) : M S gnma_alarm :=
  match up_path u, up_val u with
  | Some p, Some val =>
      match p with
      | [] => faulty NullDeref
      | p0 :: rest =>
          match rest with
          | [] => ret a
          | p1 :: _ =>
              if negb (streq (pe_name p0) "state") then ret a
              else if streq (pe_name p1) "text" then ret (a <| ga_text := strnonull (v_str val) |>)
              else if streq (pe_name p1) "resource" then ret (a <| ga_resource := strnonull (v_str val) |>)
              else if streq (pe_name p1) "type-id" then
                ret (match val with TvString _ => a <| ga_type_id := strnonull (v_str val) |> | _ => a end)
              else if streq (pe_name p1) "severity" then
                ret (match val with
                     | TvString _ => match severity_str2int (v_str val) with
                                     | Some s => a <| ga_severity := s |>
                                     | None => a
                                     end
                     | _ => a
                     end)
              else if streq (pe_name p1) "acknowledged" then
                ret (match val with TvBool b => a <| ga_acknowledged := b |> | _ => a end)
              else if streq (pe_name p1) "acknowledge-time" then
                ret (match val with TvUint t => a <| ga_acknowledge_time := t |> | _ => a end)
              else if streq (pe_name p1) "time-created" then
                ret (match val with TvUint t => a <| ga_time_created := t |> | _ => a end)
              else ret a
          end
      end
  | _, _ => ret a
  end.

Section notify.
Context `{J : CJson, N : !Gnmi, P : Platform}.

(** The two sides of the client: the session with the switch, the protocol
    layer; and the subscription of the platform layer.  The context of a
    subscription always holds the four callbacks of plat-gnma.c. *)
Record plat_event_callbacks := mk_plat_event_callbacks {
  pc_alarm_cb : option (plat_alarm → M world unit);
  pc_linkstatus_cb : option (Z → option string → bool → M world unit);
  pc_poe_linkstatus_cb : option (Z → option string → Z → M world unit);
  pc_poe_link_faultcode_cb : option (Z → option string → Z → M world unit) }.
Definition no_callbacks : plat_event_callbacks := mk_plat_event_callbacks None None None None.
Record stream := mk_stream {
  st_gnmi : gnmi;
  st_world : world;
  subscribe_hdl : bool;
  events_cbs : plat_event_callbacks }.
#[export] Instance eta_stream : Eta stream := λ r,
  mk_stream (st_gnmi r) (st_world r) (subscribe_hdl r) (events_cbs r).

Definition on_gnmi {A} (m : M gnmi A) : M stream A := λ s,
  match m (st_gnmi s) with
  | Ok a g => Ok a (s <| st_gnmi := g |>)
  | Err g => Err (s <| st_gnmi := g |>)
  | Fault f => Fault f
  end.
Definition on_world {A} (m : M world A) : M stream A := λ s,
  match m (st_world s) with
  | Ok a w => Ok a (s <| st_world := w |>)
  | Err w => Err (s <| st_world := w |>)
  | Fault f => Fault f
  end.
Definition call_opt {A} (cb : option (A → M stream unit)) (a : A) : M stream unit :=
  match cb with Some cb => cb a | None => ret tt end.

(** ** gnma_common.c *)

(** An alarm that is not acknowledged yet is acknowledged once the callback
    returned; the answer of the device is not looked at. *)
Definition alarm_gnmi_cb (r : gnmi_notification) (cb : option (gnma_alarm → M stream unit)) : M stream unit :=
  match nf_prefix r with
  | _ :: _ :: e :: _ =>
      match pe_key e with
      | [(k, id)] =>
          if negb (streq k "id") || streq id "" then ret tt
          else
            a ← fold_m alarm_update (nf_update r)
                  (mk_gnma_alarm id (CText "") (CText "") 0 (CText "") 0 false 0);
            if ga_acknowledged a then ret tt
            else
              _ ← call_opt cb a;
              _ ← on_gnmi (send (gnmi_gnoi_sonic_alarm_acknowledge (ga_id a)));
              ret tt
      | _ => ret tt
      end
  | _ => ret tt
  end.

(** The interface and the text of a notification about a port. *)
Definition port_text (r : gnmi_notification) : M stream (option (string * string)) :=
  match nf_prefix r with
  | _ :: e :: _ =>
      match pe_key e, nf_update r with
      | (_, ifname) :: _, u :: _ =>
          match up_val u with
          | Some (TvString text) => ret (if String.prefix "Ethernet" ifname then Some (ifname, text) else None)
          | _ => ret None
          end
      | _, _ => ret None
      end
  | _ => faulty OutOfBounds
  end.

Definition linkstatus_gnmi_cb (r : gnmi_notification) (cb : option (gnma_linkstatus → M stream unit))
    : M stream unit :=
  o ← port_text r;
  match o with
  | None => ret tt
  | Some (ifname, text) =>
      if streq "DOWN" text then call_opt cb (mk_gnma_linkstatus (nf_timestamp r) ifname false)
      else if streq "UP" text then call_opt cb (mk_gnma_linkstatus (nf_timestamp r) ifname true)
      else ret tt
  end.
Definition poe_linkstatus_gnmi_cb (r : gnmi_notification) (cb : option (gnma_poe_linkstatus → M stream unit))
    : M stream unit :=
  o ← port_text r;
  match o with
  | None => ret tt
  | Some (ifname, text) => call_opt cb (mk_gnma_poe_linkstatus (nf_timestamp r) ifname (c_strncpy 31 text))
  end.
Definition poe_link_faultcode_gnmi_cb (r : gnmi_notification)
    (cb : option (gnma_poe_link_faultcode → M stream unit)) : M stream unit :=
  o ← port_text r;
  match o with
  | None => ret tt
  | Some (ifname, text) => call_opt cb (mk_gnma_poe_link_faultcode (nf_timestamp r) ifname (c_strncpy 31 text))
  end.

Definition subscribe_gnmi_cb (cbs : gnma_subscribe_callbacks stream) (r : option gnmi_subscribe_response)
    : M stream unit :=
  match r with
  | Some (Some n) =>
      match nf_prefix n with
      | _ :: e1 :: rest =>
          if streq (pe_name e1) "alarms" then alarm_gnmi_cb n (sc_alarm_cb cbs)
          else if streq (pe_name e1) "interface" then
            match rest with
            | [] => ret tt
            | e2 :: _ =>
                if streq (pe_name e2) "state" then linkstatus_gnmi_cb n (sc_linkstatus_cb cbs)
                else
                  match nf_update n with
                  | u :: _ =>
                      match up_path u with
                      | Some (p0 :: _) =>
                          if streq (pe_name p0) "status" then poe_linkstatus_gnmi_cb n (sc_poe_linkstatus_cb cbs)
                          else if streq (pe_name p0) "fault-code" then
                            poe_link_faultcode_gnmi_cb n (sc_poe_link_faultcode_cb cbs)
                          else ret tt
                      | _ => ret tt
                      end
                  | [] => ret tt
                  end
            end
          else ret tt
      | _ => ret tt
      end
  | _ => ret tt
  end.

Definition subscription_paths : list string :=
  ["/openconfig-system:system/alarms/alarm";
   "/openconfig-interfaces:interfaces/interface[name=*]/state/oper-status";
   "/openconfig-interfaces:interfaces/interface[name=*]/openconfig-if-ethernet:ethernet/openconfig-if-poe:poe/state/openconfig-if-poe-ext:status";
   "/openconfig-interfaces:interfaces/interface[name=*]/openconfig-if-ethernet:ethernet/openconfig-if-poe:poe/state/openconfig-if-poe-ext:fault-code"].

(** The context and the subscription are two allocations; on every error both
    are given back and the handle stays what it was. *)
Definition gnma_subscribe : M stream unit :=
  _ ← on_gnmi gn_alloc_or_fail;
  _ ← on_gnmi gn_alloc_or_fail;
  _ ← for_each subscription_paths (λ path, on_gnmi (send_ok (gnmi_subscribe_add path)));
  _ ← on_gnmi (send_ok gnmi_subscribe_start);
  modify (λ s, s <| subscribe_hdl := true |>).
Definition gnma_unsubscribe : M stream unit := modify (λ s, s <| subscribe_hdl := false |>).

(** ** plat-gnma.c *)
Definition c_string (s : c_text) : M stream (option string) :=
  match s with CNull => ret None | CText s => ret (Some s) | CWild => faulty InvalidPointer end.

(** The first thing the callback of proto.c does is to print the texts. *)
Definition alarm_gnma_cb (ga : gnma_alarm) : M stream unit :=
  cbs ← gets events_cbs;
  match pc_alarm_cb cbs with
  | None => ret tt
  | Some cb =>
      resource ← c_string (ga_resource ga);
      text ← c_string (ga_text ga);
      type_id ← c_string (ga_type_id ga);
      on_world (cb (mk_plat_alarm (Some (ga_id ga)) resource text (ga_time_created ga) type_id (ga_severity ga)))
  end.

(** Nanoseconds to seconds, in C's division. *)
Definition seconds (timestamp : Z) : Z := Z.quot timestamp 1000000000.

Definition linkstatus_gnma_cb (s : gnma_linkstatus) : M stream unit :=
  cbs ← gets events_cbs;
  match pc_linkstatus_cb cbs with
  | None => ret tt
  | Some cb => on_world (cb (seconds (ls_timestamp s)) (Some (ls_ifname s)) (ls_up s))
  end.

(** The texts of SONiC with the values of the enums of ucentral-platform.h. *)
Definition poe_status_texts : list (string * Z) :=
  [("DISABLED", 0); ("SEARCHING", 1); ("DELIVERING_POWER", 2); ("OVERLOAD", 3); ("OTHER_FAULT", 4)].
Definition poe_fault_texts : list (string * Z) :=
  [("OVLO", 1); ("MPS_ABSENT", 2); ("SHORT", 3); ("OVERLOAD", 4); ("POWER_DENIED", 5); ("THERMAL_SHUTDOWN", 6);
   ("STARTUP_FAILURE", 7); ("UVLO", 8); ("HW_PIN_DISABLE", 9); ("PORT_UNDEFINED", 10); ("INTERNAL_HW_FAULT", 11);
   ("USER_SETTING", 12); ("NON_STANDARD_PD", 13); ("UNDERLOAD", 14); ("PWR_BUDGET_EXCEEDED", 15);
   ("OOR_CAPACITOR_VALUE", 16); ("CLASS_ERROR", 17)].

Definition poe_linkstatus_gnma_cb (s : gnma_poe_linkstatus) : M stream unit :=
  match table_find streq poe_status_texts (gp_status s) with
  | None => ret tt
  | Some status =>
      cbs ← gets events_cbs;
      match pc_poe_linkstatus_cb cbs with
      | None => ret tt
      | Some cb => on_world (cb (seconds (gp_timestamp s)) (Some (gp_ifname s)) status)
      end
  end.
Definition poe_link_faultcode_gnma_cb (s : gnma_poe_link_faultcode) : M stream unit :=
  if streq "NO_ERROR" (gf_faultcode s) then ret tt
  else
    match table_find streq poe_fault_texts (gf_faultcode s) with
    | None => ret tt
    | Some faultcode =>
        cbs ← gets events_cbs;
        match pc_poe_link_faultcode_cb cbs with
        | None => ret tt
        | Some cb => on_world (cb (seconds (gf_timestamp s)) (Some (gf_ifname s)) faultcode)
        end
    end.

Definition plat_callbacks : gnma_subscribe_callbacks stream :=
  mk_gnma_subscribe_callbacks (Some alarm_gnma_cb) (Some linkstatus_gnma_cb) (Some poe_linkstatus_gnma_cb)
    (Some poe_link_faultcode_gnma_cb).

(** The callbacks are stored before the subscription is made. *)
Definition plat_event_subscribe (cbs : plat_event_callbacks) : M stream unit :=
  hdl ← gets subscribe_hdl;
  if (hdl : bool) then fail
  else _ ← modify (λ s, s <| events_cbs := cbs |>); gnma_subscribe.
Definition plat_event_unsubscribe : M stream unit :=
  _ ← gnma_unsubscribe; modify (λ s, s <| events_cbs := no_callbacks |>).

(** A response of the device reaches the client while it is subscribed. *)
Definition deliver (r : option gnmi_subscribe_response) : M stream unit :=
  hdl ← gets subscribe_hdl;
  if (hdl : bool) then subscribe_gnmi_cb plat_callbacks r else ret tt.

(** The callbacks of proto.c. *)
Definition proto_callbacks : plat_event_callbacks :=
  mk_plat_event_callbacks (Some alarm_plat_cb) (Some linkstatus_plat_cb) (Some poe_linkstatus_plat_cb)
    (Some poe_link_faultcode_plat_cb).
End notify.
