(* ===== verification/GnmaSet.v ===== *)
(** * The settings of the switch as gNMI messages
      ([platform/brcm-sonic/gnma/gnma_common.c])

    Each function builds a path and an item and sends them.  It returns 0, or
    an error code with nothing left allocated; [common] is the error label.
    The DHCP relay functions leave the length of the path in [ret] on two of
    their error paths, and return it. *)

From S2P Require Import Prelude CNum CStr Bitmap Router PlatTypes Json World Gnma Gnmi.
#[local] Open Scope list_scope.

Module Common.
Section settings.
Context `{J : CJson, N : !Gnmi, L : CLibc}.

Definition vlan_name (vid : Z) : string := "Vlan" +:+ dec vid.

(** One request with an allocated path. *)
Definition set_at (path : string) (val : item) : M gnmi Z :=
  common (path ← asprintf path; _ ← gnmi_json_object_set path val; ret 0).
(** The same with a constant path or one in a local buffer. *)
Definition set_const (path : string) (val : item) : M gnmi Z :=
  common (_ ← gnmi_json_object_set path val; ret 0).
Definition del_at (path : string) : M gnmi Z :=
  common (path ← asprintf path; _ ← send_ok (gnmi_jsoni_del path); ret 0).
Definition del_const (path : string) : M gnmi Z :=
  common (_ ← send_ok (gnmi_jsoni_del path); ret 0).

(** ** The session: the environment goes before the configuration file *)
Definition env_text (env : string → option string) (name : string) (old : option string) : option string :=
  match env name with Some v => Some (c_snprintf_s 64 v) | None => old end.

Definition gnma_switch_create : M gnmi Z :=
  common (
    gnma_cfg ← gets gn_conf;
    env ← gets gn_env;
    let srv := default "127.0.0.1:8080" (env_text env "UC_GNMI_SERVER" None) in
    match env_text env "UC_GNMI_LOGIN" (string_value (get_item gnma_cfg "auth_login")),
          env_text env "UC_GNMI_PASSWD" (string_value (get_item gnma_cfg "auth_passwd")) with
    | Some login, Some passwd => _ ← send_ok (gnmi_session_create srv login passwd); ret 0
    | _, _ => fail
    end).

(** ** Ports *)
Definition gnma_port_admin_state_set (port : string) (up : bool) : M gnmi Z :=
  set_at ("/openconfig-interfaces:interfaces/interface[name=" +:+ port +:+ "]/config")
    (IObj [("openconfig-interfaces:config", IObj [("enabled", IBool up)])]).

Definition gnma_port_speed_set (port speed : string) : M gnmi Z :=
  set_at ("/sonic-port:sonic-port/PORT/PORT_LIST[ifname=" +:+ port +:+ "]")
    (IObj [("sonic-port:PORT_LIST", IArr [IObj [("ifname", IStr port); ("speed", IStr speed)]])]).

(** There is no such setting. *)
Definition gnma_port_duplex_set (port : string) (full_duplex : bool) : M gnmi Z := ret 0.

Definition authmgr_config (port leaf : string) : string :=
  "/openconfig-authmgr:authmgr/authmgr-port-config/interface[name=" +:+ port +:+ "]/config/" +:+ leaf.

Definition gnma_port_ieee8021x_pae_mode_set (port : string) (is_authenticator : bool) : M gnmi Z :=
  set_at (authmgr_config port "port-pae-role")
    (IObj [("openconfig-authmgr:port-pae-role",
            IStr (if is_authenticator then "AUTHENTICATOR" else "NONE"))]).

Definition ctrl_mode_text (mode : gnma_8021x_port_ctrl_mode) : string :=
  match mode with
  | CTRL_FORCE_AUTHORIZED => "FORCE_AUTHORIZED"
  | CTRL_FORCE_UNAUTHORIZED => "FORCE_UNAUTHORIZED"
  | CTRL_AUTO => "AUTO"
  end.
Definition gnma_port_ieee8021x_port_ctrl_set (port : string) (mode : gnma_8021x_port_ctrl_mode) : M gnmi Z :=
  set_at (authmgr_config port "port-control-mode")
    (IObj [("openconfig-authmgr:port-control-mode", IStr (ctrl_mode_text mode))]).

Definition host_mode_text (mode : gnma_8021x_port_host_mode) : string :=
  match mode with
  | HOST_MULTI_AUTH => "MULTI_AUTH"
  | HOST_MULTI_DOMAIN => "MULTI_DOMAIN"
  | HOST_MULTI_HOST => "MULTI_HOST"
  | HOST_SINGLE_HOST => "SINGLE_HOST"
  end.
Definition gnma_port_ieee8021x_port_host_mode_set (port : string) (mode : gnma_8021x_port_host_mode)
    : M gnmi Z :=
  set_at (authmgr_config port "host-control-mode")
    (IObj [("openconfig-authmgr:host-control-mode", IStr (host_mode_text mode))]).

Definition gnma_port_ieee8021x_guest_vlan_set (port : string) (vid : Z) : M gnmi Z :=
  set_at (authmgr_config port "guest-vlan-id") (IObj [("openconfig-authmgr:guest-vlan-id", INum vid)]).
Definition gnma_port_ieee8021x_unauthorized_vlan_set (port : string) (vid : Z) : M gnmi Z :=
  set_at (authmgr_config port "auth-fail-vlan-id")
    (IObj [("openconfig-authmgr:auth-fail-vlan-id", INum vid)]).

(** ** Power over Ethernet *)
Definition poe_global : string := "/sonic-poe:sonic-poe/POE/POE_LIST[id=GLOBAL]".
Definition poe_port_path (port : string) : string :=
  "/sonic-poe:sonic-poe/POE_PORT/POE_PORT_LIST[ifname=" +:+ port +:+ "]".

Definition power_mgmt_text (mode : gnma_poe_power_mgmt_mode) : string :=
  match mode with
  | POWER_MGMT_CLASS => "CLASS"
  | POWER_MGMT_DYNAMIC => "DYNAMIC"
  | POWER_MGMT_DYNAMIC_PRIORITY => "DYNAMIC_PRI"
  | POWER_MGMT_STATIC => "STATIC"
  | POWER_MGMT_STATIC_PRIORITY => "STATIC_PRI"
  end.
Definition gnma_poe_power_mgmt_set (mode : gnma_poe_power_mgmt_mode) : M gnmi Z :=
  set_at (poe_global +:+ "/power_management_model")
    (IObj [("sonic-poe:power_management_model", IStr (power_mgmt_text mode))]).

Definition gnma_poe_usage_threshold_set (power_threshold : Z) : M gnmi Z :=
  set_at poe_global
    (IObj [("sonic-poe:POE_LIST",
            IArr [IObj [("id", IStr "GLOBAL"); ("power_usage_threshold", INum power_threshold)]])]).

Definition gnma_poe_port_admin_mode_set (port : string) (enabled : bool) : M gnmi Z :=
  set_at (poe_port_path port +:+ "/admin_mode") (IObj [("sonic-poe:admin_mode", IBool enabled)]).

Definition detection_text (mode : gnma_poe_port_detection_mode) : string :=
  match mode with
  | DETECTION_2PT_DOT3AF => "TWO_PT_DOT3AF"
  | DETECTION_2PT_DOT3AF_LEG => "TWO_PT_DOT3AF_LEG"
  | DETECTION_4PT_DOT3AF => "FOUR_PT_DOT3AF"
  | DETECTION_4PT_DOT3AF_LEG => "FOUR_PT_DOT3AF_LEG"
  | DETECTION_DOT3BT => "DOT3BT"
  | DETECTION_DOT3BT_LEG => "DOT3BT_LEG"
  | DETECTION_LEG => "LEGACY"
  end.
Definition gnma_poe_port_detection_mode_set (port : string) (mode : gnma_poe_port_detection_mode) : M gnmi Z :=
  set_at (poe_port_path port +:+ "/detection_mode")
    (IObj [("sonic-poe:detection_mode", IStr (detection_text mode))]).

Definition gnma_poe_port_power_limit_set (port : string) (user_defined : bool) (power_limit : Z) : M gnmi Z :=
  set_at (poe_port_path port)
    (IObj [("sonic-poe:POE_PORT_LIST",
       IArr [IObj ([("power_limit_type", IStr (if user_defined then "USER" else "CLASS_BASED"));
                    ("ifname", IStr port)] ++
                   (if user_defined then [("power_limit", INum power_limit)] else []))])]).

Definition priority_text (p : gnma_poe_port_priority) : string :=
  match p with
  | PRIORITY_LOW => "LOW" | PRIORITY_MEDIUM => "MEDIUM"
  | PRIORITY_HIGH => "HIGH" | PRIORITY_CRITICAL => "CRITICAL"
  end.
Definition gnma_poe_port_priority_set (port : string) (priority : gnma_poe_port_priority) : M gnmi Z :=
  set_at (poe_port_path port +:+ "/priority") (IObj [("sonic-poe:priority", IStr (priority_text priority))]).

Definition gnma_poe_port_reset (port : string) : M gnmi Z := send (gnmi_gnoi_poe_port_reset port).

(** ** VLANs: what enters a change is a part of one request *)
Definition gnma_vlan_remove (vid : Z) : M gnmi Z :=
  del_at ("/sonic-vlan:sonic-vlan/VLAN/VLAN_LIST[name=" +:+ vlan_name vid +:+ "]").

Definition vlan_item (vid : Z) : item := IObj [("vlanid", INum vid); ("name", IStr (vlan_name vid))].
Definition member_item (vid : Z) (port : string) (tagged : bool) : item :=
  IObj [("name", IStr (vlan_name vid)); ("ifname", IStr port);
        ("tagging_mode", IStr (if tagged then "tagged" else "untagged"))].

Definition gnma_vlan_create (vid : Z) : M gnmi rq_op :=
  path ← asprintf "/sonic-vlan:sonic-vlan/VLAN/VLAN_LIST";
  gnmi_setrq_add_object_update path
    (IObj [("sonic-vlan:VLAN_LIST", IArr [vlan_item vid])]).

Definition gnma_vlan_member_remove (vid : Z) (port : string) : M gnmi rq_op :=
  path ← asprintf ("/sonic-vlan:sonic-vlan/VLAN_MEMBER/VLAN_MEMBER_LIST[name=" +:+ vlan_name vid +:+
                   "][ifname=" +:+ port +:+ "]");
  ret (RqDelete path).

Definition gnma_vlan_member_create (vid : Z) (port : string) (tagged : bool) : M gnmi rq_op :=
  path ← asprintf "/sonic-vlan:sonic-vlan/VLAN_MEMBER/VLAN_MEMBER_LIST";
  gnmi_setrq_add_object_update path
    (IObj [("sonic-vlan:VLAN_MEMBER_LIST", IArr [member_item vid port tagged])]).

Definition gnma_change_exec (rq : list rq_op) : M gnmi Z := send (gnmi_setrq_execute rq).

(** ** Addresses of VLANs and ports *)
Definition address_items (prefs : list gnma_ip_prefix) : list item :=
  (λ p, IObj [("ip", IStr (inet_ntop (gp_addr p)));
              ("config", IObj [("ip", IStr (inet_ntop (gp_addr p))); ("prefix-length", INum (gp_len p))])])
  <$> prefs.

Definition gnma_vlan_erif_attr_pref_update (vid : Z) (prefs : list gnma_ip_prefix) : M gnmi Z :=
  common (_ ← fail_if (existsb gp_v6 prefs);
    set_const ("/openconfig-interfaces:interfaces/interface[name=" +:+ vlan_name vid +:+
               "]/openconfig-vlan:routed-vlan")
      (IObj [("openconfig-interfaces:routed-vlan", IObj [("openconfig-if-ip:ipv4",
         IObj [("addresses", IObj [("address", IArr (address_items prefs))])])])])).

Definition gnma_vlan_erif_attr_pref_delete (vid : Z) (pref : gnma_ip_prefix) : M gnmi Z :=
  common (_ ← fail_if (gp_v6 pref);
    del_const ("/openconfig-interfaces:interfaces/interface[name=" +:+ vlan_name vid +:+
      "]/openconfig-vlan:routed-vlan/openconfig-if-ip:ipv4/addresses/address[ip=" +:+
      inet_ntop (gp_addr pref) +:+ "]")).

Definition gnma_portl2_erif_attr_pref_update (port : string) (prefs : list gnma_ip_prefix) : M gnmi Z :=
  common (_ ← fail_if (existsb gp_v6 prefs);
    set_const ("/openconfig-interfaces:interfaces/interface[name=" +:+ port +:+
               "]/subinterfaces/subinterface")
      (IObj [("openconfig-interfaces:subinterface", IArr [IObj [("index", INum 0);
         ("openconfig-if-ip:ipv4",
            IObj [("addresses", IObj [("address", IArr (address_items prefs))])])]])])).

Definition gnma_portl2_erif_attr_pref_delete (port : string) (pref : gnma_ip_prefix) : M gnmi Z :=
  common (_ ← fail_if (gp_v6 pref);
    del_const ("/openconfig-interfaces:interfaces/interface[name=" +:+ port +:+
      "]/subinterfaces/subinterface[index=0]/openconfig-if-ip:ipv4/addresses/address[ip=" +:+
      inet_ntop (gp_addr pref) +:+ "]")).

(** ** DHCP relay *)
Definition relay_path (vid : Z) (rest : string) : string :=
  "/openconfig-relay-agent:relay-agent/dhcp/interfaces/interface[id=" +:+ vlan_name vid +:+ "]/" +:+ rest.

(** When the root cannot be created, and when the message is refused, [ret] is
    still what [asprintf] returned. *)
Definition relay_set (path : string) (val : item) : M gnmi Z :=
  common (
    gpath ← asprintf path;
    ok ← gn_alloc;
    if negb ok then ret (slen gpath)
    else
      j ← fill val;
      sent ← attempt (gnmi_json_send gpath j);
      ret (if (sent : bool) then 0 else slen gpath)).

Definition gnma_vlan_dhcp_relay_server_add (vid ip : Z) : M gnmi Z :=
  relay_set (relay_path vid "config/helper-address")
    (IObj [("openconfig-relay-agent:helper-address", IArr [IStr (inet_ntop ip)])]).
Definition gnma_vlan_dhcp_relay_server_remove (vid ip : Z) : M gnmi Z :=
  del_at (relay_path vid ("config/helper-address[helper-address=" +:+ inet_ntop ip +:+ "]")).

Definition circuit_id_text (id : gnma_dhcp_relay_circuit_id) : string :=
  match id with CIRCUIT_ID_H_P => "%h:%p" | CIRCUIT_ID_I => "%i" | CIRCUIT_ID_P => "%p" end.
Definition gnma_vlan_dhcp_relay_ciruit_id_set (vid : Z) (id : gnma_dhcp_relay_circuit_id) : M gnmi Z :=
  relay_set (relay_path vid "agent-information-option/config/circuit-id")
    (IObj [("openconfig-relay-agent:circuit-id", IStr (circuit_id_text id))]).

Definition policy_text (act : gnma_dhcp_relay_policy_action) : string :=
  match act with
  | POLICY_ACTION_DISCARD => "DISCARD" | POLICY_ACTION_APPEND => "APPEND" | POLICY_ACTION_REPLACE => "REPLACE"
  end.
Definition gnma_vlan_dhcp_relay_policy_action_set (vid : Z) (act : gnma_dhcp_relay_policy_action) : M gnmi Z :=
  relay_set (relay_path vid "config/openconfig-relay-agent-ext:policy-action")
    (IObj [("openconfig-relay-agent-ext:policy-action", IStr (policy_text act))]).
Definition gnma_vlan_dhcp_relay_max_hop_cnt_set (vid max_hop_cnt : Z) : M gnmi Z :=
  relay_set (relay_path vid "config/openconfig-relay-agent-ext:max-hop-count")
    (IObj [("openconfig-relay-agent-ext:max-hop-count", INum max_hop_cnt)]).
(** ** Routes

    An IPv6 prefix goes to the label that deletes [root] before anything was
    stored in it. *)
Definition prefix_text (p : gnma_ip_prefix) : string := inet_ntop (gp_addr p) +:+ "/" +:+ dec_signed (gp_len p).

Definition route_items (attr : gnma_route_attrs) : list (string * item) :=
  match attr with
  | GNMA_ROUTE_TYPE_BLACKHOLE => [("blackhole", IStr "true,false")]
  | GNMA_ROUTE_TYPE_CONNECTED vid => [("ifname", IStr (vlan_name vid))]
  | GNMA_ROUTE_TYPE_NEXTHOP vid gw => [("ifname", IStr (vlan_name vid)); ("nexthop", IStr (inet_ntop gw))]
  end.

Definition route_item (prefix : gnma_ip_prefix) (attr : gnma_route_attrs) : item :=
  IObj ([("prefix", IStr (prefix_text prefix)); ("vrf-name", IStr "default")] ++ route_items attr).

Definition gnma_route_create (prefix : gnma_ip_prefix) (attr : gnma_route_attrs) : M gnmi Z :=
  if gp_v6 prefix then faulty Uninitialised
  else
    set_const "/sonic-static-route:sonic-static-route/"
      (IObj [("sonic-static-route:sonic-static-route", IObj [("STATIC_ROUTE",
         IObj [("STATIC_ROUTE_LIST",
           IArr [route_item prefix attr])])])]).

Definition gnma_route_remove (prefix : gnma_ip_prefix) : M gnmi Z :=
  common (_ ← fail_if (gp_v6 prefix);
    del_const ("/sonic-static-route:sonic-static-route/STATIC_ROUTE/STATIC_ROUTE_LIST[prefix=" +:+
               prefix_text prefix +:+ "][vrf-name=default]")).

(** ** Spanning tree *)
Definition stp_mode_items (mode : gnma_stp_mode) : option (list (string * item)) :=
  match mode with
  | GNMA_STP_MODE_PVST =>
      Some [("mode", IStr "pvst"); ("portfast", IBool false); ("rootguard_timeout", INum 30)]
  | GNMA_STP_MODE_RPVST =>
      Some [("mode", IStr "rpvst"); ("loop_guard", IBool false); ("rootguard_timeout", INum 30)]
  | GNMA_STP_MODE_MST => Some [("mode", IStr "mst"); ("loop_guard", IBool false)]
  | GNMA_STP_MODE_NONE => None
  end.

(** The answer to the delete is not looked at: it is the whole of switching
    spanning tree off. *)
Definition gnma_stp_mode_set (mode : gnma_stp_mode) (attr : option gnma_stp_attr) : M gnmi Z :=
  common (
    _ ← send (gnmi_jsoni_del "/sonic-spanning-tree:sonic-spanning-tree/STP/STP_LIST[keyleaf=GLOBAL]");
    match stp_mode_items mode, attr with
    | None, _ => ret 0
    | Some _, None => fail
    | Some items, Some attr =>
        set_const "/sonic-spanning-tree:sonic-spanning-tree/STP/STP_LIST"
          (IObj [("sonic-spanning-tree:STP_LIST",
             IArr [IObj ([("priority", INum (sa_priority attr)); ("keyleaf", IStr "GLOBAL");
                          ("bpdu_filter", IBool false)] ++ items)])])
    end).

Definition stp_list (name list_name : string) (items : list item) : item :=
  IObj [(name, IObj [(list_name, IArr items)])].

Definition gnma_stp_port_set (ports : list (string * bool)) : M gnmi Z :=
  set_const "/sonic-spanning-tree:sonic-spanning-tree/STP_PORT"
    (stp_list "sonic-spanning-tree:STP_PORT" "STP_PORT_LIST"
       ((λ p : string * bool, IObj [("ifname", IStr p.1); ("enabled", IBool p.2)]) <$> ports)).
Definition gnma_stp_ports_enable (ports : list string) : M gnmi Z :=
  set_const "/sonic-spanning-tree:sonic-spanning-tree/STP_PORT"
    (stp_list "sonic-spanning-tree:STP_PORT" "STP_PORT_LIST"
       ((λ p : string, IObj [("ifname", IStr p); ("enabled", IBool true)]) <$> ports)).

Definition gnma_stp_instance_set (inst prio : Z) (vids : list Z) : M gnmi Z :=
  set_const "/sonic-spanning-tree:sonic-spanning-tree/STP_MST_INST"
    (stp_list "sonic-spanning-tree:STP_MST_INST" "STP_MST_INST_LIST"
       [IObj [("instance", INum inst); ("bridge_priority", INum prio);
              ("vlan", IArr ((λ v, IStr (dec v)) <$> vids))]]).

Definition stp_vlan_set (items : list item) : M gnmi Z :=
  set_const "/sonic-spanning-tree:sonic-spanning-tree/STP_VLAN"
    (stp_list "sonic-spanning-tree:STP_VLAN" "STP_VLAN_LIST" items).
Definition gnma_stp_vids_set (vids : list Z) (enable : bool) : M gnmi Z :=
  stp_vlan_set ((λ v, IObj [("name", IStr (vlan_name v)); ("enabled", IBool enable)]) <$> vids).
Definition gnma_stp_vid_enable (vid : Z) (attr : gnma_stp_attr) : M gnmi Z :=
  stp_vlan_set [IObj [("name", IStr (vlan_name vid)); ("enabled", IBool true);
    ("priority", INum (sa_priority attr)); ("forward_delay", INum (sa_forward_delay attr));
    ("hello_time", INum (sa_hello_time attr)); ("max_age", INum (sa_max_age attr))]].
(** The result is not looked at. *)
Definition gnma_stp_vid_disable (vid : Z) : M gnmi Z := _ ← gnma_stp_vids_set [vid] false; ret 0.
Definition gnma_stp_vid_set (vid : Z) (attr : gnma_stp_attr) : M gnmi Z :=
  if sa_enabled attr then gnma_stp_vid_enable vid attr else gnma_stp_vid_disable vid.

(** ** IEEE 802.1X, dynamic authorisation and RADIUS *)
Definition gnma_ieee8021x_system_auth_control_set (is_enabled : bool) : M gnmi Z :=
  set_at "/openconfig-hostapd:hostapd/hostapd-global-config/config/dot1x-system-auth-control"
    (IObj [("openconfig-hostapd:dot1x-system-auth-control", IBool is_enabled)]).

Definition das_config : string := "/openconfig-das:das/das-global-config-table/config/".
Definition gnma_ieee8021x_das_bounce_port_ignore_set (b : bool) : M gnmi Z :=
  set_const (das_config +:+ "ignore-bounce-port") (IObj [("openconfig-das:ignore-bounce-port", IBool b)]).
Definition gnma_ieee8021x_das_disable_port_ignore_set (b : bool) : M gnmi Z :=
  set_const (das_config +:+ "ignore-disable-port") (IObj [("openconfig-das:ignore-disable-port", IBool b)]).
Definition gnma_ieee8021x_das_ignore_server_key_set (b : bool) : M gnmi Z :=
  set_const (das_config +:+ "ignore-server-key") (IObj [("openconfig-das:ignore-server-key", IBool b)]).
Definition gnma_ieee8021x_das_ignore_session_key_set (b : bool) : M gnmi Z :=
  set_const (das_config +:+ "ignore-session-key") (IObj [("openconfig-das:ignore-session-key", IBool b)]).

Definition auth_type_text (t : das_auth_type) : string :=
  match t with DAS_ANY => "ANY" | DAS_ALL => "ALL" | DAS_SESSION_KEY => "SESSION_KEY" end.
Definition gnma_ieee8021x_das_auth_type_key_set (auth_type : das_auth_type) : M gnmi Z :=
  set_const "/openconfig-das:das/das-global-config-table/state/das-auth-type"
    (IObj [("openconfig-das:das-auth-type", IStr (auth_type_text auth_type))]).

Definition das_clients : string :=
  "/openconfig-das:das/das-client-config-table/das-client-config-table-entry".
Definition secret (name passkey : string) : list (string * item) :=
  if streq passkey EmptyString then [] else [(name, IStr passkey)].

Definition gnma_ieee8021x_das_dac_host_add (host passkey : string) : M gnmi Z :=
  set_at das_clients
    (IObj [("openconfig-das:das-client-config-table-entry",
       IArr [IObj [("config", IObj ([("encrypted", IBool false); ("clientaddress", IStr host)] ++
                                    secret "server-key" passkey));
                   ("clientaddress", IStr host)]])]).
Definition gnma_ieee8021x_das_dac_host_remove (host : string) : M gnmi Z :=
  del_at (das_clients +:+ "[clientaddress=" +:+ host +:+ "]/").

Definition gnma_radius_host_add (host passkey : string) (auth_port prio : Z) : M gnmi Z :=
  set_at "/openconfig-system:system/aaa/server-groups/server-group[name=RADIUS]/servers"
    (IObj [("openconfig-system:servers", IObj [("server",
       IArr [IObj [("config", IObj [("priority", INum prio)]); ("address", IStr host);
         ("radius", IObj [("config",
            IObj ([("auth-port", INum auth_port); ("openconfig-aaa-radius-ext:encrypted", IBool false)] ++
                  secret "secret-key" passkey))])]])])]).
(** The path is the one of the dynamic authorisation clients. *)
Definition gnma_radius_host_remove (host : string) : M gnmi Z :=
  del_at (das_clients +:+ "[clientaddress=" +:+ host +:+ "]/").

(** ** System *)
Definition gnma_system_password_set (password : string) : M gnmi Z :=
  set_const "/openconfig-system:system/aaa/authentication/users/user[username=admin]/config/password"
    (IObj [("role", IStr "admin"); ("password", IStr password)]).

Definition syslog_path : string :=
  "/sonic-system-logging:sonic-system-logging/SYSLOG_SERVER/SYSLOG_SERVER_LIST".
Definition gnma_syslog_cfg_clear : M gnmi Z := del_const syslog_path.
Definition syslog_entry (c : gnma_syslog_cfg) : item :=
  let text key (o : option string) := match o with Some s => [(key, IStr s)] | None => [] end in
  IObj ([("ipaddress", IStr (sl_ipaddress c))] ++
        (if 0 <=? sl_remote_port c then [("remote-port", INum (sl_remote_port c))] else []) ++
        text "severity" (sl_severity c) ++ text "message-type" (sl_message_type c) ++
        text "src_intf" (sl_src_intf c) ++ text "vrf_name" (sl_vrf_name c)).
Definition gnma_syslog_cfg_set (cfg : list gnma_syslog_cfg) : M gnmi Z :=
  set_const syslog_path
    (IObj [("sonic-system-logging:SYSLOG_SERVER_LIST", IArr (syslog_entry <$> cfg))]).

Definition gnma_config_save : M gnmi Z :=
  send (gnmi_gnoi_sonic_copy_replace "running-configuration" "startup-configuration").
Definition gnma_config_restore : M gnmi Z :=
  send (gnmi_gnoi_sonic_copy_replace "startup-configuration" "running-configuration").
Definition gnma_reboot : M gnmi Z := send gnmi_gnoi_system_reboot.

(** When the reboot fails the erase is taken back, as far as that works. *)
Definition gnma_factory_default : M gnmi Z :=
  common (
    _ ← send_ok gnmi_gnoi_sonic_cfg_erase_boot;
    rc ← send gnmi_gnoi_system_reboot;
    if rc =? 0 then ret 0
    else _ ← send gnmi_gnoi_sonic_cfg_erase_boot_cancel; fail).

Definition gnma_image_install (uri : string) : M gnmi Z :=
  common (_ ← send_ok (gnmi_gnoi_image_install uri); ret 0).

(** ** IGMP *)
Definition igmp_config (vid : Z) : string :=
  "/openconfig-interfaces:interfaces/interface[name=" +:+ vlan_name vid +:+
  "]/subinterfaces/subinterface[index=0]/openconfig-if-ip:ipv4/openconfig-igmp-ext:igmp".
Definition igmp_snooping : string :=
  "/openconfig-network-instance:network-instances/network-instance[name=default]/protocols/protocol[identifier=IGMP_SNOOPING][name=IGMP-SNOOPING]/openconfig-network-instance-deviation:igmp-snooping".
Definition igmp_interface (vid : Z) : string :=
  igmp_snooping +:+ "/interfaces/interface[name=" +:+ vlan_name vid +:+ "]".

(** Paths fit the buffer of 256 characters; the results are not looked at. *)
Definition gnma_igmp_disable (vid : Z) : M gnmi Z :=
  _ ← send (gnmi_jsoni_del (igmp_config vid));
  _ ← send (gnmi_jsoni_del (igmp_interface vid +:+ "/staticgrps"));
  _ ← send (gnmi_jsoni_del (igmp_interface vid));
  ret 0.

Definition version_items (v : gnma_igmp_version) : list (string * item) :=
  match v with
  | GNMA_IGMP_NA => []
  | GNMA_IGMP_1 => [("version", INum 1)]
  | GNMA_IGMP_2 => [("version", INum 2)]
  | GNMA_IGMP_3 => [("version", INum 3)]
  end.

(** [root] is not deleted on any path. *)
Definition gnma_ip_igmp_set (vid : Z) (attr : gnma_igmp_snoop_attr) : M gnmi Z :=
  set_at (igmp_config vid)
    (IObj [("openconfig-igmp-ext:igmp", IObj [("config",
       IObj (("enabled", IBool (sn_querier_enabled attr)) ::
             if sn_querier_enabled attr
             then [("query-interval", INum (sn_query_interval attr));
                   ("query-max-response-time", INum (sn_max_response_time attr));
                   ("last-member-query-interval", INum (sn_last_member_query_interval attr))] ++
                  version_items (sn_version attr)
             else []))])]).

(** The tree down to the interface, with more members of its configuration and
    of itself. *)
Definition igmp_root (vid : Z) (config extra : list (string * item)) : item :=
  IObj [("openconfig-network-instance-deviation:igmp-snooping", IObj [("interfaces",
    IObj [("interface", IArr [IObj ([("config", IObj (("name", IStr (vlan_name vid)) :: config));
                                     ("name", IStr (vlan_name vid))] ++ extra)])])])].

(** [ret] is 0 from the allocation of the root on: when a later member of the
    configuration cannot be added, nothing is sent and 0 is returned. *)
Definition gnma_igmp_snooping_set (vid : Z) (attr : gnma_igmp_snoop_attr) : M gnmi Z :=
  if negb (sn_enabled attr || sn_querier_enabled attr) then
    _ ← gnma_igmp_disable vid; ret 0
  else
    rc ← gnma_ip_igmp_set vid attr;
    if negb (rc =? 0) then ret rc
    else common (
      let more := if sn_enabled attr
                  then ("fast-leave", IBool (sn_fast_leave_enabled attr)) :: version_items (sn_version attr)
                  else [] in
      let config := [("enabled", IBool (sn_enabled attr)); ("querier", IBool (sn_querier_enabled attr))] in
      let root := igmp_root vid (config ++ more) [] in
      _ ← fail_if (4096 <=? vid);
      _ ← allocs (nodes (igmp_root vid config []));
      ok ← attempt (allocs (length more));
      if negb ok then ret 0
      else _ ← gnmi_json_send igmp_snooping (json_of root); ret 0).

Definition igmp_group_item (g : Z * list string) : item :=
  IObj [("group", IStr (inet_ntop g.1)); ("source-addr", IStr "0.0.0.0");
        ("config", IObj [("outgoing-interface", IArr (IStr <$> g.2))])].
Definition gnma_igmp_static_groups_set (vid : Z) (groups : list (Z * list string)) : M gnmi Z :=
  common (
    _ ← fail_if (4096 <=? vid);
    set_const igmp_snooping
      (igmp_root vid []
         [("staticgrps", IObj [("static-multicast-group", IArr (igmp_group_item <$> groups))])])).
End settings.
End Common.
