(* ===== verification/GnmaGet.v ===== *)
(** * What the switch answers ([platform/brcm-sonic/gnma/gnma_common.c])

    Each function asks for the text at a path, parses it and stores what it
    finds in its output parameter; [old] is what that holds before.  Many leave
    it untouched and return 0 when the document has not the expected shape.
    The list functions get the room there is and return the number of entries
    with those that were stored. *)

From S2P Require Import Prelude CNum CStr Bitmap Router PlatTypes ProtoConv Json World Gnma Gnmi GnmaSet.
#[local] Open Scope list_scope.

Module Query.
Import Common.
Section queries.
Context `{J : CJson, N : !Gnmi, L : CLibc, T : CTarget}.

(** The item [key] of the document at an allocated path. *)
Definition leaf_at (path key : string) : M gnmi (option json) :=
  path ← asprintf path;
  root ← gnmi_get_json path;
  ret (get_item (Some root) key).

(** A text that names a value: unknown texts are an error, a missing one is
    not. *)
Definition named {A} (old : A) (path key : string) (value : string → option A) : M gnmi (Z * A) :=
  common_out old (
    o ← leaf_at path key;
    match string_value o with
    | None => ret (0, old)
    | Some s => match value s with Some a => ret (0, a) | None => fail end
    end).

Definition first_of {A} (text : A → string) (l : list A) (s : string) : option A :=
  snd <$> list_find (λ a, text a = s) l.

(** ** IEEE 802.1X of a port *)
Definition authmgr_state (port leaf : string) : string :=
  "/openconfig-authmgr:authmgr/authmgr-port-config/interface[name=" +:+ port +:+ "]/state/" +:+ leaf.

Definition gnma_port_ieee8021x_pae_mode_get (port : string) (old : bool) : M gnmi (Z * bool) :=
  named old (authmgr_state port "port-pae-role") "openconfig-authmgr:port-pae-role"
    (λ s, Some (streq s "AUTHENTICATOR")).

Definition gnma_port_ieee8021x_port_host_mode_get (port : string) (old : gnma_8021x_port_host_mode)
    : M gnmi (Z * gnma_8021x_port_host_mode) :=
  named old (authmgr_state port "host-control-mode") "openconfig-authmgr:host-control-mode"
    (first_of host_mode_text [HOST_MULTI_AUTH; HOST_MULTI_DOMAIN; HOST_MULTI_HOST; HOST_SINGLE_HOST]).

(** Every other text is the automatic mode. *)
Definition gnma_port_ieee8021x_port_ctrl_get (port : string) (old : gnma_8021x_port_ctrl_mode)
    : M gnmi (Z * gnma_8021x_port_ctrl_mode) :=
  named old (authmgr_state port "port-control-mode") "openconfig-authmgr:port-control-mode"
    (λ s, Some (if streq s "FORCE_AUTHORIZED" then CTRL_FORCE_AUTHORIZED
                else if streq s "FORCE_UNAUTHORIZED" then CTRL_FORCE_UNAUTHORIZED else CTRL_AUTO)).

(** A number; a missing one leaves [old] and is no error. *)
Definition number_at (w : Z) (old : Z) (path key : string) : M gnmi (Z * Z) :=
  common_out old (
    o ← leaf_at path key;
    ret (0, if is_number o then d2u w (number_value o) else old)).

Definition gnma_port_ieee8021x_guest_vlan_get (port : string) (old : Z) : M gnmi (Z * Z) :=
  number_at 16 old (authmgr_state port "guest-vlan-id") "openconfig-authmgr:guest-vlan-id".
Definition gnma_port_ieee8021x_unauthorized_vlan_get (port : string) (old : Z) : M gnmi (Z * Z) :=
  number_at 16 old (authmgr_state port "auth-fail-vlan-id") "openconfig-authmgr:auth-fail-vlan-id".

(** ** Power over Ethernet *)
Definition gnma_poe_power_mgmt_get (old : gnma_poe_power_mgmt_mode) : M gnmi (Z * gnma_poe_power_mgmt_mode) :=
  named old (poe_global +:+ "/power_management_model") "sonic-poe:power_management_model"
    (first_of power_mgmt_text [POWER_MGMT_CLASS; POWER_MGMT_DYNAMIC; POWER_MGMT_DYNAMIC_PRIORITY;
                               POWER_MGMT_STATIC; POWER_MGMT_STATIC_PRIORITY]).
Definition gnma_poe_usage_threshold_get (old : Z) : M gnmi (Z * Z) :=
  number_at 8 old (poe_global +:+ "/power_usage_threshold") "sonic-poe:power_usage_threshold".

Definition gnma_poe_port_admin_mode_get (port : string) (old : bool) : M gnmi (Z * bool) :=
  common_out old (
    o ← leaf_at (poe_port_path port +:+ "/admin_mode") "sonic-poe:admin_mode";
    ret (0, if is_bool o then is_true o else old)).

Definition gnma_poe_port_detection_mode_get (port : string) (old : gnma_poe_port_detection_mode)
    : M gnmi (Z * gnma_poe_port_detection_mode) :=
  named old (poe_port_path port +:+ "/detection_mode") "sonic-poe:detection_mode"
    (first_of detection_text [DETECTION_2PT_DOT3AF; DETECTION_2PT_DOT3AF_LEG; DETECTION_4PT_DOT3AF;
       DETECTION_4PT_DOT3AF_LEG; DETECTION_DOT3BT; DETECTION_DOT3BT_LEG; DETECTION_LEG]).

Definition gnma_poe_port_power_limit_get (port : string) (old : bool * Z) : M gnmi (Z * (bool * Z)) :=
  common_out old (
    arr ← leaf_at (poe_port_path port) "sonic-poe:POE_PORT_LIST";
    let port := array_item arr 0 in
    let limit := get_item port "power_limit" in
    if negb (is_array arr) || negb (is_object port) then ret (0, old)
    else match string_value (get_item port "power_limit_type") with
    | Some str =>
        if negb (is_number limit) then ret (0, old)
        else ret (0, if streq str "CLASS_BASED" then (false, 0) else (true, d2u 32 (number_value limit)))
    | None => ret (0, old)
    end).

Definition gnma_poe_port_priority_get (port : string) (old : gnma_poe_port_priority)
    : M gnmi (Z * gnma_poe_port_priority) :=
  named old (poe_port_path port +:+ "/priority") "sonic-poe:priority"
    (first_of priority_text [PRIORITY_LOW; PRIORITY_MEDIUM; PRIORITY_HIGH; PRIORITY_CRITICAL]).

(** ** Names of ports *)
Definition GNMA_PORT_KEY_LEN : Z := 32.

(** The names stored so far, and the 16-bit count; a name that is missing or
    too long ends it. *)
Fixpoint port_names (size : Z) (items : list json) (num : Z) (names : list string)
    : list string * option Z :=
  match items with
  | [] => (names, Some num)
  | iter :: items =>
      match string_value (get_item (Some iter) "ifname") with
      | None => (names, None)
      | Some name =>
          if GNMA_PORT_KEY_LEN <=? slen name then (names, None)
          else
            let names := if num <? size
                         then take (Z.to_nat num) names ++ name :: drop (S (Z.to_nat num)) names
                         else names in
            port_names size items (wrap 16 (num + 1)) names
      end
  end.

(** [total] is the length the code compares with the room. *)
Definition port_list (size : Z) (arr : option json) (total : Z → Z) : Z * (Z * list string) :=
  if negb (is_array arr) then (0, (0, []))
  else match port_names size (for_each_child arr) 0 [] with
  | (names, None) => (GNMA_ERR_COMMON, (size, names))
  | (names, Some num) =>
      ((if size <? total num then GNMA_ERR_OVERFLOW else 0), (wrap 16 (total num), names))
  end.

Definition gnma_port_list_get (size : Z) : M gnmi (Z * (Z * list string)) :=
  common_out (size, []) (
    root ← gnmi_get_json "/sonic-port:sonic-port/PORT/PORT_LIST";
    ret (port_list size (get_item (Some root) "sonic-port:PORT_LIST") (λ num, num))).
(** Here the size of the array is compared, not the count. *)
Definition gnma_poe_port_list_get (size : Z) : M gnmi (Z * (Z * list string)) :=
  common_out (size, []) (
    arr ← leaf_at "/sonic-poe:sonic-poe/POE_PORT/POE_PORT_LIST" "sonic-poe:POE_PORT_LIST";
    ret (port_list size arr (λ _, array_size arr))).

(** ** VLANs *)
Definition set_member (vid pid : Z) (tagged : bool) (m : gmap Z vlan_bmap) : gmap Z vlan_bmap :=
  let b := default zero_vlan_bmap (m !! vid) in
  <[vid := mk_vlan_bmap ({[pid]} ∪ port_member b)
             (if tagged then {[pid]} ∪ port_tagged b else port_tagged b)]> m.

Fixpoint vlan_members (items : list json) (m : gmap Z vlan_bmap) : Z * gmap Z vlan_bmap :=
  match items with
  | [] => (0, m)
  | member :: items =>
      match string_value (get_item (Some member) "name") with
      | None => (GNMA_ERR_COMMON, m)
      | Some vlan_name =>
      match sscanf_lit_u 16 "Vlan" vlan_name with
      | SConv vid =>
          let tagged := get_item (Some member) "tagging_mode" in
          match string_value (get_item (Some member) "ifname") with
          | None => (GNMA_ERR_COMMON, m)
          | Some member_name =>
              if negb (is_string tagged) then (GNMA_ERR_COMMON, m)
              else match sscanf_lit_u 16 "Ethernet" member_name with
              | SConv pid =>
                  if (GNMA_MAX_VLANS <=? vid) || (GNMA_MAX_PORT_ID <=? pid) then (GNMA_ERR_COMMON, m)
                  else vlan_members items
                         (set_member vid pid (bool_decide (string_value tagged = Some "tagged")) m)
              | _ => vlan_members items m
              end
          end
      | _ => vlan_members items m
      end
      end
  end.

Definition gnma_vlan_member_bmap_get (old : gmap Z vlan_bmap) : M gnmi (Z * gmap Z vlan_bmap) :=
  common_out old (
    root ← gnmi_get_json "/sonic-vlan:sonic-vlan/VLAN_MEMBER/VLAN_MEMBER_LIST";
    let arr := get_item (Some root) "sonic-vlan:VLAN_MEMBER_LIST" in
    ret (if negb (is_array arr) then (0, old) else vlan_members (for_each_child arr) old)).

Definition gnma_vlan_list_get (old : gset Z) : M gnmi (Z * gset Z) :=
  common_out old (
    root ← gnmi_get_json "/sonic-vlan:sonic-vlan/VLAN/VLAN_LIST";
    let arr := get_item (Some root) "sonic-vlan:VLAN_LIST" in
    if non_null arr && negb (is_array arr) then fail
    else
      ret (0, fold_left (λ vlans vlan,
                let vid := d2u 16 (number_value (get_item (Some vlan) "vlanid")) in
                if vid <? GNMA_MAX_VLANS then {[vid]} ∪ vlans else vlans)
              (for_each_child arr) old)).
(** ** Addresses *)

(** The entries with an address and a length that can be. *)
Definition address_of (entry : json) : option gnma_ip_prefix :=
  let config := get_item (Some entry) "config" in
  match string_value (get_item config "ip") with
  | None => None
  | Some text =>
      let '(rc, addr) := inet_pton text in
      let len := d2s 32 (number_value (get_item config "prefix-length")) in
      if negb (rc =? 1) || (32 <? len) || (len <? 0) then None
      else Some (mk_gnma_ip_prefix false addr len)
  end.

(** How many there are, and the first where there is room for one. *)
Definition address_list (size : Z) (arr : option json) : Z * (Z * gnma_ip_prefix) :=
  let found := omap address_of (for_each_child arr) in
  let num := wrap 16 (Z.of_nat (length found)) in
  ((if size <? num then GNMA_ERR_OVERFLOW else 0),
   (num, if 0 <? size then default zero_ip_prefix (head found) else zero_ip_prefix)).

Definition gnma_vlan_erif_attr_pref_list_get (vid size : Z) : M gnmi (Z * (Z * gnma_ip_prefix)) :=
  common_out (size, zero_ip_prefix) (
    root ← gnmi_get_json ("/openconfig-interfaces:interfaces/interface[name=" +:+ vlan_name vid +:+
             "]/openconfig-vlan:routed-vlan/openconfig-if-ip:ipv4/addresses");
    let arr := get_item (get_item (Some root) "openconfig-if-ip:addresses") "address" in
    ret (if non_null arr then address_list size arr else (0, (0, zero_ip_prefix)))).
Definition gnma_portl2_erif_attr_pref_list_get (port : string) (size : Z) : M gnmi (Z * (Z * gnma_ip_prefix)) :=
  common_out (size, zero_ip_prefix) (
    root ← gnmi_get_json ("/openconfig-interfaces:interfaces/interface[name=" +:+ port +:+
             "]/subinterfaces/subinterface[index=0]/openconfig-if-ip:ipv4/addresses");
    ret (address_list size (get_item (get_item (Some root) "openconfig-if-ip:addresses") "address"))).

(** ** DHCP relay *)

(** An entry that is no text gives [inet_pton] a null pointer. *)
Definition server_addresses (items : list json) : M gnmi (list Z) :=
  fold_m (λ l i, s ← deref (string_value (Some i));
                 let '(rc, addr) := inet_pton s in ret (l ++ [if rc =? 1 then addr else 0])) items [].

(** The room is the one the caller claims. *)
Definition gnma_vlan_dhcp_relay_server_list_get (vid size old : Z) : M gnmi (Z * (Z * Z)) :=
  common_out (size, old) (
    arr ← leaf_at (relay_path vid "config/helper-address") "openconfig-relay-agent:helper-address";
    if negb (is_array arr) then fail
    else
      let items := for_each_child arr in
      let arr_len := wrap 16 (array_size arr) in
      if size <? arr_len then ret (GNMA_ERR_OVERFLOW, (arr_len, old))
      else
        addrs ← server_addresses items;
        ret (0, (array_size arr, default (if 0 <? size then 0 else old) (head addrs)))).

(** A text that must be there and be known. *)
Definition named_strict {A} (old : A) (path key : string) (value : string → option A) : M gnmi (Z * A) :=
  common_out old (
    o ← leaf_at path key;
    if negb (is_string o) then fail
    else match string_value o ≫= value with Some a => ret (0, a) | None => fail end).

(** The text of the interface number is "%u" here and "%i" where it is set. *)
Definition circuit_id_read (s : string) : option gnma_dhcp_relay_circuit_id :=
  if streq s "%h:%p" then Some CIRCUIT_ID_H_P
  else if streq s "%u" then Some CIRCUIT_ID_I
  else if streq s "%p" then Some CIRCUIT_ID_P
  else None.
Definition gnma_vlan_dhcp_relay_ciruit_id_get (vid : Z) (old : gnma_dhcp_relay_circuit_id)
    : M gnmi (Z * gnma_dhcp_relay_circuit_id) :=
  named_strict old (relay_path vid "agent-information-option/config/circuit-id")
    "openconfig-relay-agent:circuit-id" circuit_id_read.
Definition gnma_vlan_dhcp_relay_policy_action_get (vid : Z) (old : gnma_dhcp_relay_policy_action)
    : M gnmi (Z * gnma_dhcp_relay_policy_action) :=
  named_strict old (relay_path vid "config/openconfig-relay-agent-ext:policy-action")
    "openconfig-relay-agent-ext:policy-action"
    (first_of policy_text [POLICY_ACTION_DISCARD; POLICY_ACTION_APPEND; POLICY_ACTION_REPLACE]).
Definition gnma_vlan_dhcp_relay_max_hop_cnt_get (vid old : Z) : M gnmi (Z * Z) :=
  common_out old (
    o ← leaf_at (relay_path vid "config/openconfig-relay-agent-ext:max-hop-count")
          "openconfig-relay-agent-ext:max-hop-count";
    if is_number o then ret (0, d2u 8 (number_value o)) else fail).

(** ** Routes: the only kind that is recognised is the black hole *)
Definition route_of (entry : json) : option (gnma_ip_prefix * gnma_route_attrs) :=
  let get := get_item (Some entry) in
  let vrf_ok := match string_value (get "vrf-name") with Some s => streq s "default" | None => true end in
  if negb vrf_ok then None
  else
    text ← string_value (get "prefix");
    let '(len, addr) := inet_net_pton text in
    if (len =? -1) || negb (non_null (get "blackhole")) then None
    else Some (mk_gnma_ip_prefix false addr len, GNMA_ROUTE_TYPE_BLACKHOLE).

(** When the request fails [root] is deleted without ever having been set.  A
    text that does not parse is a switch without routes. *)
Definition gnma_route_list_get (size : Z) : M gnmi (Z * (Z * list (gnma_ip_prefix * gnma_route_attrs))) :=
  answer ← try (gnmi_get_root "/sonic-static-route:sonic-static-route/STATIC_ROUTE/STATIC_ROUTE_LIST");
  match answer with
  | None => faulty Uninitialised
  | Some root =>
      let routes := omap route_of (for_each_child (get_item root "sonic-static-route:STATIC_ROUTE_LIST")) in
      let cnt := Z.of_nat (length routes) in
      ret ((if size <? cnt then GNMA_ERR_OVERFLOW else 0), (cnt, take (Z.to_nat size) routes))
  end.

(** ** Spanning tree *)
Definition stp_attr_read (obj : option json) : gnma_stp_attr :=
  let num key := d2u 16 (number_value (get_item obj key)) in
  mk_gnma_stp_attr (num "forward_delay") (num "hello_time") (num "max_age") (num "priority") false.

Definition gnma_stp_mode_get (old : gnma_stp_mode * gnma_stp_attr) : M gnmi (Z * (gnma_stp_mode * gnma_stp_attr)) :=
  common_out old (
    root ← gnmi_get_root "/sonic-spanning-tree:sonic-spanning-tree";
    let obj := get_item root "sonic-spanning-tree:sonic-spanning-tree" in
    let obj := array_item (get_item (get_item obj "STP") "STP_LIST") 0 in
    match string_value (get_item obj "mode") with
    | None => ret (0, (GNMA_STP_MODE_NONE, zero_stp_attr))
    | Some s =>
        if streq s "rpvst" then ret (0, (GNMA_STP_MODE_RPVST, stp_attr_read obj))
        else if streq s "pvst" then ret (0, (GNMA_STP_MODE_PVST, stp_attr_read obj))
        else fail
    end).

(** Only the priority is read, and every VLAN listed counts as enabled.
    [parsed_vid] keeps its value when a name does not match; the name itself
    is not tested. *)
Fixpoint stp_vids (size : Z) (items : list json) (parsed_vid : option Z) (l : gmap Z gnma_stp_attr)
    : M gnmi (Z * gmap Z gnma_stp_attr) :=
  match items with
  | [] => ret (0, l)
  | iter :: items =>
      name ← deref (string_value (get_item (Some iter) "name"));
      let r := sscanf_lit_u 32 "Vlan" name in
      let parsed_vid := match r with SConv v => Some v | _ => parsed_vid end in
      match r with
      | SEof => ret (GNMA_ERR_COMMON, l)
      | _ =>
          vid ← of_option Uninitialised parsed_vid;
          if size <=? vid then ret (GNMA_ERR_COMMON, l)
          else
            let prio := d2u 16 (number_value (get_item (Some iter) "priority")) in
            stp_vids size items (Some vid)
              (<[vid := default zero_stp_attr (l !! vid) <| sa_enabled := true |> <| sa_priority := prio |>]> l)
      end
  end.
Definition gnma_stp_vid_bulk_get : M gnmi (Z * gmap Z gnma_stp_attr) :=
  common_out ∅ (
    root ← gnmi_get_root "/sonic-spanning-tree:sonic-spanning-tree/STP_VLAN/STP_VLAN_LIST";
    stp_vids GNMA_MAX_VLANS (for_each_child (get_item root "sonic-spanning-tree:STP_VLAN_LIST")) None ∅).

(** ** Flags of IEEE 802.1X: anything but true is false *)
Definition flag_at (old : bool) (path key : string) : M gnmi (Z * bool) :=
  common_out old (o ← leaf_at path key; ret (0, is_true o)).
Definition gnma_ieee8021x_system_auth_control_get (old : bool) : M gnmi (Z * bool) :=
  flag_at old "/openconfig-hostapd:hostapd/hostapd-global-config/config/dot1x-system-auth-control"
    "openconfig-hostapd:dot1x-system-auth-control".
Definition gnma_ieee8021x_das_bounce_port_ignore_get (old : bool) : M gnmi (Z * bool) :=
  flag_at old (das_config +:+ "ignore-bounce-port") "openconfig-das:ignore-bounce-port".
Definition gnma_ieee8021x_das_disable_port_ignore_get (old : bool) : M gnmi (Z * bool) :=
  flag_at old (das_config +:+ "ignore-disable-port") "openconfig-das:ignore-disable-port".
Definition gnma_ieee8021x_das_ignore_server_key_get (old : bool) : M gnmi (Z * bool) :=
  flag_at old (das_config +:+ "ignore-server-key") "openconfig-das:ignore-server-key".
Definition gnma_ieee8021x_das_ignore_session_key_get (old : bool) : M gnmi (Z * bool) :=
  flag_at old (das_config +:+ "ignore-session-key") "openconfig-das:ignore-session-key".
Definition gnma_ieee8021x_das_auth_type_key_get (old : das_auth_type) : M gnmi (Z * das_auth_type) :=
  named old (das_config +:+ "das-auth-type") "openconfig-das:das-auth-type"
    (first_of auth_type_text [DAS_ANY; DAS_ALL; DAS_SESSION_KEY]).

(** ** Hosts *)
Definition GNMA_RADIUS_CFG_HOSTNAME_STR_MAX_LEN : Z := 64.

(** The names are copied into 64 bytes each, untested; [size] is the room. *)
Fixpoint host_names (size : Z) (key : string) (items : list json) (names : list string)
    : M gnmi (Z * list string) :=
  match items with
  | [] => ret (0, names)
  | host :: items =>
      match get_item (Some host) key with
      | None => ret (GNMA_ERR_COMMON, names)
      | Some addr =>
          name ← deref (string_value (Some addr));
          if size <=? Z.of_nat (length names) then faulty BufferOverflow
          else
            name ← c_strcpy GNMA_RADIUS_CFG_HOSTNAME_STR_MAX_LEN name;
            host_names size key items (names ++ [name])
      end
  end.

Definition host_list (size : Z) (key : string) (arr : option json) : M gnmi (Z * (Z * list string)) :=
  let arr_len := wrap 16 (array_size arr) in
  if size <? arr_len then ret (GNMA_ERR_OVERFLOW, (arr_len, []))
  else
    '(rc, names) ← host_names size key (for_each_child arr) [];
    ret (rc, (Z.of_nat (length names), names)).

Definition gnma_ieee8021x_das_dac_hosts_list_get (size : Z) : M gnmi (Z * (Z * list string)) :=
  common_out (size, []) (
    arr ← leaf_at das_clients "openconfig-das:das-client-config-table-entry";
    host_list size "clientaddress" arr).
Definition gnma_radius_hosts_list_get (size : Z) : M gnmi (Z * (Z * list string)) :=
  common_out (size, []) (
    servers ← leaf_at "/openconfig-system:system/aaa/server-groups/server-group[name=RADIUS]/servers"
                "openconfig-system:servers";
    host_list size "address" (get_item servers "server")).
End queries.
End Query.
