(* ===== verification/GnmaState.v ===== *)
(** * What the state report reads of the switch ([platform/brcm-sonic/gnma/gnma_common.c])

    Counters, documents, tables and names.  The conventions are those of
    [GnmaGet]: [old] is what the output parameter holds before, an error leaves
    it alone unless the comment says otherwise.  A function that returns a
    document prints the item it found into the buffer it was given; when it
    fails what is left in the buffer is not used by anyone. *)

From S2P Require Import Prelude CNum CStr Bitmap Router PlatTypes ProtoConv Json World Netlink Gnma Gnmi GnmaSet GnmaGet.
From Stdlib Require Import Ascii.
#[local] Open Scope list_scope.

(** [strtoull(s, NULL, 10)]: 0 when there are no digits. *)
Definition strtoull (s : string) : Z := match scan_u s with SConv v => v | _ => 0 end.

(** [valueint] of a number: cJSON saturates. *)
Definition valueint `{CJson} (o : option json) : Z :=
  match o with
  | Some j =>
      let d := cJSON_valuedouble j in
      if dbl_leb (dbl_of_Z (2 ^ 31 - 1)) d then 2 ^ 31 - 1
      else if dbl_leb d (dbl_of_Z (- 2 ^ 31)) then - 2 ^ 31
      else default 0 (dbl_trunc d)
  | None => 0
  end.

Definition port_stats_text (counter_id : gnma_port_stat_type) : string :=
  match counter_id with
  | GNMA_PORT_STAT_IN_OCTETS => "in-octets"
  | GNMA_PORT_STAT_IN_DISCARDS => "in-discards"
  | GNMA_PORT_STAT_IN_ERRORS => "in-errors"
  | GNMA_PORT_STAT_IN_BCAST_PKTS => "in-broadcast-pkts"
  | GNMA_PORT_STAT_IN_MCAST_PKTS => "in-multicast-pkts"
  | GNMA_PORT_STAT_IN_UCAST_PKTS => "in-unicast-pkts"
  | GNMA_PORT_STAT_OUT_OCTETS => "out-octets"
  | GNMA_PORT_STAT_OUT_DISCARDS => "out-discards"
  | GNMA_PORT_STAT_OUT_ERRORS => "out-errors"
  | GNMA_PORT_STAT_OUT_BCAST_PKTS => "out-broadcast-pkts"
  | GNMA_PORT_STAT_OUT_MCAST_PKTS => "out-multicast-pkts"
  | GNMA_PORT_STAT_OUT_UCAST_PKTS => "out-unicast-pkts"
  end.
Definition dac_stats_text (counter_id : gnma_das_dac_stat_type) : string :=
  match counter_id with
  | DAC_STAT_IN_COA_PKTS => "num_coa_requests_received"
  | DAC_STAT_OUT_COA_ACK_PKTS => "num_coa_ack_responses_sent"
  | DAC_STAT_OUT_COA_NAK_PKTS => "num_coa_nak_responses_sent"
  | DAC_STAT_IN_COA_IGNORED_PKTS => "num_coa_requests_ignored"
  | DAC_STAT_IN_COA_WRONG_ATTR_PKTS => "num_coa_missing_unsupported_attributes_requests"
  | DAC_STAT_IN_COA_WRONG_ATTR_VALUE_PKTS => "num_coa_invalid_attribute_value_requests"
  | DAC_STAT_IN_COA_WRONG_SESSION_CONTEXT_PKTS => "num_coa_session_context_not_found_requests"
  | DAC_STAT_IN_COA_ADMINISTRATIVELY_PROHIBITED_REQ_PKTS => "num_coa_administratively_prohibited_requests"
  end.

Module Report.
Import Common Query.
Section report.
Context `{J : CJson, N : !Gnmi, L : CLibc, T : CTarget}.

(** ** Ports *)

(** A reason that is missing is no error, and stores nothing. *)
Definition gnma_port_oper_status_get (port : string) (old : option bool) : M gnmi (Z * option bool) :=
  common_out old (
    oper ← leaf_at ("/openconfig-interfaces:interfaces/interface[name=" +:+ port +:+
             "]/openconfig-if-ethernet:ethernet/state/openconfig-interfaces-ext:reason")
             "openconfig-interfaces-ext:reason";
    ret (0, match string_value oper with Some s => Some (streq s "OPER_UP") | None => old end)).

Definition gnma_port_speed_get (port : string) (str_len : Z) (old : string) : M gnmi (Z * string) :=
  common_out old (
    port_speed ← leaf_at ("/sonic-port:sonic-port/PORT/PORT_LIST[ifname=" +:+ port +:+ "]/speed") "sonic-port:speed";
    ret (0, match string_value port_speed with Some s => c_strncpy (Z.to_nat str_len) s | None => old end)).

Definition gnma_port_duplex_get (port : string) : M gnmi (Z * bool) := ret (0, true).

(** The array is zeroed once the document is there. *)
Definition counter_value (iface_counters : option json) (counter_id : gnma_port_stat_type) : Z :=
  let counter := get_item iface_counters (port_stats_text counter_id) in
  if is_string counter then default 0 (strtoull <$> string_value counter) else 0.
Definition gnma_port_stats_get (port : string) (counter_ids : list gnma_port_stat_type) (old : list Z)
    : M gnmi (Z * list Z) :=
  common_out old (
    iface_counters ← leaf_at ("/openconfig-interfaces:interfaces/interface[name=" +:+ port +:+ "]/state/counters")
                       "openconfig-interfaces:counters";
    ret (if negb (is_object iface_counters) then (GNMA_ERR_COMMON, (λ _, 0) <$> counter_ids)
         else (0, counter_value iface_counters <$> counter_ids))).

(** Without the table the counters are zero, and that is no error. *)
Definition dac_value (counters_arr : option json) (counter_id : gnma_das_dac_stat_type) : Z :=
  let counter := get_item counters_arr (dac_stats_text counter_id) in
  if is_number counter then d2u 64 (number_value counter) else 0.
Definition gnma_iee8021x_das_dac_global_stats_get (counter_ids : list gnma_das_dac_stat_type) (old : list Z)
    : M gnmi (Z * list Z) :=
  common_out old (
    global_table ← leaf_at "/sonic-das:sonic-das/DAS_GLOBAL_COUNTER_TABLE" "sonic-das:DAS_GLOBAL_COUNTER_TABLE";
    let counters_arr := array_item (get_item global_table "DAS_GLOBAL_COUNTER_TABLE_LIST") 0 in
    ret (0, if is_object counters_arr then dac_value counters_arr <$> counter_ids else (λ _, 0) <$> counter_ids)).

(** ** Documents *)

(** [ret = !cJSON_PrintPreallocated(item, buf, buf_size - 1, false)] *)
Definition printed (buf_size : Z) (old : string) (item : json) : Z * string :=
  if cJSON_PrintPreallocated item (buf_size - 1) then (0, cJSON_PrintUnformatted item) else (1, old).

Definition document (path : string) (buf_size : Z) (old : string) (pick : json → option json)
    : M gnmi (Z * string) :=
  common_out old (
    path ← asprintf path;
    text ← gnmi_jsoni_get path buf_size;
    match cJSON_Parse text ≫= pick with
    | Some item => ret (printed buf_size old item)
    | None => fail
    end).

Definition gnma_port_lldp_peer_info_get (port : string) (buf_size : Z) (old : string) : M gnmi (Z * string) :=
  document ("/openconfig-lldp:lldp/interfaces/interface[name=" +:+ port +:+ "]/neighbors/neighbor[id=" +:+
            port +:+ "]") buf_size old
    (λ root, let neigh := get_item (Some root) "openconfig-lldp:neighbor" in
             if is_array neigh then array_item neigh 0 else None).
Definition gnma_poe_state_get (buf_size : Z) (old : string) : M gnmi (Z * string) :=
  document "/openconfig-poe:poe/global/state/" buf_size old
    (λ root, get_item (Some root) "openconfig-poe:state").
Definition gnma_poe_port_state_get (port : string) (buf_size : Z) (old : string) : M gnmi (Z * string) :=
  document ("/openconfig-interfaces:interfaces/interface[name=" +:+ port +:+
            "]/openconfig-if-ethernet:ethernet/openconfig-if-poe:poe/state") buf_size old
    (λ root, get_item (Some root) "openconfig-if-poe:state").
(** The whole document, when it has the cause. *)
Definition gnma_rebootcause_get (buf_size : Z) (old : string) : M gnmi (Z * string) :=
  document "/openconfig-system:system/openconfig-system-ext:infra/state/reboot-cause" buf_size old
    (λ root, match string_value (get_item (Some root) "openconfig-system-ext:reboot-cause") with
             | Some _ => Some root | None => None end).
Definition gnma_ieee8021x_system_auth_clients_get (buf_size : Z) (old : string) : M gnmi (Z * string) :=
  common_out old (
    text ← gnmi_jsoni_get "/openconfig-authmgr:authmgr/authmgr-authenticated-clients/" buf_size;
    ret (0, text)).
Definition gnma_image_install_status (buf_size : Z) (old : string) : M gnmi (Z * string) :=
  common_out old (text ← gnmi_gnoi_upgrade_status buf_size; ret (0, text)).

(** The groups of a VLAN: with a buffer that is too short the size that is
    needed is returned; else [*out_buf_size - 1] bytes of the text are copied
    into the zeroed buffer, however long the text is (its NUL included it has
    [json_len + 1] bytes). *)
Definition gnma_igmp_iface_groups_get (iface : string) (buf_size : Z) (old : string)
    : M gnmi (Z * (Z * string)) :=
  common_out (buf_size, old) (
    path ← asprintf ("/openconfig-network-instance:network-instances/network-instance[name=default]/protocols/protocol[identifier=IGMP_SNOOPING][name=IGMP-SNOOPING]/openconfig-network-instance-deviation:igmp-snooping/interfaces/interface[name="
                     +:+ iface +:+ "]");
    root ← gnmi_get_json path;
    let groups := array_item (get_item (Some root) "openconfig-network-instance-deviation:interface") 0 in
    match get_item (get_item groups "staticgrps") "static-multicast-group" with
    | Some groups =>
        if array_size (Some groups) =? 0 then ret (0, (0, old))
        else
          _ ← gn_alloc_or_fail;
          let json_buf := cJSON_PrintUnformatted groups in
          let json_len := slen json_buf in
          if buf_size <? json_len then ret (GNMA_ERR_OVERFLOW, (json_len + 1, old))
          else if json_len + 1 <? wrap 64 (buf_size - 1) then faulty OutOfBounds
          else ret (0, (buf_size, stake (Z.to_nat (buf_size - 1)) json_buf))
    | None => ret (0, (0, old))
    end).

(** ** Tables *)

(** A route the table of next hops keeps. *)
Definition dyn_route_of (route : json) : option (gnma_ip_prefix * gnma_nexthop) :=
  text ← string_value (get_item (Some route) "prefix");
  let '(prefix_len, addr) := inet_net_pton text in
  if prefix_len =? -1 then None
  else
    let nh := array_item (get_item (get_item (Some route) "openconfig-aft-deviation:next-hops") "next-hop") 0 in
    obj ← get_item nh "state";
    if is_true (get_item (Some obj) "directly-connected") then None
    else
      gw_text ← string_value (get_item (Some obj) "ip-address");
      let '(rc, gw) := inet_net_pton gw_text in
      if rc =? -1 then None
      else
        port ← string_value (get_item (get_item (get_item nh "interface-ref") "state") "interface");
        metric ← get_item (get_item (Some route) "state") "metric";
        Some (mk_gnma_ip_prefix false addr prefix_len,
              mk_gnma_nexthop (d2u 32 (number_value (Some metric))) gw
                (c_strncpy (Z.to_nat GNMA_PORT_KEY_LEN) port)).

Definition gnma_dyn_route_list_get (size : Z) (have : bool)
    : M gnmi (Z * (Z * list (gnma_ip_prefix * gnma_nexthop))) :=
  common_out (size, []) (
    root ← gnmi_get_root "/openconfig-network-instance:network-instances/network-instance[name=default]/afts/ipv4-unicast/ipv4-entry";
    let route_list := get_item root "openconfig-network-instance:ipv4-entry" in
    if negb (is_array route_list) then fail
    else
      let routes := omap dyn_route_of (for_each_child route_list) in
      let num_routes := Z.of_nat (length routes) in
      ret ((if size <? num_routes then GNMA_ERR_OVERFLOW else 0),
           (num_routes, if have then take (Z.to_nat size) routes else []))).

(** An entry of the MAC table: what is missing makes the request fail (an
    entry that is null has no state). *)
Definition fdb_entry_of (entry : json) : option gnma_fdb_entry :=
  let text o := if is_string o then string_value o else None in
  state ← get_item (Some entry) "state";
  mac ← text (get_item (Some state) "mac-address");
  let vlan := get_item (Some state) "vlan" in
  if negb (is_number vlan) then None
  else
    type ← text (get_item (Some state) "entry-type");
    let field := get_item (get_item (get_item (Some entry) "interface") "interface-ref") "state" in
    port ← text (get_item field "interface");
    Some (mk_gnma_fdb_entry (c_strncpy (Z.to_nat GNMA_PORT_KEY_LEN) port)
            (if streq type "STATIC" then GNMA_FDB_ENTRY_TYPE_STATIC else GNMA_FDB_ENTRY_TYPE_DYNAMIC)
            (valueint vlan) (c_strncpy 18 mac)).

(** The entries are stored while the document has more, in an array with room
    for [size]; each sets the size. *)
Fixpoint fdb_entries (size : Z) (items : list json) (list_size : Z) (found : list gnma_fdb_entry)
    : M gnmi (Z * (Z * list gnma_fdb_entry)) :=
  match items with
  | [] => ret (0, (list_size, found))
  | entry :: items =>
      match fdb_entry_of entry with
      | None => ret (GNMA_ERR_COMMON, (list_size, found))
      | Some e =>
          if size <=? Z.of_nat (length found) then faulty BufferOverflow
          else fdb_entries size items (Z.of_nat (length found) + 1) (found ++ [e])
      end
  end.

(** The number of entries is the sum of the two counts of the document. *)
Definition gnma_mac_address_list_get (size : Z) (have : bool) : M gnmi (Z * (Z * list gnma_fdb_entry)) :=
  common_out (size, []) (
    root ← gnmi_get_json "/openconfig-network-instance:network-instances/network-instance[name=default]/fdb";
    let fdb := get_item (Some root) "openconfig-network-instance:fdb" in
    let state := get_item fdb "state" in
    let dynamic := get_item state "dynamic-count" in
    let static := get_item state "static-count" in
    if negb (is_number dynamic) || negb (is_number static) then fail
    else
      let num_entries := wrap 64 (valueint dynamic + valueint static) in
      if size <? num_entries then ret (GNMA_ERR_OVERFLOW, (num_entries, []))
      else if num_entries =? 0 then ret (0, (size, []))
      else if negb have then fail
      else
        match get_item (get_item (get_item fdb "mac-table") "entries") "entry" with
        | None => fail
        | Some entry_list => fdb_entries size (for_each_child (Some entry_list)) size []
        end).

(** ** Addresses *)
Definition vlan_ip_of (a : nl_vid_addr) : gnma_vlan_ip :=
  mk_gnma_vlan_ip (nva_vid a) (nva_prefixlen a) (nva_address a).

(** Two netlink requests: how many, then the addresses.  The [len] entries of
    the array were zeroed. *)
Definition gnma_ip_iface_addr_get (size : Z) (have : bool) : M gnmi (Z * (Z * list gnma_vlan_ip)) :=
  d ← nl_request;
  let '(rc, (len, _)) := nl_get_ip_list d false 0 in
  if negb (rc =? 0) && negb (rc =? EOVERFLOW) then ret (GNMA_ERR_COMMON, (size, []))
  else if negb have || (size <? len) then ret (GNMA_ERR_OVERFLOW, (len, []))
  else if len =? 0 then ret (0, (0, []))
  else
    ok ← gn_alloc;
    if negb ok then ret (GNMA_ERR_COMMON, (size, []))
    else
      d ← nl_request;
      let '(rc, (len, found)) := nl_get_ip_list d true len in
      if negb (rc =? 0) then ret (GNMA_ERR_COMMON, (len, []))
      else ret (0, (len, vlan_ip_of <$> found)).

(** The MAC address of a neighbour. *)
Definition gnma_nei_addr_get (iface : string) (ip buf_size : Z) (old : string) : M gnmi (Z * string) :=
  let addr_str := inet_ntop ip in
  let is_vlan := match iface with String c _ => Ascii.eqb c "V"%char | EmptyString => false end in
  common_out old (
    address ← leaf_at (if is_vlan
        then "/openconfig-interfaces:interfaces/interface[name=" +:+ iface +:+
             "]/openconfig-vlan:routed-vlan/openconfig-if-ip:ipv4/neighbors/neighbor[ip=" +:+ addr_str +:+
             "]/state/link-layer-address"
        else "/openconfig-interfaces:interfaces/interface[name=" +:+ iface +:+
             "]/subinterfaces/subinterface[index=0]/openconfig-if-ip:ipv4/neighbors/neighbor[ip=" +:+ addr_str +:+
             "]/state/link-layer-address") "openconfig-if-ip:link-layer-address";
    match string_value address with
    | None | Some EmptyString => fail
    | Some mac_str => ret (0, c_strncpy (Z.to_nat buf_size) mac_str)
    end).

(** ** The system *)

(** Each element of the list that names a current image overwrites the text,
    and the last element decides on success; a name that is no text is a null
    pointer given to strncpy. *)
Definition gnma_image_running_name_get (str_max_len : Z) (old : string) : M gnmi (Z * string) :=
  common_out old (
    root ← gnmi_get_json "/sonic-image-management:sonic-image-management/IMAGE_GLOBAL/IMAGE_GLOBAL_LIST";
    let img_global_list := get_item (Some root) "sonic-image-management:IMAGE_GLOBAL_LIST" in
    if negb (is_array img_global_list) then fail
    else
      r ← fold_m (λ (st : bool * string) iter,
          let str := st.2 in
          match get_item (Some iter) "current" with
          | None => ret (false, str)
          | Some current_img =>
              name ← deref (string_value (Some current_img));
              ret (true, c_strncpy (Z.to_nat str_max_len) name)
          end) (for_each_child img_global_list) (false, old);
      ret ((if r.1 : bool then 0 else GNMA_ERR_COMMON), r.2)).

(** The document of the platform goes into [hwsku], that of the SKU into
    [platform]. *)
Definition GNMA_METADATA_STR_MAX_LEN : nat := 96.
Definition metadata_path (leaf : string) : string :=
  "/sonic-device-metadata:sonic-device-metadata/DEVICE_METADATA/DEVICE_METADATA_LIST[name=localhost]/" +:+ leaf.
Definition metadata_text (root : option json) (key : string) : option string :=
  let val := get_item root key in
  if is_string val then c_snprintf_s GNMA_METADATA_STR_MAX_LEN <$> string_value val else None.
Definition gnma_metadata_get (old : gnma_metadata) : M gnmi (Z * gnma_metadata) :=
  common_out old (
    root_mac ← gnmi_get_root (metadata_path "mac");
    root_hwsku ← gnmi_get_root (metadata_path "hwsku");
    root_platform ← gnmi_get_root (metadata_path "platform");
    ret match metadata_text root_platform "sonic-device-metadata:platform" with
        | None => (GNMA_ERR_COMMON, old)
        | Some hwsku =>
            match metadata_text root_hwsku "sonic-device-metadata:hwsku" with
            | None => (GNMA_ERR_COMMON, mk_gnma_metadata (md_platform old) hwsku (md_mac old))
            | Some platform =>
                match metadata_text root_mac "sonic-device-metadata:mac" with
                | None => (GNMA_ERR_COMMON, mk_gnma_metadata platform hwsku (md_mac old))
                | Some mac => (0, mk_gnma_metadata platform hwsku mac)
                end
            end
        end).
End report.
End Report.
