(* ===== verification/GnmaImpl.v ===== *)
(** * The switch behind the platform layer is the gNMI device

    [gnma_common] instantiates the interface [Gnma], against which
    [plat-gnma.c] is modelled, with the functions of [gnma_common.c]; the
    requests of a VLAN change become parts of one gNMI message. *)

From S2P Require Import Prelude CNum CStr Bitmap Router PlatTypes Json World Gnma Gnmi GnmaSet GnmaGet GnmaState.
#[local] Open Scope list_scope.

Section impl.
Context `{J : CJson, N : !Gnmi, L : CLibc, T : CTarget}.

(** The request a [change_op] adds to the change. *)
Definition change_rq (op : change_op) : M gnmi rq_op :=
  match op with
  | OpVlanCreate vid => Common.gnma_vlan_create vid
  | OpMemberCreate vid port tagged => Common.gnma_vlan_member_create vid port tagged
  | OpMemberRemove vid port => Common.gnma_vlan_member_remove vid port
  end.

(** The memory of the requests was accounted for when they were added. *)
Definition change_item (op : change_op) : rq_op :=
  match op with
  | OpVlanCreate vid =>
      RqUpdate "/sonic-vlan:sonic-vlan/VLAN/VLAN_LIST"
        (json_of (IObj [("sonic-vlan:VLAN_LIST", IArr [Common.vlan_item vid])]))
  | OpMemberCreate vid port tagged =>
      RqUpdate "/sonic-vlan:sonic-vlan/VLAN_MEMBER/VLAN_MEMBER_LIST"
        (json_of (IObj [("sonic-vlan:VLAN_MEMBER_LIST", IArr [Common.member_item vid port tagged])]))
  | OpMemberRemove vid port =>
      RqDelete ("/sonic-vlan:sonic-vlan/VLAN_MEMBER/VLAN_MEMBER_LIST[name=" +:+ Common.vlan_name vid +:+
                "][ifname=" +:+ port +:+ "]")
  end.

Definition run_call (c : gnma_call) : M gnmi Z :=
  match c with
  | gnma_switch_create => Common.gnma_switch_create
  | gnma_port_admin_state_set n up => Common.gnma_port_admin_state_set n up
  | gnma_port_speed_set n s => Common.gnma_port_speed_set n s
  | gnma_port_duplex_set n f => Common.gnma_port_duplex_set n f
  | gnma_port_ieee8021x_pae_mode_set n b => Common.gnma_port_ieee8021x_pae_mode_set n b
  | gnma_port_ieee8021x_port_ctrl_set n m => Common.gnma_port_ieee8021x_port_ctrl_set n m
  | gnma_port_ieee8021x_port_host_mode_set n m => Common.gnma_port_ieee8021x_port_host_mode_set n m
  | gnma_port_ieee8021x_guest_vlan_set n v => Common.gnma_port_ieee8021x_guest_vlan_set n v
  | gnma_port_ieee8021x_unauthorized_vlan_set n v => Common.gnma_port_ieee8021x_unauthorized_vlan_set n v
  | gnma_poe_power_mgmt_set m => Common.gnma_poe_power_mgmt_set m
  | gnma_poe_usage_threshold_set t => Common.gnma_poe_usage_threshold_set t
  | gnma_poe_port_admin_mode_set n b => Common.gnma_poe_port_admin_mode_set n b
  | gnma_poe_port_detection_mode_set n m => Common.gnma_poe_port_detection_mode_set n m
  | gnma_poe_port_power_limit_set n u l => Common.gnma_poe_port_power_limit_set n u l
  | gnma_poe_port_priority_set n p => Common.gnma_poe_port_priority_set n p
  | gnma_poe_port_reset n => Common.gnma_poe_port_reset n
  | gnma_vlan_remove v => Common.gnma_vlan_remove v
  | gnma_change_exec c => Common.gnma_change_exec (change_item <$> c)
  | gnma_vlan_erif_attr_pref_update v p => Common.gnma_vlan_erif_attr_pref_update v [p]
  | gnma_vlan_erif_attr_pref_delete v p => Common.gnma_vlan_erif_attr_pref_delete v p
  | gnma_portl2_erif_attr_pref_update n p => Common.gnma_portl2_erif_attr_pref_update n [p]
  | gnma_portl2_erif_attr_pref_delete n p => Common.gnma_portl2_erif_attr_pref_delete n p
  | gnma_vlan_dhcp_relay_server_add v ip => Common.gnma_vlan_dhcp_relay_server_add v ip
  | gnma_vlan_dhcp_relay_server_remove v ip => Common.gnma_vlan_dhcp_relay_server_remove v ip
  | gnma_vlan_dhcp_relay_ciruit_id_set v id => Common.gnma_vlan_dhcp_relay_ciruit_id_set v id
  | gnma_vlan_dhcp_relay_policy_action_set v a => Common.gnma_vlan_dhcp_relay_policy_action_set v a
  | gnma_vlan_dhcp_relay_max_hop_cnt_set v n => Common.gnma_vlan_dhcp_relay_max_hop_cnt_set v n
  | gnma_route_create p a => Common.gnma_route_create p a
  | gnma_route_remove p => Common.gnma_route_remove p
  | gnma_stp_mode_set m a => Common.gnma_stp_mode_set m a
  | gnma_stp_ports_enable l => Common.gnma_stp_ports_enable l
  | gnma_stp_vid_set v a => Common.gnma_stp_vid_set v a
  | gnma_ieee8021x_system_auth_control_set b => Common.gnma_ieee8021x_system_auth_control_set b
  | gnma_ieee8021x_das_dac_host_add h k => Common.gnma_ieee8021x_das_dac_host_add h k
  | gnma_ieee8021x_das_dac_host_remove h => Common.gnma_ieee8021x_das_dac_host_remove h
  | gnma_radius_host_add h k port prio => Common.gnma_radius_host_add h k port prio
  | gnma_radius_host_remove h => Common.gnma_radius_host_remove h
  | gnma_system_password_set s => Common.gnma_system_password_set s
  | gnma_igmp_snooping_set v a => Common.gnma_igmp_snooping_set v a
  | gnma_igmp_static_groups_set v g => Common.gnma_igmp_static_groups_set v g
  | gnma_syslog_cfg_clear => Common.gnma_syslog_cfg_clear
  | gnma_syslog_cfg_set l => Common.gnma_syslog_cfg_set l
  | gnma_config_save => Common.gnma_config_save
  | gnma_config_restore => Common.gnma_config_restore
  | gnma_factory_default => Common.gnma_factory_default
  | gnma_image_install uri => Common.gnma_image_install uri
  | gnma_reboot => Common.gnma_reboot
  end.

Definition run_query {A} (q : gnma_query A) : A → M gnmi (Z * A) :=
  match q in gnma_query A return A → M gnmi (Z * A) with
  | gnma_vlan_list_get => Query.gnma_vlan_list_get
  | gnma_vlan_member_bmap_get => Query.gnma_vlan_member_bmap_get
  | gnma_port_list_get size => λ _, Query.gnma_port_list_get size
  | gnma_poe_port_list_get size => λ _, Query.gnma_poe_port_list_get size
  | gnma_radius_hosts_list_get size => λ _, Query.gnma_radius_hosts_list_get size
  | gnma_ieee8021x_das_dac_hosts_list_get size => λ _, Query.gnma_ieee8021x_das_dac_hosts_list_get size
  | gnma_route_list_get size => λ _, Query.gnma_route_list_get size
  | gnma_vlan_erif_attr_pref_list_get vid size => λ _, Query.gnma_vlan_erif_attr_pref_list_get vid size
  | gnma_portl2_erif_attr_pref_list_get n size => λ _, Query.gnma_portl2_erif_attr_pref_list_get n size
  | gnma_vlan_dhcp_relay_server_list_get vid size =>
      λ old, Query.gnma_vlan_dhcp_relay_server_list_get vid size old.2
  | gnma_vlan_dhcp_relay_ciruit_id_get vid => Query.gnma_vlan_dhcp_relay_ciruit_id_get vid
  | gnma_vlan_dhcp_relay_policy_action_get vid => Query.gnma_vlan_dhcp_relay_policy_action_get vid
  | gnma_vlan_dhcp_relay_max_hop_cnt_get vid => Query.gnma_vlan_dhcp_relay_max_hop_cnt_get vid
  | gnma_stp_mode_get => Query.gnma_stp_mode_get
  | gnma_stp_vid_bulk_get => λ _, Query.gnma_stp_vid_bulk_get
  | gnma_port_ieee8021x_pae_mode_get n => Query.gnma_port_ieee8021x_pae_mode_get n
  | gnma_port_ieee8021x_port_ctrl_get n => Query.gnma_port_ieee8021x_port_ctrl_get n
  | gnma_port_ieee8021x_port_host_mode_get n => Query.gnma_port_ieee8021x_port_host_mode_get n
  | gnma_port_ieee8021x_guest_vlan_get n => Query.gnma_port_ieee8021x_guest_vlan_get n
  | gnma_port_ieee8021x_unauthorized_vlan_get n => Query.gnma_port_ieee8021x_unauthorized_vlan_get n
  | gnma_ieee8021x_system_auth_control_get => Query.gnma_ieee8021x_system_auth_control_get
  | gnma_ieee8021x_das_bounce_port_ignore_get => Query.gnma_ieee8021x_das_bounce_port_ignore_get
  | gnma_ieee8021x_das_disable_port_ignore_get => Query.gnma_ieee8021x_das_disable_port_ignore_get
  | gnma_ieee8021x_das_ignore_server_key_get => Query.gnma_ieee8021x_das_ignore_server_key_get
  | gnma_ieee8021x_das_ignore_session_key_get => Query.gnma_ieee8021x_das_ignore_session_key_get
  | gnma_ieee8021x_das_auth_type_key_get => Query.gnma_ieee8021x_das_auth_type_key_get
  | gnma_poe_port_admin_mode_get n => Query.gnma_poe_port_admin_mode_get n
  | gnma_poe_port_detection_mode_get n => Query.gnma_poe_port_detection_mode_get n
  | gnma_poe_port_power_limit_get n => Query.gnma_poe_port_power_limit_get n
  | gnma_poe_port_priority_get n => Query.gnma_poe_port_priority_get n
  | gnma_poe_power_mgmt_get => Query.gnma_poe_power_mgmt_get
  | gnma_poe_usage_threshold_get => Query.gnma_poe_usage_threshold_get
  | gnma_port_oper_status_get n => Report.gnma_port_oper_status_get n
  | gnma_port_speed_get n len => Report.gnma_port_speed_get n len
  | gnma_port_duplex_get n => λ _, Report.gnma_port_duplex_get n
  | gnma_port_stats_get n ids => Report.gnma_port_stats_get n ids
  | gnma_iee8021x_das_dac_global_stats_get ids => Report.gnma_iee8021x_das_dac_global_stats_get ids
  | gnma_port_lldp_peer_info_get n size => Report.gnma_port_lldp_peer_info_get n size
  | gnma_poe_state_get size => Report.gnma_poe_state_get size
  | gnma_poe_port_state_get n size => Report.gnma_poe_port_state_get n size
  | gnma_ieee8021x_system_auth_clients_get size => Report.gnma_ieee8021x_system_auth_clients_get size
  | gnma_rebootcause_get size => Report.gnma_rebootcause_get size
  | gnma_image_install_status size => Report.gnma_image_install_status size
  | gnma_igmp_iface_groups_get n size => λ old, Report.gnma_igmp_iface_groups_get n size old.2
  | gnma_dyn_route_list_get size have => λ _, Report.gnma_dyn_route_list_get size have
  | gnma_mac_address_list_get size have => λ _, Report.gnma_mac_address_list_get size have
  | gnma_ip_iface_addr_get size have => λ _, Report.gnma_ip_iface_addr_get size have
  | gnma_nei_addr_get n ip size => Report.gnma_nei_addr_get n ip size
  | gnma_image_running_name_get len => Report.gnma_image_running_name_get len
  | gnma_metadata_get => Report.gnma_metadata_get
  end.

(** Two functions outside the interface.  The first is not called; its bitmap
    holds whatever the stack held ([garbage]). *)
Definition gnma_stp_vids_set_all (garbage : gset Z) (enable : bool) : M gnmi Z :=
  '(rc, vlans) ← Query.gnma_vlan_list_get garbage;
  if negb (rc =? 0) then ret rc else Common.gnma_stp_vids_set (bits GNMA_MAX_VLANS vlans) enable.
Definition gnma_techsupport_start : M gnmi Z :=
  rc ← send gnmi_gnoi_techsupport_start; ret (if rc =? 0 then 0 else GNMA_ERR_COMMON).

#[export] Instance gnma_common : Gnma := {|
  gst := gnmi;
  gnma_do c g := match run_call c g with
                 | Ok rc g => inl (rc, g)
                 | Err g => inl (GNMA_ERR_COMMON, g)
                 | Fault f => inr f
                 end;
  gnma_get A q old g := match run_query q old g with
                        | Ok (rc, a) g => inl (rc, a, g)
                        | Err g => inl (GNMA_ERR_COMMON, old, g)
                        | Fault f => inr f
                        end
|}.
End impl.
