(* ===== verification/NotifySpec.v ===== *)
(** * What becomes of a notification of the switch

    [reports n ev]: the notification [n] is about the event [ev], whatever else
    it holds.  The callbacks of the three layers refine it: an event is sent
    once, an alarm is then acknowledged, anything else changes nothing. *)

From S2P Require Import Prelude CNum CStr Bitmap Router Json PlatTypes World ProtoConv Messages Events Gnma Gnmi Sample StateSpec Safety Notify.
#[local] Open Scope list_scope.

(** ** Alarms: the last update of each leaf counts *)
Definition leaf (name : string) (u : gnmi_subscribe_update) : option gnmi_typed_value :=
  match up_path u with
  | Some (p0 :: p1 :: _) =>
      if bool_decide (pe_name p0 = "state" ∧ pe_name p1 = name) then up_val u else None
  | _ => None
  end.
Definition last_of {A} (name : string) (conv : gnmi_typed_value → option A) (us : list gnmi_subscribe_update)
    (old : A) : A :=
  default old (last (omap (λ u, leaf name u ≫= conv) us)).

Definition as_text (v : gnmi_typed_value) : option c_text := Some (strnonull (v_str v)).
Definition as_string (v : gnmi_typed_value) : option c_text := match v with TvString s => Some (CText s) | _ => None end.
Definition as_severity (v : gnmi_typed_value) : option Z :=
  match v with TvString s => severity_str2int (CText s) | _ => None end.
Definition as_bool (v : gnmi_typed_value) : option bool := match v with TvBool b => Some b | _ => None end.
Definition as_uint (v : gnmi_typed_value) : option Z := match v with TvUint u => Some u | _ => None end.

Definition alarm_after (a : gnma_alarm) (us : list gnmi_subscribe_update) : gnma_alarm :=
  mk_gnma_alarm (ga_id a) (last_of "resource" as_text us (ga_resource a)) (last_of "text" as_text us (ga_text a))
    (last_of "time-created" as_uint us (ga_time_created a)) (last_of "type-id" as_string us (ga_type_id a))
    (last_of "severity" as_severity us (ga_severity a)) (last_of "acknowledged" as_bool us (ga_acknowledged a))
    (last_of "acknowledge-time" as_uint us (ga_acknowledge_time a)).
Definition new_alarm (id : string) : gnma_alarm := mk_gnma_alarm id (CText "") (CText "") 0 (CText "") 0 false 0.

(** An update with a path has a first element of it. *)
Definition located (u : gnmi_subscribe_update) : Prop := up_path u ≠ Some [].

Lemma last_of_nil {A} name (conv : gnmi_typed_value → option A) old : last_of name conv [] old = old.
Proof. done. Qed.
Lemma last_of_cons {A} name (conv : gnmi_typed_value → option A) u us old :
  last_of name conv (u :: us) old = last_of name conv us (default old (leaf name u ≫= conv)).
Proof.
  unfold last_of. cbn [omap list_omap]. destruct (leaf name u ≫= conv) as [x|]; [|done]. cbn [from_option].
  rewrite last_cons. by destruct (last _).
Qed.

Lemma streq_ne a b : a ≠ b → streq a b = false.
Proof. intros H. destruct (streq a b) eqn:E; [by apply streq_eq in E|done]. Qed.
Lemma alarm_update_step {S} a u (s : S) : located u → alarm_update a u s = Ok (alarm_after a [u]) s.
Proof.
  intros Hu. unfold alarm_after. rewrite !last_of_cons, !last_of_nil. unfold alarm_update, leaf.
  destruct u as [[[|p0 [|p1 path]]|] [val|]]; cbn [up_path up_val] in *;
    try by (destruct a; repeat case_bool_decide).
  destruct (streq (pe_name p0) "state") eqn:E0; cbn [negb].
  2:{ rewrite !bool_decide_false; [by destruct a|..]; intros [E _]; rewrite E, streq_refl in E0; done. }
  apply streq_eq in E0. rewrite E0. destruct a.
  assert (∀ name, bool_decide ("state" = "state" ∧ pe_name p1 = name) = streq (pe_name p1) name) as Hb.
  { intros name. destruct (streq (pe_name p1) name) eqn:E.
    - apply streq_eq in E. by apply bool_decide_true.
    - apply bool_decide_false. intros [_ Hn]. by rewrite Hn, streq_refl in E. }
  rewrite !Hb. generalize (pe_name p1). clear. intros x.
  destruct (decide (x = "severity")) as [->|H1].
  { destruct val as [str| | |]; try reflexivity. with_strategy opaque [severity_str2int] cbn.
    by destruct (severity_str2int (CText str)). }
  rewrite (streq_ne _ _ H1).
  repeat match goal with
  | |- context [streq x ?k] =>
      let H := fresh in destruct (decide (x = k)) as [->|H]; [destruct val; reflexivity|rewrite !(streq_ne _ _ H)]
  end.
  destruct val; reflexivity.
Qed.

Lemma alarm_after_nil a : alarm_after a [] = a.
Proof. by destruct a. Qed.
Lemma alarm_after_cons a u us : alarm_after a (u :: us) = alarm_after (alarm_after a [u]) us.
Proof. unfold alarm_after. cbn. by rewrite !last_of_cons, !last_of_nil. Qed.
Lemma alarm_updates {S} us : Forall located us →
  ∀ a (s : S), fold_m alarm_update us a s = Ok (alarm_after a us) s.
Proof.
  induction 1 as [|u us Hu Hus IH]; intros a s; [by rewrite alarm_after_nil|].
  cbn [fold_m]. rewrite alarm_update_step by done. rewrite IH. by rewrite (alarm_after_cons a u us).
Qed.

(** ** Events *)
Inductive switch_event :=
  | SAlarm (a : gnma_alarm)
  | SLink (seconds : Z) (ifname : string) (up : bool)
  | SPoeStatus (seconds : Z) (ifname : string) (status : Z)
  | SPoeFault (seconds : Z) (ifname : string) (faultcode : Z).

(** A notification about a leaf of the port [name] with the text [text]. *)
Definition on_port (n : gnmi_notification) (container : string) (u : gnmi_subscribe_update) (name text : string) : Prop :=
  ∃ e0 e1 e2 rest k keys us,
    nf_prefix n = e0 :: e1 :: e2 :: rest ∧ pe_name e1 = "interface" ∧ pe_name e2 = container ∧
    pe_key e1 = (k, name) :: keys ∧ nf_update n = u :: us ∧ up_val u = Some (TvString text) ∧
    String.prefix "Ethernet" name = true.
Definition names_leaf (u : gnmi_subscribe_update) (name : string) : Prop :=
  ∃ p0 path, up_path u = Some (p0 :: path) ∧ pe_name p0 = name.

Inductive reports (n : gnmi_notification) : switch_event → Prop :=
  | reports_alarm e0 e1 e2 rest id :
      nf_prefix n = e0 :: e1 :: e2 :: rest → pe_name e1 = "alarms" → pe_key e2 = [("id", id)] → id ≠ "" →
      ga_acknowledged (alarm_after (new_alarm id) (nf_update n)) = false →
      reports n (SAlarm (alarm_after (new_alarm id) (nf_update n)))
  | reports_link u name text up :
      on_port n "state" u name text → (text, up) ∈ [("UP", true); ("DOWN", false)] →
      reports n (SLink (seconds (nf_timestamp n)) name up)
  | reports_poe_status container u name text status :
      on_port n container u name text → container ≠ "state" → names_leaf u "status" →
      (text, status) ∈ poe_status_texts → reports n (SPoeStatus (seconds (nf_timestamp n)) name status)
  | reports_poe_fault container u name text faultcode :
      on_port n container u name text → container ≠ "state" → names_leaf u "fault-code" →
      (text, faultcode) ∈ poe_fault_texts → reports n (SPoeFault (seconds (nf_timestamp n)) name faultcode).

(** A table finds exactly its entries, also by a text cut at 31 characters. *)
Lemma table_find_iff {B} (tbl : list (string * B)) k v :
  NoDup tbl.*1 → table_find streq tbl k = Some v ↔ (k, v) ∈ tbl.
Proof.
  induction tbl as [|[k' v'] tbl IH]; cbn [fmap list_fmap table_find]; intros Hnd.
  { split; [done|]. by intros ?%elem_of_nil. }
  inversion_clear Hnd as [|?? Hk Hnd']. rewrite elem_of_cons. destruct (streq k k') eqn:E.
  - apply streq_eq in E as ->. split; [intros [= ->]; by left|]. intros [Hv|Hin]; [by simplify_eq|].
    destruct Hk. by apply (list_elem_of_fmap_2 fst tbl (k', v)).
  - rewrite IH by done. split; [by right|]. intros [Hv|?]; [|done]. simplify_eq. by rewrite streq_refl in E.
Qed.
Lemma stake_short n s : slen s ≤ Z.of_nat n → stake n s = s.
Proof.
  unfold slen, stake. revert n. induction s as [|c s IH]; intros [|n]; cbn; intros H; try done; try lia.
  rewrite IH by lia. done.
Qed.
Lemma slen_cut n s : Z.of_nat n ≤ slen s → slen (stake n s) = Z.of_nat n.
Proof.
  unfold slen, stake. revert s. induction n as [|n IH]; intros [|c s]; cbn; intros H; try lia.
  specialize (IH s ltac:(lia)). lia.
Qed.
Lemma table_find_cut {B} (tbl : list (string * B)) k v :
  NoDup tbl.*1 → Forall (λ e, slen e.1 < 31) tbl →
  table_find streq tbl (c_strncpy 31 k) = Some v ↔ (k, v) ∈ tbl.
Proof.
  intros Hnd Hs. rewrite (table_find_iff _ _ _ Hnd). unfold c_strncpy.
  destruct (Z.le_gt_cases (slen k) 31) as [Hk|Hk]; [by rewrite stake_short|].
  split; intros Hin; pose proof (proj1 (Forall_forall _ _) Hs _ Hin) as Hlen; cbn in Hlen; [|lia].
  rewrite slen_cut in Hlen; lia.
Qed.
Lemma status_texts_ok : NoDup poe_status_texts.*1 ∧ Forall (λ e, slen e.1 < 31) poe_status_texts.
Proof. split; [apply (bool_decide_unpack _); vm_compute; exact I|by repeat constructor]. Qed.
Lemma fault_texts_ok : NoDup poe_fault_texts.*1 ∧ Forall (λ e, slen e.1 < 31) poe_fault_texts.
Proof. split; [apply (bool_decide_unpack _); vm_compute; exact I|by repeat constructor]. Qed.

(** ** The refinement *)
Abbreviation response := (option gnmi_subscribe_response).

Section refinement.
Context `{J : CJson, N : !Gnmi, P : Platform}.

(** The text of a pointer that is one. *)
Definition pointed (s : c_text) : option string := match s with CText s => Some s | _ => None end.
Definition plain_text (s : c_text) : Prop := s ≠ CWild.

(** What the client does about an event: the callback of proto.c, then, for an
    alarm, the acknowledgement. *)
Definition relay (ev : switch_event) : M stream unit :=
  match ev with
  | SAlarm a =>
      _ ← on_world (alarm_plat_cb (mk_plat_alarm (Some (ga_id a)) (pointed (ga_resource a)) (pointed (ga_text a))
                                     (ga_time_created a) (pointed (ga_type_id a)) (ga_severity a)));
      _ ← on_gnmi (send (gnmi_gnoi_sonic_alarm_acknowledge (ga_id a)));
      ret tt
  | SLink secs name up => on_world (linkstatus_plat_cb secs (Some name) up)
  | SPoeStatus secs name status => on_world (poe_linkstatus_plat_cb secs (Some name) status)
  | SPoeFault secs name code => on_world (poe_link_faultcode_plat_cb secs (Some name) code)
  end.

(** The texts of an alarm are texts: the device sends them as strings. *)
Definition sound (n : gnmi_notification) : Prop :=
  Forall (λ u, located u ∧ ∀ name v, name = "text" ∨ name = "resource" → leaf name u = Some v →
                                     strnonull (v_str v) ≠ CWild) (nf_update n).

Lemma last_of_wild name us old :
  old ≠ CWild → Forall (λ u, ∀ v, leaf name u = Some v → strnonull (v_str v) ≠ CWild) us →
  last_of name as_text us old ≠ CWild.
Proof.
  intros Ho Hus. revert old Ho. induction Hus as [|u us Hu Hus IH]; intros old Ho; [done|].
  rewrite last_of_cons. apply IH. destruct (leaf name u) as [v|] eqn:E; [|done]. cbn. by apply Hu.
Qed.
Lemma last_of_string name us old :
  old ≠ CWild → last_of name as_string us old ≠ CWild.
Proof.
  revert old. induction us as [|u us IH]; intros old Ho; [done|]. rewrite last_of_cons. apply IH.
  destruct (leaf name u) as [[]|]; done.
Qed.
Lemma pointed_text (s : stream) t : t ≠ CWild → c_string t s = Ok (pointed t) s.
Proof. by destruct t. Qed.

Lemma alarm_relayed n id (s : stream) :
  sound n → events_cbs s = proto_callbacks →
  alarm_gnma_cb (alarm_after (new_alarm id) (nf_update n)) s =
  on_world (alarm_plat_cb (let a := alarm_after (new_alarm id) (nf_update n) in
    mk_plat_alarm (Some id) (pointed (ga_resource a)) (pointed (ga_text a)) (ga_time_created a)
      (pointed (ga_type_id a)) (ga_severity a))) s.
Proof.
  intros Hs Hc. unfold alarm_gnma_cb, gets, mbind, M_bind. rewrite Hc. cbn [pc_alarm_cb proto_callbacks].
  assert (∀ name, name = "text" ∨ name = "resource" → Forall (λ u, ∀ v, leaf name u = Some v → strnonull (v_str v) ≠ CWild) (nf_update n)) as Hw.
  { intros name Hn. eapply Forall_impl; [exact Hs|]. intros u [_ Hu] v. by apply Hu. }
  rewrite !pointed_text; [done|..].
  - by apply last_of_string.
  - apply last_of_wild; [done|]. apply Hw. by left.
  - apply last_of_wild; [done|]. apply Hw. by right.
Qed.

Lemma port_read n e0 e1 e2 rest (s : stream) :
  nf_prefix n = e0 :: e1 :: e2 :: rest → pe_name e1 = "interface" →
  ∃ o, port_text n s = Ok o s ∧
       ∀ container u name text, on_port n container u name text ↔
         container = pe_name e2 ∧ o = Some (name, text) ∧ head (nf_update n) = Some u.
Proof.
  intros Hp H1. unfold port_text. rewrite Hp.
  assert (∀ o : option (string * string),
    (∀ k name keys u us text, pe_key e1 = (k, name) :: keys → nf_update n = u :: us → up_val u = Some (TvString text) →
       String.prefix "Ethernet" name = true → o = Some (name, text)) →
    (∀ name text, o = Some (name, text) → ∃ k keys u us, pe_key e1 = (k, name) :: keys ∧ nf_update n = u :: us ∧
       up_val u = Some (TvString text) ∧ String.prefix "Ethernet" name = true) →
    ∀ container u name text, on_port n container u name text ↔
      container = pe_name e2 ∧ o = Some (name, text) ∧ head (nf_update n) = Some u) as Hiff.
  { intros o Hto Hof c u nm t. split.
    - intros (a0 & a1 & a2 & r & k & keys & us & Hp' & _ & <- & Hk & Hu & Hv & He). rewrite Hp in Hp'. simplify_eq.
      split; [done|]. rewrite Hu. split; [by eapply Hto|done].
    - intros (-> & Ho & Hh). destruct (Hof _ _ Ho) as (k & keys & u' & us & Hk & Hu & Hv & He).
      rewrite Hu in Hh. injection Hh as ->. by exists e0, e1, e2, rest, k, keys, us. }
  destruct (pe_key e1) as [|[k name] keys]; [by eexists; split; [|apply Hiff; intros]|].
  destruct (nf_update n) as [|u us]; [by eexists; split; [|apply Hiff; intros]|].
  destruct (up_val u) as [[text| | |]|] eqn:Hv;
    try (eexists; split; [reflexivity|apply Hiff; [intros ?????? _ [= <- <-] Hv'; congruence|done]]).
  destruct (String.prefix "Ethernet" name) eqn:He; eexists; (split; [reflexivity|apply Hiff]).
  - intros ?????? [= <- <- <-] [= <- <-] Hv' _. congruence.
  - intros ? ? [= <- <-]. by exists k, keys, u, us.
  - intros ?????? [= <- <- <-] [= <- <-] _ He'. congruence.
  - done.
Qed.

Definition silent_about (n : gnmi_notification) : Prop := ∀ ev, ¬ reports n ev.
Definition settled (n : gnmi_notification) (m : M stream unit) (s : stream) : Prop :=
  (∃ ev, reports n ev ∧ m s = relay ev s) ∨ (silent_about n ∧ m s = Ok tt s).

Lemma reports_shape n ev : reports n ev →
  ∃ e0 e1 e2 rest, nf_prefix n = e0 :: e1 :: e2 :: rest ∧
    match ev with SAlarm _ => pe_name e1 = "alarms" | _ => pe_name e1 = "interface" end.
Proof.
  intros [e0 e1 e2 rest id Hp H1 _ _ _|u nm t up H _|c u nm t st H _ _ _|c u nm t st H _ _ _];
    [by eauto 10|destruct H as (e0 & e1 & e2 & rest & H); naive_solver..].
Qed.

Lemma alarm_settled n e0 e1 e2 rest (s : stream) :
  sound n → events_cbs s = proto_callbacks → nf_prefix n = e0 :: e1 :: e2 :: rest → pe_name e1 = "alarms" →
  settled n (alarm_gnmi_cb n (Some alarm_gnma_cb)) s.
Proof.
  intros Hs Hc Hp H1. unfold alarm_gnmi_cb. rewrite Hp.
  assert (∀ ev, reports n ev → ∃ id, pe_key e2 = [("id", id)] ∧ id ≠ "" ∧
            ga_acknowledged (alarm_after (new_alarm id) (nf_update n)) = false) as Hinv.
  { intros ev Hr. pose proof (reports_shape _ _ Hr) as (?&?&?&?&Hp'&Hk). rewrite Hp in Hp'. simplify_eq.
    destruct Hr as [? ? ? ? id Hp' _ Hkey Hid Hack|u nm t up H _|c u nm t st H _ _ _|c u nm t st H _ _ _];
      [rewrite Hp in Hp'; simplify_eq; by exists id|exfalso; congruence..]. }
  destruct (pe_key e2) as [|[k id] [|]] eqn:Hk; [right; split; [|done]; intros ev Hr; by destruct (Hinv ev Hr) as (?&?&_)| |
    right; split; [|done]; intros ev Hr; by destruct (Hinv ev Hr) as (?&?&_)].
  destruct (decide (k = "id" ∧ id ≠ "")) as [[-> Hid]|Hn].
  2:{ right. split.
      - intros ev Hr. destruct (Hinv ev Hr) as (id' & ? & ? & _). simplify_eq. by destruct Hn.
      - destruct (streq k "id") eqn:Ek; [apply streq_eq in Ek as ->|done]. cbn [negb orb].
        destruct (streq id "") eqn:Ei; [done|]. destruct Hn. split; [done|]. intros ->. done. }
  rewrite (streq_ne _ _ Hid), streq_refl. cbn [negb orb].
  unfold settled. erewrite bind_run by (apply alarm_updates; eapply Forall_impl; [exact Hs|by intros u [Hu _]]). fold (new_alarm id).
  destruct (ga_acknowledged (alarm_after _ _)) eqn:Hack.
  - right. split; [|done]. intros ev Hr. destruct (Hinv ev Hr) as (id' & ? & _ & Hf). simplify_eq. congruence.
  - left. eexists. split; [by eapply reports_alarm|]. cbn [call_opt relay].
    unfold mbind, M_bind. rewrite (alarm_relayed n id s Hs Hc). done.
Qed.

(** A callback that sends nothing for this notification. *)
Lemma settled_nothing n (m : M stream unit) s : silent_about n → m s = Ok tt s → settled n m s.
Proof. by right. Qed.

Lemma port_event n ev e0 e1 e2 rest :
  nf_prefix n = e0 :: e1 :: e2 :: rest → pe_name e1 = "interface" → reports n ev →
  ∃ u name text, on_port n (pe_name e2) u name text ∧
    (pe_name e2 = "state" ∧ (∃ up, (text, up) ∈ [("UP", true); ("DOWN", false)]) ∨
     pe_name e2 ≠ "state" ∧ names_leaf u "status" ∧ (∃ st, (text, st) ∈ poe_status_texts) ∨
     pe_name e2 ≠ "state" ∧ names_leaf u "fault-code" ∧ (∃ code, (text, code) ∈ poe_fault_texts)).
Proof.
  intros Hp H1 Hr.
  assert (∀ c u name text, on_port n c u name text → c = pe_name e2) as Hc.
  { intros c u name text (a0 & a1 & a2 & r & ? & ? & ? & Hp' & _ & <- & _). rewrite Hp in Hp'. by simplify_eq. }
  destruct Hr as [a0 a1 a2 r id Hp' H1' _ _ _|u nm t up H Ht|c u nm t st H Hne Hl Ht|c u nm t st H Hne Hl Ht].
  - rewrite Hp in Hp'. simplify_eq. congruence.
  - pose proof (Hc _ _ _ _ H) as E. rewrite E in H. exists u, nm, t. split; [done|]. left. eauto.
  - pose proof (Hc _ _ _ _ H) as E. rewrite E in *. exists u, nm, t. split; [done|]. right. left. eauto.
  - pose proof (Hc _ _ _ _ H) as E. rewrite E in *. exists u, nm, t. split; [done|]. right. right. eauto.
Qed.
Lemma on_port_det n c u u' name name' text text' :
  on_port n c u name text → on_port n c u' name' text' → u = u' ∧ name = name' ∧ text = text'.
Proof.
  intros (?&?&?&?&?&?&?&A1&_&_&A2&A3&A4&_) (?&?&?&?&?&?&?&B1&_&_&B2&B3&B4&_).
  rewrite A1 in B1. simplify_eq. rewrite A2 in B2. rewrite A3 in B3. by simplify_eq.
Qed.

Lemma link_settled n e0 e1 e2 rest (s : stream) :
  events_cbs s = proto_callbacks → nf_prefix n = e0 :: e1 :: e2 :: rest → pe_name e1 = "interface" →
  pe_name e2 = "state" → settled n (linkstatus_gnmi_cb n (Some linkstatus_gnma_cb)) s.
Proof.
  intros Hc Hp H1 H2. destruct (port_read n e0 e1 e2 rest s Hp H1) as (o & Ho & Hiff).
  unfold settled, linkstatus_gnmi_cb. erewrite bind_run by exact Ho.
  destruct o as [[name text]|].
  - assert (∃ u, on_port n "state" u name text) as [u Hu].
    { unfold port_text in Ho. rewrite Hp in Ho. destruct (nf_update n) as [|u us] eqn:Eu.
      - by destruct (pe_key e1) as [|[]].
      - exists u. apply Hiff. by rewrite H2. }
    assert (∀ up, (text, up) ∈ [("UP", true); ("DOWN", false)] →
       linkstatus_gnma_cb (mk_gnma_linkstatus (nf_timestamp n) name up) s =
       relay (SLink (seconds (nf_timestamp n)) name up) s) as Hrelay.
    { intros up _. unfold linkstatus_gnma_cb, gets, mbind, M_bind. by rewrite Hc. }
    destruct (streq "DOWN" text) eqn:Ed; [apply streq_eq in Ed as <-|].
    { left. eexists. split; [eapply reports_link; [exact Hu|right; left]|by apply Hrelay; right; left]. }
    destruct (streq "UP" text) eqn:Eup; [apply streq_eq in Eup as <-|].
    { left. eexists. split; [eapply reports_link; [exact Hu|left]|by apply Hrelay; left]. }
    right. split; [|done]. intros ev Hr.
    destruct (port_event _ _ _ _ _ _ Hp H1 Hr) as (u' & nm & t & Hon & [(_ & up & Hin)|[(? & _)|(? & _)]]);
      [|congruence..].
    rewrite H2 in Hon. destruct (on_port_det _ _ _ _ _ _ _ _ Hu Hon) as (_ & _ & <-).
    apply elem_of_cons in Hin as [?|Hin]; [by simplify_eq|]. apply list_elem_of_singleton in Hin. by simplify_eq.
  - right. split; [|done]. intros ev Hr.
    destruct (port_event _ _ _ _ _ _ Hp H1 Hr) as (u' & nm & t & Hon & _). apply Hiff in Hon. naive_solver.
Qed.

(** A notification about the power of a port. *)
Section power.
Context (n : gnmi_notification) (e0 e1 e2 : gnmi_path_elem) (rest : list gnmi_path_elem) (s : stream)
  (u : gnmi_subscribe_update) (us : list gnmi_subscribe_update) (p0 : gnmi_path_elem) (path : list gnmi_path_elem).
Hypothesis Hc : events_cbs s = proto_callbacks.
Hypothesis Hp : nf_prefix n = e0 :: e1 :: e2 :: rest.
Hypothesis H1 : pe_name e1 = "interface".
Hypothesis H2 : pe_name e2 ≠ "state".
Hypothesis Hu : nf_update n = u :: us.
Hypothesis Hl : up_path u = Some (p0 :: path).

Lemma power_event ev : reports n ev → ∃ name text,
  on_port n (pe_name e2) u name text ∧
  (pe_name p0 = "status" ∧ (∃ st, (text, st) ∈ poe_status_texts) ∨
   pe_name p0 = "fault-code" ∧ (∃ code, (text, code) ∈ poe_fault_texts)).
Proof using Hp H1 H2 Hu Hl.
  intros Hr. destruct (port_event _ _ _ _ _ _ Hp H1 Hr) as (u' & nm & t & Hon & Hcase).
  assert (u' = u) as ->.
  { destruct Hon as (?&?&?&?&?&?&?&_&_&_&_&Hu'&_). rewrite Hu in Hu'. by simplify_eq. }
  exists nm, t. split; [done|].
  destruct Hcase as [(? & _)|[(_ & (q0 & q & Hq & Hn) & Ht)|(_ & (q0 & q & Hq & Hn) & Ht)]];
    [done|rewrite Hl in Hq; simplify_eq; auto..].
Qed.

Lemma power_settled (tbl : list (string * Z)) (m : option (string * string) → M stream unit)
    (mk : string → Z → switch_event) :
  (∀ text v, (text, v) ∈ tbl → ∀ name, on_port n (pe_name e2) u name text → reports n (mk name v)) →
  (∀ name text ev, on_port n (pe_name e2) u name text → reports n ev → ∃ v, (text, v) ∈ tbl) →
  m None s = Ok tt s →
  (∀ name text, (∀ v, (text, v) ∈ tbl → m (Some (name, text)) s = relay (mk name v) s) ∧
                ((∀ v, (text, v) ∉ tbl) → m (Some (name, text)) s = Ok tt s)) →
  settled n (o ← port_text n; m o) s.
Proof using Hp H1 H2 Hu Hl.
  intros Hrep Hinv Hnone Hsome. destruct (port_read n e0 e1 e2 rest s Hp H1) as (o & Ho & Hiff).
  unfold settled. rewrite (bind_run _ _ _ _ _ Ho). destruct o as [[name text]|].
  - assert (on_port n (pe_name e2) u name text) as Hon by (apply Hiff; by rewrite Hu).
    destruct (Hsome name text) as [Hin Hout].
    destruct (decide (text ∈ tbl.*1)) as [[[? v] [-> Hv]]%list_elem_of_fmap|Hno]; cbn in *.
    + left. eauto.
    + right. assert (∀ v, (text, v) ∉ tbl) as Hnv.
      { intros v Hv. apply Hno. by apply (list_elem_of_fmap_2 fst tbl (text, v)). }
      split; [|by apply Hout]. intros ev Hr. by destruct (Hinv _ _ _ Hon Hr) as [v Hv%Hnv].
  - right. split; [|done]. intros ev Hr. destruct (power_event ev Hr) as (nm & t & Hon & _).
    apply Hiff in Hon. naive_solver.
Qed.

Lemma status_settled : pe_name p0 = "status" → settled n (poe_linkstatus_gnmi_cb n (Some poe_linkstatus_gnma_cb)) s.
Proof using Hc Hp H1 H2 Hu Hl.
  intros Hn. destruct status_texts_ok as [Hnd Hs].
  apply (power_settled poe_status_texts _ (SPoeStatus (seconds (nf_timestamp n)))); [..|done|].
  - intros text v Hv name Hon. eapply reports_poe_status; [exact Hon|done|by exists p0, path|done].
  - intros name text ev Hon Hr. destruct (power_event ev Hr) as (nm & t & Hon' & [[_ Ht]|[? _]]); [|congruence].
    by destruct (on_port_det _ _ _ _ _ _ _ _ Hon Hon') as (_ & _ & ->).
  - intros name text. cbn [call_opt]. unfold poe_linkstatus_gnma_cb. cbn [gp_status gp_timestamp gp_ifname]. split.
    + intros v Hv. rewrite (proj2 (table_find_cut _ _ _ Hnd Hs) Hv). unfold gets, mbind, M_bind. by rewrite Hc.
    + intros Hv. destruct (table_find streq poe_status_texts _) as [v|] eqn:E; [|done].
      by apply (table_find_cut _ _ _ Hnd Hs), Hv in E.
Qed.

Lemma fault_settled :
  pe_name p0 = "fault-code" → settled n (poe_link_faultcode_gnmi_cb n (Some poe_link_faultcode_gnma_cb)) s.
Proof using Hc Hp H1 H2 Hu Hl.
  intros Hn. destruct fault_texts_ok as [Hnd Hs].
  apply (power_settled poe_fault_texts _ (SPoeFault (seconds (nf_timestamp n)))); [..|done|].
  - intros text v Hv name Hon. eapply reports_poe_fault; [exact Hon|done|by exists p0, path|done].
  - intros name text ev Hon Hr. destruct (power_event ev Hr) as (nm & t & Hon' & [[? _]|[_ Ht]]); [congruence|].
    by destruct (on_port_det _ _ _ _ _ _ _ _ Hon Hon') as (_ & _ & ->).
  - intros name text. cbn [call_opt]. unfold poe_link_faultcode_gnma_cb. cbn [gf_faultcode gf_timestamp gf_ifname].
    split.
    + intros v Hv. pose proof (proj2 (table_find_cut _ text v Hnd Hs) Hv) as E. rewrite E.
      destruct (streq "NO_ERROR" (c_strncpy 31 text)) eqn:En; [apply streq_eq in En; by rewrite <- En in E|].
      unfold gets, mbind, M_bind. by rewrite Hc.
    + intros Hv. destruct (streq "NO_ERROR" _); [done|].
      destruct (table_find streq poe_fault_texts _) as [v|] eqn:E; [|done].
      by apply (table_find_cut _ _ _ Hnd Hs), Hv in E.
Qed.
End power.

Lemma notification_settled n (s : stream) :
  subscribe_hdl s = true → events_cbs s = proto_callbacks → sound n → settled n (deliver (Some (Some n))) s.
Proof.
  intros Hh Hc Hs.
  assert (deliver (Some (Some n)) s = subscribe_gnmi_cb plat_callbacks (Some (Some n)) s) as E
    by (unfold deliver, gets, mbind, M_bind; by rewrite Hh).
  unfold settled. rewrite E. clear E.
  change (settled n (subscribe_gnmi_cb plat_callbacks (Some (Some n))) s). unfold subscribe_gnmi_cb.
  cbn [plat_callbacks sc_alarm_cb sc_linkstatus_cb sc_poe_linkstatus_cb sc_poe_link_faultcode_cb].
  assert (∀ m : M stream unit, (∀ ev, reports n ev → False) → m s = Ok tt s → settled n m s) as Hno
    by (intros m H E; by right).
  destruct (nf_prefix n) as [|e0 [|e1 rest]] eqn:Hp;
    [apply Hno; [|done]; intros ev Hr; destruct (reports_shape _ _ Hr) as (?&?&?&?&?&_); congruence..|].
  destruct (decide (pe_name e1 = "alarms")) as [Ha|Ha].
  { rewrite Ha, streq_refl. destruct rest as [|e2 rest]; [|by eapply alarm_settled].
    apply Hno; [|unfold alarm_gnmi_cb; by rewrite Hp].
    intros ev Hr; destruct (reports_shape _ _ Hr) as (?&?&?&?&?&_); congruence. }
  rewrite (streq_ne _ _ Ha). destruct (decide (pe_name e1 = "interface")) as [H1|H1].
  2:{ rewrite (streq_ne _ _ H1). apply Hno; [|done].
      intros ev Hr. destruct (reports_shape _ _ Hr) as (?&?&?&?&?&Hn). destruct ev; congruence. }
  rewrite H1, streq_refl. destruct rest as [|e2 rest].
  { apply Hno; [|done]. intros ev Hr; destruct (reports_shape _ _ Hr) as (?&?&?&?&?&_); congruence. }
  destruct (decide (pe_name e2 = "state")) as [H2|H2].
  { rewrite H2, streq_refl. by eapply link_settled. }
  rewrite (streq_ne _ _ H2).
  destruct (nf_update n) as [|u us] eqn:Hu.
  { apply Hno; [|done]. intros ev Hr. destruct (port_event _ _ _ _ _ _ Hp H1 Hr) as (?&?&?&Hon&_).
    destruct Hon as (?&?&?&?&?&?&?&_&_&_&_&?&_). congruence. }
  destruct (up_path u) as [[|p0 path]|] eqn:Hl.
  1,3: apply Hno; [|done]; intros ev Hr; destruct (port_event _ _ _ _ _ _ Hp H1 Hr) as (u'&?&?&Hon&Hcase);
       assert (u' = u) as -> by (destruct Hon as (?&?&?&?&?&?&?&_&_&_&_&?&_); congruence);
       destruct Hcase as [(?&_)|[(_&(?&?&?&_)&_)|(_&(?&?&?&_)&_)]]; congruence.
  destruct (decide (pe_name p0 = "status")) as [Hst|Hst]; [rewrite Hst, streq_refl; by eapply status_settled|].
  rewrite (streq_ne _ _ Hst).
  destruct (decide (pe_name p0 = "fault-code")) as [Hf|Hf]; [rewrite Hf, streq_refl; by eapply fault_settled|].
  rewrite (streq_ne _ _ Hf). apply Hno; [|done]. intros ev Hr.
  destruct (power_event n e0 e1 e2 rest u us p0 path Hp H1 H2 Hu Hl ev Hr) as (?&?&_&[[? _]|[? _]]); congruence.
Qed.

(** A notification is about one event at most. *)
Lemma reports_det n ev ev' : reports n ev → reports n ev' → ev = ev'.
Proof.
  assert (∀ c c' u u' nm nm' t t', on_port n c u nm t → on_port n c' u' nm' t' →
            c = c' ∧ u = u' ∧ nm = nm' ∧ t = t') as Hdet.
  { intros c c' u u' nm nm' t t' (?&?&?&?&?&?&?&A1&_&<-&A2&A3&A4&_) (?&?&?&?&?&?&?&B1&_&<-&B2&B3&B4&_).
    rewrite A1 in B1. simplify_eq. rewrite A2 in B2. rewrite A3 in B3. by simplify_eq. }
  assert (∀ c u nm t e0 e1 e2 rest, on_port n c u nm t → nf_prefix n = e0 :: e1 :: e2 :: rest →
            pe_name e1 = "alarms" → False) as Hport.
  { intros c u nm t e0 e1 e2 rest (?&?&?&?&?&?&?&A1&?&_) B1 B2. rewrite A1 in B1. simplify_eq. congruence. }
  assert (∀ u a b, names_leaf u a → names_leaf u b → a = b) as Hleaf.
  { intros u a b (?&?&A&<-) (?&?&B&<-). rewrite A in B. by simplify_eq. }
  intros [a0 a1 a2 r id Hp H1 Hk Hi Ha|u nm t up H Ht|c u nm t st H Hne Hl Ht|c u nm t st H Hne Hl Ht]
         [b0 b1 b2 r' id' Hp' H1' Hk' Hi' Ha'|u' nm' t' up' H' Ht'|c' u' nm' t' st' H' Hne' Hl' Ht'|c' u' nm' t' st' H' Hne' Hl' Ht'];
    try (exfalso; by eapply Hport); try (destruct (Hdet _ _ _ _ _ _ _ _ H H') as (Ec & Eu & En & Et); subst).
  - rewrite Hp in Hp'. simplify_eq. rewrite Hk in Hk'. by simplify_eq.
  - f_equal. apply elem_of_cons in Ht as [?|Ht%list_elem_of_singleton]; apply elem_of_cons in Ht' as [?|Ht'%list_elem_of_singleton];
      congruence.
  - done.
  - done.
  - done.
  - f_equal. apply (table_find_iff _ _ _ (proj1 status_texts_ok)) in Ht, Ht'. congruence.
  - by specialize (Hleaf _ _ _ Hl Hl').
  - done.
  - by specialize (Hleaf _ _ _ Hl Hl').
  - f_equal. apply (table_find_iff _ _ _ (proj1 fault_texts_ok)) in Ht, Ht'. congruence.
Qed.

(** What a response of the device is about, and the events of a stream of them,
    in order. *)
Definition about (r : response) (ev : switch_event) : Prop := ∃ n, r = Some (Some n) ∧ reports n ev.
Definition sound_response (r : response) : Prop := ∀ n, r = Some (Some n) → sound n.
Inductive told : list response → list switch_event → Prop :=
  | told_nil : told [] []
  | told_event r rs ev evs : about r ev → told rs evs → told (r :: rs) (ev :: evs)
  | told_nothing r rs evs : (∀ ev, ¬ about r ev) → told rs evs → told (r :: rs) evs.

Lemma told_det rs evs evs' : told rs evs → told rs evs' → evs = evs'.
Proof.
  intros H. revert evs'. induction H as [|r rs ev evs Hr _ IH|r rs evs Hr _ IH]; intros evs' H';
    inversion H' as [|? ? ev' ? Hr' H1|? ? ? Hr' H1]; subst; [done|..].
  - destruct Hr as (n & -> & Hn), Hr' as (n' & [= <-] & Hn'). by rewrite (reports_det _ _ _ Hn Hn'), (IH _ H1).
  - by destruct (Hr' ev).
  - by destruct (Hr ev').
  - by apply IH.
Qed.

(** The callbacks of proto.c return, whatever could not be allocated. *)
Lemma sent_or_not body (w : world) : safe body → ∃ w', send_or (ret tt) body w = Ok tt w'.
Proof.
  intros Hb. unfold send_or, try, mbind, M_bind. specialize (Hb w). unfold wp in Hb.
  destruct (body w) as [j w'|w'|f]; [|by eexists|done]. unfold send_blob, mbind, M_bind.
  pose proof (safe_alloc w') as Ha. unfold wp, alloc in *. destruct (w_heap w') as [|[] h]; by eexists.
Qed.
Lemma safe_str_opt key v o : safe (add_str_opt key v o).
Proof. destruct v; [apply safe_add|]. apply safe_bind; [apply safe_alloc|intros; apply safe_fail]. Qed.
Lemma safe_event_body ts (add_type : json → M world json) key value :
  (∀ o, safe (add_type o)) → ∀ w, ∃ w', event_send ts add_type key value w = Ok tt w'.
Proof.
  intros Ht w. apply sent_or_not. apply safe_bind; [apply safe_proto_new_blob|intros k].
  apply safe_bind; [unfold add_serial, add_str; apply safe_bind; [apply safe_gets|intros ?; apply safe_add]|intros o].
  apply safe_bind; [|intros; apply safe_ret]. apply safe_add_object. intros ?. apply safe_add_array. intros ?.
  apply safe_bind; [apply safe_push|intros ?]. apply safe_bind; [apply safe_new|intros ?].
  apply safe_bind; [apply Ht|intros ?]. apply safe_bind; [|intros; apply safe_ret].
  apply safe_add_object. intros ?. apply safe_str_opt.
Qed.
Lemma alarm_cb_returns a w : ∃ w', alarm_plat_cb a w = Ok tt w'.
Proof.
  apply sent_or_not. apply safe_bind; [apply safe_proto_new_blob|intros k].
  apply safe_bind; [unfold add_serial, add_str; apply safe_bind; [apply safe_gets|intros ?; apply safe_add]|intros o].
  apply safe_bind; [|intros; apply safe_ret]. apply safe_add_object. intros ?.
  repeat (apply safe_bind; [first [apply safe_str_opt|apply safe_add]|intros ?]). apply safe_add.
Qed.

Definition still (s s' : stream) : Prop := subscribe_hdl s' = subscribe_hdl s ∧ events_cbs s' = events_cbs s.
Lemma on_world_returns (m : M world unit) (s : stream) :
  (∀ w, ∃ w', m w = Ok tt w') → ∃ s', on_world m s = Ok tt s' ∧ still s s'.
Proof. intros H. unfold on_world. destruct (H (st_world s)) as [w' ->]. eexists; split; [done|by destruct s]. Qed.
Lemma relay_returns ev (s : stream) : ∃ s', relay ev s = Ok tt s' ∧ still s s'.
Proof.
  destruct ev as [a|secs name up|secs name st|secs name code]; cbn [relay].
  - edestruct on_world_returns as (s1 & E & Hs1); [apply alarm_cb_returns|].
    erewrite bind_run by exact E. unfold mbind, M_bind, on_gnmi, send. destruct (gdev_do _ _) as [rc d].
    eexists. split; [done|]. destruct Hs1 as [H1 H2]. by destruct s1.
  - by apply on_world_returns, safe_event_body; intros; apply safe_add.
  - apply on_world_returns, safe_event_body. intros o. destruct (table_find _ _ _); [apply safe_add|first [apply safe_ret|apply safe_fail]].
  - apply on_world_returns, safe_event_body. intros o. destruct (table_find _ _ _); [apply safe_add|first [apply safe_ret|apply safe_fail]].
Qed.

Lemma response_settled r (s : stream) :
  subscribe_hdl s = true → events_cbs s = proto_callbacks → sound_response r →
  (∃ ev, about r ev ∧ deliver r s = relay ev s) ∨ ((∀ ev, ¬ about r ev) ∧ deliver r s = Ok tt s).
Proof.
  intros Hh Hc Hs. destruct r as [[n|]|].
  - destruct (notification_settled n s Hh Hc (Hs n eq_refl)) as [(ev & Hev & E)|[Hno E]].
    + left. exists ev. split; [by exists n|done].
    + right. split; [|done]. intros ev (? & [= <-] & Hn). by eapply Hno.
  - right. split; [by intros ev (? & ? & _)|]. unfold deliver, gets, mbind, M_bind. by rewrite Hh.
  - right. split; [by intros ev (? & ? & _)|]. unfold deliver, gets, mbind, M_bind. by rewrite Hh.
Qed.

(** C9: The responses the switch sends to a client that is subscribed, one after
    another, become exactly the events they are about, in their order
    ([told], which is a function): an alarm with an id that is not acknowledged
    yet is sent with the last value of each of its leaves and then acknowledged
    on the switch; a change of the operational status, of the power status or
    of the power fault of an Ethernet port is sent with the port and the time
    in seconds; any other response changes neither side of the client.  Every
    one of them is handled, whatever cannot be allocated and whatever the
    switch answers to the acknowledgement, and the client is still subscribed
    with the callbacks of proto.c at the end.  The condition is [sound]: no
    update of a notification has an empty path, and what it gives as the text
    or the resource of an alarm is a string (or a null); another one crashes
    the client ([alarms_at_the_edge]). *)
Theorem notification_outcome rs (s : stream) :
  subscribe_hdl s = true → events_cbs s = proto_callbacks → Forall sound_response rs →
  ∃ evs s', told rs evs ∧ (∀ evs', told rs evs' → evs' = evs) ∧
            for_each rs deliver s = Ok tt s' ∧ for_each evs relay s = Ok tt s' ∧
            subscribe_hdl s' = true ∧ events_cbs s' = proto_callbacks.
Proof.
  intros Hh Hc Hs.
  assert (∃ evs s', told rs evs ∧ for_each rs deliver s = Ok tt s' ∧ for_each evs relay s = Ok tt s' ∧
            subscribe_hdl s' = true ∧ events_cbs s' = proto_callbacks) as (evs & s' & Ht & H).
  { revert s Hh Hc. induction Hs as [|r rs Hr _ IH]; intros s Hh Hc; [by exists [], s; repeat constructor|].
    destruct (response_settled r s Hh Hc Hr) as [(ev & Hev & E)|[Hno E]].
    - destruct (relay_returns ev s) as (s1 & E1 & H1 & H2).
      destruct (IH s1) as (evs & s' & Ht & Ed & Er & Hend); [congruence..|].
      exists (ev :: evs), s'. split; [by constructor|]. cbn [for_each]. by rewrite E, E1.
    - destruct (IH s Hh Hc) as (evs & s' & Ht & Ed & Er & Hend). exists evs, s'.
      split; [by constructor|]. cbn [for_each]. by rewrite E. }
  exists evs, s'. split; [done|]. split; [|done]. intros evs' Ht'. by eapply told_det.
Qed.
End refinement.

(** ** Concrete notifications *)
Definition sample_stream (cbs : bool) : @stream jtree_cjson sample_gnmi sample_platform :=
  mk_stream (sample_session [] []) (sample_world 0) true (if cbs then proto_callbacks else no_callbacks).
Definition elem (name : string) : gnmi_path_elem := mk_gnmi_path_elem name [].
Definition state_update (name : string) (v : gnmi_typed_value) : gnmi_subscribe_update :=
  mk_gnmi_subscribe_update (Some [elem "state"; elem name]) (Some v).
Definition sample_alarm (acknowledged : bool) : gnmi_notification :=
  mk_gnmi_notification 5 [elem "system"; elem "alarms"; mk_gnmi_path_elem "alarm" [("id", "7")]]
    [state_update "text" (TvString "fan"); state_update "severity" (TvString "MAJOR");
     state_update "text" (TvString "fan failed"); state_update "acknowledged" (TvBool acknowledged)].
Definition sample_link : gnmi_notification :=
  mk_gnmi_notification 7999999999 [elem "interfaces"; mk_gnmi_path_elem "interface" [("name", "Ethernet2")]; elem "state"]
    [mk_gnmi_subscribe_update (Some [elem "oper-status"]) (Some (TvString "DOWN"))].

Definition sample_responses : list response := [Some None; Some (Some (sample_alarm false)); Some (Some sample_link)].
Lemma notification_outcome_witness :
  Forall sound_response sample_responses ∧
  ∃ evs s', told sample_responses evs ∧ (∀ evs', told sample_responses evs' → evs' = evs) ∧
            for_each sample_responses deliver (sample_stream true) = Ok tt s' ∧
            for_each evs relay (sample_stream true) = Ok tt s' ∧
            subscribe_hdl s' = true ∧ events_cbs s' = proto_callbacks.
Proof.
  assert (Forall sound_response sample_responses) as Hs.
  { repeat constructor; intros n [= <-]; repeat constructor; try done; intros name v Hn; unfold leaf;
      cbn [up_path up_val state_update elem sample_link]; try case_bool_decide; by intros [= <-]. }
  split; [exact Hs|]. exact (notification_outcome sample_responses (sample_stream true) eq_refl eq_refl Hs).
Defined.

Definition acks (r : option gnmi_subscribe_response) (s : @stream jtree_cjson sample_gnmi sample_platform) :
    option (list string * nat) :=
  match deliver r s with
  | Ok _ s' => Some (omap (λ m, match m.1 with gnmi_gnoi_sonic_alarm_acknowledge id => Some id | _ => None end)
                       (gn_sent (st_gnmi s')), length (w_out (st_world s')))
  | _ => None
  end.
Example notifications_examples :
  acks (Some (Some (sample_alarm false))) (sample_stream true) = Some (["7"], 1%nat) ∧
  acks (Some (Some (sample_alarm true))) (sample_stream true) = Some ([], 0%nat) ∧
  acks (Some (Some sample_link)) (sample_stream true) = Some ([], 1%nat) ∧
  acks (Some None) (sample_stream true) = Some ([], 0%nat).
Proof. by vm_compute. Qed.

(** An alarm nobody receives is acknowledged all the same; a number sent as
    the text of an alarm is read as a pointer; an update with an empty path is
    read past its elements. *)
Definition fault_of {S A} (m : M S A) (s : S) : option fault := match m s with Fault f => Some f | _ => None end.
Definition alarm_with (u : gnmi_subscribe_update) : option gnmi_subscribe_response :=
  Some (Some (mk_gnmi_notification 5 (nf_prefix (sample_alarm false)) [u])).
Example alarms_at_the_edge :
  acks (Some (Some (sample_alarm false))) (sample_stream false) = Some (["7"], 0%nat) ∧
  fault_of (deliver (alarm_with (state_update "text" (TvUint 5)))) (sample_stream true) = Some InvalidPointer ∧
  fault_of (deliver (alarm_with (mk_gnmi_subscribe_update (Some []) (Some (TvUint 5))))) (sample_stream true) =
    Some NullDeref.
Proof. by vm_compute. Qed.
