(* ===== verification/GnmaSpec.v ===== *)
(** * What the settings of the switch send

    [atomic] is the contract of a setting: one message, the same from every
    state, whose acceptance is the success of the setting; or, when memory runs
    out before it, none and a failure.  The rules below establish it for the
    functions the settings are made of. *)

From S2P Require Import Prelude CNum CStr Bitmap Router Json PlatTypes World Gnma Gnmi Sample GnmaSet GnmaGet GnmaImpl.
#[local] Open Scope list_scope.

Create HintDb atomic.
Create HintDb harmless.

Section spec.
Context `{J : CJson, N : !Gnmi, L : CLibc, T : CTarget}.

(** ** No message: only an allocation can fail *)
Definition untold (g g' : gnmi) : Prop := gn_sent g' = gn_sent g ∧ (gn_heap g = [] → gn_heap g' = []).
Definition starved (g g' : gnmi) : Prop := gn_sent g' = gn_sent g ∧ gn_heap g ≠ [].

Lemma untold_trans g1 g2 g3 : untold g1 g2 → untold g2 g3 → untold g1 g3.
Proof. unfold untold. intros [E1 H1] [E2 H2]. split; [congruence|auto]. Qed.
Lemma untold_starved g1 g2 g3 : untold g1 g2 → starved g2 g3 → starved g1 g3.
Proof. unfold untold, starved. intros [E1 H1] [E2 H2]. split; [congruence|auto]. Qed.

Definition quiet {A} (m : M gnmi A) : Prop := ∀ g, wp m (λ _, untold g) (starved g) no_fault g.

Lemma quiet_ret {A} (a : A) : quiet (ret a).
Proof. by intros g. Qed.
Lemma quiet_bind {A B} (m : M gnmi A) (k : A → M gnmi B) : quiet m → (∀ a, quiet (k a)) → quiet (m ≫= k).
Proof.
  intros Hm Hk g. apply wp_bind. eapply wp_mono; [apply Hm| | |done]; [|done].
  intros a g1 H1. eapply wp_mono; [apply Hk| | |done]; [intros ? s'|intros s']; intros H.
  - exact (untold_trans _ _ _ H1 H).
  - exact (untold_starved _ _ _ H1 H).
Qed.
Lemma quiet_alloc_or_fail : quiet gn_alloc_or_fail.
Proof.
  intros g. unfold gn_alloc_or_fail, gn_alloc, wp, mbind, M_bind, untold, starved.
  destruct (gn_heap g) as [|[] h] eqn:Hg; cbn; by rewrite ?Hg.
Qed.
Lemma quiet_allocs n : quiet (allocs n).
Proof.
  intros g. apply (wp_for_each_inv (untold g)); [done| |done].
  intros _ g1 _ H1. eapply wp_mono; [apply quiet_alloc_or_fail| | |done]; [intros ? s'|intros s']; intros H.
  - exact (untold_trans _ _ _ H1 H).
  - exact (untold_starved _ _ _ H1 H).
Qed.
Lemma quiet_build i : quiet (_ ← allocs (nodes i); ret tt).
Proof. apply quiet_bind; [apply quiet_allocs|intros; apply quiet_ret]. Qed.

(** ** One message or a failure *)
Definition told (msg : gnmi_msg) (g g' : gnmi) (rc : Z) : Prop :=
  (starved g g' ∧ rc ≠ 0) ∨ ∃ r, gn_sent g' = gn_sent g ++ [(msg, r)] ∧ (rc = 0 ↔ r = 0).

Definition atomic (msg : gnmi_msg) (m : M gnmi Z) : Prop :=
  ∀ g, wp m (λ rc g', told msg g g' rc) (λ _, False) no_fault g.

(** A part that ends in the message, whose refusal is its failure. *)
Definition sends {A} (msg : gnmi_msg) (m : M gnmi A) : Prop :=
  ∀ g, wp m (λ _ g', gn_sent g' = gn_sent g ++ [(msg, 0)])
    (λ g', starved g g' ∨ ∃ r, gn_sent g' = gn_sent g ++ [(msg, r)] ∧ r ≠ 0) no_fault g.

Lemma sends_send_ok msg : sends msg (send_ok msg).
Proof.
  intros g. unfold send_ok, send. apply wp_bind. unfold wp at 1. destruct (gdev_do msg _) as [rc d]. cbn.
  apply wp_fail_if.
  - intros Hrc%negb_true_iff%Z.eqb_neq. right. by exists rc.
  - intros Hrc%negb_false_iff%Z.eqb_eq. by subst rc.
Qed.
Lemma sends_bind {A B} msg (m : M gnmi A) (k : A → M gnmi B) :
  quiet m → (∀ a, sends msg (k a)) → sends msg (m ≫= k).
Proof.
  intros Hm Hk g. apply wp_bind. eapply wp_mono; [apply Hm| | |done]; [|by left].
  intros a g1 [E H]. eapply wp_mono; [apply Hk| | |done]; cbv beta; rewrite E; [done|].
  intros g2 [S|(r & Hr)]; [left; by eapply untold_starved|right; eauto].
Qed.
Lemma sends_json path j : sends (gnmi_jsoni_set path j) (gnmi_json_send path j).
Proof. apply sends_bind; [apply quiet_alloc_or_fail|intros; apply sends_send_ok]. Qed.

(** Building gives the item. *)
Lemma bind_ret_eq {A B C} (m : M gnmi A) (b : B) (k : B → M gnmi C) g :
  ((_ ← m; ret b) ≫= k) g = (_ ← m; k b) g.
Proof. unfold mbind, M_bind. by destruct (m g). Qed.
Lemma sends_ext {A} msg (m m' : M gnmi A) : (∀ g, m g = m' g) → sends msg m' → sends msg m.
Proof. intros E H g. specialize (H g). unfold wp in *. by rewrite E. Qed.
Lemma sends_object path val : sends (gnmi_jsoni_set path (json_of val)) (gnmi_json_object_set path val).
Proof.
  eapply sends_ext; [intros g; apply bind_ret_eq|].
  apply sends_bind; [apply quiet_allocs|intros; apply sends_json].
Qed.

Lemma atomic_common {A} msg (m : M gnmi A) : sends msg m → atomic msg (common (_ ← m; ret 0)).
Proof.
  intros Hm g. specialize (Hm g). unfold common, wp, told, mbind, M_bind in *.
  destruct (m g) as [a g'|g'|f]; cbn; [|destruct Hm as [E|(r & E & Hr)]|done].
  - right. by exists 0.
  - by left.
  - right. exists r. by split.
Qed.
Lemma atomic_common_id msg (m : M gnmi Z) : atomic msg m → atomic msg (common m).
Proof. intros Hm g. specialize (Hm g). unfold common, wp in *. by destruct (m g). Qed.
Lemma atomic_quiet {A} msg (m : M gnmi A) (k : A → M gnmi Z) :
  quiet m → (∀ a, atomic msg (common (k a))) → atomic msg (common (a ← m; k a)).
Proof.
  intros Hm Hk g. specialize (Hm g). unfold common, wp, mbind, M_bind in *.
  destruct (m g) as [a g'|g'|f]; [|by left|done].
  specialize (Hk a g'). unfold common, wp, told in *. destruct Hm as [E H].
  destruct (k a g') as [rc g2|g2|f]; [..|done]; rewrite <- E; destruct Hk as [[S Hrc]|Hk]; auto;
    left; split; auto; eapply untold_starved; done.
Qed.
Lemma atomic_ext msg (m m' : M gnmi Z) : (∀ g, m g = m' g) → atomic msg m' → atomic msg m.
Proof. intros E H g. specialize (H g). unfold wp in *. by rewrite E. Qed.
Lemma atomic_asprintf msg path (k : string → M gnmi Z) :
  atomic msg (common (k path)) → atomic msg (common (path ← asprintf path; k path)).
Proof.
  intros H. eapply atomic_ext; [intros g; unfold common, asprintf; by rewrite bind_ret_eq|].
  apply (atomic_quiet _ _ (λ _, k path)); [apply quiet_alloc_or_fail|done].
Qed.

Lemma atomic_set_const path val : atomic (gnmi_jsoni_set path (json_of val)) (Common.set_const path val).
Proof. apply atomic_common, sends_object. Qed.
Lemma atomic_set_at path val : atomic (gnmi_jsoni_set path (json_of val)) (Common.set_at path val).
Proof. apply atomic_asprintf, atomic_set_const. Qed.
Lemma atomic_del_const path : atomic (gnmi_jsoni_del path) (Common.del_const path).
Proof. apply atomic_common, sends_send_ok. Qed.
Lemma atomic_del_at path : atomic (gnmi_jsoni_del path) (Common.del_at path).
Proof. apply atomic_asprintf, atomic_del_const. Qed.
Lemma atomic_send msg : atomic msg (send msg).
Proof. intros g. unfold send, wp. destruct (gdev_do msg _) as [rc d]. right. by exists rc. Qed.

(** The DHCP relay functions: the length of a path is not 0. *)
Lemma atomic_attempt {A} msg (m : M gnmi A) r :
  sends msg m → r ≠ 0 → atomic msg (common (sent ← attempt m; ret (if (sent : bool) then 0 else r))).
Proof.
  intros Hm Hr g. specialize (Hm g). unfold common, attempt, wp, told, mbind, M_bind in *.
  destruct (m g) as [a g'|g'|f]; cbn; [|destruct Hm as [E|(r' & E & Hr')]|done].
  - right. by exists 0.
  - by left.
  - right. exists r'. split; [done|]. split; congruence.
Qed.
Lemma atomic_filled path val r :
  r ≠ 0 →
  atomic (gnmi_jsoni_set path (json_of val))
    (common (j ← fill val; sent ← attempt (gnmi_json_send path j); ret (if (sent : bool) then 0 else r))).
Proof.
  intros Hr. eapply atomic_ext; [intros g; unfold common, fill; by rewrite bind_ret_eq|].
  apply (atomic_quiet _ _ (λ _, _)); [apply quiet_allocs|]. intros _. by apply atomic_attempt, Hr; apply sends_json.
Qed.
Lemma untold_told msg g1 g2 g3 rc : untold g1 g2 → told msg g2 g3 rc → told msg g1 g3 rc.
Proof.
  intros HU [[HS Hrc]|(r & E & Hr)]; [left; split; [by apply (untold_starved _ g2)|done]|].
  right. exists r. destruct HU as [<- _]. by split.
Qed.
Lemma atomic_alloc msg (k : bool → M gnmi Z) r :
  atomic msg (common (k true)) → k false = ret r → r ≠ 0 → atomic msg (common (b ← gn_alloc; k b)).
Proof.
  intros Hk Hf Hr g. unfold common, wp, gn_alloc, mbind, M_bind in *.
  destruct (gn_heap g) as [|[] h] eqn:Hg.
  - apply Hk.
  - specialize (Hk (g <| gn_heap := h |>)). unfold wp in Hk. cbv beta in Hk.
    assert (untold g (g <| gn_heap := h |>)) as HU by (split; [done|by rewrite Hg]).
    destruct (k true _) as [rc g'|g'|f]; [exact (untold_told _ _ _ _ _ HU Hk)..|done].
  - rewrite Hf. left. split; [|done]. split; [done|by rewrite Hg].
Qed.
Lemma atomic_relay_set path val :
  slen path ≠ 0 → atomic (gnmi_jsoni_set path (json_of val)) (Common.relay_set path val).
Proof.
  intros Hp. apply (atomic_asprintf _ _ (λ gpath, _)). cbv beta.
  apply (atomic_alloc _ (λ ok, _) (slen path)); [by apply atomic_filled|done|done].
Qed.

(** ** The settings *)
Lemma relay_path_slen vid rest : slen (Common.relay_path vid rest) ≠ 0.
Proof. unfold Common.relay_path. rewrite slen_app. unfold slen. simpl. lia. Qed.

Definition one_message (c : gnma_call) : bool :=
  v4_only c &&
  match c with
  | gnma_switch_create | gnma_port_duplex_set _ _ | gnma_stp_mode_set _ _ | gnma_igmp_snooping_set _ _
  | gnma_factory_default => false
  | gnma_stp_vid_set _ attr => sa_enabled attr
  | gnma_igmp_static_groups_set vid _ => vid <? 4096
  | _ => true
  end.

Lemma atomic_checked b msg (m : M gnmi Z) :
  b = false → atomic msg m → atomic msg (common (_ ← fail_if b; m)).
Proof. intros ->. apply atomic_common_id. Qed.

#[local] Hint Resolve atomic_set_at atomic_set_const atomic_del_at atomic_del_const atomic_send
  atomic_relay_set relay_path_slen : atomic.

Lemma atomic_image_install uri : atomic (gnmi_gnoi_image_install uri) (Common.gnma_image_install uri).
Proof. apply atomic_common, sends_send_ok. Qed.
#[local] Hint Resolve atomic_image_install : atomic.
Lemma run_call_atomic c : one_message c = true → ∃ msg, atomic msg (run_call c).
Proof.
  destruct c; intros H; try discriminate H; cbn [run_call];
    unfold one_message in H; cbn [v4_only] in H; try (apply andb_prop in H as [Hv H]);
    try (apply negb_true_iff in Hv); try solve [eexists; eauto with atomic]; eexists.
  1-4, 6: apply atomic_checked; [cbn; by rewrite ?orb_false_r|eauto with atomic].
  all: unfold Common.gnma_route_create, Common.gnma_stp_vid_set, Common.gnma_igmp_static_groups_set.
  - rewrite Hv. eauto with atomic.
  - rewrite H. apply atomic_set_const.
  - apply atomic_checked; [by apply Z.leb_gt, Z.ltb_lt|eauto with atomic].
Qed.

(** ** No undefined behaviour, nothing unsent: [GnmaSafe] of this implementation *)
Definition later (g g' : gnmi) : Prop := gn_sent g `prefix_of` gn_sent g'.
Definition harmless {A} (m : M gnmi A) : Prop := ∀ g, wp m (λ _, later g) (later g) no_fault g.

Lemma later_refl g : later g g.
Proof. unfold later. done. Qed.
Lemma later_trans g1 g2 g3 : later g1 g2 → later g2 g3 → later g1 g3.
Proof. unfold later. apply transitivity. Qed.
Lemma later_app g g' l : gn_sent g' = gn_sent g ++ l → later g g'.
Proof. by exists l. Qed.
Lemma later_same g g' : gn_sent g' = gn_sent g → later g g'.
Proof. intros E. unfold later. by rewrite E. Qed.

Lemma harmless_ret {A} (a : A) : harmless (ret a).
Proof. intros g. apply later_refl. Qed.
Lemma harmless_fail {A} : harmless (@fail gnmi A).
Proof. intros g. apply later_refl. Qed.
Lemma harmless_fail_if b : harmless (fail_if b).
Proof. intros g. destruct b; apply later_refl. Qed.
Lemma harmless_bind {A B} (m : M gnmi A) (k : A → M gnmi B) :
  harmless m → (∀ a, harmless (k a)) → harmless (m ≫= k).
Proof.
  intros Hm Hk g. apply wp_bind. eapply wp_mono; [apply Hm| |done|done]. intros a g1 H1.
  eapply wp_mono; [apply Hk| | |done]; [intros ? g2 H2|intros g2 H2]; exact (later_trans _ _ _ H1 H2).
Qed.
Lemma harmless_common m : harmless m → harmless (common m).
Proof. intros Hm g. specialize (Hm g). unfold common, wp in *. by destruct (m g). Qed.
Lemma harmless_attempt {A} (m : M gnmi A) : harmless m → harmless (attempt m).
Proof. intros Hm g. apply wp_attempt. by eapply wp_mono; [apply Hm| | |]. Qed.
Lemma harmless_atomic msg m : atomic msg m → harmless m.
Proof.
  intros Hm g. eapply wp_mono; [apply Hm| |done|done].
  intros rc g' [[[E _] _]|(r & E & _)]; [by apply later_same|exact (later_app _ _ _ E)].
Qed.
Lemma harmless_sends {A} msg (m : M gnmi A) : sends msg m → harmless m.
Proof.
  intros Hm g. eapply wp_mono; [apply Hm|intros a g' E; exact (later_app _ _ _ E)| |done].
  intros g' [[E _]|(r & E & _)]; [by apply later_same|exact (later_app _ _ _ E)].
Qed.
Lemma harmless_quiet {A} (m : M gnmi A) : quiet m → harmless m.
Proof.
  intros Hm g. eapply wp_mono; [apply Hm|intros a g' [E _]|intros g' [E _]|done]; by apply later_same.
Qed.
Lemma harmless_set_at path val : harmless (Common.set_at path val).
Proof. eapply harmless_atomic, atomic_set_at. Qed.
Lemma harmless_set_const path val : harmless (Common.set_const path val).
Proof. eapply harmless_atomic, atomic_set_const. Qed.
Lemma harmless_send msg : harmless (send msg).
Proof. eapply harmless_atomic, atomic_send. Qed.
Lemma harmless_send_ok msg : harmless (send_ok msg).
Proof. eapply harmless_sends, sends_send_ok. Qed.
Lemma harmless_json path j : harmless (gnmi_json_send path j).
Proof. eapply harmless_sends, sends_json. Qed.
Lemma harmless_allocs n : harmless (allocs n).
Proof. apply harmless_quiet, quiet_allocs. Qed.
Lemma harmless_gets {A} (f : gnmi → A) : harmless (gets f).
Proof. intros g. apply later_refl. Qed.

#[local] Hint Resolve harmless_ret harmless_fail harmless_fail_if harmless_attempt harmless_set_at
  harmless_set_const harmless_send harmless_send_ok harmless_json harmless_allocs harmless_gets
  harmless_common : harmless.

Ltac harmless_solve :=
  repeat first
    [ solve [auto with harmless]
    | apply harmless_common
    | match goal with |- harmless (_ ≫= _) => apply harmless_bind; [|intros ?] end
    | case_match ].

Lemma run_call_harmless c : v4_only c = true → harmless (run_call c).
Proof.
  intros Hv. destruct (one_message c) eqn:H1.
  - apply run_call_atomic in H1 as [msg Hm]. by eapply harmless_atomic.
  - destruct c; cbn [v4_only] in Hv; unfold one_message in H1; cbn [v4_only] in H1;
      rewrite ?Hv in H1; try discriminate H1; cbn [run_call]; unfold
        Common.gnma_switch_create, Common.gnma_port_duplex_set, Common.gnma_stp_mode_set,
        Common.gnma_igmp_snooping_set, Common.gnma_igmp_disable, Common.gnma_ip_igmp_set,
        Common.gnma_factory_default, Common.gnma_stp_vid_set, Common.gnma_stp_vid_disable,
        Common.gnma_stp_vids_set, Common.gnma_stp_vid_enable, Common.stp_vlan_set,
        Common.gnma_igmp_static_groups_set; harmless_solve.
Qed.

(** With an IPv6 prefix nothing is sent. *)
Lemma run_call_later c g : wp (run_call c) (λ _, later g) (later g) any_fault g.
Proof.
  destruct (v4_only c) eqn:Hv.
  - by eapply wp_mono; [apply run_call_harmless| | |].
  - destruct c; try discriminate Hv; apply negb_false_iff in Hv; cbn [run_call].
    all: try (unfold Common.gnma_route_create; rewrite Hv; done).
    all: unfold wp, Common.gnma_vlan_erif_attr_pref_update, Common.gnma_vlan_erif_attr_pref_delete,
      Common.gnma_portl2_erif_attr_pref_update, Common.gnma_portl2_erif_attr_pref_delete,
      Common.gnma_route_remove, common, mbind, M_bind; cbn [existsb]; rewrite Hv; apply later_refl.
Qed.

#[export] Instance gnma_common_safe : GnmaSafe.
Proof.
  intros c g Hv. pose proof (run_call_harmless c Hv g) as Hw. cbn. unfold wp in Hw.
  destruct (run_call c g) as [rc g'|g'|f]; [by eexists _, _..|done].
Qed.
End spec.

#[export] Hint Resolve atomic_set_at atomic_set_const atomic_del_at atomic_del_const atomic_send
  atomic_relay_set relay_path_slen : atomic.

(** C7: Every setting of the switch but a few (the session, the duplex, the mode
    of spanning tree, IGMP snooping, the factory reset, switching spanning tree
    off in a VLAN) is one message, fixed by its arguments: it is sent once, and
    the setting returns 0 exactly when the device accepts it; or memory runs out
    first, nothing is sent and an error is returned. *)
Theorem setting_atomic `{J : CJson, N : !Gnmi, L : CLibc} c :
  one_message c = true →
  ∃ msg, ∀ g : gnmi, ∃ rc g', run_call c g = Ok rc g' ∧
    ((gn_heap g ≠ [] ∧ gn_sent g' = gn_sent g ∧ rc ≠ 0) ∨
     ∃ r, gn_sent g' = gn_sent g ++ [(msg, r)] ∧ (rc = 0 ↔ r = 0)).
Proof.
  intros Hc. destruct (run_call_atomic c Hc) as [msg Hm]. exists msg. intros g.
  specialize (Hm g). unfold wp in Hm. destruct (run_call c g) as [rc g'|g'|f]; [|done..].
  exists rc, g'. split; [done|]. destruct Hm as [[[? ?] ?]|?]; [by left|by right].
Qed.

Lemma setting_atomic_witness :
  ∃ msg, ∀ g : @gnmi jtree_cjson sample_gnmi, ∃ rc g',
    @run_call _ _ gnmi_libc (gnma_vlan_dhcp_relay_server_add 7 16777226) g = Ok rc g' ∧
    ((gn_heap g ≠ [] ∧ gn_sent g' = gn_sent g ∧ rc ≠ 0) ∨
     ∃ r, gn_sent g' = gn_sent g ++ [(msg, r)] ∧ (rc = 0 ↔ r = 0)).
Proof. exact (setting_atomic (gnma_vlan_dhcp_relay_server_add 7 16777226) eq_refl). Defined.
