(* ===== verification/GnmaAnswers.v ===== *)
(** * What an answer of the switch can be

    [typed q]: the values the output parameters of the question [q] may hold;
    the arrays of [plat-gnma.c] that are indexed or copied from an answer rely
    on it.  Every answer read from any document is typed, asking sends nothing to
    the switch, and [trips q] are the documents a question does not survive. *)

From S2P Require Import Prelude CNum CStr Bitmap Router Json PlatTypes World ProtoConv Netlink Gnma Gnmi Sample GnmaSet GnmaGet GnmaState GnmaImpl.
#[local] Open Scope list_scope.

Definition names_fit (room : Z) (bytes : Z) (names : list string) : Prop :=
  Z.of_nat (length names) ≤ room ∧ Forall (λ s, slen s < bytes) names.
Definition unsigned (w n : Z) : Prop := 0 ≤ n < 2 ^ w.
Definition stp_attr_fits (a : gnma_stp_attr) : Prop :=
  unsigned 16 (sa_forward_delay a) ∧ unsigned 16 (sa_hello_time a) ∧ unsigned 16 (sa_max_age a) ∧
  unsigned 16 (sa_priority a).
Definition ports_fit (b : vlan_bmap) : Prop :=
  port_tagged b ⊆ port_member b ∧ ∀ i, i ∈ port_member b → 0 ≤ i < GNMA_MAX_PORT_ID.

Definition counters_fit (n : nat) (l : list Z) : Prop := length l = n ∧ Forall (unsigned 64) l.
Definition next_hop_fits (r : gnma_ip_prefix * gnma_nexthop) : Prop :=
  gp_v6 r.1 = false ∧ unsigned 32 (nh_metric r.2) ∧ slen (nh_egress_port r.2) ≤ Query.GNMA_PORT_KEY_LEN.
Definition fdb_entry_fits (e : gnma_fdb_entry) : Prop :=
  slen (fdb_port e) ≤ Query.GNMA_PORT_KEY_LEN ∧ slen (fdb_mac e) ≤ 18.

Definition typed {A} (q : gnma_query A) : A → Prop :=
  match q in gnma_query A return A → Prop with
  | gnma_vlan_list_get => λ vlans, ∀ v, v ∈ vlans → 0 ≤ v < GNMA_MAX_VLANS
  | gnma_vlan_member_bmap_get => λ m, map_Forall (λ v b, 0 ≤ v < GNMA_MAX_VLANS ∧ ports_fit b) m
  | gnma_port_list_get size | gnma_poe_port_list_get size =>
      λ a, names_fit (Z.max 0 size) Query.GNMA_PORT_KEY_LEN a.2
  | gnma_radius_hosts_list_get size | gnma_ieee8021x_das_dac_hosts_list_get size =>
      λ a, names_fit (Z.max 0 size) Query.GNMA_RADIUS_CFG_HOSTNAME_STR_MAX_LEN a.2
  | gnma_route_list_get size =>
      λ a, Z.of_nat (length a.2) ≤ Z.max 0 size ∧
           Forall (λ r, gp_v6 r.1 = false ∧ r.2 = GNMA_ROUTE_TYPE_BLACKHOLE) a.2
  | gnma_vlan_erif_attr_pref_list_get _ _ | gnma_portl2_erif_attr_pref_list_get _ _ =>
      λ a, gp_v6 a.2 = false ∧ 0 ≤ gp_len a.2 ≤ 32
  | gnma_vlan_dhcp_relay_max_hop_cnt_get _ => unsigned 8
  | gnma_stp_mode_get => λ a, stp_attr_fits a.2
  | gnma_stp_vid_bulk_get => map_Forall (λ v a, 0 ≤ v < GNMA_MAX_VLANS ∧ stp_attr_fits a)
  | gnma_port_ieee8021x_guest_vlan_get _ | gnma_port_ieee8021x_unauthorized_vlan_get _ => unsigned 16
  | gnma_poe_port_power_limit_get _ => λ a, unsigned 32 a.2
  | gnma_poe_usage_threshold_get => unsigned 8
  | gnma_port_speed_get _ len | gnma_image_running_name_get len | gnma_nei_addr_get _ _ len =>
      λ a, slen a ≤ Z.max 0 len
  | gnma_port_stats_get _ ids => counters_fit (length ids)
  | gnma_iee8021x_das_dac_global_stats_get ids => counters_fit (length ids)
  | gnma_ieee8021x_system_auth_clients_get size | gnma_image_install_status size => λ a, slen a < size
  | gnma_igmp_iface_groups_get _ size => λ a, slen a.2 ≤ Z.max 0 (size - 1)
  | gnma_dyn_route_list_get size _ =>
      λ a, Z.of_nat (length a.2) ≤ Z.max 0 size ∧ Forall next_hop_fits a.2
  | gnma_mac_address_list_get size _ =>
      λ a, Z.of_nat (length a.2) ≤ Z.max 0 size ∧ Forall fdb_entry_fits a.2
  | gnma_ip_iface_addr_get size _ =>
      λ a, Z.of_nat (length a.2) ≤ Z.max 0 size ∧ Forall (λ v, unsigned 16 (vip_vid v)) a.2
  | gnma_metadata_get => λ a, slen (md_platform a) < 96 ∧ slen (md_hwsku a) < 96 ∧ slen (md_mac a) < 96
  | _ => λ _, True
  end.

Section answers.
Context `{J : CJson, N : !Gnmi, L : CLibc, T : CTarget}.

(** ** Reading sends nothing

    and leaves a device alone that does not change when it is read. *)
Definition constant (g : gnmi) : Prop :=
  gn_heap g = [] ∧ gn_nl g = [] ∧ (∀ path, (gdev_get path (gn_dev g)).2 = gn_dev g) ∧
  (gdev_upgrade_status (gn_dev g)).2 = gn_dev g.
Definition asked (g g' : gnmi) : Prop := gn_sent g' = gn_sent g ∧ (constant g → g' = g).

Lemma asked_refl g : asked g g.
Proof. done. Qed.
Lemma asked_trans g1 g2 g3 : asked g1 g2 → asked g2 g3 → asked g1 g3.
Proof.
  intros [A1 B1] [A2 B2]. split; [congruence|]. intros Hc. pose proof (B1 Hc). subst g2. by apply B2.
Qed.

Definition silent {A} (P : A → Prop) (m : M gnmi A) : Prop :=
  ∀ g, wp m (λ a g', P a ∧ asked g g') (asked g) any_fault g.

Lemma silent_ret {A} (P : A → Prop) a : P a → silent P (ret a).
Proof. intros H g. split; [done|apply asked_refl]. Qed.
Lemma silent_fail {A} (P : A → Prop) : silent P fail.
Proof. intros g. apply asked_refl. Qed.
Lemma silent_faulty {A} (P : A → Prop) f : silent P (faulty f).
Proof. by intros g. Qed.
Lemma silent_bind {A B} (P : A → Prop) (Q : B → Prop) (m : M gnmi A) (k : A → M gnmi B) :
  silent P m → (∀ a, P a → silent Q (k a)) → silent Q (m ≫= k).
Proof.
  intros Hm Hk g. apply wp_bind. eapply wp_mono; [apply Hm| |done|done].
  intros a g1 [HP H1]. eapply wp_mono; [by apply Hk|intros b g2 [HQ H2]|intros g2 H2|done].
  - split; [done|]. exact (asked_trans _ _ _ H1 H2).
  - exact (asked_trans _ _ _ H1 H2).
Qed.
Lemma silent_mono {A} (P Q : A → Prop) m : silent P m → (∀ a, P a → Q a) → silent Q m.
Proof. intros Hm HPQ g. eapply wp_mono; [apply Hm| |done|done]. intros a g1 [H1 H2]. auto. Qed.
Lemma silent_fold {A B} (P : A → Prop) (f : A → B → M gnmi A) l a :
  P a → (∀ a b, P a → silent P (f a b)) → silent P (fold_m f l a).
Proof.
  intros Ha Hf. revert a Ha. induction l as [|b l IH]; intros a Ha; cbn [fold_m]; [by apply silent_ret|].
  by eapply silent_bind; [apply Hf|].
Qed.
Lemma silent_deref {A} (P : A → Prop) o : (∀ a, o = Some a → P a) → silent P (deref o).
Proof. intros H. destruct o; [by apply silent_ret, H|apply silent_faulty]. Qed.
Lemma silent_of_option {A} (P : A → Prop) f o : (∀ a, o = Some a → P a) → silent P (of_option f o).
Proof. intros H. destruct o; [by apply silent_ret, H|apply silent_faulty]. Qed.
Lemma silent_asprintf path : silent (λ _, True) (asprintf path).
Proof.
  intros g. unfold wp, asprintf, gn_alloc_or_fail, gn_alloc, mbind, M_bind.
  destruct (gn_heap g) as [|[] h] eqn:E; cbn; unfold asked, constant; rewrite E; naive_solver.
Qed.
Lemma silent_root path : silent (λ _, True) (gnmi_get_root path).
Proof.
  intros g. unfold gnmi_get_root, gnmi_jsoni_get_alloc, wp, mbind, M_bind.
  assert (asked g (g <| gn_dev := (gdev_get path (gn_dev g)).2 |>)) as H.
  { split; [done|]. intros (_ & _ & Hd & _). rewrite Hd. by destruct g. }
  destruct (gdev_get path (gn_dev g)) as [[text|] d]; [by split|exact H].
Qed.
Lemma silent_json path : silent (λ _, True) (gnmi_get_json path).
Proof. eapply silent_bind; [apply silent_root|]. intros [j|] _; [by apply silent_ret|apply silent_fail]. Qed.
Lemma silent_leaf path key : silent (λ _, True) (Query.leaf_at path key).
Proof.
  eapply silent_bind; [apply silent_asprintf|]. intros p _. eapply silent_bind; [apply silent_json|].
  intros j _. by apply silent_ret.
Qed.
Lemma silent_common_out {A} (Q : Z * A → Prop) old m :
  (∀ rc, Q (rc, old)) → silent Q m → silent Q (common_out old m).
Proof. intros Ho Hm g. specialize (Hm g). unfold common_out, wp in *. by destruct (m g). Qed.
Lemma silent_out_json {A} (Q : Z * A → Prop) old path k :
  (∀ rc, Q (rc, old)) → (∀ j, silent Q (k j)) → silent Q (common_out old (j ← gnmi_get_json path; k j)).
Proof. intros Ho Hk. apply silent_common_out; [done|]. eapply silent_bind; [apply silent_json|auto]. Qed.
Lemma silent_out_root {A} (Q : Z * A → Prop) old path k :
  (∀ rc, Q (rc, old)) → (∀ j, silent Q (k j)) → silent Q (common_out old (j ← gnmi_get_root path; k j)).
Proof. intros Ho Hk. apply silent_common_out; [done|]. eapply silent_bind; [apply silent_root|auto]. Qed.
Lemma silent_out_leaf {A} (Q : Z * A → Prop) old path key k :
  (∀ rc, Q (rc, old)) → (∀ o, silent Q (k o)) → silent Q (common_out old (o ← Query.leaf_at path key; k o)).
Proof. intros Ho Hk. apply silent_common_out; [done|]. eapply silent_bind; [apply silent_leaf|auto]. Qed.

Lemma silent_fits size m :
  silent (λ _, True) m → silent (λ text, slen text < size) (fits_or_fail size m).
Proof.
  intros Hm. apply (silent_bind (λ _, True)); [done|]. intros text _. unfold fail_if.
  apply (silent_bind (λ _, slen text < size)); [|by intros; apply silent_ret].
  destruct (Z.leb_spec size (slen text)); [apply silent_fail|by apply silent_ret].
Qed.
Lemma silent_text path size : silent (λ text, slen text < size) (gnmi_jsoni_get path size).
Proof.
  apply silent_fits. intros g. unfold gnmi_jsoni_get_alloc, wp.
  assert (asked g (g <| gn_dev := (gdev_get path (gn_dev g)).2 |>)) as H.
  { split; [done|]. intros (_ & _ & Hd & _). rewrite Hd. by destruct g. }
  destruct (gdev_get path (gn_dev g)) as [[text|] d]; [by split|exact H].
Qed.
Lemma silent_status size : silent (λ text, slen text < size) (gnmi_gnoi_upgrade_status size).
Proof.
  apply silent_fits. intros g. unfold wp.
  assert (asked g (g <| gn_dev := (gdev_upgrade_status (gn_dev g)).2 |>)) as H.
  { split; [done|]. intros (_ & _ & _ & Hd). rewrite Hd. by destruct g. }
  destruct (gdev_upgrade_status (gn_dev g)) as [[text|] d]; [by split|exact H].
Qed.
Lemma silent_nl : silent (λ _, True) nl_request.
Proof.
  intros g. unfold wp, nl_request. destruct (gn_nl g) as [|d l] eqn:E; [by split|].
  split; [done|]. split; [done|]. intros (_ & Hn & _). by rewrite E in Hn.
Qed.
Lemma silent_alloc : silent (λ _, True) gn_alloc.
Proof.
  intros g. unfold wp, gn_alloc. destruct (gn_heap g) as [|b h] eqn:E; [by split|].
  split; [done|]. split; [done|]. intros (Hn & _). by rewrite E in Hn.
Qed.

(** The three shapes of a question. *)
Lemma silent_named {A} (Q : Z * A → Prop) old path key value :
  (∀ rc, Q (rc, old)) → (∀ s a, value s = Some a → Q (0, a)) → silent Q (Query.named old path key value).
Proof.
  intros Ho Hv. apply silent_out_leaf; [done|]. intros o.
  destruct (string_value o) as [s|]; [|by apply silent_ret].
  destruct (value s) eqn:E; [apply silent_ret; eauto|apply silent_fail].
Qed.
Lemma silent_strict {A} (Q : Z * A → Prop) old path key value :
  (∀ rc, Q (rc, old)) → (∀ s a, value s = Some a → Q (0, a)) → silent Q (Query.named_strict old path key value).
Proof.
  intros Ho Hv. apply silent_out_leaf; [done|]. intros o. destruct (is_string o); [|apply silent_fail]. cbn.
  destruct (string_value o) as [s|]; [|apply silent_fail].
  cbn. destruct (value s) eqn:E; [apply silent_ret; eauto|apply silent_fail].
Qed.
Lemma silent_number (Q : Z * Z → Prop) w old path key :
  (∀ rc, Q (rc, old)) → (∀ n, unsigned w n → Q (0, n)) → 0 ≤ w → silent Q (Query.number_at w old path key).
Proof.
  intros Ho Hn Hw. apply silent_out_leaf; [done|]. intros o. apply silent_ret.
  destruct (is_number o); [by apply Hn, d2u_range|done].
Qed.
Lemma silent_flag (Q : Z * bool → Prop) old path key : (∀ r, Q r) → silent Q (Query.flag_at old path key).
Proof. intros H. apply silent_out_leaf; [done|]. intros o. by apply silent_ret. Qed.

(** ** Names *)
Lemma wrap16_succ n : 0 ≤ n < 2 ^ 16 → wrap 16 (n + 1) = n + 1 ∧ n + 1 < 2 ^ 16 ∨ wrap 16 (n + 1) = 0.
Proof.
  intros Hn. destruct (decide (n + 1 = 2 ^ 16)) as [E|E]; [right; by rewrite E|].
  left. split; [apply wrap_small; lia|lia].
Qed.
Lemma port_names_fit size items num names :
  0 ≤ num < 2 ^ 16 → (num < size → num ≤ Z.of_nat (length names)) →
  names_fit (Z.max 0 size) Query.GNMA_PORT_KEY_LEN names →
  names_fit (Z.max 0 size) Query.GNMA_PORT_KEY_LEN (Query.port_names size items num names).1.
Proof.
  revert num names. induction items as [|iter items IH]; intros num names Hn Hroom [Hlen Hfit]; cbn; [done|].
  destruct (string_value _) as [name|]; [|done]. destruct (Z.leb_spec Query.GNMA_PORT_KEY_LEN (slen name)); [done|].
  destruct (wrap16_succ num Hn) as [[E Hlt]|E]; rewrite E; (destruct (Z.ltb_spec num size); apply IH);
    rewrite ?length_app, ?length_take; cbn [length]; rewrite ?length_drop; try lia; try done.
  all: split; [rewrite ?length_app, ?length_take; cbn [length]; rewrite ?length_drop; lia|].
  all: apply Forall_app_2; [by apply Forall_take|constructor; [done|by apply Forall_drop]].
Qed.
Lemma port_list_fit size arr total :
  names_fit (Z.max 0 size) Query.GNMA_PORT_KEY_LEN (Query.port_list size arr total).2.2.
Proof.
  unfold Query.port_list. destruct (negb (is_array arr)); [split; [cbn; lia|done]|].
  pose proof (port_names_fit size (for_each_child arr) 0 []) as H. unfold names_fit at 1 in H. cbn [length] in H.
  specialize (H ltac:(lia) ltac:(lia) ltac:(split; [lia|done])).
  by destruct (Query.port_names _ _ _ _) as [names [num|]].
Qed.

Lemma silent_strcpy n s : silent (λ s', s' = s ∧ slen s < n) (c_strcpy n s).
Proof. unfold c_strcpy. destruct (Z.ltb_spec (slen s) n); [by apply silent_ret|apply silent_faulty]. Qed.
Lemma host_names_fit size key items names :
  names_fit (Z.max 0 size) Query.GNMA_RADIUS_CFG_HOSTNAME_STR_MAX_LEN names →
  silent (λ r, names_fit (Z.max 0 size) Query.GNMA_RADIUS_CFG_HOSTNAME_STR_MAX_LEN r.2)
    (Query.host_names size key items names).
Proof.
  revert names. induction items as [|host items IH]; intros names [Hlen Hfit]; cbn [Query.host_names]; [by apply silent_ret|].
  destruct (get_item _ _) as [addr|]; [|by apply silent_ret].
  apply (silent_bind (λ _, True)); [by apply silent_deref|]. intros name _.
  destruct (Z.leb_spec size (Z.of_nat (length names))); [apply silent_faulty|].
  eapply silent_bind; [apply silent_strcpy|]. intros s' [-> Hs]. apply IH. split.
  - rewrite length_app. cbn. lia.
  - by apply Forall_app_2; [|constructor].
Qed.
Lemma host_list_fit size key arr :
  silent (λ r, names_fit (Z.max 0 size) Query.GNMA_RADIUS_CFG_HOSTNAME_STR_MAX_LEN r.2.2)
    (Query.host_list size key arr).
Proof.
  assert (names_fit (Z.max 0 size) Query.GNMA_RADIUS_CFG_HOSTNAME_STR_MAX_LEN []) as H0 by (split; [cbn; lia|done]).
  unfold Query.host_list. destruct (size <? _); [by apply silent_ret|].
  eapply silent_bind; [by apply host_names_fit|]. intros [rc names] H. by apply silent_ret.
Qed.

(** ** VLANs *)
Definition vlans_fit : gmap Z vlan_bmap → Prop := map_Forall (λ v b, 0 ≤ v < GNMA_MAX_VLANS ∧ ports_fit b).
Lemma set_member_fit vid pid tagged m :
  0 ≤ vid < GNMA_MAX_VLANS → 0 ≤ pid < GNMA_MAX_PORT_ID → vlans_fit m →
  vlans_fit (Query.set_member vid pid tagged m).
Proof.
  intros Hv Hp Hm. apply map_Forall_insert_2; [|done]. split; [done|].
  assert (ports_fit (default zero_vlan_bmap (m !! vid))) as [Hsub Hr].
  { destruct (m !! vid) as [b|] eqn:E; [by apply (Hm vid)|by split; [|intros i Hi%elem_of_empty]]. }
  split; cbn; [destruct tagged; set_solver|]. intros i [->%elem_of_singleton|Hi]%elem_of_union; auto.
Qed.
Lemma vlan_members_fit items m : vlans_fit m → vlans_fit (Query.vlan_members items m).2.
Proof.
  revert m. induction items as [|member items IH]; intros m Hm; cbn [Query.vlan_members]; [done|].
  destruct (string_value _) as [name|]; [|done].
  destruct (sscanf_lit_u 16 "Vlan" name) as [vid| |] eqn:Ev; [|by apply IH..].
  destruct (string_value _) as [port|]; [|done]. destruct (negb _); [done|].
  destruct (sscanf_lit_u 16 "Ethernet" port) as [pid| |] eqn:Ep; [|by apply IH..].
  apply sscanf_lit_u_range in Ev, Ep; [|lia..].
  destruct (Z.leb_spec GNMA_MAX_VLANS vid), (Z.leb_spec GNMA_MAX_PORT_ID pid); cbn [orb]; try done.
  apply IH, set_member_fit; [lia..|done].
Qed.
Lemma vlan_list_fit items (old : gset Z) :
  (∀ v, v ∈ old → 0 ≤ v < GNMA_MAX_VLANS) →
  ∀ v, v ∈ fold_left (λ vlans vlan,
                let vid := d2u 16 (number_value (get_item (Some vlan) "vlanid")) in
                if vid <? GNMA_MAX_VLANS then {[vid]} ∪ vlans else vlans) items old →
       0 ≤ v < GNMA_MAX_VLANS.
Proof.
  revert old. induction items as [|vlan items IH]; intros old Ho; cbn [fold_left]; [done|]. apply IH. cbv zeta.
  pose proof (d2u_range 16 (number_value (get_item (Some vlan) "vlanid")) ltac:(lia)) as Hr.
  destruct (Z.ltb_spec (d2u 16 (number_value (get_item (Some vlan) "vlanid"))) GNMA_MAX_VLANS); [|done].
  intros v [->%elem_of_singleton|Hv]%elem_of_union; [lia|auto].
Qed.

(** ** Addresses and routes *)
Lemma address_of_fit entry p : Query.address_of entry = Some p → gp_v6 p = false ∧ 0 ≤ gp_len p ≤ 32.
Proof.
  unfold Query.address_of. destruct (string_value _) as [text|]; [|done]. destruct (inet_pton text) as [rc addr].
  generalize (d2s 32 (number_value (get_item (get_item (Some entry) "config") "prefix-length"))). intros len.
  destruct (_ || _ || _) eqn:E; [done|]. intros [= <-]. cbn [gp_v6 gp_len].
  apply orb_false_iff in E as [E E2%Z.ltb_ge]. apply orb_false_iff in E as [_ E1%Z.ltb_ge]. split; [done|lia].
Qed.
Lemma address_list_fit size arr :
  gp_v6 (Query.address_list size arr).2.2 = false ∧ 0 ≤ gp_len (Query.address_list size arr).2.2 ≤ 32.
Proof.
  unfold Query.address_list. cbn. destruct (0 <? size); [|done].
  destruct (omap _ _) as [|p l] eqn:E; [done|]. cbn.
  assert (p ∈ omap Query.address_of (for_each_child arr)) as Hp by (rewrite E; by left).
  apply list_elem_of_omap in Hp as (entry & _ & Hp). by eapply address_of_fit.
Qed.
Lemma route_of_fit entry r : Query.route_of entry = Some r → gp_v6 r.1 = false ∧ r.2 = GNMA_ROUTE_TYPE_BLACKHOLE.
Proof.
  unfold Query.route_of. destruct (negb _); [done|]. destruct (string_value _) as [text|]; [|done]. cbn.
  destruct (inet_net_pton text) as [len addr]. destruct (_ || _); [done|]. by intros [= <-].
Qed.

(** ** Spanning tree *)
Lemma stp_attr_read_fit obj : stp_attr_fits (Query.stp_attr_read obj).
Proof. by split_and!; apply d2u_range. Qed.
Lemma stp_vids_fit items : ∀ parsed l,
  (∀ v, parsed = Some v → 0 ≤ v) →
  map_Forall (λ v a, 0 ≤ v < GNMA_MAX_VLANS ∧ stp_attr_fits a) l →
  silent (λ r, map_Forall (λ v a, 0 ≤ v < GNMA_MAX_VLANS ∧ stp_attr_fits a) r.2)
    (Query.stp_vids GNMA_MAX_VLANS items parsed l).
Proof.
  induction items as [|iter items IH]; intros parsed l Hv Hl; cbn [Query.stp_vids]; [by apply silent_ret|].
  apply (silent_bind (λ _, True)); [by apply silent_deref|]. intros name _.
  destruct (sscanf_lit_u 32 "Vlan" name) as [v| |] eqn:E; [apply sscanf_lit_u_range in E; [|lia]| |by apply silent_ret].
  all: eapply (silent_bind (λ v, 0 ≤ v)); [apply silent_of_option; try intros ? [= <-]; auto; lia|]; intros vid Hvid.
  all: destruct (Z.leb_spec GNMA_MAX_VLANS vid); [by apply silent_ret|].
  all: apply IH; [by intros ? [= <-]|]; apply map_Forall_insert_2; [|done]; split; [done|].
  all: assert (stp_attr_fits (default zero_stp_attr (l !! vid))) as (H1 & H2 & H3 & H4) by
    (destruct (l !! vid) as [a|] eqn:Ea; [by apply (Hl vid)|by split_and!]).
  all: split_and!; cbn; try done; by apply d2u_range.
Qed.

Lemma silent_route_list size :
  silent (λ r : Z * (Z * list (gnma_ip_prefix * gnma_route_attrs)),
      Z.of_nat (length r.2.2) ≤ Z.max 0 size ∧
      Forall (λ r, gp_v6 r.1 = false ∧ r.2 = GNMA_ROUTE_TYPE_BLACKHOLE) r.2.2)
    (Query.gnma_route_list_get size).
Proof.
  apply (silent_bind (λ _, True)); [|intros [root|] _; [|apply silent_faulty]].
  - intros g. apply wp_try. eapply wp_mono; [apply silent_root|intros ? ? H; exact H|intros ? H; by split|done].
  - apply silent_ret. cbn. rewrite length_take. split; [lia|]. apply Forall_take, Forall_forall.
    intros r (entry & _ & Hr)%list_elem_of_omap. by eapply route_of_fit.
Qed.
Lemma silent_servers items : silent (λ _, True) (Query.server_addresses items).
Proof.
  intros g. apply (wp_fold_m (λ _ _ g', asked g g')); [apply asked_refl| |intros; by split].
  intros before x todo b g' _ H. apply wp_bind, wp_deref; [|done]. intros s _.
  destruct (inet_pton s). by apply wp_ret.
Qed.
Lemma stp_list_fit items :
  silent (λ r, map_Forall (λ v a, 0 ≤ v < GNMA_MAX_VLANS ∧ stp_attr_fits a) r.2)
    (Query.stp_vids GNMA_MAX_VLANS items None ∅).
Proof. apply stp_vids_fit; [done|apply map_Forall_empty]. Qed.

(** ** What the state report reads *)
Lemma digits_from_nonneg s : ∀ acc, 0 ≤ acc → 0 ≤ digits_from acc s.
Proof.
  induction s as [|c s IH]; intros acc Ha; cbn [digits_from]; [done|].
  unfold digit_val. destruct (_ && _) eqn:E; [|done]. apply andb_true_iff in E as [E%Z.leb_le _]. apply IH. lia.
Qed.
Lemma digits_nonneg s v : digits s = Some v → 0 ≤ v.
Proof.
  destruct s as [|c s]; [done|]. cbn. unfold digit_val. destruct (_ && _) eqn:E; [|done].
  apply andb_true_iff in E as [E%Z.leb_le _]. intros [= <-]. apply digits_from_nonneg. lia.
Qed.
Lemma strtoull_range s : unsigned 64 (strtoull s).
Proof.
  unfold strtoull, scan_u. destruct (skip_space s) as [|c r]; [done|].
  match goal with |- context [let '(_, _) := ?x in _] => destruct x as [neg body] end. destruct (digits body) as [v|] eqn:Ev; [|done].
  unfold strtoul_sat, unsigned. pose proof (digits_nonneg body v Ev). pose proof (wrap_range 64 (- v) ltac:(lia)).
  destruct (Z.ltb_spec v (2 ^ 64)); [destruct neg; lia|lia].
Qed.
Lemma counters_fit_map {A} (f : A → Z) (ids : list A) :
  (∀ i, unsigned 64 (f i)) → counters_fit (length ids) (f <$> ids).
Proof. intros Hf. split; [by rewrite length_fmap|]. by apply Forall_fmap, Forall_true. Qed.
Lemma slen_strncpy n s : slen (c_strncpy (Z.to_nat n) s) ≤ Z.max 0 n.
Proof. pose proof (slen_stake (Z.to_nat n) s). unfold c_strncpy. lia. Qed.
Lemma silent_document path size old pick : silent (λ _, True → True) (Report.document path size old pick).
Proof.
  apply silent_common_out; [done|]. eapply silent_bind; [apply silent_asprintf|]. intros p _.
  eapply silent_bind; [apply silent_text|]. intros text _.
  destruct (cJSON_Parse text ≫= pick) as [item|]; [by apply silent_ret|apply silent_fail].
Qed.
Lemma dyn_route_fits route r : Report.dyn_route_of route = Some r → next_hop_fits r.
Proof.
  unfold Report.dyn_route_of. intros H.
  repeat (case_match || (apply bind_Some in H as (? & _ & H))); simplify_eq.
  split_and!; [done|by apply d2u_range|]. apply (slen_strncpy 32).
Qed.
Lemma fdb_entry_of_fits entry e : Report.fdb_entry_of entry = Some e → fdb_entry_fits e.
Proof.
  unfold Report.fdb_entry_of. intros H. repeat (case_match || (apply bind_Some in H as (? & _ & H))); simplify_eq.
  all: split; [apply (slen_strncpy 32)|apply (slen_stake 18)].
Qed.
Lemma silent_fdb size items : ∀ n found,
  Z.of_nat (length found) ≤ Z.max 0 size → Forall fdb_entry_fits found →
  silent (λ r, Z.of_nat (length r.2.2) ≤ Z.max 0 size ∧ Forall fdb_entry_fits r.2.2)
    (Report.fdb_entries size items n found).
Proof.
  induction items as [|entry items IH]; intros n found Hlen Hf; cbn [Report.fdb_entries]; [by apply silent_ret|].
  destruct (Report.fdb_entry_of entry) as [e|] eqn:E; [|by apply silent_ret].
  destruct (Z.leb_spec size (Z.of_nat (length found))); [apply silent_faulty|]. apply IH.
  - rewrite length_app. cbn. lia.
  - apply Forall_app_2; [done|]. constructor; [by eapply fdb_entry_of_fits|done].
Qed.

Lemma silent_igmp iface size old :
  silent (λ r : Z * (Z * string), slen old.2 ≤ Z.max 0 (size - 1) → slen r.2.2 ≤ Z.max 0 (size - 1))
    (Report.gnma_igmp_iface_groups_get iface size (old : Z * string).2).
Proof.
  apply silent_common_out; [by intros|]. eapply silent_bind; [apply silent_asprintf|]. intros p _.
  eapply silent_bind; [apply silent_json|]. intros root _.
  cbv zeta. match goal with |- context [get_item ?o "static-multicast-group"] => destruct (get_item o "static-multicast-group") as [groups|] end; [|by apply silent_ret].
  destruct (array_size _ =? 0); [by apply silent_ret|].
  apply (silent_bind (λ _, True)).
  { eapply silent_bind; [apply silent_alloc|]. intros [] _; [by apply silent_ret|apply silent_fail]. }
  intros _ _. destruct (size <? _); [by apply silent_ret|]. destruct (_ <? _); [apply silent_faulty|].
  apply silent_ret. intros _. apply slen_strncpy.
Qed.
Lemma silent_dyn_route_list size have :
  silent (λ r : Z * (Z * list (gnma_ip_prefix * gnma_nexthop)),
      Z.of_nat (length r.2.2) ≤ Z.max 0 size ∧ Forall next_hop_fits r.2.2)
    (Report.gnma_dyn_route_list_get size have).
Proof.
  apply silent_out_root; [intros rc; split; [cbn; lia|done]|]. intros root.
  destruct (negb _); [apply silent_fail|]. apply silent_ret. destruct have; [|split; [cbn; lia|done]].
  cbn [snd]. rewrite length_take. split; [lia|]. apply Forall_take, Forall_forall.
  intros r (entry & _ & Hr)%list_elem_of_omap. by eapply dyn_route_fits.
Qed.
Lemma silent_mac_list size have :
  silent (λ r : Z * (Z * list gnma_fdb_entry),
      Z.of_nat (length r.2.2) ≤ Z.max 0 size ∧ Forall fdb_entry_fits r.2.2)
    (Report.gnma_mac_address_list_get size have).
Proof.
  assert (Z.of_nat (length (@nil gnma_fdb_entry)) ≤ Z.max 0 size ∧ Forall fdb_entry_fits []) as H0
    by (split; [cbn; lia|done]).
  apply silent_out_json; [done|]. intros root. cbv zeta.
  destruct (_ || _); [apply silent_fail|]. destruct (size <? _); [by apply silent_ret|].
  destruct (_ =? 0); [by apply silent_ret|]. destruct (negb have); [apply silent_fail|].
  match goal with |- context [get_item ?o "entry"] => destruct (get_item o "entry") end; [|apply silent_fail]. apply silent_fdb; [cbn; lia|done].
Qed.
Lemma silent_ip_list size have :
  silent (λ r : Z * (Z * list gnma_vlan_ip),
      Z.of_nat (length r.2.2) ≤ Z.max 0 size ∧ Forall (λ v, unsigned 16 (vip_vid v)) r.2.2)
    (Report.gnma_ip_iface_addr_get size have).
Proof.
  assert (Z.of_nat (length (@nil gnma_vlan_ip)) ≤ Z.max 0 size ∧ Forall (λ v, unsigned 16 (vip_vid v)) []) as H0
    by (split; [cbn; lia|done]).
  eapply silent_bind; [apply silent_nl|]. intros d _.
  destruct (nl_get_ip_list d false 0) as [rc [len l0]] eqn:E0.
  destruct (_ && _); [by apply silent_ret|].
  destruct (negb have || (size <? len)) eqn:E1; [by apply silent_ret|]. apply orb_false_iff in E1 as [_ E1%Z.ltb_ge].
  destruct (Z.eqb_spec len 0); [by apply silent_ret|].
  eapply silent_bind; [apply silent_alloc|]. intros [] _; [|by apply silent_ret]. cbn [negb].
  eapply silent_bind; [apply silent_nl|]. intros d' _.
  destruct (nl_get_ip_list d' true len) as [rc' [len' found]] eqn:E2.
  destruct (Z.eqb_spec rc' 0) as [->|]; [|by apply silent_ret]. apply silent_ret.
  apply ip_count_nonneg in E0. apply ip_list_fits in E2 as (-> & Hl & Hf); [|lia].
  cbn [snd]. rewrite length_fmap. split; [lia|]. by apply Forall_fmap.
Qed.
Lemma silent_running_name len old :
  silent (λ r, slen old ≤ Z.max 0 len → slen r.2 ≤ Z.max 0 len) (Report.gnma_image_running_name_get len old).
Proof.
  apply silent_out_json; [by intros|]. intros root. cbv zeta. destruct (negb _); [apply silent_fail|].
  apply (silent_bind (λ r : bool * string, slen old ≤ Z.max 0 len → slen r.2 ≤ Z.max 0 len)); [|intros r Hr; by apply silent_ret].
  apply silent_fold; [done|]. intros r iter Hr. destruct (get_item (Some iter) "current") as [c|]; [|by apply silent_ret].
  apply (silent_bind (λ _, True)); [by apply silent_deref|]. intros name _. apply silent_ret. intros _. apply slen_strncpy.
Qed.
Lemma metadata_text_fits root key s : Report.metadata_text root key = Some s → slen s < 96.
Proof.
  unfold Report.metadata_text. destruct (is_string _); [|done]. destruct (string_value _) as [t|]; [|done].
  intros [= <-]. pose proof (slen_stake 95 t). change (slen (stake 95 t) < 96). lia.
Qed.
Lemma silent_metadata old :
  silent (λ r, typed gnma_metadata_get old → typed gnma_metadata_get r.2) (Report.gnma_metadata_get old).
Proof.
  apply silent_out_root; [by intros|]. intros r1. eapply silent_bind; [apply silent_root|]. intros r2 _.
  eapply silent_bind; [apply silent_root|]. intros r3 _. apply silent_ret. intros (H1 & H2 & H3).
  repeat case_match; repeat match goal with E : Report.metadata_text _ _ = Some _ |- _ => apply metadata_text_fits in E end.
  all: by split_and!.
Qed.

(** The walk of the questions: nothing is sent, and a typed output parameter
    stays typed. *)
Lemma run_query_typed {A} (q : gnma_query A) old :
  silent (λ r, typed q old → typed q r.2) (run_query q old).
Proof.
  destruct q; cbn [run_query typed].
  all: try apply silent_document.
  all: try apply silent_igmp.
  all: try apply silent_running_name.
  all: try apply silent_metadata.
  all: try (eapply silent_mono; [first [apply silent_dyn_route_list|apply silent_mac_list|apply silent_ip_list]|by intros]).
  all: try (apply silent_flag; done).
  all: try (apply silent_number; [done|done|lia]).
  all: try (apply silent_named; done).
  all: try (apply silent_strict; done).
  all: try (apply silent_out_leaf; [try done|intros arr]).
  all: try (apply silent_out_json; [try done|intros root]).
  all: try (apply silent_out_root; [try done|intros root]).
  all: try (intros rc _; split; [cbn; lia|done]).
  all: try (apply silent_ret; intros _; apply port_list_fit).
  all: try (eapply silent_mono; [apply host_list_fit|by intros]).
  - destruct (_ && _); [apply silent_fail|]. apply silent_ret. intros Ho. by apply vlan_list_fit.
  - apply silent_ret. intros Ho. destruct (negb _); [done|by apply vlan_members_fit].
  - eapply silent_mono; [apply silent_route_list|by intros].
  - apply silent_ret. intros _. destruct (non_null _); [apply address_list_fit|done].
  - apply silent_ret. intros _. apply address_list_fit.
  - destruct (negb _); [apply silent_fail|]. cbv zeta. destruct (size <? _); [by apply silent_ret|].
    eapply silent_bind; [apply silent_servers|]. intros. by apply silent_ret.
  - destruct (is_number arr); [apply silent_ret; intros _; by apply d2u_range|apply silent_fail].
  - destruct (string_value _) as [s|]; [|by apply silent_ret; intros _; split_and!].
    destruct (streq s "rpvst"); [apply silent_ret; intros _; apply stp_attr_read_fit|].
    destruct (streq s "pvst"); [apply silent_ret; intros _; apply stp_attr_read_fit|apply silent_fail].
  - eapply silent_mono; [apply stp_list_fit|by intros].
  - by apply silent_ret.
  - destruct (_ || _); [by apply silent_ret|]. destruct (string_value _) as [s|]; [|by apply silent_ret].
    destruct (negb _); [by apply silent_ret|]. apply silent_ret. intros Ho. cbn.
    destruct (streq s "CLASS_BASED"); [done|by apply d2u_range].
  - by apply silent_ret.
  - apply silent_ret. intros Ho. destruct (string_value arr); [apply slen_strncpy|done].
  - by apply silent_ret.
  - apply silent_ret. intros _. destruct (negb _); apply counters_fit_map; [done|].
    intros i. unfold Report.counter_value. destruct (is_string _); [|done].
    destruct (string_value _); [apply strtoull_range|done].
  - apply silent_ret. intros _. destruct (is_object _); apply counters_fit_map; [|done].
    intros i. unfold Report.dac_value. destruct (is_number _); [by apply d2u_range|done].
  - apply silent_common_out; [by intros|]. eapply silent_bind; [apply silent_text|]. intros t Ht. by apply silent_ret.
  - apply silent_common_out; [by intros|]. eapply silent_bind; [apply silent_status|]. intros t Ht. by apply silent_ret.
  - destruct (string_value arr) as [[|c s]|]; [apply silent_fail| |apply silent_fail].
    apply silent_ret. intros _. apply slen_strncpy.
Qed.

(** ** Which documents crash the client

    [shown g path]: the document the device shows.  [trips q g]: it is one that
    makes the question [q] read or write where it must not. *)
Definition shown (g : gnmi) (path : string) : option json := (gdev_get path (gn_dev g)).1 ≫= cJSON_Parse.
Definition no_text (o : option json) : Prop := string_value o = None.
(** A name of a host that is no text or has no room, or so many hosts that
    their 16-bit count is wrong. *)
Definition bad_hosts (key : string) (arr : option json) : Prop :=
  2 ^ 16 ≤ array_size arr ∨
  ∃ host addr, host ∈ for_each_child arr ∧ get_item (Some host) key = Some addr ∧
    (no_text (Some addr) ∨
     ∃ name, string_value (Some addr) = Some name ∧ Query.GNMA_RADIUS_CFG_HOSTNAME_STR_MAX_LEN ≤ slen name).
Definition servers_path : string := "/openconfig-system:system/aaa/server-groups/server-group[name=RADIUS]/servers".
Definition static_routes_path : string :=
  "/sonic-static-route:sonic-static-route/STATIC_ROUTE/STATIC_ROUTE_LIST".
Definition stp_vlans_path : string := "/sonic-spanning-tree:sonic-spanning-tree/STP_VLAN/STP_VLAN_LIST".
Definition images_path : string := "/sonic-image-management:sonic-image-management/IMAGE_GLOBAL/IMAGE_GLOBAL_LIST".
Definition fdb_path : string :=
  "/openconfig-network-instance:network-instances/network-instance[name=default]/fdb".
Definition igmp_path (iface : string) : string :=
  "/openconfig-network-instance:network-instances/network-instance[name=default]/protocols/protocol[identifier=IGMP_SNOOPING][name=IGMP-SNOOPING]/openconfig-network-instance-deviation:igmp-snooping/interfaces/interface[name="
  +:+ iface +:+ "]".
Definition mac_entries (j : json) : list json :=
  for_each_child (get_item (get_item (get_item (get_item (Some j) "openconfig-network-instance:fdb") "mac-table")
                                     "entries") "entry").

Definition trips {A} (q : gnma_query A) (g : gnmi) : Prop :=
  match q with
  | gnma_radius_hosts_list_get _ =>
      ∃ j, shown g servers_path = Some j ∧
           bad_hosts "address" (get_item (get_item (Some j) "openconfig-system:servers") "server")
  | gnma_ieee8021x_das_dac_hosts_list_get _ =>
      ∃ j, shown g Common.das_clients = Some j ∧
           bad_hosts "clientaddress" (get_item (Some j) "openconfig-das:das-client-config-table-entry")
  | gnma_vlan_dhcp_relay_server_list_get vid _ =>
      ∃ j i, shown g (Common.relay_path vid "config/helper-address") = Some j ∧
             i ∈ for_each_child (get_item (Some j) "openconfig-relay-agent:helper-address") ∧ no_text (Some i)
  (* the device does not answer *)
  | gnma_route_list_get _ => (gdev_get static_routes_path (gn_dev g)).1 = None
  | gnma_stp_vid_bulk_get =>
      ∃ j i, shown g stp_vlans_path = Some j ∧
             i ∈ for_each_child (get_item (Some j) "sonic-spanning-tree:STP_VLAN_LIST") ∧
             (no_text (get_item (Some i) "name") ∨
              ∃ name, string_value (get_item (Some i) "name") = Some name ∧
                      sscanf_lit_u 32 "Vlan" name = SMismatch)
  (* the text is shorter than the buffer by two bytes and more *)
  | gnma_igmp_iface_groups_get iface size =>
      ∃ j groups, shown g (igmp_path iface) = Some j ∧
        get_item (get_item (array_item (get_item (Some j) "openconfig-network-instance-deviation:interface") 0)
                           "staticgrps") "static-multicast-group" = Some groups ∧
        slen (cJSON_PrintUnformatted groups) + 1 < wrap 64 (size - 1)
  (* more entries than the room the two counts asked for *)
  | gnma_mac_address_list_get size _ =>
      ∃ j, shown g fdb_path = Some j ∧ size < Z.of_nat (length (mac_entries j))
  | gnma_image_running_name_get _ =>
      ∃ j i c, shown g images_path = Some j ∧
               i ∈ for_each_child (get_item (Some j) "sonic-image-management:IMAGE_GLOBAL_LIST") ∧
               get_item (Some i) "current" = Some c ∧ no_text (Some c)
  | _ => False
  end.

(** Running a question up to what it does with the document. *)
Section stops.
Context {A : Type} (P : fault → Prop) (Q : A → gnmi → Prop).
Lemma stops_root path (k : option json → M gnmi A) g :
  (∀ o g', (∀ j, o = Some j → shown g path = Some j) → wp (k o) Q any_err P g') →
  wp (o ← gnmi_get_root path; k o) Q any_err P g.
Proof.
  intros Hk. unfold gnmi_get_root, gnmi_jsoni_get_alloc, wp, mbind, M_bind, shown in *.
  destruct (gdev_get path (gn_dev g)) as [[text|] d]; [|done]. apply Hk. intros j Hj. exact Hj.
Qed.
Lemma stops_json path (k : json → M gnmi A) g :
  (∀ j g', shown g path = Some j → wp (k j) Q any_err P g') → wp (j ← gnmi_get_json path; k j) Q any_err P g.
Proof.
  intros Hk. unfold gnmi_get_json, gnmi_get_root, gnmi_jsoni_get_alloc, wp, mbind, M_bind, shown in *.
  destruct (gdev_get path (gn_dev g)) as [[text|] d]; [|done]. cbn in *.
  destruct (cJSON_Parse text) as [j|]; [by apply Hk|done].
Qed.
Lemma stops_asprintf path (k : string → M gnmi A) g :
  (∀ g', gn_dev g' = gn_dev g → wp (k path) Q any_err P g') → wp (p ← asprintf path; k p) Q any_err P g.
Proof.
  intros Hk. unfold asprintf, gn_alloc_or_fail, gn_alloc, wp, mbind, M_bind in *.
  destruct (gn_heap g) as [|[] h]; cbn; [by apply Hk..|done].
Qed.
Lemma stops_leaf path key (k : option json → M gnmi A) g :
  (∀ j g', shown g path = Some j → wp (k (get_item (Some j) key)) Q any_err P g') →
  wp (o ← Query.leaf_at path key; k o) Q any_err P g.
Proof.
  intros Hk. unfold Query.leaf_at, asprintf, gn_alloc_or_fail, gn_alloc, gnmi_get_json, gnmi_get_root,
    gnmi_jsoni_get_alloc, wp, mbind, M_bind, shown in *.
  destruct (gn_heap g) as [|[] h]; cbn; [| |done]; destruct (gdev_get path (gn_dev g)) as [[text|] d]; try done;
    cbn in *; (destruct (cJSON_Parse text) as [j|]; [by apply Hk|done]).
Qed.
End stops.
Lemma stops_out {A} (P : fault → Prop) (o : A) m g :
  wp m (λ _ _, True) any_err P g → wp (common_out o m) (λ _ _, True) any_err P g.
Proof. unfold common_out, wp. by destruct (m g). Qed.

Lemma wp_if_trips {A} (P : Prop) (m : M gnmi A) g : P → wp m (λ _ _, True) any_err (λ _, P) g.
Proof. intros HP. unfold wp. by destruct (m g). Qed.

Lemma host_names_stop (P : Prop) size key items names g :
  (∀ host addr, host ∈ items → get_item (Some host) key = Some addr →
     (no_text (Some addr) ∨
      ∃ name, string_value (Some addr) = Some name ∧ Query.GNMA_RADIUS_CFG_HOSTNAME_STR_MAX_LEN ≤ slen name) → P) →
  Z.of_nat (length names) + Z.of_nat (length items) ≤ size →
  wp (Query.host_names size key items names) (λ _ _, True) any_err (λ _, P) g.
Proof.
  revert names. induction items as [|host items IH]; intros names HP Hn; cbn [Query.host_names]; [done|].
  destruct (get_item (Some host) key) as [addr|] eqn:Ea; [|done].
  apply wp_bind, wp_deref; [|intros Hs; eapply HP; [by left|exact Ea|by left]]. intros name Hname.
  cbn [length] in Hn. destruct (Z.leb_spec size (Z.of_nat (length names))); [lia|].
  apply wp_bind. unfold c_strcpy.
  destruct (Z.ltb_spec (slen name) Query.GNMA_RADIUS_CFG_HOSTNAME_STR_MAX_LEN).
  - apply wp_ret, IH; [|rewrite length_app; cbn; lia]. intros h a Hh. apply HP. by right.
  - eapply HP; [by left|exact Ea|right; by exists name].
Qed.
Lemma host_list_stops (P : Prop) size key arr g :
  (bad_hosts key arr → P) → wp (Query.host_list size key arr) (λ _ _, True) any_err (λ _, P) g.
Proof.
  intros HP. unfold Query.host_list. destruct (Z.ltb_spec size (wrap 16 (array_size arr))); [done|].
  destruct (Z.le_gt_cases (2 ^ 16) (array_size arr)) as [Hw|Hw].
  { apply wp_if_trips, HP. by left. }
  apply wp_bind. eapply wp_mono; [apply (host_names_stop P)|by intros [] ? _|done|done].
  - intros host addr H1 H2 H3. apply HP. right. by exists host, addr.
  - rewrite wrap_small in H by (unfold array_size in *; lia). unfold array_size in *. cbn. lia.
Qed.

Lemma stp_vids_stop (P : Prop) items : ∀ parsed l g,
  (∀ i, i ∈ items →
     (no_text (get_item (Some i) "name") ∨
      ∃ name, string_value (get_item (Some i) "name") = Some name ∧ sscanf_lit_u 32 "Vlan" name = SMismatch) → P) →
  wp (Query.stp_vids GNMA_MAX_VLANS items parsed l) (λ _ _, True) any_err (λ _, P) g.
Proof.
  induction items as [|iter items IH]; intros parsed l g HP; cbn [Query.stp_vids]; [done|].
  apply wp_bind, wp_deref; [|intros H; eapply HP; [by left|by left]]. intros name Hn. cbv zeta.
  destruct (sscanf_lit_u 32 "Vlan" name) as [v| |] eqn:E; [| |done].
  - apply wp_bind. apply wp_ret. destruct (_ <=? _); [done|]. apply IH. intros i Hi. apply HP. by right.
  - apply wp_if_trips. eapply HP; [by left|]. right. by exists name.
Qed.
Lemma fdb_stop (P : Prop) size items : ∀ n found g,
  (size < Z.of_nat (length found) + Z.of_nat (length items) → P) →
  wp (Report.fdb_entries size items n found) (λ _ _, True) any_err (λ _, P) g.
Proof.
  induction items as [|entry items IH]; intros n found g HP; cbn [Report.fdb_entries]; [done|].
  destruct (Report.fdb_entry_of entry); [|done]. cbn [length] in HP.
  destruct (Z.leb_spec size (Z.of_nat (length found))); [apply HP; lia|].
  apply IH. rewrite length_app. cbn. intros. apply HP. lia.
Qed.
Lemma servers_stop (P : Prop) items g :
  (∀ i, i ∈ items → no_text (Some i) → P) → wp (Query.server_addresses items) (λ _ _, True) any_err (λ _, P) g.
Proof.
  intros HP. unfold Query.server_addresses. apply (wp_fold_m (λ _ _ _, True)); [done| |done].
  intros before i todo b g' E _. apply wp_bind, wp_deref; [|intros H; eapply HP; [|exact H]; set_solver].
  intros s _. destruct (inet_pton s). by apply wp_ret.
Qed.

Abbreviation quiet_run m g := (wp m (λ _ _, True) any_err no_fault g).
Lemma fits_runs size (m : M gnmi string) g : (∀ g, quiet_run m g) → quiet_run (fits_or_fail size m) g.
Proof.
  intros Hm. unfold fits_or_fail. apply wp_bind. eapply wp_mono; [apply Hm|intros t g' _|done|done].
  apply wp_bind, wp_fail_if; [done|intros _]. by apply wp_ret.
Qed.
Lemma text_runs path size g : quiet_run (gnmi_jsoni_get path size) g.
Proof. apply fits_runs. intros g'. unfold wp, gnmi_jsoni_get_alloc. by destruct (gdev_get _ _) as [[] ?]. Qed.
Lemma status_runs size g : quiet_run (gnmi_gnoi_upgrade_status size) g.
Proof. apply fits_runs. intros g'. unfold wp. by destruct (gdev_upgrade_status _) as [[] ?]. Qed.
Lemma document_runs path size old pick g : quiet_run (Report.document path size old pick) g.
Proof.
  apply stops_out, stops_asprintf. intros g1 _. apply wp_bind. eapply wp_mono; [apply text_runs|intros t g2 _|done|done].
  destruct (cJSON_Parse t ≫= pick); [by apply wp_ret|done].
Qed.
Lemma addresses_run size have g : quiet_run (Report.gnma_ip_iface_addr_get size have) g.
Proof.
  assert (∀ g, quiet_run nl_request g) as Hn by (intros g'; unfold wp, nl_request; by destruct (gn_nl g')).
  unfold Report.gnma_ip_iface_addr_get. apply wp_bind. eapply wp_mono; [apply Hn|intros d g1 _|done|done].
  destruct (nl_get_ip_list d false 0) as [rc [len l0]]. repeat case_match; try done.
  apply wp_bind. unfold wp at 1, gn_alloc. destruct (gn_heap g1) as [|[] ?]; [|intros|done].
  all: cbn [negb]; apply wp_bind; (eapply wp_mono; [apply Hn|intros d' g2 _|done|done]).
  all: destruct (nl_get_ip_list d' true len) as [rc' [len' found]]; by case_match.
Qed.
Lemma metadata_runs old g : quiet_run (Report.gnma_metadata_get old) g.
Proof. apply stops_out, stops_root. intros o1 g1 _. apply stops_root. intros o2 g2 _. by apply stops_root. Qed.

(** A question that faults was shown a document that trips it. *)
Lemma run_query_stops {A} (q : gnma_query A) old g :
  wp (run_query q old) (λ _ _, True) any_err (λ _, trips q g) g.
Proof.
  destruct q; cbn [run_query trips].
  all: try (by apply wp_ret).
  all: try (apply stops_out, stops_leaf; intros j g' Hj; by repeat case_match).
  all: try (apply stops_out, stops_json; intros j g' Hj; by repeat case_match).
  all: try (apply stops_out, stops_root; intros j g' Hj; by repeat case_match).
  all: try apply document_runs.
  all: try apply addresses_run.
  all: try apply metadata_runs.
  - apply stops_out, stops_leaf. intros j g' Hj. apply host_list_stops. by exists j.
  - apply stops_out, stops_leaf. intros j g' Hj. apply host_list_stops. by exists j.
  - unfold Query.gnma_route_list_get. apply wp_bind, wp_try. fold static_routes_path.
    unfold wp, gnmi_get_root, gnmi_jsoni_get_alloc, mbind, M_bind.
    by destruct (gdev_get static_routes_path (gn_dev g)) as [[text|] d].
  - apply stops_out, stops_leaf. intros j g' Hj. destruct (negb _); [done|]. cbv zeta. destruct (_ <? _); [done|].
    apply wp_bind. eapply wp_mono; [apply servers_stop|by intros; apply wp_ret|done|intros ? H; exact H]. intros i H1 H2. by exists j, i.
  - apply stops_out, stops_root. intros o g' Ho. apply stp_vids_stop. intros i Hi Hn.
    destruct o as [j|]; [|by apply elem_of_nil in Hi]. exists j, i. by split; [apply Ho|].
  - apply stops_out. apply wp_bind. eapply wp_mono; [apply text_runs|by intros|done|done].
  - apply stops_out. apply wp_bind. eapply wp_mono; [apply status_runs|by intros|done|done].
  - apply stops_out, stops_asprintf. intros g1 E1. apply stops_json. intros j g2 Hj. cbv zeta.
    destruct (get_item _ "static-multicast-group") as [groups|] eqn:Eg; [|done]. destruct (_ =? 0); [done|].
    apply wp_bind. unfold wp at 1, gn_alloc_or_fail, gn_alloc, mbind, M_bind.
    destruct (gn_heap g2) as [|[] h]; cbn; [| |done].
    all: repeat case_match; try done; exists j, groups; unfold shown in *; rewrite <- E1; by split_and!; [..|lia].
  - apply stops_out, stops_json. intros j g' Hj. cbv zeta. repeat (case_match; [done|]).
    destruct (get_item _ "entry") as [l|] eqn:El; [|done]. apply fdb_stop. cbn [length]. intros Hlen.
    exists j. split; [done|]. unfold mac_entries. by rewrite El.
  - apply stops_out, stops_json. intros j g' Hj. cbv zeta. destruct (negb _); [done|]. apply wp_bind.
    apply (wp_fold_m (λ _ _ _, True)); [done| |done]. intros before i todo st g2 E _.
    destruct (get_item (Some i) "current") as [c|] eqn:Ec; [|done].
    apply wp_bind, wp_deref; [done|]. intros Hc. exists j, i, c. split_and!; [done| |done|done]. rewrite E. set_solver.
Qed.
End answers.


Definition sample_members : string :=
  "{'sonic-vlan:VLAN_MEMBER_LIST':[{'name':'Vlan7','ifname':'Ethernet3','tagging_mode':'tagged'}]}".
Definition members_path : string := "/sonic-vlan:sonic-vlan/VLAN_MEMBER/VLAN_MEMBER_LIST".

(** A RADIUS server with a name of 64 characters is copied past its buffer. *)
Definition long_host : string :=
  "{'openconfig-system:servers':{'server':[{'address':'0123456789abcdef0123456789abcdef0123456789abcdef0123456789abcdef'}]}}".
Example long_host_crashes :
  match @gnma_get (@gnma_common jtree_cjson sample_gnmi gnmi_libc amd64) _ (gnma_radius_hosts_list_get 1) (1, [])
          (sample_session [] [(servers_path, long_host)]) with
  | inl _ => None
  | inr f => Some f
  end = Some BufferOverflow.
Proof. by vm_compute. Qed.
