(* ===== verification/GnmaReadSpec.v ===== *)
(** * What is read back of the settings

    [sets c q a]: the call [c] sets to [a] what the query [q] asks for.
    [mirrors]: what a device with the OpenConfig and SONiC models shows, and
    where, after it was given a document.  When it shows that, the query
    answers [a]. *)

From S2P Require Import Prelude CNum CStr Bitmap Router Json PlatTypes World ProtoConv Gnma Gnmi Sample GnmaSet GnmaGet GnmaImpl GnmaSpec.
#[local] Open Scope list_scope.

(** Texts that stand for the values of a type, different ones for different
    values: what [first_of] needs to find the value again. *)
Class Texts {A} (text : A → string) (l : list A) : Prop := {
  texts_inj a b : text a = text b → a = b;
  texts_all a : a ∈ l }.
Ltac solve_texts :=
  split;
  [ let a := fresh in let b := fresh in intros a b; destruct a, b; try done; vm_compute; discriminate
  | let a := fresh in intros a; destruct a; repeat first [ left | right ] ].

#[export] Instance host_texts :
  Texts Common.host_mode_text [HOST_MULTI_AUTH; HOST_MULTI_DOMAIN; HOST_MULTI_HOST; HOST_SINGLE_HOST].
Proof. solve_texts. Qed.
#[export] Instance power_mgmt_texts :
  Texts Common.power_mgmt_text [POWER_MGMT_CLASS; POWER_MGMT_DYNAMIC; POWER_MGMT_DYNAMIC_PRIORITY;
                                POWER_MGMT_STATIC; POWER_MGMT_STATIC_PRIORITY].
Proof. solve_texts. Qed.
#[export] Instance detection_texts :
  Texts Common.detection_text [DETECTION_2PT_DOT3AF; DETECTION_2PT_DOT3AF_LEG; DETECTION_4PT_DOT3AF;
       DETECTION_4PT_DOT3AF_LEG; DETECTION_DOT3BT; DETECTION_DOT3BT_LEG; DETECTION_LEG].
Proof. solve_texts. Qed.
#[export] Instance priority_texts :
  Texts Common.priority_text [PRIORITY_LOW; PRIORITY_MEDIUM; PRIORITY_HIGH; PRIORITY_CRITICAL].
Proof. solve_texts. Qed.
#[export] Instance policy_texts :
  Texts Common.policy_text [POLICY_ACTION_DISCARD; POLICY_ACTION_APPEND; POLICY_ACTION_REPLACE].
Proof. solve_texts. Qed.

Section read.
Context `{J : CJson, JL : !CJsonLaws, N : !Gnmi, L : CLibc, T : CTarget}.

Lemma first_of_text {A} (text : A → string) l a : Texts text l → Query.first_of text l (text a) = Some a.
Proof.
  intros [Hinj Hall]. unfold Query.first_of.
  destruct (list_find (λ b, text b = text a) l) as [[i b]|] eqn:E.
  - apply list_find_Some in E as (_ & Hb & _). cbn. f_equal. by apply Hinj.
  - apply list_find_None in E. rewrite Forall_forall in E. by destruct (E a (Hall a)).
Qed.

(** ** The parts of a document that was built *)
Fixpoint member (l : list (string * item)) (k : string) : option item :=
  match l with [] => None | (k', v) :: l => if streq k' k then Some v else member l k end.

Lemma add_members l : ∀ o, cJSON_IsObject o = true →
  let o' := fold_left (λ o kv, cJSON_AddToObject o kv.1 (json_of kv.2)) l o in
  cJSON_IsObject o' = true ∧
  ∀ k, cJSON_member o' k = match cJSON_member o k with Some v => Some v | None => json_of <$> member l k end.
Proof.
  induction l as [|[k' v] l IH]; intros o Ho; cbn.
  - split; [done|]. intros k. by destruct (cJSON_member o k).
  - destruct (IH (cJSON_AddToObject o k' (json_of v))) as [H1 H2]; [by apply isobject_add|].
    split; [done|]. intros k. rewrite H2, member_add by done.
    destruct (cJSON_member o k); [done|]. by destruct (streq k' k).
Qed.
Lemma object_json l : cJSON_IsObject (json_of (IObj l)) = true.
Proof. apply (add_members l), isobject_empty. Qed.
Lemma member_json l k : cJSON_member (json_of (IObj l)) k = json_of <$> member l k.
Proof.
  cbn. destruct (add_members l cJSON_CreateObject isobject_empty) as [_ H]. by rewrite H, member_empty.
Qed.
Lemma add_children l : ∀ a, cJSON_IsArray a = true →
  let a' := fold_left (λ a x, cJSON_AddToArray a (json_of x)) l a in
  cJSON_IsArray a' = true ∧ cJSON_children a' = cJSON_children a ++ (json_of <$> l).
Proof.
  induction l as [|x l IH]; intros a Ha; cbn; [by rewrite app_nil_r|].
  destruct (IH (cJSON_AddToArray a (json_of x))) as [H1 H2]; [by apply isarray_add|].
  split; [done|]. by rewrite H2, children_array_add, <- app_assoc.
Qed.
Lemma array_json l : cJSON_IsArray (json_of (IArr l)) = true.
Proof. apply (add_children l), isarray_empty. Qed.
Lemma children_json l : cJSON_children (json_of (IArr l)) = json_of <$> l.
Proof.
  cbn. destruct (add_children l cJSON_CreateArray isarray_empty) as [_ H]. by rewrite H, children_array_empty.
Qed.
Lemma member_of_one k v : get_item (Some (json_of (IObj [(k, v)]))) k = Some (json_of v).
Proof. cbn [get_item]. rewrite member_json. cbn. unfold streq. by rewrite String.eqb_refl. Qed.

(** ** Reading one member of a document *)
Definition shows (g : gnmi) (path : string) (j : json) : Prop :=
  gn_heap g = [] ∧ ∃ text d, gdev_get path (gn_dev g) = (Some text, d) ∧ cJSON_Parse text = Some j.

Lemma leaf_shown g path key j :
  shows g path j → ∃ g', Query.leaf_at path key g = Ok (get_item (Some j) key) g'.
Proof.
  intros (Hh & text & d & Hg & Hp). eexists. unfold Query.leaf_at, asprintf, gn_alloc_or_fail, gn_alloc.
  unfold mbind, M_bind. rewrite Hh. cbn. unfold gnmi_get_json, gnmi_get_root, gnmi_jsoni_get_alloc.
  unfold mbind, M_bind. rewrite Hg. cbn. by rewrite Hp.
Qed.
Lemma leaf_read {A} (old : A) g path key j (k : option json → M gnmi (Z * A)) r :
  shows g path j → (∀ g', k (get_item (Some j) key) g' = Ok r g') →
  ∃ g', common_out old (o ← Query.leaf_at path key; k o) g = Ok r g'.
Proof.
  intros Hs Hk. destruct (leaf_shown g path key j Hs) as [g' E]. exists g'.
  unfold common_out, mbind, M_bind. by rewrite E, Hk.
Qed.

Lemma named_read {A} (old : A) path key value s a g :
  value s = Some a → shows g path (json_of (IObj [(key, IStr s)])) →
  ∃ g', Query.named old path key value g = Ok (0, a) g'.
Proof.
  intros Hv Hs. eapply leaf_read; [done|]. intros g'. rewrite member_of_one. cbn [json_of string_value]. rewrite valuestring_create. by rewrite Hv.
Qed.
Lemma named_strict_read {A} (old : A) path key value s a g :
  value s = Some a → shows g path (json_of (IObj [(key, IStr s)])) →
  ∃ g', Query.named_strict old path key value g = Ok (0, a) g'.
Proof.
  intros Hv Hs. eapply leaf_read; [done|]. intros g'. rewrite member_of_one. cbn [json_of string_value is_string]. rewrite valuestring_create, isstring_create.
  cbn. by rewrite Hv.
Qed.
Lemma number_created w n : 0 ≤ n < 2 ^ w → w ≤ 53 →
  is_number (Some (json_of (INum n))) = true ∧ d2u w (number_value (Some (json_of (INum n)))) = n.
Proof.
  intros Hn Hw. cbn [json_of is_number number_value]. rewrite isnumber_create, valuedouble_create.
  split; [done|]. apply d2u_exact; [|done]. apply dbl_of_Z_exact.
  pose proof (Z.pow_le_mono_r 2 w 53). lia.
Qed.
Lemma number_read w old path key n g :
  0 ≤ n < 2 ^ w → w ≤ 53 → shows g path (json_of (IObj [(key, INum n)])) →
  ∃ g', Query.number_at w old path key g = Ok (0, n) g'.
Proof.
  intros Hn Hw Hs. eapply leaf_read; [done|]. intros g'. rewrite member_of_one. destruct (number_created w n Hn Hw) as [H1 H2]. by rewrite H1, H2.
Qed.
Lemma flag_read old path key b g :
  shows g path (json_of (IObj [(key, IBool b)])) → ∃ g', Query.flag_at old path key g = Ok (0, b) g'.
Proof.
  intros Hs. eapply leaf_read; [done|]. intros g'. rewrite member_of_one. cbn [json_of is_true]. by rewrite istrue_create.
Qed.

(** ** The settings and the questions that belong together *)
Inductive sets : ∀ {A}, gnma_call → gnma_query A → A → Prop :=
  | sets_pae port b :
      sets (gnma_port_ieee8021x_pae_mode_set port b) (gnma_port_ieee8021x_pae_mode_get port) b
  | sets_ctrl port m :
      sets (gnma_port_ieee8021x_port_ctrl_set port m) (gnma_port_ieee8021x_port_ctrl_get port) m
  | sets_host port m :
      sets (gnma_port_ieee8021x_port_host_mode_set port m) (gnma_port_ieee8021x_port_host_mode_get port) m
  | sets_guest port vid : 0 ≤ vid < 2 ^ 16 →
      sets (gnma_port_ieee8021x_guest_vlan_set port vid) (gnma_port_ieee8021x_guest_vlan_get port) vid
  | sets_unauthorized port vid : 0 ≤ vid < 2 ^ 16 →
      sets (gnma_port_ieee8021x_unauthorized_vlan_set port vid)
        (gnma_port_ieee8021x_unauthorized_vlan_get port) vid
  | sets_auth_control b :
      sets (gnma_ieee8021x_system_auth_control_set b) gnma_ieee8021x_system_auth_control_get b
  | sets_threshold n : 0 ≤ n < 2 ^ 8 → sets (gnma_poe_usage_threshold_set n) gnma_poe_usage_threshold_get n
  | sets_power_mgmt m : sets (gnma_poe_power_mgmt_set m) gnma_poe_power_mgmt_get m
  | sets_admin_mode port b : sets (gnma_poe_port_admin_mode_set port b) (gnma_poe_port_admin_mode_get port) b
  | sets_detection port m :
      sets (gnma_poe_port_detection_mode_set port m) (gnma_poe_port_detection_mode_get port) m
  | sets_power_limit port n : 0 ≤ n < 2 ^ 32 →
      sets (gnma_poe_port_power_limit_set port true n) (gnma_poe_port_power_limit_get port) (true, n)
  | sets_priority port m : sets (gnma_poe_port_priority_set port m) (gnma_poe_port_priority_get port) m
  | sets_server vid ip size : 1 ≤ size → inet_pton (inet_ntop ip) = (1, ip) →
      sets (gnma_vlan_dhcp_relay_server_add vid ip) (gnma_vlan_dhcp_relay_server_list_get vid size) (1, ip)
  | sets_policy vid a :
      sets (gnma_vlan_dhcp_relay_policy_action_set vid a) (gnma_vlan_dhcp_relay_policy_action_get vid) a
  | sets_circuit_id vid id : id ≠ CIRCUIT_ID_I →
      sets (gnma_vlan_dhcp_relay_ciruit_id_set vid id) (gnma_vlan_dhcp_relay_ciruit_id_get vid) id
  | sets_max_hop vid n : 0 ≤ n < 2 ^ 8 →
      sets (gnma_vlan_dhcp_relay_max_hop_cnt_set vid n) (gnma_vlan_dhcp_relay_max_hop_cnt_get vid) n.

(** [mirrors path val shown doc]: given [val] at [path], the device shows [doc]
    at [shown].  What is configured is seen where it was put, and under
    [state] what was put under [config]; a leaf of an entry of a list is seen
    alone at the path of the leaf. *)
Create HintDb mirrors discriminated.
Inductive mirrors : string → item → string → item → Prop :=
  | mirrors_config path val : mirrors path val path val
  | mirrors_state node leaf val :
      mirrors (node +:+ "/config/" +:+ leaf) val (node +:+ "/state/" +:+ leaf) val
  | mirrors_leaf path model entries entry leaf v : member entry leaf = Some v →
      mirrors path (IObj [(model +:+ ":" +:+ entries, IArr [IObj entry])])
        (path +:+ "/" +:+ leaf) (IObj [(model +:+ ":" +:+ leaf, v)]).

Lemma sapp_assoc a b c : (a +:+ b) +:+ c = a +:+ (b +:+ c).
Proof. induction a as [|x a IH]; [done|]. exact (f_equal (String x) IH). Qed.
Lemma authmgr_mirrors port leaf val :
  mirrors (Common.authmgr_config port leaf) val (Query.authmgr_state port leaf) val.
Proof.
  pose proof (mirrors_state ("/openconfig-authmgr:authmgr/authmgr-port-config/interface[name=" +:+ port +:+ "]")
    leaf val) as H. rewrite !sapp_assoc in H. exact H.
Qed.
Lemma threshold_mirrors n :
  mirrors Common.poe_global
    (IObj [("sonic-poe:POE_LIST", IArr [IObj [("id", IStr "GLOBAL"); ("power_usage_threshold", INum n)]])])
    (Common.poe_global +:+ "/power_usage_threshold") (IObj [("sonic-poe:power_usage_threshold", INum n)]).
Proof. by apply (mirrors_leaf _ "sonic-poe" "POE_LIST" _ "power_usage_threshold"). Qed.
#[local] Hint Resolve authmgr_mirrors threshold_mirrors | 0 : mirrors.
#[local] Hint Resolve mirrors_config | 5 : mirrors.

(** The server of a relay, in the list of one. *)
Lemma server_read vid size old ip g :
  1 ≤ size → inet_pton (inet_ntop ip) = (1, ip) →
  shows g (Common.relay_path vid "config/helper-address")
    (json_of (IObj [("openconfig-relay-agent:helper-address", IArr [IStr (inet_ntop ip)])])) →
  ∃ g', Query.gnma_vlan_dhcp_relay_server_list_get vid size old g = Ok (0, (1, ip)) g'.
Proof.
  intros Hsz Hip Hs. eapply leaf_read; [exact Hs|]. intros g'. rewrite member_of_one. cbn [is_array].
  rewrite array_json. unfold array_size. cbn [for_each_child negb]. rewrite children_json.
  cbn [fmap list_fmap length]. change (wrap 16 (Z.of_nat 1)) with 1. destruct (Z.ltb_spec size 1); [lia|].
  unfold Query.server_addresses. cbn [fold_m]. unfold mbind, M_bind. cbn [json_of].
  change (string_value (Some (cJSON_CreateString (inet_ntop ip)))) with
    (cJSON_valuestring (cJSON_CreateString (inet_ntop ip))). rewrite valuestring_create. cbn [deref].
  unfold ret at 1. by rewrite Hip.
Qed.

Lemma limit_read port old n g :
  0 ≤ n < 2 ^ 32 →
  shows g (Common.poe_port_path port)
    (json_of (IObj [("sonic-poe:POE_PORT_LIST",
       IArr [IObj ([("power_limit_type", IStr "USER"); ("ifname", IStr port)] ++ [("power_limit", INum n)])])])) →
  ∃ g', Query.gnma_poe_port_power_limit_get port old g = Ok (0, (true, n)) g'.
Proof.
  intros Hn Hs. eapply leaf_read; [exact Hs|]. intros g'. rewrite member_of_one. cbn [is_array].
  rewrite array_json. unfold array_item. cbn [for_each_child]. rewrite children_json.
  cbn [fmap list_fmap lookup list_lookup is_object].
  rewrite object_json. cbn [get_item negb orb]. rewrite !member_json. cbn [member app].
  cbn. destruct (number_created 32 n) as [H1 H2]; [done..|].
  cbn [json_of is_number number_value] in H1, H2. rewrite valuestring_create, H2, H1. done.
Qed.

Lemma settings_read {A} c (q : gnma_query A) (a old : A) :
  sets c q a →
  ∃ path val shown doc,
    atomic (gnmi_jsoni_set path (json_of val)) (run_call c) ∧ mirrors path val shown doc ∧
    ∀ g, shows g shown (json_of doc) → ∃ g', run_query q old g = Ok (0, a) g'.
Proof.
  intros H. revert old. destruct H; intros old; cbn [run_call run_query];
    eexists _, _, _, _; (split; [by eauto with atomic|split; [by eauto with mirrors|intros g Hs]]).
  - eapply named_read, Hs. by destruct b.
  - eapply named_read, Hs. by destruct m.
  - eapply named_read, Hs. apply first_of_text, _.
  - by eapply number_read, Hs.
  - by eapply number_read, Hs.
  - eapply flag_read, Hs.
  - by eapply number_read, Hs.
  - eapply named_read, Hs. apply first_of_text, _.
  - eapply leaf_read; [exact Hs|]. intros g'. rewrite member_of_one. cbn [json_of is_bool is_true].
    by rewrite isbool_create, istrue_create.
  - eapply named_read, Hs. apply first_of_text, _.
  - by eapply limit_read.
  - eapply named_read, Hs. apply first_of_text, _.
  - by eapply server_read.
  - eapply named_strict_read, Hs. apply first_of_text, _.
  - eapply named_strict_read, Hs. by destruct id.
  - eapply leaf_read; [exact Hs|]. intros g'. rewrite member_of_one.
    destruct (number_created 8 n) as [H1 H2]; [done..|]. by rewrite H1, H2.
Qed.

(** ** Routes *)
Definition routes_path : string := "/sonic-static-route:sonic-static-route/STATIC_ROUTE/STATIC_ROUTE_LIST".
Definition routes_doc (routes : list (gnma_ip_prefix * gnma_route_attrs)) : item :=
  IObj [("sonic-static-route:STATIC_ROUTE_LIST", IArr ((λ r, Common.route_item r.1 r.2) <$> routes))].
Definition blackhole (r : gnma_ip_prefix * gnma_route_attrs) : bool :=
  match r.2 with GNMA_ROUTE_TYPE_BLACKHOLE => true | _ => false end.
(** The text of the prefix is read as the prefix. *)
Definition prefix_parses (p : gnma_ip_prefix) : Prop :=
  gp_v6 p = false ∧ gp_len p ≠ -1 ∧ inet_net_pton (Common.prefix_text p) = (gp_len p, gp_addr p).

Lemma text_item s : string_value (Some (json_of (IStr s))) = Some s.
Proof. apply valuestring_create. Qed.
Lemma route_of_item p attr :
  prefix_parses p →
  Query.route_of (json_of (Common.route_item p attr)) = if blackhole (p, attr) then Some (p, attr) else None.
Proof.
  intros (H4 & Hl & Hp). unfold Query.route_of, Common.route_item. cbn [get_item]. rewrite !member_json.
  cbn [member app fmap option_fmap option_map]. change (streq "prefix" "vrf-name") with false.
  change (streq "vrf-name" "vrf-name") with true. change (streq "prefix" "prefix") with true. cbn iota.
  cbn [fmap option_fmap option_map]. rewrite !text_item. cbn. rewrite Hp, (proj2 (Z.eqb_neq _ _) Hl).
  destruct p as [v6 addr len]. cbn in *. subst v6. destruct attr; cbn; try done.
Qed.
Lemma routes_of_doc routes :
  Forall (λ r, prefix_parses r.1) routes →
  omap Query.route_of (json_of <$> ((λ r, Common.route_item r.1 r.2) <$> routes)) =
  filter (λ r, blackhole r = true) routes.
Proof.
  induction 1 as [|[p attr] routes Hp _ IH]; [done|]. rewrite !fmap_cons. cbn [omap list_omap fst snd] in *.
  rewrite route_of_item by done. rewrite filter_cons. destruct (blackhole (p, attr)); cbn; by rewrite IH.
Qed.

Lemma doc_shown g path key l :
  shows g path (json_of (IObj [(key, IArr l)])) →
  ∃ g', gnmi_get_root path g = Ok (Some (json_of (IObj [(key, IArr l)]))) g' ∧
        for_each_child (get_item (Some (json_of (IObj [(key, IArr l)]))) key) = json_of <$> l ∧
        is_array (get_item (Some (json_of (IObj [(key, IArr l)]))) key) = true.
Proof.
  intros (_ & text & d & Hg & Hp). eexists. split; [|rewrite member_of_one; split].
  - unfold gnmi_get_root, gnmi_jsoni_get_alloc, mbind, M_bind. rewrite Hg. cbn. by rewrite Hp.
  - apply children_json.
  - apply array_json.
Qed.

Lemma routes_read size routes old g :
  Forall (λ r, prefix_parses r.1) routes → shows g routes_path (json_of (routes_doc routes)) →
  let kept := filter (λ r, blackhole r = true) routes in
  let cnt := Z.of_nat (length kept) in
  ∃ g', run_query (gnma_route_list_get size) old g =
        Ok ((if size <? cnt then GNMA_ERR_OVERFLOW else 0), (cnt, take (Z.to_nat size) kept)) g'.
Proof.
  intros Hr Hs. apply doc_shown in Hs as (g' & Hg & Hc & _). exists g'. cbn [run_query].
  unfold Query.gnma_route_list_get, try, mbind, M_bind. fold routes_path. rewrite Hg.
  rewrite Hc, routes_of_doc by done. done.
Qed.
End read.

(** C11: Settings are read back.  A setting of [sets] is one document sent to one
    path; when the device shows what mirrors that document, where it
    mirrors that path ([mirrors]), the question that belongs to the setting
    answers its value.  These are the five settings of IEEE 802.1X of a port and
    the global one; the power management and the usage threshold of the unit;
    the admin mode, detection mode, priority and user-defined limit of a PoE
    port; the server, the policy, the hop count and the circuit id of a DHCP
    relay.  Three are no round trips and are left out: the circuit id of
    the interface number, written as another text than the one read
    ([circuit_id_stops_init]); a class-based PoE limit, which is sent without the
    number its question insists on; the removal of a server. *)
Theorem settings_read_back `{J : CJson, JL : !CJsonLaws, N : !Gnmi, L : CLibc, T : CTarget}
    {A} c (q : gnma_query A) (a old : A) :
  sets c q a →
  ∃ path val shown doc,
    atomic (gnmi_jsoni_set path (json_of val)) (run_call c) ∧ mirrors path val shown doc ∧
    ∀ g : gnmi, shows g shown (json_of doc) → ∃ g', run_query q old g = Ok (0, a) g'.
Proof. apply settings_read. Qed.

Lemma settings_read_back_witness :
  (∃ path val shown doc,
    @atomic jtree_cjson sample_gnmi (@gnmi_jsoni_set jtree_cjson path (json_of val))
      (@run_call _ _ gnmi_libc (gnma_poe_port_power_limit_set "Ethernet1" true 60000)) ∧
    mirrors path val shown doc ∧
    ∀ g : @gnmi jtree_cjson sample_gnmi, shows g shown (@json_of jtree_cjson doc) →
      ∃ g', @run_query _ _ gnmi_libc amd64 _ (gnma_poe_port_power_limit_get "Ethernet1") (false, 0) g =
            Ok (0, (true, 60000)) g') ∧
  ∃ path val shown doc,
    @atomic jtree_cjson sample_gnmi (@gnmi_jsoni_set jtree_cjson path (json_of val))
      (@run_call _ _ gnmi_libc (gnma_vlan_dhcp_relay_server_add 7 16777226)) ∧
    mirrors path val shown doc ∧
    ∀ g : @gnmi jtree_cjson sample_gnmi, shows g shown (@json_of jtree_cjson doc) →
      ∃ g', @run_query _ _ gnmi_libc amd64 _ (gnma_vlan_dhcp_relay_server_list_get 7 1) (1, 0) g =
            Ok (0, (1, 16777226)) g'.
Proof.
  split.
  - refine (settings_read_back (JL := jtree_laws) (gnma_poe_port_power_limit_set "Ethernet1" true 60000)
      (gnma_poe_port_power_limit_get "Ethernet1") (true, 60000) (false, 0) _).
    constructor. lia.
  - refine (settings_read_back (JL := jtree_laws) (gnma_vlan_dhcp_relay_server_add 7 16777226)
      (gnma_vlan_dhcp_relay_server_list_get 7 1) (1, 16777226) (1, 0) _).
    constructor; [lia|by vm_compute].
Defined.

(** Of the static routes only the black holes are read back: the list has
    them in order, cut to the room there is, and the overflow is reported; what
    was set with a gateway or an interface is never seen again. *)
Theorem routes_read_back `{J : CJson, JL : !CJsonLaws, N : !Gnmi, L : CLibc, T : CTarget}
    size routes old (g : gnmi) :
  Forall (λ r, prefix_parses r.1) routes → shows g routes_path (json_of (routes_doc routes)) →
  let kept := filter (λ r, blackhole r = true) routes in
  let cnt := Z.of_nat (length kept) in
  ∃ g', run_query (gnma_route_list_get size) old g =
        Ok ((if size <? cnt then GNMA_ERR_OVERFLOW else 0), (cnt, take (Z.to_nat size) kept)) g'.
Proof. apply routes_read. Qed.

Definition sample_routes : list (gnma_ip_prefix * gnma_route_attrs) :=
  let p := mk_gnma_ip_prefix false 16777226 24 in
  [(p, GNMA_ROUTE_TYPE_NEXTHOP 7 16777226); (p, GNMA_ROUTE_TYPE_BLACKHOLE)].
Definition sample_routes_text : string :=
  "{'sonic-static-route:STATIC_ROUTE_LIST':[
    {'prefix':'10.0.0.1/24','vrf-name':'default','ifname':'Vlan7','nexthop':'10.0.0.1'},
    {'prefix':'10.0.0.1/24','vrf-name':'default','blackhole':'true,false'}]}".
Lemma routes_read_back_witness :
  ∃ g', @run_query jtree_cjson sample_gnmi gnmi_libc amd64 _ (gnma_route_list_get 4) (0, [])
          (sample_session [] [(routes_path, sample_routes_text)]) =
        Ok (0, (1, [(mk_gnma_ip_prefix false 16777226 24, GNMA_ROUTE_TYPE_BLACKHOLE)])) g'.
Proof.
  refine (routes_read_back (L := gnmi_libc) (T := amd64) (JL := jtree_laws) 4 sample_routes (0, [])
    (sample_session [] [(routes_path, sample_routes_text)]) _ _).
  - repeat constructor; vm_compute; done.
  - split; [reflexivity|]. eexists (quoted sample_routes_text), _. split; vm_compute; reflexivity.
Defined.
