(* ===== verification/PlatState.v ===== *)
(** * The state of the SONiC platform ([platform/brcm-sonic/plat-gnma.c])

    [plat_state] caches what the switch is configured to, so that applying a
    configuration only changes what differs.  [plat] is the whole state of the
    file: the cache, the switch ([pl_gnma]) with the settings made so far and
    their return values ([pl_calls], oldest first), the feature states, the
    ring of log lines, the files, and the outcomes of the allocations and file
    operations to come, as in [World].  The lines of UC_LOG_* go to the logger
    and change nothing here; those of CFG_LOG_CRIT also enter the ring. *)

From S2P Require Import Prelude CNum CStr Bitmap Router PlatTypes Gnma.
#[local] Open Scope list_scope.

(** ** The cache *)
Record dhcp_relay_state := mk_dhcp_relay_state {
  dr_policy_act : gnma_dhcp_relay_policy_action;
  dr_circ_id : gnma_dhcp_relay_circuit_id;
  dr_max_hop_cnt : Z;
  dr_helper_address : Z;          (* helper_addresses[0].u.v4, the only one *)
  dr_enabled : bool }.
Definition zero_dhcp_relay_state : dhcp_relay_state :=
  mk_dhcp_relay_state POLICY_ACTION_DISCARD CIRCUIT_ID_H_P 0 0 false.
#[export] Instance eta_dhcp_relay_state : Eta dhcp_relay_state := λ r,
  mk_dhcp_relay_state (dr_policy_act r) (dr_circ_id r) (dr_max_hop_cnt r) (dr_helper_address r)
    (dr_enabled r).

Record poe_port := mk_poe_port {
  pp_key : string;
  pp_is_admin_mode_up : bool;
  pp_detection_mode : gnma_poe_port_detection_mode;
  pp_power_limit : Z;
  pp_is_power_limit_user_defined : bool;
  pp_priority : gnma_poe_port_priority }.
Definition zero_poe_port : poe_port :=
  mk_poe_port EmptyString false DETECTION_2PT_DOT3AF 0 false PRIORITY_LOW.
#[export] Instance eta_poe_port : Eta poe_port := λ r,
  mk_poe_port (pp_key r) (pp_is_admin_mode_up r) (pp_detection_mode r) (pp_power_limit r)
    (pp_is_power_limit_user_defined r) (pp_priority r).

(** [struct port]. *)
Record x_port := mk_x_port {
  xp_key : string;
  xp_control_mode : gnma_8021x_port_ctrl_mode;
  xp_host_mode : gnma_8021x_port_host_mode;
  xp_auth_fail_vid : Z;
  xp_guest_vid : Z;
  xp_is_authenticator : bool }.
Definition zero_x_port : x_port :=
  mk_x_port EmptyString CTRL_FORCE_AUTHORIZED HOST_MULTI_AUTH 0 0 false.
#[export] Instance eta_x_port : Eta x_port := λ r,
  mk_x_port (xp_key r) (xp_control_mode r) (xp_host_mode r) (xp_auth_fail_vid r) (xp_guest_vid r)
    (xp_is_authenticator r).

(** A heap array of keys with its length kept beside it. *)
Record key_array := mk_key_array { ka_arr : option (list string); ka_size : Z }.
Definition zero_key_array : key_array := mk_key_array None 0.

Record plat_state := mk_plat_state {
  ps_ports : gmap Z x_port;
  ps_ports_bmap : bitmap;
  ps_vlans : gmap Z dhcp_relay_state;
  ps_power_mgmt : gnma_poe_power_mgmt_mode;
  ps_usage_threshold : Z;
  ps_poe_ports : gmap Z poe_port;
  ps_poe_bmap : bitmap;
  ps_is_auth_control_enabled : bool;
  ps_bounce_port_ignore : bool;
  ps_disable_port_ignore : bool;
  ps_ignore_server_key : bool;
  ps_ignore_session_key : bool;
  ps_das_auth_type : das_auth_type;
  ps_das_dac : key_array;
  ps_radius : key_array;
  ps_router : router;
  ps_stp_mode : gnma_stp_mode;
  ps_stp_mode_attr : gnma_stp_attr;
  ps_stp_vlan_attr : gmap Z gnma_stp_attr;
  ps_portsl2_rif_ipv4 : gmap Z plat_ipv4 }.
Definition zero_plat_state : plat_state :=
  mk_plat_state ∅ (BITMAP_CLEAR MAX_NUM_OF_PORTS) ∅ POWER_MGMT_CLASS 0 ∅
    (BITMAP_CLEAR MAX_NUM_OF_PORTS) false false false false false DAS_ANY zero_key_array
    zero_key_array ucentral_router_fib_db_free GNMA_STP_MODE_NONE zero_stp_attr ∅ ∅.
#[export] Instance eta_plat_state : Eta plat_state := λ r,
  mk_plat_state (ps_ports r) (ps_ports_bmap r) (ps_vlans r) (ps_power_mgmt r) (ps_usage_threshold r)
    (ps_poe_ports r) (ps_poe_bmap r) (ps_is_auth_control_enabled r) (ps_bounce_port_ignore r)
    (ps_disable_port_ignore r) (ps_ignore_server_key r) (ps_ignore_session_key r)
    (ps_das_auth_type r) (ps_das_dac r) (ps_radius r) (ps_router r) (ps_stp_mode r)
    (ps_stp_mode_attr r) (ps_stp_vlan_attr r) (ps_portsl2_rif_ipv4 r).

Inductive featsts := FEATSTS_FAIL | FEATSTS_NONE | FEATSTS_OK.
#[export] Instance featsts_eq_dec : EqDecision featsts.
Proof. solve_decision. Defined.
Record features := mk_features { FEAT_CORE : featsts; FEAT_POE : featsts; FEAT_AAA : featsts }.
#[export] Instance eta_features : Eta features := λ r, mk_features (FEAT_CORE r) (FEAT_POE r) (FEAT_AAA r).

(** The ring of log lines. *)
Definition plat_log_ringbuf_size : Z := 64.
Record log_ring := mk_log_ring {
  lr_buf : list (option string);
  lr_rp : Z;
  lr_wp : Z }.
#[export] Instance eta_log_ring : Eta log_ring := λ r, mk_log_ring (lr_buf r) (lr_rp r) (lr_wp r).
Definition log_ring_init : log_ring :=
  mk_log_ring (replicate (Z.to_nat plat_log_ringbuf_size) None) 0 0.

Record plat `{Gnma} := mk_plat {
  pl_gnma : gst;
  pl_calls : list (gnma_call * Z);
  pl_state : plat_state;
  pl_features : features;
  pl_log : log_ring;
  pl_heap : list bool;
  pl_files : gmap string string;
  pl_io : list bool }.
#[export] Instance eta_plat `{Gnma} : Eta plat := λ r,
  mk_plat _ (pl_gnma r) (pl_calls r) (pl_state r) (pl_features r) (pl_log r) (pl_heap r)
    (pl_files r) (pl_io r).

Section ops.
Context `{G : Gnma}.

(** One setting: its return value, which the trace keeps too. *)
Definition gnma (c : gnma_call) : M plat Z := λ p,
  match gnma_do c (pl_gnma p) with
  | inl (rc, g) => Ok rc (p <| pl_gnma := g |> <| pl_calls := pl_calls p ++ [(c, rc)] |>)
  | inr f => Fault f
  end.
(** One question; [old] is what the output parameters hold before. *)
Definition ask {A} (q : gnma_query A) (old : A) : M plat (Z * A) := λ p,
  match gnma_get q old (pl_gnma p) with
  | inl (rc, a, g) => Ok (rc, a) (p <| pl_gnma := g |>)
  | inr f => Fault f
  end.

(** [if (gnma_*(...)) return -1;] and [if ((ret = gnma_*(...))) return ret;]:
    only whether it is 0 matters to the callers. *)
Definition gnma_ok (c : gnma_call) : M plat unit := rc ← gnma c; fail_if (negb (rc =? 0)).

Definition pl_alloc : M plat bool := λ p,
  match pl_heap p with
  | [] => Ok true p
  | b :: h => Ok b (p <| pl_heap := h |>)
  end.
Definition pl_alloc_or_fail : M plat unit := b ← pl_alloc; fail_if (negb b).
Definition pl_io_next : M plat bool := λ p,
  match pl_io p with
  | [] => Ok true p
  | b :: l => Ok b (p <| pl_io := l |>)
  end.

Definition cache : M plat plat_state := gets pl_state.
Definition upd_cache (f : plat_state → plat_state) : M plat unit :=
  modify (λ p, p <| pl_state := f (pl_state p) |>).

(** ** The ring *)
Definition ring_upd (f : log_ring → log_ring) : M plat unit :=
  modify (λ p, p <| pl_log := f (pl_log p) |>).

Definition plat_log_pop : M plat (option string) :=
  r ← gets pl_log;
  match lr_buf r !! Z.to_nat (lr_rp r) with
  | Some (Some msg) =>
      _ ← ring_upd (λ r, r <| lr_buf := <[Z.to_nat (lr_rp r) := None]> (lr_buf r) |>
                           <| lr_rp := (lr_rp r + 1) mod plat_log_ringbuf_size |>);
      ret (Some msg)
  | _ => ret None
  end.

(** Every pop empties a slot. *)
Fixpoint flush_loop (fuel : nat) : M plat unit :=
  match fuel with
  | O => ret tt
  | S fuel => msg ← plat_log_pop; match msg with None => ret tt | Some _ => flush_loop fuel end
  end.
Definition plat_log_flush : M plat unit := flush_loop (S (Z.to_nat plat_log_ringbuf_size)).

(** [asprintf(&res, "%s%s\n", res, msg)]: without memory the text collected so
    far is lost, and so is [msg]. *)
Fixpoint concatenate_loop (fuel : nat) (res : string) : M plat (option string) :=
  match fuel with
  | O => ret (Some res)
  | S fuel =>
      msg ← plat_log_pop;
      match msg with
      | None => ret (Some res)
      | Some msg =>
          ok ← pl_alloc;
          if negb ok then ret None
          else concatenate_loop fuel (res +:+ msg +:+ String (Ascii.ascii_of_nat 10) EmptyString)
      end
  end.
Definition plat_log_pop_concatenate : M plat (option string) :=
  ok ← pl_alloc;
  if negb ok then ret None
  else concatenate_loop (S (Z.to_nat plat_log_ringbuf_size)) EmptyString.

Definition plat_log_push_ (msg : string) : M plat unit :=
  _ ← ring_upd (λ r, r <| lr_wp := (lr_wp r + 1) mod plat_log_ringbuf_size |>);
  r ← gets pl_log;
  _ ← (if lr_wp r =? lr_rp r then _ ← plat_log_pop; ret tt else ret tt);
  ring_upd (λ r, r <| lr_buf := <[Z.to_nat (lr_wp r) := Some msg]> (lr_buf r) |>).

(** [vasprintf] and the push. *)
Definition plat_log_printf (text : string) : M plat unit :=
  ok ← pl_alloc; when ok (plat_log_push_ text).

Definition CFG_LOG_CRIT (text : string) : M plat unit := plat_log_printf text.
End ops.
