(* ===== verification/PlatVlan.v ===== *)
(** * VLANs and routes on the SONiC platform ([plat-gnma.c])

    Which VLANs exist, their members, their addresses, IGMP snooping and DHCP
    relay; the routing table.  A function that returns an error code leaves behind what it had
    already set, on the switch and in the cache. *)

From S2P Require Import Prelude CNum CStr Bitmap Router PlatTypes ProtoConv Gnma PlatState.
#[local] Open Scope list_scope.

Section vlan.
Context `{G : Gnma}.

Definition vlan_state (vid : Z) : M plat dhcp_relay_state :=
  s ← cache; arr_read GNMA_MAX_VLANS zero_dhcp_relay_state (ps_vlans s) vid.
Definition upd_vlan (vid : Z) (f : dhcp_relay_state → dhcp_relay_state) : M plat unit :=
  s ← cache;
  a ← arr_write GNMA_MAX_VLANS (ps_vlans s) vid
        (f (arr_get zero_dhcp_relay_state (ps_vlans s) vid));
  upd_cache (λ s, s <| ps_vlans := a |>).

(** ** The address of a VLAN *)
Definition prefix_of (ipv4 : plat_ipv4) : gnma_ip_prefix :=
  mk_gnma_ip_prefix false (ip4_subnet ipv4) (ip4_subnet_len ipv4).
Definition no_snooping : gnma_igmp_snoop_attr :=
  mk_gnma_igmp_snoop_attr false false false 0 0 0 GNMA_IGMP_NA.

Definition plat_vlan_rif_set (vid : Z) (ipv4 : plat_ipv4) : M plat unit :=
  let pref := prefix_of ipv4 in
  '(rc, (list_size, pref_old)) ← ask (gnma_vlan_erif_attr_pref_list_get vid 1) (1, zero_ip_prefix);
  _ ← fail_if (negb (rc =? 0));
  v ← vlan_state vid;
  _ ← when (dr_enabled v) (gnma_ok (gnma_vlan_dhcp_relay_server_remove vid (dr_helper_address v)));
  _ ← gnma_ok (gnma_igmp_snooping_set vid no_snooping);
  _ ← when ((0 <? list_size) && negb (ip4_exist ipv4))
        (_ ← upd_vlan vid (λ v, v <| dr_enabled := false |> <| dr_helper_address := 0 |>);
         gnma_ok (gnma_vlan_erif_attr_pref_delete vid pref_old));
  when (ip4_exist ipv4 && ((list_size =? 0) || negb (GNMA_IP_PREF_IS_EQ pref pref_old)))
    (_ ← gnma_ok (gnma_vlan_erif_attr_pref_update vid pref);
     v ← vlan_state vid;
     when (dr_enabled v) (gnma_ok (gnma_vlan_dhcp_relay_server_add vid (dr_helper_address v)))).

(** ** IGMP snooping *)
Definition snoop_attr (igmp : plat_igmp) : gnma_igmp_snoop_attr :=
  mk_gnma_igmp_snoop_attr (igmp_snooping_enabled igmp) (igmp_querier_enabled igmp)
    (igmp_fast_leave_enabled igmp) (igmp_query_interval igmp)
    (igmp_last_member_query_interval igmp) (igmp_max_response_time igmp)
    (if negb (igmp_exist igmp) then GNMA_IGMP_NA
     else match igmp_version igmp with
          | IGMP_1 => GNMA_IGMP_1 | IGMP_2 => GNMA_IGMP_2 | IGMP_3 => GNMA_IGMP_3
          end).

(** [group_list] for the groups from [idx] on. *)
Fixpoint igmp_group_list (igmp : plat_igmp) (n : nat) (idx : nat) : M plat (list (Z * list string)) :=
  match n with
  | O => ret []
  | S n =>
      g ← of_option OutOfBounds (igmp_groups igmp !! idx);
      _ ← pl_alloc_or_fail;
      rest ← igmp_group_list igmp n (S idx);
      ret ((grp_addr g, grp_egress_ports g) :: rest)
  end.

Definition plat_vlan_igmp_set (vid : Z) (igmp : plat_igmp) : M plat unit :=
  _ ← pl_alloc_or_fail;
  group_list ← igmp_group_list igmp (Z.to_nat (igmp_num_groups igmp)) 0;
  _ ← gnma_ok (gnma_igmp_snooping_set vid (snoop_attr igmp));
  gnma_ok (gnma_igmp_static_groups_set vid group_list).

Definition config_vlan_ipv4_apply (cfg : plat_cfg) : M plat unit :=
  for_each (BITMAP_FOR_EACH_BIT_SET (cfg_vlans_to_cfg cfg) MAX_VLANS) (λ i,
    if i =? FIRST_VLAN then ret tt
    else
      let vlan := arr_get zero_plat_port_vlan (cfg_vlans cfg) i in
      _ ← plat_vlan_rif_set (vlan_id vlan) (vlan_ipv4 vlan);
      plat_vlan_igmp_set (vlan_id vlan) (vlan_igmp vlan)).

(** ** Which VLANs exist *)
Definition plat_vlan_list_set (vlans_to_cfg : bitmap) : M plat unit :=
  '(rc, vlans) ← ask gnma_vlan_list_get ∅;
  _ ← fail_if (negb (rc =? 0));
  for_each (bits GNMA_MAX_VLANS vlans) (λ vid,
    keep ← bit_test vlans_to_cfg vid;
    if (keep : bool) || (vid =? FIRST_VLAN) then ret tt
    else
      _ ← plat_vlan_rif_set vid zero_plat_ipv4;
      gnma_ok (gnma_vlan_remove vid)).

(** ** Members

    The requests of one change; adding one may fail for lack of memory. *)
Definition change_add (c : list change_op) (op : change_op) : M plat (option (list change_op)) :=
  ok ← pl_alloc; ret (if (ok : bool) then Some (c ++ [op]) else None).
Definition change_add_ok (c : list change_op) (op : change_op) : M plat (list change_op) :=
  r ← change_add c op; match r with Some c => ret c | None => fail end.

(** The bitmaps of the members a configuration names. *)
Definition member_bits (members : list vlan_member) : M plat (bitmap * bitmap) :=
  fold_m (λ '(member, tagged) pv,
      match NAME_TO_PID (mem_name pv) with
      | None => fail
      | Some pid =>
          member ← bit_set member pid;
          tagged ← (if mem_tagged pv then bit_set tagged pid else ret tagged);
          ret (member, tagged)
      end)
    members (BITMAP_CLEAR MAX_NUM_OF_PORTS, BITMAP_CLEAR MAX_NUM_OF_PORTS).

Definition plat_vlan_memberlist_set (c : list change_op) (vlan_mbr : gmap Z vlan_bmap)
    (vlan : plat_port_vlan) : M plat (list change_op) :=
  let vid := vlan_id vlan in
  c ← change_add_ok c (OpVlanCreate vid);
  '(vlan_port_member, vlan_port_tagged) ← member_bits (vlan_members vlan);
  now ← arr_read GNMA_MAX_VLANS zero_vlan_bmap vlan_mbr vid;
  c ← fold_m (λ c i,
        stays ← bit_test vlan_port_member i;
        if (stays : bool) then ret c
        else r ← change_add c (OpMemberRemove vid (PID_TO_NAME i)); ret (default c r))
      (bits MAX_NUM_OF_PORTS (port_member now)) c;
  fold_m (λ c i,
      tagged ← bit_test vlan_port_tagged i;
      if bool_decide (i ∈ port_member now) && eqb tagged (bool_decide (i ∈ port_tagged now)) then ret c
      else change_add_ok c (OpMemberCreate vid (PID_TO_NAME i) tagged))
    (BITMAP_FOR_EACH_BIT_SET vlan_port_member MAX_NUM_OF_PORTS) c.

Definition config_vlan_apply (cfg : plat_cfg) : M plat unit :=
  _ ← plat_vlan_list_set (cfg_vlans_to_cfg cfg);
  _ ← pl_alloc_or_fail;
  '(rc, vlan_mbr) ← ask gnma_vlan_member_bmap_get ∅;
  _ ← fail_if (negb (rc =? 0));
  _ ← pl_alloc_or_fail;
  c ← fold_m (λ c i,
        plat_vlan_memberlist_set c vlan_mbr (arr_get zero_plat_port_vlan (cfg_vlans cfg) i))
      (BITMAP_FOR_EACH_BIT_SET (cfg_vlans_to_cfg cfg) GNMA_MAX_VLANS) [];
  gnma_ok (gnma_change_exec c).

(** ** DHCP relay *)
Definition PLAT_DHCP_RELAY_DEFAULT_POLICY_ACT : gnma_dhcp_relay_policy_action := POLICY_ACTION_REPLACE.
Definition PLAT_DHCP_RELAY_DEFAULT_MAXHOP_CNT : Z := 10.

(** The first loop: a relay that is switched off, or whose server changes, is
    removed. *)
Definition dhcp_relay_clear (cfg : plat_cfg) (i : Z) : M plat unit :=
  let relay := vlan_dhcp (arr_get zero_plat_port_vlan (cfg_vlans cfg) i) in
  v ← vlan_state i;
  if negb (dr_enabled v) || (i =? FIRST_VLAN) then ret tt
  else if relay_enabled relay && (dr_helper_address v =? relay_server_address relay) then ret tt
  else
    _ ← gnma_ok (gnma_vlan_dhcp_relay_server_remove i (dr_helper_address v));
    upd_vlan i (λ v, v <| dr_enabled := false |> <| dr_helper_address := 0 |>).

Definition circ_id_of (text : string) : gnma_dhcp_relay_circuit_id :=
  if streq text "%u" then CIRCUIT_ID_I
  else if streq text "%p" then CIRCUIT_ID_P
  else CIRCUIT_ID_H_P.

(** The second loop. *)
Definition dhcp_relay_set (cfg : plat_cfg) (i : Z) : M plat unit :=
  let relay := vlan_dhcp (arr_get zero_plat_port_vlan (cfg_vlans cfg) i) in
  if negb (relay_enabled relay) || (i =? FIRST_VLAN) then ret tt
  else
    let ip := relay_server_address relay in
    _ ← gnma_ok (gnma_vlan_dhcp_relay_server_add i ip);
    _ ← upd_vlan i (λ v, v <| dr_helper_address := ip |>);
    v ← vlan_state i;
    _ ← when (negb (dr_max_hop_cnt v =? PLAT_DHCP_RELAY_DEFAULT_MAXHOP_CNT))
          (_ ← gnma_ok (gnma_vlan_dhcp_relay_max_hop_cnt_set i PLAT_DHCP_RELAY_DEFAULT_MAXHOP_CNT);
           upd_vlan i (λ v, v <| dr_max_hop_cnt := PLAT_DHCP_RELAY_DEFAULT_MAXHOP_CNT |>));
    _ ← when (bool_decide (dr_policy_act v ≠ PLAT_DHCP_RELAY_DEFAULT_POLICY_ACT))
          (_ ← gnma_ok (gnma_vlan_dhcp_relay_policy_action_set i PLAT_DHCP_RELAY_DEFAULT_POLICY_ACT);
           upd_vlan i (λ v, v <| dr_policy_act := PLAT_DHCP_RELAY_DEFAULT_POLICY_ACT |>));
    let circ_id := circ_id_of (relay_circ_id relay) in
    _ ← when (bool_decide (dr_circ_id v ≠ circ_id))
          (_ ← gnma_ok (gnma_vlan_dhcp_relay_ciruit_id_set i circ_id);
           upd_vlan i (λ v, v <| dr_circ_id := circ_id |>));
    upd_vlan i (λ v, v <| dr_enabled := true |>).

Definition config_vlan_dhcp_relay_apply (cfg : plat_cfg) : M plat unit :=
  let vlans := BITMAP_FOR_EACH_BIT_SET (cfg_vlans_to_cfg cfg) MAX_VLANS in
  _ ← for_each vlans (dhcp_relay_clear cfg);
  for_each vlans (dhcp_relay_set cfg).
End vlan.

(** ** Static routes on the SONiC platform ([plat-gnma.c])

    [config_router_apply] compares the routes of the configuration with those
    of the cache and removes and creates what differs. *)

Definition router_fib_key2gnma_prefix (uk : fib_key) : gnma_ip_prefix :=
  mk_gnma_ip_prefix false (prefix uk) (prefix_len uk).
Definition gnma_prefix2router_fib_key (gp : gnma_ip_prefix) : fib_key :=
  {| prefix := gp_addr gp; prefix_len := gp_len gp |}.

Definition router_fib_info2gnma_attr (ui : fib_info) : option gnma_route_attrs :=
  match ui with
  | ROUTE_BLACKHOLE => Some GNMA_ROUTE_TYPE_BLACKHOLE
  | ROUTE_CONNECTED vid => Some (GNMA_ROUTE_TYPE_CONNECTED vid)
  | ROUTE_NH vid gw => Some (GNMA_ROUTE_TYPE_NEXTHOP vid gw)
  | ROUTE_UNREACHABLE | ROUTE_BROADCAST _ => None
  end.
Definition gnma_attr2router_fib_info (ga : gnma_route_attrs) : fib_info :=
  match ga with
  | GNMA_ROUTE_TYPE_BLACKHOLE => ROUTE_BLACKHOLE
  | GNMA_ROUTE_TYPE_CONNECTED vid => ROUTE_CONNECTED vid
  | GNMA_ROUTE_TYPE_NEXTHOP vid gw => ROUTE_NH vid gw
  end.

Section router.
Context `{G : Gnma, Q : QSort}.

Definition route_create (n : fib_node) : M plat unit :=
  match router_fib_info2gnma_attr (node_info n) with
  | None => fail
  | Some gattr => gnma_ok (gnma_route_create (router_fib_key2gnma_prefix (node_key n)) gattr)
  end.
(** The answer of [gnma_route_remove] is not looked at. *)
Definition route_remove (n : fib_node) : M plat unit :=
  _ ← gnma (gnma_route_remove (router_fib_key2gnma_prefix (node_key n))); ret tt.

(** The body of the loop. *)
Definition route_diff_apply (d : diff_step) : M plat unit :=
  match d with
  | DiffUpd n o =>
      if ucentral_router_fib_info_cmp (node_info n) (node_info o) =? 0 then ret tt
      else _ ← route_remove n; route_create n
  | DiffDel o => route_remove o
  | DiffAdd n => route_create n
  end.

Definition sorted_db (r : router) : router :=
  if r_sorted r then r else ucentral_router_fib_db_sort r.

(** The array of the cache is sorted in place; [sorted] and the rest of
    [oldr] are a copy, which an error drops. *)
Definition config_router_apply (cfg : plat_cfg) : M plat unit :=
  s ← cache;
  ok ← pl_alloc;
  match ucentral_router_fib_db_copy ok (cfg_router cfg) with
  | None => fail
  | Some newr =>
      let newr := sorted_db newr in
      let oldr := sorted_db (ps_router s) in
      _ ← upd_cache (λ s, s <| ps_router :=
            {| r_arr := r_arr oldr; r_max := r_max (ps_router s);
               r_sorted := r_sorted (ps_router s) |} |>);
      _ ← for_each (for_router_db_diff newr oldr) route_diff_apply;
      upd_cache (λ s, s <| ps_router := newr |>)
  end.
End router.
