(* ===== verification/PlatPort.v ===== *)
(** * Ports, power and spanning tree on the SONiC platform ([plat-gnma.c]) *)

From S2P Require Import Prelude CNum CStr Bitmap Router PlatTypes ProtoConv Gnma PlatState.
#[local] Open Scope list_scope.

Section port.
Context `{G : Gnma}.

(** ** Link settings: what the switch answers is not looked at *)
Definition speed_strings : list (Z * string) :=
  [(SPEED_10_E, "10"); (SPEED_100_E, "100"); (SPEED_1000_E, "1000"); (SPEED_2500_E, "2500");
   (SPEED_5000_E, "5000"); (SPEED_10000_E, "10000"); (SPEED_25000_E, "25000");
   (SPEED_40000_E, "40000"); (SPEED_100000_E, "100000")].
Definition SPEED_TO_STR (speed : Z) : option string :=
  (λ p : nat * (Z * string), p.2.2) <$> list_find (λ p, p.1 = speed) speed_strings.

Definition plat_port_admin_state_set (pid state : Z) : M plat unit :=
  _ ← gnma (gnma_port_admin_state_set (PID_TO_NAME pid) (state =? PORT_ENABLED_E)); ret tt.
Definition plat_port_speed_set (pid speed : Z) : M plat unit :=
  match SPEED_TO_STR speed with
  | None => fail
  | Some s => _ ← gnma (gnma_port_speed_set (PID_TO_NAME pid) s); ret tt
  end.
Definition plat_port_duplex_set (pid duplex : Z) : M plat unit :=
  _ ← gnma (gnma_port_duplex_set (PID_TO_NAME pid) (duplex =? DUPLEX_FULL_E)); ret tt.

(** ** IEEE 802.1X: the cache is written when every setting has succeeded *)
Definition ctrl_mode_of (m : port_control_mode) : gnma_8021x_port_ctrl_mode :=
  match m with
  | FORCE_AUTHORIZED => CTRL_FORCE_AUTHORIZED
  | FORCE_UNAUTHORIZED => CTRL_FORCE_UNAUTHORIZED
  | CONTROL_AUTO => CTRL_AUTO
  end.
Definition host_mode_of (m : port_host_mode) : gnma_8021x_port_host_mode :=
  match m with
  | MULTI_AUTH => HOST_MULTI_AUTH
  | MULTI_DOMAIN => HOST_MULTI_DOMAIN
  | MULTI_HOST => HOST_MULTI_HOST
  | SINGLE_HOST => HOST_SINGLE_HOST
  end.

Definition config_port_ieee8021x_apply (port_id : Z) (port_cfg : plat_port) : M plat unit :=
  let x := port_ieee8021x port_cfg in
  let name := PID_TO_NAME port_id in
  let ctrl_mode := ctrl_mode_of (x_control_mode x) in
  let host_mode := host_mode_of (x_host_mode x) in
  s ← cache;
  cached_port ← arr_read MAX_NUM_OF_PORTS zero_x_port (ps_ports s) port_id;
  _ ← when (negb (eqb (xp_is_authenticator cached_port) (x_is_authenticator x)))
        (gnma_ok (gnma_port_ieee8021x_pae_mode_set name (x_is_authenticator x)));
  _ ← when (bool_decide (xp_control_mode cached_port ≠ ctrl_mode))
        (gnma_ok (gnma_port_ieee8021x_port_ctrl_set name ctrl_mode));
  _ ← when (bool_decide (xp_host_mode cached_port ≠ host_mode))
        (gnma_ok (gnma_port_ieee8021x_port_host_mode_set name host_mode));
  _ ← when (negb (xp_guest_vid cached_port =? x_guest_vid x))
        (gnma_ok (gnma_port_ieee8021x_guest_vlan_set name (x_guest_vid x)));
  _ ← when (negb (xp_auth_fail_vid cached_port =? x_auth_fail_vid x))
        (gnma_ok (gnma_port_ieee8021x_unauthorized_vlan_set name (x_auth_fail_vid x)));
  upd_cache (λ s, s <| ps_ports := <[port_id :=
    mk_x_port (xp_key cached_port) ctrl_mode host_mode (x_auth_fail_vid x) (x_guest_vid x)
      (x_is_authenticator x)]> (ps_ports s) |>).

(** ** Power over Ethernet: the cache follows every setting *)
Definition poe_port_detection_mode_str2num (str : string) : gnma_poe_port_detection_mode :=
  if streq str "2pt-dot3af" then DETECTION_2PT_DOT3AF
  else if streq str "2pt-dot3af+legacy" then DETECTION_2PT_DOT3AF_LEG
  else if streq str "4pt-dot3af" then DETECTION_4PT_DOT3AF
  else if streq str "4pt-dot3af+legacy" then DETECTION_4PT_DOT3AF_LEG
  else if streq str "dot3bt" then DETECTION_DOT3BT
  else if streq str "dot3bt+legacy" then DETECTION_DOT3BT_LEG
  else if streq str "legacy" then DETECTION_LEG
  else DETECTION_4PT_DOT3AF.

Definition poe_port_priority_mode_str2num (str : string) : gnma_poe_port_priority :=
  if streq str "low" then PRIORITY_LOW
  else if streq str "medium" then PRIORITY_MEDIUM
  else if streq str "high" then PRIORITY_HIGH
  else if streq str "critical" then PRIORITY_CRITICAL
  else PRIORITY_LOW.

Definition poe_power_mgmt_str2num (str : string) : gnma_poe_power_mgmt_mode :=
  if streq str "class" then POWER_MGMT_CLASS
  else if streq str "dynamic" then POWER_MGMT_DYNAMIC
  else if streq str "dynamic-priority" then POWER_MGMT_DYNAMIC_PRIORITY
  else if streq str "static" then POWER_MGMT_STATIC
  else if streq str "static-priority" then POWER_MGMT_STATIC_PRIORITY
  else POWER_MGMT_CLASS.

Definition upd_poe (pid : Z) (f : poe_port → poe_port) : M plat unit :=
  s ← cache;
  a ← arr_write MAX_NUM_OF_PORTS (ps_poe_ports s) pid (f (arr_get zero_poe_port (ps_poe_ports s) pid));
  upd_cache (λ s, s <| ps_poe_ports := a |>).

Definition config_poe_port_apply (pid : Z) (port_cfg : plat_port) : M plat unit :=
  let poe := port_poe port_cfg in
  s ← cache;
  port ← arr_read MAX_NUM_OF_PORTS zero_poe_port (ps_poe_ports s) pid;
  let key := pp_key port in
  let mode := poe_port_detection_mode_str2num (poe_detection_mode poe) in
  _ ← when (poe_is_detection_mode_set poe && bool_decide (pp_detection_mode port ≠ mode))
        (_ ← gnma_ok (gnma_poe_port_detection_mode_set key mode);
         upd_poe pid (λ p, p <| pp_detection_mode := mode |>));
  let priority := poe_port_priority_mode_str2num (poe_priority poe) in
  _ ← when (poe_is_priority_set poe && bool_decide (pp_priority port ≠ priority))
        (_ ← gnma_ok (gnma_poe_port_priority_set key priority);
         upd_poe pid (λ p, p <| pp_priority := priority |>));
  let power_limit := if poe_is_power_limit_set poe then poe_power_limit poe else 0 in
  let user_defined := poe_is_power_limit_set poe in
  _ ← when (negb (pp_power_limit port =? power_limit) ||
            negb (eqb (pp_is_power_limit_user_defined port) user_defined))
        (_ ← gnma_ok (gnma_poe_port_power_limit_set key user_defined power_limit);
         upd_poe pid (λ p, p <| pp_is_power_limit_user_defined := user_defined |>
                             <| pp_power_limit := power_limit |>));
  _ ← when (negb (eqb (pp_is_admin_mode_up port) (poe_is_admin_mode_up poe)))
        (_ ← gnma_ok (gnma_poe_port_admin_mode_set key (poe_is_admin_mode_up poe));
         upd_poe pid (λ p, p <| pp_is_admin_mode_up := poe_is_admin_mode_up poe |>));
  when (poe_do_reset poe) (gnma_ok (gnma_poe_port_reset key)).

(** ** All ports *)

(** [ret = admin; ret |= speed; ret |= duplex]: the duplex mode is set even
    when the speed is unknown. *)
Definition port_link_apply (i : Z) (p : plat_port) : M plat unit :=
  _ ← plat_port_admin_state_set i (port_state p);
  if port_state p =? 0 then ret tt
  else
    speed_ok ← attempt (plat_port_speed_set i (port_speed p));
    _ ← plat_port_duplex_set i (port_duplex p);
    fail_if (negb speed_ok).

(** [is_8021x_reported] and [is_poe_reported] are the accumulator. *)
Definition plat_port_config_apply (cfg : plat_cfg) : M plat unit :=
  _ ← fold_m (λ '(x_reported, poe_reported) i,
        let p := arr_get zero_plat_port (cfg_ports cfg) i in
        _ ← port_link_apply i p;
        f ← gets pl_features;
        x_reported ← (if bool_decide (FEAT_AAA f = FEATSTS_OK)
                      then _ ← config_port_ieee8021x_apply i p; ret x_reported
                      else
                        _ ← when (negb x_reported)
                              (CFG_LOG_CRIT "AAA feature is not initialized, skipping configuration");
                        ret true);
        s ← cache;
        has_poe ← bit_test (ps_poe_bmap s) i;
        if negb has_poe then ret (x_reported, poe_reported)
        else if bool_decide (FEAT_POE f = FEATSTS_OK)
        then _ ← config_poe_port_apply i p; ret (x_reported, poe_reported)
        else
          _ ← when (negb poe_reported)
                (CFG_LOG_CRIT "POE feature is not initialized, skipping configuration");
          ret (x_reported, true))
      (BITMAP_FOR_EACH_BIT_SET (cfg_ports_to_cfg cfg) MAX_NUM_OF_PORTS) (false, false);
  ret tt.

Definition config_unit_apply (cfg : plat_cfg) : M plat unit :=
  let u := cfg_unit cfg in
  _ ← fail_if (unit_mc_flood_control u || unit_querier_enable u);
  let mgmt_mode := poe_power_mgmt_str2num (unit_power_mgmt u) in
  s ← cache;
  _ ← when (unit_is_power_mgmt_set u && bool_decide (ps_power_mgmt s ≠ mgmt_mode))
        (_ ← gnma_ok (gnma_poe_power_mgmt_set mgmt_mode);
         upd_cache (λ s, s <| ps_power_mgmt := mgmt_mode |>));
  when (unit_is_usage_threshold_set u && negb (ps_usage_threshold s =? unit_usage_threshold u))
    (_ ← gnma_ok (gnma_poe_usage_threshold_set (unit_usage_threshold u));
     upd_cache (λ s, s <| ps_usage_threshold := unit_usage_threshold u |>)).

(** ** Addresses of ports *)
Definition plat_portl2_rif_set (pid : Z) (ipv4 : plat_ipv4) : M plat unit :=
  let name := PID_TO_NAME pid in
  s ← cache;
  sipv4 ← arr_read MAX_NUM_OF_PORTS zero_plat_ipv4 (ps_portsl2_rif_ipv4 s) pid;
  _ ← when (ip4_exist sipv4 && negb (ip4_exist ipv4))
        (gnma_ok (gnma_portl2_erif_attr_pref_delete name
           (mk_gnma_ip_prefix false (ip4_subnet sipv4) (ip4_subnet_len ipv4))));
  _ ← when (ip4_exist ipv4 && (negb (ip4_subnet_len sipv4 =? ip4_subnet_len ipv4) ||
                               negb (ip4_subnet sipv4 =? ip4_subnet ipv4)))
        (gnma_ok (gnma_portl2_erif_attr_pref_update name
           (mk_gnma_ip_prefix false (ip4_subnet ipv4) (ip4_subnet_len ipv4))));
  upd_cache (λ s, s <| ps_portsl2_rif_ipv4 := <[pid := ipv4]> (ps_portsl2_rif_ipv4 s) |>).

Definition config_portl2_ipv4_apply (cfg : plat_cfg) : M plat unit :=
  for_each (BITMAP_FOR_EACH_BIT_SET (cfg_ports_to_cfg cfg) MAX_NUM_OF_PORTS) (λ i,
    plat_portl2_rif_set i (arr_get zero_plat_ipv4 (cfg_portsl2 cfg) i)).

(** ** Spanning tree *)

(** [ret && ret != GNMA_ERR_OVERFLOW] *)
Definition list_failed (rc : Z) : bool := negb (rc =? 0) && negb (rc =? GNMA_ERR_OVERFLOW).

Definition plat_gnma_port_num_get : M plat Z :=
  '(rc, (list_size, _)) ← ask (gnma_port_list_get 1) (1, []);
  if list_failed rc then fail else ret (wrap 16 list_size).

(** The array has room for the number of ports of the first question; when
    there are more by the second one the rest is read past its end. *)
Definition config_stp_apply_ports_enable_all : M plat unit :=
  pcount ← plat_gnma_port_num_get;
  _ ← pl_alloc_or_fail;
  '(rc, (list_size, plist)) ← ask (gnma_port_list_get pcount) (pcount, []);
  _ ← fail_if (list_failed rc);
  if pcount <? wrap 16 list_size then faulty OutOfBounds
  else gnma_ok (gnma_stp_ports_enable plist).

Definition stp_attr_of (c : plat_stp_instance_cfg) : gnma_stp_attr :=
  mk_gnma_stp_attr (stp_forward_delay c) (stp_hello_time c) (stp_max_age c) (stp_priority c)
    (stp_enabled c).

Definition stp_vid_apply (cfg : plat_cfg) (i : Z) : M plat unit :=
  let attr := stp_attr_of (arr_get zero_plat_stp_instance_cfg (cfg_stp_instances cfg) i) in
  s ← cache;
  let now := arr_get zero_stp_attr (ps_stp_vlan_attr s) i in
  if (negb (sa_enabled now) && negb (sa_enabled attr)) || gnma_stp_attr_cmp attr now then ret tt
  else
    _ ← gnma_ok (gnma_stp_vid_set i attr);
    upd_cache (λ s, s <| ps_stp_vlan_attr := <[i := attr]> (ps_stp_vlan_attr s) |>).

Definition config_stp_apply (cfg : plat_cfg) : M plat unit :=
  s ← cache;
  if cfg_stp_mode cfg =? STP_MODE_NONE then
    if bool_decide (ps_stp_mode s = GNMA_STP_MODE_NONE) then ret tt
    else
      _ ← gnma_ok (gnma_stp_mode_set GNMA_STP_MODE_NONE None);
      upd_cache (λ s, s <| ps_stp_mode := GNMA_STP_MODE_NONE |> <| ps_stp_vlan_attr := ∅ |>)
  else if cfg_stp_mode cfg =? STP_MODE_RPVST then
    _ ← when (bool_decide (ps_stp_mode s ≠ GNMA_STP_MODE_RPVST) ||
              negb (gnma_stp_attr_cmp zero_stp_attr (ps_stp_mode_attr s)))
          (_ ← gnma_ok (gnma_stp_mode_set GNMA_STP_MODE_RPVST (Some zero_stp_attr));
           _ ← config_stp_apply_ports_enable_all;
           upd_cache (λ s, s <| ps_stp_mode := GNMA_STP_MODE_RPVST |>
                             <| ps_stp_mode_attr := zero_stp_attr |>));
    for_each (seqZ FIRST_VLAN (MAX_VLANS - FIRST_VLAN)) (stp_vid_apply cfg)
  else fail.
End port.
