(* ===== verification/PlatAaa.v ===== *)
(** * RADIUS and dynamic authorisation hosts, password and syslog
      ([plat-gnma.c])

    The host names the switch has are cached in a heap array with its length;
    after a change the array is read again, in two questions: how many, then
    the names. *)

From S2P Require Import Prelude CNum CStr Bitmap Router PlatTypes Gnma PlatState PlatPort.
#[local] Open Scope list_scope.

Section aaa.
Context `{G : Gnma}.

(** ** Reading the hosts again *)
Definition set_radius (a : key_array) : M plat unit := upd_cache (λ s, s <| ps_radius := a |>).
Definition set_dac (a : key_array) : M plat unit := upd_cache (λ s, s <| ps_das_dac := a |>).

Definition plat_state_radius_init : M plat unit :=
  _ ← set_radius zero_key_array;
  '(rc, (size, _)) ← ask (gnma_radius_hosts_list_get 0) (0, []);
  if list_failed rc then fail
  else if size =? 0 then ret tt
  else
    ok ← pl_alloc;
    if negb ok then fail
    else
      '(rc, (size, arr)) ← ask (gnma_radius_hosts_list_get size) (size, []);
      if negb (rc =? 0) then fail
      else set_radius (mk_key_array (Some arr) size).

(** calloc'd names are empty until the switch has written them. *)
Definition padded (size : Z) (arr : list string) : list string :=
  arr ++ replicate (Z.to_nat size - length arr) EmptyString.

(** The error path clears the RADIUS array; the one being filled keeps the
    length it was given. *)
Definition plat_state_ieee8021x_dac_list_init : M plat unit :=
  _ ← set_dac zero_key_array;
  '(rc, (size, _)) ← ask (gnma_ieee8021x_das_dac_hosts_list_get 0) (0, []);
  if list_failed rc then fail
  else if size =? 0 then ret tt
  else
    ok ← pl_alloc;
    if negb ok then
      _ ← set_dac (mk_key_array None size);
      _ ← set_radius zero_key_array; fail
    else
      '(rc, (size', arr)) ← ask (gnma_ieee8021x_das_dac_hosts_list_get size) (size, []);
      if negb (rc =? 0) then
        _ ← set_dac (mk_key_array (Some (padded size arr)) size');
        _ ← set_radius zero_key_array; fail
      else set_dac (mk_key_array (Some arr) size').

(** ** Bringing the hosts up to date *)
Section hosts.
Context (remove : string → gnma_call).

(** One cached host: removed when the configuration does not name it, or names
    it without a key; whether it was removed. *)
Definition host_clean (hosts : list (string * string)) (key : string) : M plat bool :=
  if negb (existsb (λ h, streq key h.1) hosts) then _ ← gnma_ok (remove key); ret true
  else if existsb (λ h, streq key h.1 && streq h.2 EmptyString) hosts
  then _ ← gnma_ok (remove key); ret true
  else ret false.

Fixpoint hosts_clean (hosts : list (string * string)) (a : key_array) (n : nat) (i : nat)
    (changed : bool) : M plat bool :=
  match n with
  | O => ret changed
  | S n =>
      arr ← deref (ka_arr a);
      key ← of_option OutOfBounds (arr !! i);
      removed ← host_clean hosts key;
      hosts_clean hosts a n (S i) (removed || changed)
  end.
End hosts.

Definition hosts_add (adds : list gnma_call) (changed : bool) : M plat bool :=
  _ ← for_each adds gnma_ok; ret (changed || negb (bool_decide (adds = []))).

Definition plat_radius_hosts_list_set (hosts : list plat_radius_host) : M plat unit :=
  s ← cache;
  let a := ps_radius s in
  changed ← hosts_clean gnma_radius_host_remove ((λ h, (rad_hostname h, rad_passkey h)) <$> hosts) a
              (Z.to_nat (ka_size a)) 0 false;
  changed ← hosts_add ((λ h, gnma_radius_host_add (rad_hostname h) (rad_passkey h) (rad_auth_port h)
                               (rad_priority h)) <$> hosts) changed;
  if (changed : bool) then _ ← attempt plat_state_radius_init; ret tt else ret tt.

Definition plat_dac_list_set (hosts : list (string * string)) : M plat unit :=
  s ← cache;
  let a := ps_das_dac s in
  changed ← hosts_clean gnma_ieee8021x_das_dac_host_remove hosts a (Z.to_nat (ka_size a)) 0 false;
  changed ← hosts_add ((λ h : string * string, gnma_ieee8021x_das_dac_host_add h.1 h.2) <$> hosts) changed;
  if (changed : bool) then _ ← attempt plat_state_ieee8021x_dac_list_init; ret tt else ret tt.

Definition config_ieee8021x_apply (cfg : plat_cfg) : M plat unit :=
  let enable := cfgx_is_auth_ctrl_enabled (cfg_ieee8021x cfg) in
  s ← cache;
  _ ← when (negb (eqb enable (ps_is_auth_control_enabled s)))
        (_ ← gnma_ok (gnma_ieee8021x_system_auth_control_set enable);
         upd_cache (λ s, s <| ps_is_auth_control_enabled := enable |>));
  _ ← plat_dac_list_set (cfgx_das_dac_list (cfg_ieee8021x cfg));
  plat_radius_hosts_list_set (cfg_radius_hosts_list cfg).

(** ** Password and syslog *)
Definition config_system_password_apply (cfg : plat_cfg) : M plat unit :=
  when (unit_password_changed (cfg_unit cfg))
    (password ← c_buf_str 64 (unit_password (cfg_unit cfg));
     gnma_ok (gnma_system_password_set password)).

Definition prio2str : list string :=
  ["emerg"; "alert"; "crit"; "error"; "warning"; "notice"; "info"; "debug"].

(** [cfg] points at one record; [count] tells how many are read. *)
Fixpoint syslog_entries (cfg : option plat_syslog_cfg) (n i : nat) : M plat (list gnma_syslog_cfg) :=
  match n with
  | O => ret []
  | S n =>
      c ← deref cfg;
      if (0 <? i)%nat then faulty OutOfBounds
      else if (log_priority c <? 0) || (7 <? log_priority c) then fail
      else
        severity ← of_option OutOfBounds (prio2str !! Z.to_nat (log_priority c));
        rest ← syslog_entries cfg n (S i);
        (* the other fields are those calloc left *)
        ret (mk_gnma_syslog_cfg (log_host c) (log_port c) (Some severity) None None None :: rest)
  end.

Definition plat_syslog_set (cfg : option plat_syslog_cfg) (count : Z) : M plat unit :=
  _ ← pl_alloc_or_fail;
  gnma_cfg ← syslog_entries cfg (Z.to_nat count) 0;
  _ ← gnma_ok gnma_syslog_cfg_clear;
  gnma_ok (gnma_syslog_cfg_set gnma_cfg).
End aaa.
