(* ===== verification/PlatInit.v ===== *)
(** * Reading the switch into the cache ([plat-gnma.c])

    [plat_state_init] asks the switch for everything [plat_state] caches.  Each
    question writes its answer into the cache before its return value is
    looked at, so a failure leaves what was read so far. *)

From S2P Require Import Prelude CNum CStr Bitmap Router PlatTypes ProtoConv Gnma PlatState PlatVlan PlatPort PlatAaa.
#[local] Open Scope list_scope.

Section init.
Context `{G : Gnma}.

(** One question about a field of the cache: what the field holds, and how the
    answer is stored in it. *)
Definition read_into {A} (q : gnma_query A) (old : plat_state → A) (store : A → M plat unit) : M plat unit :=
  s ← cache; '(rc, a) ← ask q (old s); _ ← store a; fail_if (negb (rc =? 0)).
Definition read_cache {A} (q : gnma_query A) (old : plat_state → A) (f : A → plat_state → plat_state)
    : M plat unit :=
  read_into q old (λ a, upd_cache (f a)).
Definition poe_at (k : Z) (s : plat_state) : poe_port := arr_get zero_poe_port (ps_poe_ports s) k.
Definition x_at (k : Z) (s : plat_state) : x_port := arr_get zero_x_port (ps_ports s) k.
Definition relay_at (vid : Z) (s : plat_state) : dhcp_relay_state :=
  arr_get zero_dhcp_relay_state (ps_vlans s) vid.
Definition upd_features (f : features → features) : M plat unit :=
  modify (λ p, p <| pl_features := f (pl_features p) |>).

(** [NAME_TO_PID(&pid, name)] with its result ignored: a name that does not
    scan leaves [pid] as it was, at first uninitialised. *)
Definition scan_pid (pid : option Z) (name : string) : option Z :=
  match NAME_TO_PID name with Some k => Some k | None => pid end.

(** ** Power over Ethernet *)
Definition plat_poe_port_num_get : M plat Z :=
  '(rc, (list_size, _)) ← ask (gnma_poe_port_list_get 1) (1, []);
  if list_failed rc then fail else ret (wrap 16 list_size).

Definition poe_port_init (pid : option Z) (name : string) : M plat (option Z) :=
  let pid := scan_pid pid name in
  k ← of_option Uninitialised pid;
  s ← cache;
  bm ← bit_set (ps_poe_bmap s) k;
  _ ← upd_cache (λ s, s <| ps_poe_bmap := bm |>);
  _ ← upd_poe k (λ p, p <| pp_key := name |>);
  _ ← read_into (gnma_poe_port_admin_mode_get name) (pp_is_admin_mode_up ∘ poe_at k)
        (λ b, upd_poe k (λ p, p <| pp_is_admin_mode_up := b |>));
  _ ← read_into (gnma_poe_port_detection_mode_get name) (pp_detection_mode ∘ poe_at k)
        (λ m, upd_poe k (λ p, p <| pp_detection_mode := m |>));
  _ ← read_into (gnma_poe_port_power_limit_get name)
        (λ s, let q := poe_at k s in
              (pp_is_power_limit_user_defined q, pp_power_limit q)) (λ '(user, limit),
        upd_poe k (λ p, p <| pp_is_power_limit_user_defined := user |> <| pp_power_limit := limit |>));
  _ ← read_into (gnma_poe_port_priority_get name) (pp_priority ∘ poe_at k)
        (λ m, upd_poe k (λ p, p <| pp_priority := m |>));
  ret pid.

(** The first [n] names of an array with room for [room] of them. *)
Definition names_of (room : Z) (arr : list string) (n : Z) : M plat (list string) :=
  if room <? n then faulty OutOfBounds else ret (take (Z.to_nat n) (padded room arr)).

(** Without memory for the names, [ret] still holds the 0 of the question for
    their number: the function reports success, and no port has PoE. *)
Definition plat_state_poe_init : M plat unit :=
  pcount ← plat_poe_port_num_get;
  ok ← pl_alloc;
  if negb ok then ret tt
  else
    '(rc, (list_size, arr)) ← ask (gnma_poe_port_list_get pcount) (pcount, []);
    _ ← fail_if (negb (rc =? 0));
    names ← names_of pcount arr (wrap 16 list_size);
    _ ← fold_m poe_port_init names None;
    _ ← read_cache gnma_poe_power_mgmt_get ps_power_mgmt
        (λ m s, s <| ps_power_mgmt := m |>);
    read_cache gnma_poe_usage_threshold_get ps_usage_threshold
        (λ t s, s <| ps_usage_threshold := t |>).

(** ** Addresses of ports *)
Definition portl2_init (pid : option Z) (name : string) : M plat (option Z) :=
  '(rc, (list_size, pref)) ← ask (gnma_portl2_erif_attr_pref_list_get name 1) (1, zero_ip_prefix);
  _ ← fail_if (negb (rc =? 0));
  if negb (list_size =? 0) && negb (gp_v6 pref) then
    let pid := scan_pid pid name in
    k ← of_option Uninitialised pid;
    s ← cache;
    a ← arr_write MAX_NUM_OF_PORTS (ps_portsl2_rif_ipv4 s) k
          (mk_plat_ipv4 (gp_addr pref) (gp_len pref) true);
    _ ← upd_cache (λ s, s <| ps_portsl2_rif_ipv4 := a |>);
    ret pid
  else ret pid.

Definition plat_state_portsl2_init : M plat unit :=
  pcount ← plat_gnma_port_num_get;
  _ ← pl_alloc_or_fail;
  '(rc, (list_size, arr)) ← ask (gnma_port_list_get pcount) (pcount, []);
  _ ← fail_if (negb (rc =? 0));
  names ← names_of pcount arr (wrap 16 list_size);
  _ ← fold_m portl2_init names None; ret tt.

(** ** Ports and IEEE 802.1X *)
Definition upd_x (k : Z) (f : x_port → x_port) : M plat unit :=
  s ← cache;
  a ← arr_write MAX_NUM_OF_PORTS (ps_ports s) k (f (arr_get zero_x_port (ps_ports s) k));
  upd_cache (λ s, s <| ps_ports := a |>).

Definition plat_state_port_ieee8021x_init (k : Z) : M plat unit :=
  s ← cache;
  port ← arr_read MAX_NUM_OF_PORTS zero_x_port (ps_ports s) k;
  let name := xp_key port in
  _ ← read_into (gnma_port_ieee8021x_pae_mode_get name) (xp_is_authenticator ∘ x_at k)
        (λ b, upd_x k (λ p, p <| xp_is_authenticator := b |>));
  _ ← read_into (gnma_port_ieee8021x_port_ctrl_get name) (xp_control_mode ∘ x_at k)
        (λ m, upd_x k (λ p, p <| xp_control_mode := m |>));
  _ ← read_into (gnma_port_ieee8021x_port_host_mode_get name) (xp_host_mode ∘ x_at k)
        (λ m, upd_x k (λ p, p <| xp_host_mode := m |>));
  _ ← read_into (gnma_port_ieee8021x_guest_vlan_get name) (xp_guest_vid ∘ x_at k)
        (λ v, upd_x k (λ p, p <| xp_guest_vid := v |>));
  read_into (gnma_port_ieee8021x_unauthorized_vlan_get name) (xp_auth_fail_vid ∘ x_at k)
        (λ v, upd_x k (λ p, p <| xp_auth_fail_vid := v |>)).

Definition port_init (pid : option Z) (name : string) : M plat (option Z) :=
  let pid := scan_pid pid name in
  k ← of_option Uninitialised pid;
  s ← cache;
  bm ← bit_set (ps_ports_bmap s) k;
  _ ← upd_cache (λ s, s <| ps_ports_bmap := bm |>);
  _ ← upd_x k (λ p, p <| xp_key := name |>);
  ok ← attempt (plat_state_port_ieee8021x_init k);
  _ ← when (negb ok) (upd_features (λ f, f <| FEAT_AAA := FEATSTS_FAIL |>));
  ret pid.

Definition plat_state_ports_init : M plat unit :=
  pcount ← plat_gnma_port_num_get;
  let clear := upd_cache (λ s, s <| ps_ports_bmap := BITMAP_CLEAR MAX_NUM_OF_PORTS |>) in
  ok ← pl_alloc;
  if negb ok then _ ← clear; fail
  else
    '(rc, (list_size, arr)) ← ask (gnma_port_list_get pcount) (pcount, []);
    if list_failed rc then _ ← clear; fail
    else
      names ← names_of pcount arr (wrap 16 list_size);
      _ ← fold_m port_init names None; ret tt.

Definition plat_state_ieee8021x_init : M plat unit :=
  _ ← read_cache gnma_ieee8021x_system_auth_control_get ps_is_auth_control_enabled
        (λ b s, s <| ps_is_auth_control_enabled := b |>);
  _ ← read_cache gnma_ieee8021x_das_bounce_port_ignore_get ps_bounce_port_ignore
        (λ b s, s <| ps_bounce_port_ignore := b |>);
  _ ← read_cache gnma_ieee8021x_das_disable_port_ignore_get ps_disable_port_ignore
        (λ b s, s <| ps_disable_port_ignore := b |>);
  _ ← read_cache gnma_ieee8021x_das_ignore_server_key_get ps_ignore_server_key
        (λ b s, s <| ps_ignore_server_key := b |>);
  _ ← read_cache gnma_ieee8021x_das_ignore_session_key_get ps_ignore_session_key
        (λ b s, s <| ps_ignore_session_key := b |>);
  _ ← read_cache gnma_ieee8021x_das_auth_type_key_get ps_das_auth_type
        (λ t s, s <| ps_das_auth_type := t |>);
  plat_state_ieee8021x_dac_list_init.

(** ** DHCP relay

    [arr_size] is the one variable of all the questions: after the first it is
    not the room there is, which is for one address.  An answer that fits in
    the room that is claimed is written there, the rest of it cleared. *)
Definition upd_relay (vid : Z) (f : dhcp_relay_state → dhcp_relay_state) : M plat unit :=
  s ← cache;
  a ← arr_write GNMA_MAX_VLANS (ps_vlans s) vid (f (arr_get zero_dhcp_relay_state (ps_vlans s) vid));
  upd_cache (λ s, s <| ps_vlans := a |>).

Definition relay_init (arr_size : Z) (vid : Z) : M plat Z :=
  v ← vlan_state vid;
  let room := arr_size in
  '(rc, (arr_size, ip)) ← ask (gnma_vlan_dhcp_relay_server_list_get vid room) (room, dr_helper_address v);
  _ ← (if (rc =? 0) && (1 <? Z.max room arr_size) then faulty BufferOverflow else ret tt);
  _ ← upd_relay vid (λ v, v <| dr_helper_address := ip |>);
  if negb (rc =? 0) then ret arr_size
  else
    _ ← read_into (gnma_vlan_dhcp_relay_ciruit_id_get vid) (dr_circ_id ∘ relay_at vid)
          (λ c, upd_relay vid (λ v, v <| dr_circ_id := c |>));
    _ ← read_into (gnma_vlan_dhcp_relay_policy_action_get vid) (dr_policy_act ∘ relay_at vid)
          (λ a, upd_relay vid (λ v, v <| dr_policy_act := a |>));
    _ ← read_into (gnma_vlan_dhcp_relay_max_hop_cnt_get vid) (dr_max_hop_cnt ∘ relay_at vid)
          (λ n, upd_relay vid (λ v, v <| dr_max_hop_cnt := n |>));
    _ ← upd_relay vid (λ v, v <| dr_enabled := true |>);
    ret arr_size.

(** ** Routes *)
Definition router_append (node : fib_node) : M plat unit :=
  s ← cache;
  match ucentral_router_fib_db_append (ps_router s) node with
  | None => fail
  | Some r => upd_cache (λ s, s <| ps_router := r |>)
  end.

Definition route_node (r : gnma_ip_prefix * gnma_route_attrs) : fib_node :=
  {| node_key := gnma_prefix2router_fib_key r.1; node_info := gnma_attr2router_fib_info r.2 |}.

(** The two arrays are calloc'ed: an entry the switch did not write is the
    connected route of 0.0.0.0/0 in VLAN 0. *)
Definition zero_route : gnma_ip_prefix * gnma_route_attrs :=
  (mk_gnma_ip_prefix false 0 0, GNMA_ROUTE_TYPE_CONNECTED 0).

Definition router_init : M plat unit :=
  '(rc, (size, _)) ← ask (gnma_route_list_get 0) (0, []);
  _ ← fail_if (list_failed rc);
  ok1 ← pl_alloc;
  ok2 ← pl_alloc;
  _ ← fail_if (negb ok1 || negb ok2);
  '(rc, (size', routes)) ← ask (gnma_route_list_get size) (size, []);
  _ ← fail_if (negb (rc =? 0));
  ok ← pl_alloc;
  _ ← upd_cache (λ s, s <| ps_router := ucentral_router_fib_db_free |>);
  match ucentral_router_fib_db_alloc ok size' with
  | None => fail
  | Some r =>
      _ ← upd_cache (λ s, s <| ps_router := r |>);
      if size <? size' then faulty OutOfBounds
      else for_each (take (Z.to_nat size')
             (routes ++ replicate (Z.to_nat size - length routes) zero_route))
             (λ r, router_append (route_node r))
  end.

(** ** Everything

    What follows the label [err]. *)
Definition features_ok (f : features) : bool :=
  bool_decide (FEAT_CORE f = FEATSTS_OK) && bool_decide (FEAT_POE f = FEATSTS_OK) &&
  bool_decide (FEAT_AAA f = FEATSTS_OK).

Definition mark (f : features → features) (m : M plat unit) : M plat unit :=
  ok ← attempt m; when (negb ok) (upd_features f).

(** From the ports on, an error goes to [err]. *)
Definition state_init_core : M plat unit :=
  _ ← plat_state_ports_init;
  '(rc, vlans) ← ask gnma_vlan_list_get ∅;
  _ ← fail_if (negb (rc =? 0));
  _ ← read_cache gnma_stp_mode_get (λ s, (ps_stp_mode s, ps_stp_mode_attr s))
        (λ '(mode, attr) s, s <| ps_stp_mode := mode |> <| ps_stp_mode_attr := attr |>);
  _ ← read_cache gnma_stp_vid_bulk_get ps_stp_vlan_attr
        (λ a s, s <| ps_stp_vlan_attr := a |>);
  _ ← fold_m relay_init (bits GNMA_MAX_VLANS vlans) 1;
  _ ← mark (λ f, f <| FEAT_POE := FEATSTS_FAIL |>) plat_state_poe_init;
  _ ← plat_state_portsl2_init;
  _ ← router_init;
  upd_features (λ f, mk_features FEATSTS_OK
    (if bool_decide (FEAT_POE f = FEATSTS_FAIL) then FEATSTS_FAIL else FEATSTS_OK)
    (if bool_decide (FEAT_AAA f = FEATSTS_FAIL) then FEATSTS_FAIL else FEATSTS_OK)).

Definition plat_state_init : M plat unit :=
  _ ← upd_cache (λ _, zero_plat_state);
  _ ← upd_features (λ _, mk_features FEATSTS_FAIL FEATSTS_NONE FEATSTS_NONE);
  _ ← mark (λ f, f <| FEAT_AAA := FEATSTS_FAIL |>) plat_state_ieee8021x_init;
  _ ← mark (λ f, f <| FEAT_AAA := FEATSTS_FAIL |>) plat_state_radius_init;
  _ ← attempt state_init_core;
  f ← gets pl_features;
  fail_if (negb (features_ok f)).

Definition plat_init : M plat unit :=
  _ ← gnma_ok gnma_switch_create; plat_state_init.
End init.
