(* ===== verification/PlatApply.v ===== *)
(** * Applying, saving and restoring a configuration ([plat-gnma.c])

    [plat_config_apply] runs the parts in a fixed order and stops at the first
    that fails; the password comes last but for syslog, whose result is not
    looked at.  The identifier of the saved configuration and the metrics live
    in two files.  A stream written to keeps what the successful writes added;
    reading follows glibc's scanf. *)

From S2P Require Import Prelude CNum CStr Bitmap Router PlatTypes ProtoConv Gnma PlatState PlatVlan PlatPort PlatAaa PlatInit.
From Stdlib Require Import Ascii.
#[local] Open Scope list_scope.

Definition newline : string := String "010"%char EmptyString.

(** ** Scanning a stream: the value and what is left *)
Fixpoint digits_rest (s : string) : string :=
  match s with
  | String c r => match digit_val c with Some _ => digits_rest r | None => s end
  | EmptyString => EmptyString
  end.

Definition scan_sign (s : string) : bool * string :=
  match s with
  | String c r =>
      if Ascii.eqb c "-" then (true, r) else if Ascii.eqb c "+" then (false, r) else (false, s)
  | EmptyString => (false, EmptyString)
  end.

(** The sign and the magnitude of a decimal number; [None] when nothing
    converts, at the end of the input or not. *)
Definition scan_number (s : string) : option (bool * Z * string) :=
  let '(neg, body) := scan_sign (skip_space s) in
  v ← digits body; Some (neg, v, digits_rest body).

(** [%zu] and [%lu] *)
Definition fscanf_u (s : string) : option (Z * string) :=
  '(neg, v, rest) ← scan_number s; Some (strtoul_sat neg v, rest).
(** [%d]: [strtol] saturates to 64 bits and the value is narrowed to an int. *)
Definition fscanf_d (s : string) : option (Z * string) :=
  '(neg, v, rest) ← scan_number s;
  Some (wrap_signed 32 (if (neg : bool) then Z.max (- 2 ^ 63) (- v) else Z.min (2 ^ 63 - 1) v), rest).

(** [fgets(buf, n, f)]: up to [n] characters and the first newline; [None] at
    the end of the input. *)
Fixpoint line_of (n : nat) (s : string) : string :=
  match n, s with
  | S n, String c r => if Ascii.eqb c "010" then newline else String c (line_of n r)
  | _, _ => EmptyString
  end.
Definition fgets (size : nat) (s : string) : option string :=
  match s with EmptyString => None | _ => Some (line_of (size - 1) s) end.

(** [if (len && s[len - 1] == '\n') s[len - 1] = 0;] *)
Fixpoint chomp (s : string) : string :=
  match s with
  | EmptyString => EmptyString
  | String c EmptyString => if Ascii.eqb c "010" then EmptyString else s
  | String c r => String c (chomp r)
  end.

Section files.
Context `{G : Gnma}.

(** ** Files *)
Definition cfgid_path : string := "/var/lib/ucentral/saved_config_id".
Definition cfgmetrics_path : string := "/var/lib/ucentral/saved_cfg_metrics".

Definition file_set (path content : string) : M plat unit :=
  modify (λ p, p <| pl_files := <[path := content]> (pl_files p) |>).
(** [fopen(path, "w")] *)
Definition open_w (path : string) : M plat unit :=
  ok ← pl_io_next; if (ok : bool) then file_set path EmptyString else fail.
(** [fprintf]: whether the text was written. *)
Definition write (path text : string) : M plat bool :=
  ok ← pl_io_next;
  files ← gets pl_files;
  _ ← when ok (file_set path (default EmptyString (files !! path) +:+ text));
  ret ok.
(** [fopen(path, "r")] *)
Definition open_r (path : string) : M plat string :=
  files ← gets pl_files;
  match files !! path with
  | None => fail
  | Some content => ok ← pl_io_next; if (ok : bool) then ret content else fail
  end.

(** ** The identifier of the saved configuration *)
Definition plat_config_id_store (id : Z) : M plat unit :=
  _ ← open_w cfgid_path;
  ok ← write cfgid_path (dec id);
  fail_if (negb ok).

(** The return value and [*id]. *)
Definition plat_config_id_load : M plat (Z * Z) :=
  content ← try (open_r cfgid_path);
  match content with
  | None => ret (-1, 0)
  | Some content =>
      match fscanf_u content with
      | Some (id, _) => ret (0, id)
      | None => ret (-1, 0)
      end
  end.

Definition plat_config_save (id : Z) : M plat unit :=
  _ ← gnma_ok gnma_config_save;
  _ ← attempt (plat_config_id_store id); ret tt.
Definition plat_config_restore : M plat unit :=
  _ ← gnma_ok gnma_config_restore; plat_state_init.
Definition plat_saved_config_id_get : M plat (Z * Z) := plat_config_id_load.
Definition plat_factory_default : M plat unit := gnma_ok gnma_factory_default.
Definition plat_reboot : M plat unit := gnma_ok gnma_reboot.

(** ** The metrics *)
Definition flag (b : bool) : string := if b then "1" else "0".

(** Results of [fprintf] are not looked at. *)
Definition plat_metrics_save (cfg : option plat_metrics_cfg) : M plat unit :=
  match cfg with
  | None => fail
  | Some cfg =>
      let h := met_healthcheck cfg in
      let s := met_state cfg in
      _ ← open_w cfgmetrics_path;
      for_each [flag (poll_enabled h); dec (poll_interval h); flag (mst_enabled s);
                flag (mst_lldp_enabled s); flag (mst_clients_enabled s); dec (mst_interval s);
                mst_public_ip_lookup s]
        (λ line, _ ← write cfgmetrics_path (line +:+ newline); ret tt)
  end.

(** The conversions, each storing into [cfg]; whether all of them succeeded. *)
Definition upd_health (c : plat_metrics_cfg) (f : metrics_poll → metrics_poll) : plat_metrics_cfg :=
  c <| met_healthcheck := f (met_healthcheck c) |>.
Definition upd_state (c : plat_metrics_cfg) (f : metrics_state → metrics_state) : plat_metrics_cfg :=
  c <| met_state := f (met_state c) |>.

Definition metrics_fields : list ((Z → plat_metrics_cfg → plat_metrics_cfg) * bool) :=
  [(λ v c, upd_health c (λ h, h <| poll_enabled := negb (v =? 0) |>), true);
   (λ v c, upd_health c (λ h, h <| poll_interval := v |>), false);
   (λ v c, upd_state c (λ s, s <| mst_enabled := negb (v =? 0) |>), true);
   (λ v c, upd_state c (λ s, s <| mst_lldp_enabled := negb (v =? 0) |>), true);
   (λ v c, upd_state c (λ s, s <| mst_clients_enabled := negb (v =? 0) |>), true);
   (λ v c, upd_state c (λ s, s <| mst_interval := v |>), false)].

Fixpoint metrics_scan (fields : list ((Z → plat_metrics_cfg → plat_metrics_cfg) * bool))
    (text : string) (c : plat_metrics_cfg) : plat_metrics_cfg * option string :=
  match fields with
  | [] => (c, Some text)
  | (store, is_int) :: fields =>
      match (if is_int then fscanf_d text else fscanf_u text) with
      | None => (c, None)
      | Some (v, rest) => metrics_scan fields rest (store v c)
      end
  end.

Definition PUBLIC_IP_SIZE : nat := 2048.

(** The return value and what is left in [*cfg]. *)
Definition plat_metrics_restore (cfg : option plat_metrics_cfg) : M plat (Z * option plat_metrics_cfg) :=
  match cfg with
  | None => ret (-1, None)
  | Some c =>
      content ← try (open_r cfgmetrics_path);
      match content with
      | None => ret (-1, Some c)
      | Some text =>
          match metrics_scan metrics_fields text c with
          | (c, None) => ret (-1, Some c)
          | (c, Some rest) =>
              match fgets PUBLIC_IP_SIZE rest with
              | None => ret (-1, Some c)
              | Some line =>
                  ret (0, Some (upd_state c (λ s, s <| mst_public_ip_lookup := chomp line |>
                                                    <| mst_max_mac_count := METRICS_WIRED_CLIENTS_MAX_NUM |>)))
              end
          end
      end
  end.

(** ** Health: the sanity and the messages 0, 1 and 2 *)
Definition health_periodic_cb (f : features) : Z * (bool * bool * bool) :=
  if negb (bool_decide (FEAT_CORE f = FEATSTS_OK)) then (0, (false, false, true))
  else
    let no_aaa := negb (bool_decide (FEAT_AAA f = FEATSTS_OK)) in
    let no_poe := negb (bool_decide (FEAT_POE f = FEATSTS_OK)) in
    ((if no_aaa || no_poe then 50 else 100), (no_aaa, no_poe, false)).
End files.

Section apply.
Context `{G : Gnma, Q : QSort}.

(** The metrics are logged; the poll threads have been started by the caller. *)
Definition config_metrics_apply (cfg : plat_cfg) : M plat unit := ret tt.

(** ** A configuration *)
Definition plat_config_apply (cfg : plat_cfg) : M plat unit :=
  f ← gets pl_features;
  _ ← when (bool_decide (FEAT_CORE f ≠ FEATSTS_OK))
        (CFG_LOG_CRIT "core features are not initialized, the system is not stable");
  _ ← config_vlan_apply cfg;
  _ ← plat_port_config_apply cfg;
  _ ← config_unit_apply cfg;
  _ ← config_stp_apply cfg;
  _ ← config_vlan_ipv4_apply cfg;
  _ ← config_portl2_ipv4_apply cfg;
  _ ← config_vlan_dhcp_relay_apply cfg;
  _ ← config_metrics_apply cfg;
  _ ← config_router_apply cfg;
  _ ← (if bool_decide (FEAT_AAA f = FEATSTS_OK) then config_ieee8021x_apply cfg
       else CFG_LOG_CRIT "AAA feature is not initialized, skipping configuration");
  _ ← config_system_password_apply cfg;
  _ ← attempt (plat_syslog_set (cfg_log_cfg cfg) (cfg_log_cfg_cnt cfg)); ret tt.
End apply.
