(* ===== verification/PlatScript.v ===== *)
(** * Remote scripts on the SONiC platform ([plat-gnma.c])

    A script is split into lines of words and only three programs are run.
    [simple_wordexp] reads one word of the text at [*s]; the text is a list of
    characters, whose end is the NUL.  What a program does is the argument
    [exec] of [script_runner]: its output, its exit status, whether the time ran
    out and whether reading it failed, or nothing when it cannot be started.

    The lock keeps a second script from starting; the runner releases it. *)

From S2P Require Import Prelude CNum CStr Base64.
From Stdlib Require Import Ascii.
#[local] Open Scope list_scope.

Definition SCRIPT_OUTLEN : Z := 512 * 1024.
Definition SCRIPT_ARGMAX : nat := 32.
Definition SCRIPT_TOKLEN : nat := 512.

(** ** One word *)
Abbreviation text := (list ascii) (only parsing).
Definition nul : ascii := "000"%char.
Definition backslash : ascii := "092"%char.
Definition dquote : ascii := "034"%char.
Definition squote : ascii := "039"%char.

Fixpoint skip_blanks (s : text) : text :=
  match s with c :: r => if is_space c then skip_blanks r else s | [] => [] end.

(** [if (oi < outsz) out[oi++] = ch; ++tl;] *)
Definition put_char (outsz : nat) (out : text) (c : ascii) : text :=
  if (length out <? outsz)%nat then out ++ [c] else out.

(** The loop: whether the last character was a backslash, the quote that is
    open, what was written, its length without the limit.  It returns what is
    left of the text and the character the word ended at. *)
Fixpoint wordexp_loop (outsz : nat) (s : text) (esc : bool) (q : option ascii) (out : text) (tl : Z)
    : text * text * Z * ascii :=
  match s with
  | [] => ([], out, tl, nul)
  | ch :: r =>
      if negb esc && Ascii.eqb ch backslash then wordexp_loop outsz r true q out tl
      else if esc then
        let keep := match q with Some c => negb (Ascii.eqb c ch) | None => false end in
        let out := if keep then put_char outsz out backslash else out in
        let tl := if keep then tl + 1 else tl in
        wordexp_loop outsz r false q (put_char outsz out ch) (tl + 1)
      else match q with
      | Some c =>
          if Ascii.eqb ch c then wordexp_loop outsz r false None out tl
          else wordexp_loop outsz r false q (put_char outsz out ch) (tl + 1)
      | None =>
          if Ascii.eqb ch dquote || Ascii.eqb ch squote then wordexp_loop outsz r false (Some ch) out tl
          else if is_space ch then (r, out, tl, ch)
          else wordexp_loop outsz r false None (put_char outsz out ch) (tl + 1)
      end
  end.

Definition simple_wordexp (s : text) (outsz : nat) : text * text * Z * ascii :=
  wordexp_loop outsz (skip_blanks s) false None [] 0.

(** ** One line *)

(** The loop over [argc], of which [n] values are left.  A word of
    [SCRIPT_TOKLEN] characters or more makes the rest of the line ignored. *)
Fixpoint parse_line (n : nat) (script : text) (delim : ascii) (ignore : bool) (args : list text)
    : text * bool * list text :=
  match n with
  | O => (script, ignore, args)
  | S n =>
      match script with
      | [] => (script, ignore, args)
      | _ =>
          if Ascii.eqb delim "010" then (script, ignore, args)
          else
            let '(script, out, _, delim) := simple_wordexp script SCRIPT_TOKLEN in
            let ignore := ignore || (length out =? SCRIPT_TOKLEN)%nat in
            parse_line n script delim ignore (args ++ [out])
      end
  end.

Definition line_args (script : text) : text * bool * list text :=
  parse_line SCRIPT_ARGMAX script nul false [].

Definition programs : list string := ["ping"; "nslookup"; "traceroute"].
Definition allowed (args : list text) : bool :=
  match args with
  | a :: _ => existsb (streq (String.string_of_list_ascii a)) programs
  | [] => false
  end.

(** The command of a line, when it is run. *)
Definition line_command (ignore : bool) (args : list text) : option (list text) :=
  if ignore || (length args <? 1)%nat || (SCRIPT_ARGMAX <=? length args)%nat then None
  else if allowed args then Some args else None.

(** ** The runner *)
Record cmd_result := mk_cmd_result {
  cr_status : Z;
  cr_output : text;
  cr_timeout : bool;
  cr_failed : bool }.      (* the clock, poll or read failed while it ran *)

Record script_result := mk_script_result {
  sr_rc : Z;
  sr_exit_status : Z;
  sr_stdout : text;
  sr_timeout_exceeded : bool;
  sr_commands : list (list text) }.
#[export] Instance eta_script_result : Eta script_result := λ r,
  mk_script_result (sr_rc r) (sr_exit_status r) (sr_stdout r) (sr_timeout_exceeded r) (sr_commands r).

Section runner.
Context (exec : nat → list text → option cmd_result).

Definition room (r : script_result) : nat := (Z.to_nat (SCRIPT_OUTLEN - 1) - length (sr_stdout r))%nat.

(** One command, the [i]-th line: its output up to the room there is. *)
Definition run_command (i : nat) (args : list text) (r : script_result) : script_result :=
  let r := r <| sr_commands := sr_commands r ++ [args] |> in
  match exec i args with
  | None => r <| sr_rc := -1 |>
  | Some c =>
      r <| sr_stdout := sr_stdout r ++ take (room r) (cr_output c) |>
        <| sr_exit_status := cr_status c |>
        <| sr_timeout_exceeded := sr_timeout_exceeded r || cr_timeout c |>
        <| sr_rc := if cr_failed c then -1 else sr_rc r |>
  end.

(** Every line consumes a character of the script. *)
Fixpoint script_loop (fuel : nat) (i : nat) (script : text) (r : script_result) : script_result :=
  match fuel with
  | O => r
  | S fuel =>
      match script with
      | [] => r
      | _ =>
          if negb (sr_exit_status r =? 0) || (room r =? 0)%nat || negb (sr_rc r =? 0) then r
          else
            let '(script, ignore, args) := line_args script in
            match line_command ignore args with
            | None => script_loop fuel (S i) script r
            | Some args => script_loop fuel (S i) script (run_command i args r)
            end
      end
  end.

Definition script_runner (script : text) : script_result :=
  script_loop (length script) 0 script (mk_script_result 0 0 [] false []).
End runner.

(** ** Starting a script *)
Inductive script_type := PLAT_SCRIPT_TYPE_SHELL | PLAT_SCRIPT_TYPE_DIAGNOSTICS | PLAT_SCRIPT_TYPE_OTHER.

(** The lock, whether the thread identifier is one to join, the buffers the
    context owns, and the runs that were started. *)
Record script_state := mk_script_state {
  ss_count : Z;
  ss_is_tid_valid : bool;
  ss_started : list (script_type * text);
  ss_heap : list bool;
  ss_thread : list bool }.
#[export] Instance eta_script_state : Eta script_state := λ r,
  mk_script_state (ss_count r) (ss_is_tid_valid r) (ss_started r) (ss_heap r) (ss_thread r).

Definition script_lock_aquire : M script_state unit :=
  n ← gets ss_count;
  if n =? 0 then modify (λ s, s <| ss_count := ss_count s + 1 |>) else fail.
Definition script_lock_release : M script_state unit :=
  modify (λ s, s <| ss_count := if ss_count s =? 0 then 0 else ss_count s - 1 |>).

Definition ss_alloc : M script_state bool := λ s,
  match ss_heap s with [] => Ok true s | b :: h => Ok b (s <| ss_heap := h |>) end.
(** [pthread_create] *)
Definition ss_spawn : M script_state bool := λ s,
  match ss_thread s with [] => Ok true s | b :: h => Ok b (s <| ss_thread := h |>) end.

Definition INT_MAX : Z := 2 ^ 31 - 1.

Fixpoint up_to_nul (bytes : list Z) : list Z :=
  match bytes with b :: r => if b =? 0 then [] else b :: up_to_nul r | [] => [] end.
(** The C string at the start of the decoded bytes. *)
Definition c_text (bytes : list Z) : text :=
  (λ z, ascii_of_N (Z.to_N z)) <$> up_to_nul bytes.

(** What the [switch] prepares: the text to run, [None] when it goes to [exit]. *)
Definition script_prepare (type : script_type) (script_base64 : text) : M script_state (option text) :=
  match type with
  | PLAT_SCRIPT_TYPE_SHELL =>
      ok ← ss_alloc;
      if negb ok then ret None
      else
        let bytes := base64_decode ((λ c, Z.of_N (N_of_ascii c)) <$> script_base64) in
        if (length bytes =? 0)%nat then ret None
        else ok ← ss_alloc; ret (if (ok : bool) then Some (c_text bytes) else None)
  | PLAT_SCRIPT_TYPE_DIAGNOSTICS => ret (Some [])
  | PLAT_SCRIPT_TYPE_OTHER => ret None
  end.

(** The context is cleared by the compound literal before the [switch], so
    [is_tid_valid] is false when [exit] is reached by an error. *)
Definition plat_run_script (type : script_type) (script_base64 : text) (timeout : Z) : M script_state unit :=
  _ ← fail_if (INT_MAX <? timeout);
  _ ← script_lock_aquire;
  _ ← modify (λ s, s <| ss_is_tid_valid := false |>);
  script ← script_prepare type script_base64;
  match script with
  | None => _ ← script_lock_release; fail
  | Some script =>
      ok ← ss_spawn;
      if negb ok then _ ← script_lock_release; fail
      else modify (λ s, s <| ss_is_tid_valid := true |> <| ss_started := ss_started s ++ [(type, script)] |>)
  end.

(** The end of either runner. *)
Definition runner_done : M script_state unit := script_lock_release.

(** ** Diagnostics *)
(** The runner of a diagnostics request: the switch is asked for its dump, and
    the file it names is looked for once a second, without an end to it. *)
Fixpoint wait_for_file (fuel : nat) (there : nat → bool) (i : nat) : bool :=
  match fuel with O => false | S fuel => there i || wait_for_file fuel there (S i) end.

(** [started] is the result of [gnma_techsupport_start] with the path it left;
    the answer is the exit status and the text given to the callback, [None]
    while the runner still looks for the file. *)
Definition diagnostic_runner (fuel : nat) (started : Z * string) (there : nat → bool) : option (Z * string) :=
  if negb (started.1 =? 0) then Some (1, started.2)
  else if wait_for_file fuel there 0 then Some (0, started.2) else None.
