(* ===== verification/Periodic.v ===== *)
(** * The periodic threads ([plat-gnma.c])

    The reports of health, telemetry and state and the upgrade status are made
    by one thread each, which the service thread creates and destroys.  A step
    below is one critical section of the mutex of the thread, the start or the
    end of its callback, or a call of the service thread; [periodic_destroy]
    waits in [pthread_join] while the others go on.  The specification is an
    automaton over the events: at most one poll per report, its callbacks one
    after the other, the period apart, and none once the stop has returned. *)

From stdpp Require Import functions.
From S2P Require Import Prelude CNum.
#[local] Open Scope list_scope.

(** ** Time *)
Record timespec := mk_timespec { tv_sec : Z; tv_nsec : Z }.
Definition ns (t : timespec) : Z := tv_sec t * 1000000000 + tv_nsec t.

(** The deadline of [periodic_thread], in the widths of the code. *)
Definition deadline (now : timespec) (timeout : Z) : timespec :=
  let sec := wrap_signed 64 (tv_sec now + timeout / 1000000) in
  let nsec := wrap_signed 64 (tv_nsec now + timeout mod 1000000 * 1000) in
  if 1000000000 <=? nsec then mk_timespec (wrap_signed 64 (sec + 1)) (wrap_signed 64 (nsec - 1000000000))
  else mk_timespec sec nsec.

(** The time a script has run for, in the runner of scripts. *)
Definition sub_timespec (a b : timespec) : timespec :=
  let sec := wrap_signed 64 (tv_sec a - tv_sec b) in
  let nsec := wrap_signed 64 (tv_nsec a - tv_nsec b) in
  if nsec <? 0 then mk_timespec (wrap_signed 64 (sec - 1)) (nsec + 1000000000) else mk_timespec sec nsec.

(** [period_sec * 1000000], an [int], as an [uint64_t]; [None] is its overflow. *)
Definition period_usec (period_sec : Z) : option Z :=
  let p := period_sec * 1000000 in
  if (- 2 ^ 31 <=? p) && (p <? 2 ^ 31) then Some (wrap 64 p) else None.

(** ** State *)
Inductive slot := health_periodic | telemetry_periodic | state_periodic | upgrade_periodic.
#[export] Instance slot_eq_dec : EqDecision slot.
Proof. solve_decision. Defined.

(** The structure of a poll, shared by the service thread and the thread of the
    poll; the pointers of the code are identifiers here. *)
Record periodic := mk_periodic {
  p_stop : bool;
  p_delay_usec : Z;
  p_period_usec : Z }.
#[export] Instance eta_periodic : Eta periodic := λ r,
  mk_periodic (p_stop r) (p_delay_usec r) (p_period_usec r).

(** Where a thread is: at its start; before it locks; waiting until the
    deadline; unlocked, with [stop] read as 0 and the time over; in the callback;
    at its end; past a read of a structure that was freed. *)
Inductive thread_pc := TStart | TLoop | TWaiting (deadline : timespec) | TReady | TRunning | TDone | TFault.
Record thread := mk_thread {
  th_slot : slot;                 (* whose callback it runs *)
  th_timeout : Z;
  th_pc : thread_pc }.
#[export] Instance eta_thread : Eta thread := λ r, mk_thread (th_slot r) (th_timeout r) (th_pc r).

(** The service thread: between calls; in the [pthread_join] of
    [periodic_destroy], with the period of the poll that follows, if any; past
    an overflow of the period. *)
Inductive main_pc := MIdle | MJoin (k : slot) (next : option Z) | MUndefined.

Inductive event :=
  | ECreate (k : slot) (id : nat) (t : Z) (delay_usec period_usec : Z)
  | EBegin (k : slot) (id : nat) (t : Z)
  | EEnd (k : slot) (id : nat) (t : Z)
  | EFree (k : slot) (id : nat).

(** [slots] are the four pointers; [mem] the structures that are allocated;
    [threads] every thread that was ever created, whether or not a pointer still
    leads to its structure. *)
Record psys := mk_psys {
  now : timespec;
  slots : slot → option nat;
  mem : gmap nat periodic;
  threads : gmap nat thread;
  main : main_pc;
  fresh : nat;
  log : list event }.
#[export] Instance eta_psys : Eta psys := λ r,
  mk_psys (now r) (slots r) (mem r) (threads r) (main r) (fresh r) (log r).
Definition psys_init (t : timespec) : psys := mk_psys t (λ _, None) ∅ ∅ MIdle 0 [].

(** ** The service thread *)

(** Allocations, the condition variable and the thread may fail ([ok]). *)
Definition periodic_create (k : slot) (delay_usec period_usec : Z) (ok : bool) (s : psys) : psys :=
  if ok then
    s <| slots := <[k := Some (fresh s)]> (slots s) |>
      <| mem := <[fresh s := mk_periodic false delay_usec period_usec]> (mem s) |>
      <| threads := <[fresh s := mk_thread k 0 TStart]> (threads s) |>
      <| fresh := S (fresh s) |>
      <| log := log s ++ [ECreate k (fresh s) (ns (now s)) delay_usec period_usec] |>
  else s.

(** What follows [periodic_destroy] in [plat_*_poll] and [plat_*_poll_stop]. *)
Definition after_destroy (k : slot) (next : option Z) (ok : bool) (s : psys) : psys :=
  match next with
  | None => s <| main := MIdle |>
  | Some period_sec =>
      match period_usec period_sec with
      | None => s <| main := MUndefined |>
      | Some usec => periodic_create k 0 usec ok (s <| main := MIdle |>)
      end
  end.

(** [plat_*_poll] ([next] is the period) and [plat_*_poll_stop], up to the
    join, or the whole of it without a thread. *)
Definition plat_poll (k : slot) (next : option Z) (ok : bool) (s : psys) : psys :=
  match slots s k with
  | None => after_destroy k next ok s
  | Some id => s <| mem := alter (λ p, p <| p_stop := true |>) id (mem s) |> <| main := MJoin k next |>
  end.

(** What follows the join: the structure is freed, whatever its thread does. *)
Definition periodic_joined (k : slot) (next : option Z) (ok : bool) (id : nat) (s : psys) : psys :=
  after_destroy k next ok
    (s <| slots := <[k := None]> (slots s) |> <| mem := delete id (mem s) |> <| log := log s ++ [EFree k id] |>).

(** ** The threads *)
Definition thread_to (id : nat) (th : thread) (s : psys) : psys :=
  s <| threads := <[id := th]> (threads s) |>.

(** Every step but the last reads the structure. *)
Inductive thread_step (id : nat) (th : thread) (s : psys) : psys → Prop :=
  | ts_freed : th_pc th ≠ TDone → th_pc th ≠ TFault → mem s !! id = None →
      thread_step id th s (thread_to id (th <| th_pc := TFault |>) s)
  | ts_start p : th_pc th = TStart → mem s !! id = Some p →
      thread_step id th s (thread_to id (th <| th_timeout := p_delay_usec p |> <| th_pc := TLoop |>) s)
  | ts_lock p : th_pc th = TLoop → mem s !! id = Some p →
      thread_step id th s (thread_to id (th <| th_pc := TWaiting (deadline (now s) (th_timeout th)) |>) s)
  | ts_stop d p : th_pc th = TWaiting d → mem s !! id = Some p → p_stop p = true →
      thread_step id th s (thread_to id (th <| th_pc := TDone |>) s)
  | ts_timeout d p : th_pc th = TWaiting d → mem s !! id = Some p → p_stop p = false → ns d ≤ ns (now s) →
      thread_step id th s (thread_to id (th <| th_pc := TReady |>) s)
  | ts_error d p : th_pc th = TWaiting d → mem s !! id = Some p → p_stop p = false →
      thread_step id th s (thread_to id (th <| th_pc := TDone |>) s)
  | ts_begin p : th_pc th = TReady → mem s !! id = Some p →
      thread_step id th s
        (thread_to id (th <| th_pc := TRunning |>) s <| log := log s ++ [EBegin (th_slot th) id (ns (now s))] |>)
  (* the callback returned 0 *)
  | ts_end p : th_pc th = TRunning → mem s !! id = Some p →
      thread_step id th s
        (thread_to id (th <| th_timeout := p_period_usec p |> <| th_pc := TLoop |>) s
         <| log := log s ++ [EEnd (th_slot th) id (ns (now s))] |>)
  (* only the upgrade status asks to be stopped by its result *)
  | ts_break : th_pc th = TRunning → th_slot th = upgrade_periodic →
      thread_step id th s
        (thread_to id (th <| th_pc := TDone |>) s <| log := log s ++ [EEnd (th_slot th) id (ns (now s))] |>).

(** A clock of timespecs whose seconds stay far from the end of time. *)
Definition good_time (t : timespec) : Prop := 0 ≤ tv_sec t < 2 ^ 62 ∧ 0 ≤ tv_nsec t < 1000000000.

Inductive action := ATick | APoll (k : slot) (next : option Z) | AJoin (k : slot) | AThread (id : nat).
#[export] Instance action_eq_dec : EqDecision action.
Proof. solve_decision. Defined.
(** [pthread_join] returns when the thread is at its end. *)
Inductive psys_step (s : psys) : action → psys → Prop :=
  | ps_tick t : good_time t → ns (now s) ≤ ns t → psys_step s ATick (s <| now := t |>)
  | ps_poll k next ok : main s = MIdle → psys_step s (APoll k next) (plat_poll k next ok s)
  | ps_join k next ok id th : main s = MJoin k next → slots s k = Some id →
      threads s !! id = Some th → th_pc th = TDone →
      psys_step s (AJoin k) (periodic_joined k next ok id s)
  | ps_thread id th s' : threads s !! id = Some th → thread_step id th s s' → psys_step s (AThread id) s'.

Inductive reachable : psys → Prop :=
  | reach_init t : good_time t → reachable (psys_init t)
  | reach_step s a s' : reachable s → psys_step s a s' → reachable s'.

(** ** The deadline *)
Lemma deadline_ns t timeout :
  good_time t → 0 ≤ timeout < 2 ^ 64 →
  ns (deadline t timeout) = ns t + timeout * 1000 ∧ 0 ≤ tv_nsec (deadline t timeout) < 1000000000.
Proof.
  intros [Hs Hn] Ht. unfold deadline.
  pose proof (Z.div_mod timeout 1000000 ltac:(lia)) as Hd.
  pose proof (Z.mod_pos_bound timeout 1000000 ltac:(lia)) as Hm.
  assert (0 ≤ timeout / 1000000 < 2 ^ 45) as Hq
    by (split; [apply Z.div_pos; lia|apply Z.div_lt_upper_bound; [lia|]; assert (2 ^ 64 < 1000000 * 2 ^ 45) by done; lia]).
  set (q := timeout / 1000000) in *. set (r := timeout mod 1000000) in *.
  clearbody q r. destruct t as [sec nsec]. cbn [tv_sec tv_nsec] in *.
  assert (2 ^ 62 + 2 ^ 45 + 1 < 2 ^ 63 ∧ 2000000000 < 2 ^ 63) as [Hb1 Hb2] by done.
  rewrite (wrap_signed_small 64 (sec + q)), (wrap_signed_small 64 (nsec + r * 1000)) by lia. unfold ns.
  destruct (Z.leb_spec 1000000000 (nsec + r * 1000)); cbn [tv_sec tv_nsec]; [|lia].
  rewrite (wrap_signed_small 64 (sec + q + 1)), (wrap_signed_small 64 (nsec + r * 1000 - 1000000000)) by lia. lia.
Qed.

Lemma wrap_signed_fits w x : 0 < w → - 2 ^ (w - 1) ≤ x < 2 ^ (w - 1) → wrap_signed w x = x.
Proof.
  intros Hw Hx. destruct (decide (0 ≤ x)); [apply wrap_signed_small; lia|]. unfold wrap_signed, wrap.
  assert (2 ^ w = 2 * 2 ^ (w - 1)) as E by (rewrite <- Z.pow_succ_r by lia; f_equal; lia).
  assert (x mod 2 ^ w = x + 2 ^ w) as -> by (symmetry; apply (Z.mod_unique_pos _ _ (-1)); lia).
  destruct (Z.ltb_spec (x + 2 ^ w) (2 ^ (w - 1))); lia.
Qed.
Lemma sub_timespec_ns a b :
  good_time a → good_time b →
  ns (sub_timespec a b) = ns a - ns b ∧ 0 ≤ tv_nsec (sub_timespec a b) < 1000000000.
Proof.
  intros [Ha Han] [Hb Hbn]. unfold sub_timespec. destruct a as [sa na], b as [sb nb]. cbn [tv_sec tv_nsec] in *.
  assert (2 ^ 62 + 1 < 2 ^ 63 ∧ 1000000000 < 2 ^ 63) as [Hb1 Hb2] by done.
  rewrite (wrap_signed_fits 64 (sa - sb)), (wrap_signed_fits 64 (na - nb)) by lia. unfold ns.
  destruct (Z.ltb_spec (na - nb) 0); cbn [tv_sec tv_nsec]; [|lia].
  rewrite (wrap_signed_fits 64 (sa - sb - 1)) by lia. lia.
Qed.

(** ** The specification *)
Inductive poll_status :=
  | Off
  | Idle (id : nat) (period_usec due : Z)
  | Busy (id : nat) (period_usec : Z).
(** What is allowed of one report. *)
Inductive poll_step : event → poll_status → poll_status → Prop :=
  | allow_create k id t delay period : poll_step (ECreate k id t delay period) Off (Idle id period (t + delay * 1000))
  | allow_begin k id t period due : due ≤ t → poll_step (EBegin k id t) (Idle id period due) (Busy id period)
  | allow_end k id t period : poll_step (EEnd k id t) (Busy id period) (Idle id period (t + period * 1000))
  | allow_free k id period due : poll_step (EFree k id) (Idle id period due) Off.
Definition slot_of (e : event) : slot :=
  match e with ECreate k _ _ _ _ | EBegin k _ _ | EEnd k _ _ | EFree k _ => k end.

(** The events so far are allowed, and end in the given status of each report. *)
Inductive allowed : list event → (slot → poll_status) → Prop :=
  | allowed_nil : allowed [] (λ _, Off)
  | allowed_snoc l a e st : allowed l a → poll_step e (a (slot_of e)) st → allowed (l ++ [e]) (<[slot_of e := st]> a).

(** How the status reflects a thread with its structure. *)
Definition due_by (t : timespec) (p : periodic) (th : thread) (due : Z) : Prop :=
  match th_pc th with
  | TStart => due ≤ ns t + p_delay_usec p * 1000
  | TLoop => due ≤ ns t + th_timeout th * 1000
  | TWaiting d => due ≤ ns d
  | TReady => due ≤ ns t
  | _ => True
  end.
Definition timely (t : timespec) (id : nat) (p : periodic) (th : thread) (st : poll_status) : Prop :=
  0 ≤ th_timeout th < 2 ^ 64 ∧ 0 ≤ p_delay_usec p < 2 ^ 64 ∧ 0 ≤ p_period_usec p < 2 ^ 64 ∧
  match th_pc th with
  | TRunning => st = Busy id (p_period_usec p)
  | _ => ∃ due, st = Idle id (p_period_usec p) due ∧ due_by t p th due
  end.
(** A pointer leads to a structure with a thread of its own. *)
Definition reflects (s : psys) (k : slot) (st : poll_status) : Prop :=
  match slots s k with
  | None => st = Off
  | Some id => ∃ p th, mem s !! id = Some p ∧ threads s !! id = Some th ∧ th_slot th = k ∧ th_pc th ≠ TFault ∧
                       timely (now s) id p th st
  end.
(** No thread but the one a pointer leads to is still at work. *)
Definition no_stray (s : psys) : Prop :=
  ∀ id th, threads s !! id = Some th →
    (id < fresh s)%nat ∧ (th_pc th = TDone ∨ slots s (th_slot th) = Some id).
Definition refines (s : psys) : Prop :=
  good_time (now s) ∧ no_stray s ∧ ∃ a, allowed (log s) a ∧ ∀ k, reflects s k (a k).

Lemma timely_now t t' id p th st : ns t ≤ ns t' → timely t id p th st → timely t' id p th st.
Proof.
  intros Ht (A & B & C & D). refine (conj A (conj B (conj C _))).
  destruct (th_pc th) eqn:E; try done; destruct D as (due & -> & Hd); exists due; (split; [done|]);
    unfold due_by in *; rewrite E in *; try done; lia.
Qed.
Lemma reflects_same s s' k st :
  now s' = now s → slots s' k = slots s k →
  (∀ id, slots s k = Some id → mem s' !! id = mem s !! id ∧ threads s' !! id = threads s !! id) →
  reflects s k st → reflects s' k st.
Proof.
  intros En Es Em. unfold reflects. rewrite Es, En. destruct (slots s k) as [id|]; [|done].
  destruct (Em id eq_refl) as [-> ->]. done.
Qed.

Lemma period_usec_range sec usec : period_usec sec = Some usec → 0 ≤ usec < 2 ^ 64.
Proof. unfold period_usec. case_match; [|done]. intros [= <-]. by apply wrap_range. Qed.

(** One report moves with the thread [id], the others stay. *)
Lemma refines_move s s' k id :
  refines s → now s' = now s → (∀ j, j ≠ k → slots s' j = slots s j) → no_stray s' →
  (∀ j, j ≠ k → slots s j ≠ Some id) →
  (∀ i, i ≠ id → mem s' !! i = mem s !! i ∧ threads s' !! i = threads s !! i) →
  (∀ a, allowed (log s) a → reflects s k (a k) →
     ∃ a', allowed (log s') a' ∧ (∀ j, j ≠ k → a' j = a j) ∧ reflects s' k (a' k)) → refines s'.
Proof.
  intros (Ht & _ & a & Ha & Hr) Hn Hj Hst Hid Hm Hk. split; [by rewrite Hn|]. split; [done|].
  destruct (Hk a Ha (Hr k)) as (a' & Ha' & Hoth & Hrefl). exists a'. split; [done|].
  intros j. destruct (decide (j = k)) as [->|Hne]; [done|]. rewrite Hoth by done.
  apply (reflects_same s); [done|by apply Hj| |apply Hr]. intros i Hi. apply Hm. intros ->. by apply (Hid j).
Qed.
(** An event of a report, for [refines_move]. *)
Lemma allowed_event l a k e st : allowed l a → slot_of e = k → poll_step e (a k) st →
  allowed (l ++ [e]) (<[k := st]> a) ∧ (∀ j, j ≠ k → <[k := st]> a j = a j) ∧ <[k := st]> a k = st.
Proof.
  intros Ha <- Hp. split_and!; [by constructor|intros j Hj; by rewrite fn_lookup_insert_ne|by rewrite fn_lookup_insert].
Qed.

(** A thread belongs to one report only. *)
Lemma slot_unique s j id th : refines s → slots s j = Some id → threads s !! id = Some th → th_slot th = j.
Proof.
  intros (_ & _ & a & _ & Hr) Hj Hth. specialize (Hr j). unfold reflects in Hr. rewrite Hj in Hr.
  destruct Hr as (p & th' & _ & Hth' & Hs & _). congruence.
Qed.

Lemma refines_create k delay usec ok s :
  refines s → slots s k = None → 0 ≤ delay < 2 ^ 64 → 0 ≤ usec < 2 ^ 64 → refines (periodic_create k delay usec ok s).
Proof.
  intros Hs Hk Hd Hu. destruct ok; [|done]. pose proof Hs as (_ & Hst & _).
  apply (refines_move s _ k (fresh s)); try done.
  - intros j Hj. cbn. by rewrite fn_lookup_insert_ne.
  - intros id th. cbn. destruct (decide (id = fresh s)) as [->|Hne].
    + rewrite lookup_insert_eq. intros [= <-]. cbn. rewrite fn_lookup_insert. split; [lia|by right].
    + rewrite lookup_insert_ne by done. intros Hth. destruct (Hst _ _ Hth) as [Hlt Hor]. split; [lia|].
      destruct Hor as [?|Hsl]; [by left|right]. rewrite fn_lookup_insert_ne; [done|]. intros E. congruence.
  - intros j Hj Hsl. destruct Hs as (_ & _ & a & _ & Hr). specialize (Hr j). unfold reflects in Hr. rewrite Hsl in Hr.
    destruct Hr as (p & th & _ & Hth & _). apply Hst in Hth as [Hlt _]. lia.
  - intros i Hi. cbn. by rewrite !lookup_insert_ne.
  - intros a Ha Hrefl. unfold reflects in Hrefl. rewrite Hk in Hrefl.
    destruct (allowed_event (log s) a k (ECreate k (fresh s) (ns (now s)) delay usec) (Idle (fresh s) usec (ns (now s) + delay * 1000)))
      as (A & B & C); [done|done|rewrite Hrefl; constructor|].
    eexists. split; [exact A|]. split; [exact B|]. rewrite C. unfold reflects. cbn. rewrite fn_lookup_insert, !lookup_insert_eq.
    eexists _, _. split_and!; try done. unfold timely. cbn. split_and!; try lia. eexists. split; [done|]. unfold due_by. cbn. lia.
Qed.
Lemma refines_main s m : refines s → refines (s <| main := m |>).
Proof. done. Qed.
Lemma refines_after k next ok s : refines s → slots s k = None → refines (after_destroy k next ok s).
Proof.
  intros Hs Hk. destruct next as [sec|]; cbn; [|by apply refines_main].
  destruct (period_usec sec) as [usec|] eqn:E; [|by apply refines_main].
  apply refines_create; [by apply refines_main|done|lia|by eapply period_usec_range].
Qed.

(** What a step of a thread leaves alone. *)
Lemma thread_step_shape id th s s' : thread_step id th s s' →
  now s' = now s ∧ slots s' = slots s ∧ mem s' = mem s ∧ main s' = main s ∧ fresh s' = fresh s ∧
  th_pc th ≠ TDone ∧ ∃ th', threads s' = <[id := th']> (threads s) ∧ th_slot th' = th_slot th.
Proof. destruct 1; split_and!; try done; try congruence; by eexists. Qed.

Lemma refines_thread id th s s' : refines s → threads s !! id = Some th → thread_step id th s s' → refines s'.
Proof.
  intros Hs Hth Hstep. pose proof Hs as (Ht & Hst & _).
  destruct (thread_step_shape _ _ _ _ Hstep) as (En & Es & Em & _ & Ef & Hpc & th' & Eth & Esl).
  destruct (Hst id th Hth) as [Hlt [?|Hk]]; [done|].
  apply (refines_move s s' (th_slot th) id); try done; try (by intros; rewrite ?Es).
  - intros i th1. rewrite Eth, Ef, Es. destruct (decide (i = id)) as [->|Hne].
    + rewrite lookup_insert_eq. intros [= <-]. rewrite Esl. split; [lia|by right].
    + rewrite lookup_insert_ne by done. apply Hst.
  - intros j Hj Hsl. by rewrite (slot_unique _ _ _ _ Hs Hsl Hth) in Hj.
  - intros i Hi. by rewrite Em, Eth, lookup_insert_ne.
  - intros a Ha Hrefl. unfold reflects in Hrefl. rewrite Hk in Hrefl.
    destruct Hrefl as (p & th1 & Hp & Hth1 & _ & Hnf & Hti). rewrite Hth in Hth1. injection Hth1 as <-.
    assert (∀ a' th2, threads s' = <[id := th2]> (threads s) → th_slot th2 = th_slot th →
              allowed (log s') a' → (∀ j, j ≠ th_slot th → a' j = a j) →
              th_pc th2 ≠ TFault → timely (now s) id p th2 (a' (th_slot th)) →
              ∃ a', allowed (log s') a' ∧ (∀ j, j ≠ th_slot th → a' j = a j) ∧ reflects s' (th_slot th) (a' (th_slot th)))
      as Hgoal.
    { intros a' th2 E2 Es2 Ha' Hj Hf' Hti'. exists a'. split_and!; [done..|]. unfold reflects.
      rewrite Es, Em, E2, En, Hk, Hp, lookup_insert_eq. eauto 10. }
    clear Eth Esl th'. destruct Hti as (A & B & C & Hti).
    destruct Hstep as [_ _ Hno|q Hp1 Hq|q Hp1 Hq|d q Hp1 Hq Hq1|d q Hp1 Hq Hq1 Hd|d q Hp1 Hq Hq1|q Hp1 Hq|q Hp1 Hq|Hp1 Hup];
      [congruence|..]; try (rewrite Hp in Hq; injection Hq as <-); rewrite Hp1 in Hti.
    + destruct Hti as (due & E & Hdue). eapply (Hgoal a); try done. unfold timely. cbn.
      split_and!; try lia. exists due. split; [done|]. unfold due_by in *. rewrite Hp1 in Hdue. done.
    + destruct Hti as (due & E & Hdue). eapply (Hgoal a); try done. unfold timely. cbn.
      split_and!; try lia. exists due. split; [done|]. unfold due_by in *. rewrite Hp1 in Hdue. cbn.
      rewrite (proj1 (deadline_ns _ _ Ht A)). lia.
    + destruct Hti as (due & E & Hdue). eapply (Hgoal a); try done. unfold timely. cbn.
      split_and!; try lia. by exists due.
    + destruct Hti as (due & E & Hdue). eapply (Hgoal a); try done. unfold timely. cbn.
      split_and!; try lia. exists due. split; [done|]. unfold due_by in *. rewrite Hp1 in Hdue. cbn. lia.
    + destruct Hti as (due & E & Hdue). eapply (Hgoal a); try done. unfold timely. cbn.
      split_and!; try lia. by exists due.
    + destruct Hti as (due & E & Hdue). unfold due_by in Hdue. rewrite Hp1 in Hdue.
      destruct (allowed_event (log s) a (th_slot th) (EBegin (th_slot th) id (ns (now s))) (Busy id (p_period_usec p)))
        as (A1 & B1 & C1); [done|done|rewrite E; by constructor|].
      eapply (Hgoal _ _ eq_refl); [done|exact A1|exact B1|done|]. rewrite C1. unfold timely. cbn. split_and!; try lia. done.
    + destruct (allowed_event (log s) a (th_slot th) (EEnd (th_slot th) id (ns (now s)))
          (Idle id (p_period_usec p) (ns (now s) + p_period_usec p * 1000)))
        as (A1 & B1 & C1); [done|done|rewrite Hti; by constructor|].
      eapply (Hgoal _ _ eq_refl); [done|exact A1|exact B1|done|]. rewrite C1. unfold timely. cbn. split_and!; try lia.
      eexists. split; [done|]. unfold due_by. cbn. lia.
    + destruct (allowed_event (log s) a (th_slot th) (EEnd (th_slot th) id (ns (now s)))
          (Idle id (p_period_usec p) (ns (now s) + p_period_usec p * 1000)))
        as (A1 & B1 & C1); [done|done|rewrite Hti; by constructor|].
      eapply (Hgoal _ _ eq_refl); [done|exact A1|exact B1|done|]. rewrite C1. unfold timely. cbn. split_and!; try lia.
      by eexists.
Qed.

Lemma refines_step s act s' : refines s → psys_step s act s' → refines s'.
Proof.
  intros Hs [t Ht Hle|k next ok Hm|k next ok id th Hm Hk Hth Hpc|id th s1 Hth Hstep].
  - destruct Hs as (_ & Hst & a & Ha & Hr). split; [done|]. split; [done|]. exists a. split; [done|]. intros k.
    specialize (Hr k). unfold reflects in *. cbn. destruct (slots s k) as [id|]; [|done].
    destruct Hr as (p & th & A & B & C & D & E). exists p, th. split_and!; try done. by eapply timely_now.
  - unfold plat_poll. destruct (slots s k) as [id|] eqn:Hk; [|by apply refines_after].
    apply (refines_move s _ k id); try done; [apply Hs| | |].
    + intros j Hj Hsl. destruct Hs as (_ & _ & a & _ & Hr). pose proof (Hr k) as H1. pose proof (Hr j) as H2.
      unfold reflects in H1, H2. rewrite Hk in H1. rewrite Hsl in H2.
      destruct H1 as (? & ? & _ & ? & ? & _), H2 as (? & ? & _ & ? & ? & _). congruence.
    + intros i Hi. cbn. by rewrite lookup_alter_ne.
    + intros a Ha. unfold reflects. cbn. rewrite Hk, lookup_alter_eq. intros (p & th & -> & Hth & Hsl & Hf & Hti).
      exists a. split_and!; [done|done|]. by exists (p <| p_stop := true |>), th.
  - unfold periodic_joined. apply refines_after; [|cbn; by rewrite fn_lookup_insert].
    assert (th_slot th = k) as Hsl by by eapply slot_unique.
    assert (∀ j, j ≠ k → slots s j ≠ Some id) as Hoth.
    { intros j Hj Hj'. pose proof (slot_unique _ _ _ _ Hs Hj' Hth). congruence. }
    apply (refines_move s _ k id); try done.
    + intros j Hj. cbn. by rewrite fn_lookup_insert_ne.
    + intros i th1. cbn. intros Hi. destruct Hs as (_ & Hst & _). destruct (Hst i th1 Hi) as [Hlt [?|Hsi]]; [auto|].
      split; [done|]. destruct (decide (th_slot th1 = k)) as [E|Hne].
      * left. rewrite E, Hk in Hsi. injection Hsi as <-. congruence.
      * right. by rewrite fn_lookup_insert_ne.
    + intros i Hi. cbn. by rewrite lookup_delete_ne.
    + intros a Ha Hrefl. unfold reflects in Hrefl. rewrite Hk in Hrefl.
      destruct Hrefl as (p & th1 & _ & Hth1 & _ & _ & _ & _ & _ & Hti). rewrite Hth in Hth1. injection Hth1 as <-.
      rewrite Hpc in Hti. destruct Hti as (due & E & _).
      destruct (allowed_event (log s) a k (EFree k id) Off) as (A & B & C); [done|done|rewrite E; constructor|].
      eexists. split; [exact A|]. split; [exact B|]. rewrite C. unfold reflects. cbn. by rewrite fn_lookup_insert.
  - by eapply refines_thread.
Qed.
Lemma reachable_refines s : reachable s → refines s.
Proof.
  induction 1 as [t Ht|s act s' Hr IH Hstep]; [|by eapply refines_step].
  split; [done|]. split; [intros id th H; by apply (lookup_empty_Some (M := gmap nat) id th) in H|]. exists (λ _, Off). split; [constructor|done].
Qed.

(** ** Stopping *)

(** While the service thread joins a thread, that thread is told to stop. *)
Definition joins (s : psys) : Prop :=
  ∀ k next, main s = MJoin k next → ∃ id p, slots s k = Some id ∧ mem s !! id = Some p ∧ p_stop p = true.

Lemma after_destroy_main k next ok s k' next' :
  main (after_destroy k next ok s) = MJoin k' next' → False.
Proof. destruct next as [sec|]; cbn; [|done]. destruct (period_usec sec); [|done]. by destruct ok. Qed.
Lemma joins_step s act s' : refines s → joins s → psys_step s act s' → joins s'.
Proof.
  intros Hr Hs [t Ht Hle|k next ok Hm|k next ok id th Hm Hk Hth Hpc|id th s1 Hth Hstep] k' next' Hm'.
  - by apply (Hs _ next').
  - unfold plat_poll in *. destruct (slots s k) as [id|] eqn:E; [|by apply after_destroy_main in Hm'].
    cbn in Hm'. injection Hm' as <- <-. cbn. destruct Hr as (_ & _ & a & _ & Hr). specialize (Hr k).
    unfold reflects in Hr. rewrite E in Hr. destruct Hr as (p & th & Hp & _). exists id, (p <| p_stop := true |>).
    by rewrite lookup_alter_eq, Hp.
  - unfold periodic_joined in Hm'. by apply after_destroy_main in Hm'.
  - destruct (thread_step_shape _ _ _ _ Hstep) as (_ & Es & Em & Ema & _). rewrite Es, Em. apply (Hs _ next'). congruence.
Qed.
Lemma reachable_joins s : reachable s → joins s.
Proof.
  induction 1 as [t Ht|s act s' Hr IH Hstep]; [done|]. eapply joins_step; [by apply reachable_refines|done|done].
Qed.

(** What happens to a report whose pointer is NULL, without a poll of it. *)
Definition of_slot (k : slot) (l : list event) : list event := filter (λ e, slot_of e = k) l.
#[local] Arguments of_slot : simpl never.
Lemma of_slot_other k l e : slot_of e ≠ k → of_slot k (l ++ [e]) = of_slot k l.
Proof. intros H. unfold of_slot. rewrite list.filter_app, filter_cons_False, filter_nil by done. by rewrite app_nil_r. Qed.
Lemma off_after k k' next ok s : slots s k = None → (k' = k → next = None) →
  slots (after_destroy k' next ok s) k = None ∧ of_slot k (log (after_destroy k' next ok s)) = of_slot k (log s).
Proof.
  intros H0 Hn. destruct next as [sec|]; [|done]. cbn. destruct (period_usec sec) as [usec|]; [|done].
  destruct ok; [|done]. destruct (decide (k' = k)) as [E|Hne]; [by specialize (Hn E)|]. cbn.
  rewrite fn_lookup_insert_ne, of_slot_other by done. done.
Qed.
Lemma off_step k s act s' :
  refines s → slots s k = None → psys_step s act s' → (∀ sec, act ≠ APoll k (Some sec)) →
  slots s' k = None ∧ of_slot k (log s') = of_slot k (log s).
Proof.
  intros Hr Hk [t Ht Hle|k' next ok Hm|k' next ok id th Hm Hk' Hth Hpc|id th s1 Hth Hstep] Hact; [done|..].
  - unfold plat_poll. destruct (slots s k') as [id|] eqn:E; [done|].
    apply off_after; [done|]. intros ->. destruct next as [sec|]; [by destruct (Hact sec)|done].
  - assert (k' ≠ k) as Hne by congruence. unfold periodic_joined.
    destruct (off_after k k' next ok (s <| slots := <[k':=None]> (slots s) |> <| mem := delete id (mem s) |>
                <| log := log s ++ [EFree k' id] |>)) as [A B]; [cbn; by rewrite fn_lookup_insert_ne|done|].
    split; [done|]. rewrite B. cbn. by apply of_slot_other.
  - destruct (thread_step_shape _ _ _ _ Hstep) as (_ & Es & _ & _ & _ & Hnd & _). rewrite Es. split; [done|].
    assert (th_slot th ≠ k) as Hne.
    { destruct Hr as (_ & Hst & _). destruct (Hst _ _ Hth) as [_ [?|?]]; congruence. }
    destruct Hstep; cbn; try done; by apply of_slot_other.
Qed.

Inductive runs : list action → psys → psys → Prop :=
  | runs_nil s : runs [] s s
  | runs_cons act acts s1 s2 s3 : psys_step s1 act s2 → runs acts s2 s3 → runs (act :: acts) s1 s3.

(** How many steps a thread that is told to stop still makes, at most. *)
Definition left_to_do (pc : thread_pc) : nat :=
  match pc with TReady => 4 | TRunning => 3 | TStart => 3 | TLoop => 2 | TWaiting _ => 1 | TDone | TFault => 0 end.

Lemma stopping_step id p th s s' : mem s !! id = Some p → p_stop p = true → thread_step id th s s' →
  ∃ th', threads s' !! id = Some th' ∧ (left_to_do (th_pc th') < left_to_do (th_pc th))%nat.
Proof.
  intros Hp Hst Hstep; destruct Hstep as [_ _ Hno|q Hp1 Hq|q Hp1 Hq|d q Hp1 Hq Hq1|d q Hp1 Hq Hq1 Hd|d q Hp1 Hq Hq1|q Hp1 Hq|q Hp1 Hq|Hp1 Hup];
    try congruence; rewrite Hp1; cbn; rewrite lookup_insert_eq; (eexists; split; [done|]); cbn; lia.
Qed.
Lemma stopping_enabled id p th s : mem s !! id = Some p → p_stop p = true → th_pc th ≠ TFault →
  th_pc th = TDone ∨ ∃ s', thread_step id th s s'.
Proof.
  intros Hp Hst Hnf. destruct (th_pc th) as [| |d| | | |] eqn:E; try done; [right..|by left]; eexists.
  - by eapply ts_start.
  - by eapply ts_lock.
  - by eapply ts_stop.
  - by eapply ts_begin.
  - by eapply ts_end.
Qed.

(** C13: The periodic threads refine their specification, in every interleaving
    of the service thread, the threads and the clock: each report has at most
    one thread at a time, the callbacks of a poll run one after the other, the
    first not before the delay and each other not before the period has passed
    since the end of the one before it, all between the creation and the
    destruction of the poll; a callback is running exactly when its report is
    busy; and no thread reads a structure that was freed. *)
Theorem periodic_refines s : reachable s →
  (∃ a, allowed (log s) a ∧
        ∀ k, match slots s k with
             | None => a k = Off
             | Some id => ∃ p th, mem s !! id = Some p ∧ threads s !! id = Some th ∧
                 match th_pc th with
                 | TRunning => a k = Busy id (p_period_usec p)
                 | _ => ∃ due, a k = Idle id (p_period_usec p) due
                 end
             end) ∧
  ∀ id th, threads s !! id = Some th → th_pc th ≠ TDone → slots s (th_slot th) = Some id ∧ th_pc th ≠ TFault.
Proof.
  intros Hs%reachable_refines. pose proof Hs as (_ & Hst & a & Ha & Hr). split.
  - exists a. split; [done|]. intros k. specialize (Hr k). unfold reflects in Hr.
    destruct (slots s k) as [id|]; [|done]. destruct Hr as (p & th & Hp & Hth & _ & _ & _ & _ & _ & Hti).
    exists p, th. split_and!; [done|done|].
    destruct (th_pc th); [destruct Hti as (due & -> & _); by exists due..|done| |];
      destruct Hti as (due & -> & _); by exists due.
  - intros id th Hth Hpc. destruct (Hst id th Hth) as [_ [?|Hsl]]; [done|]. split; [done|].
    specialize (Hr (th_slot th)). unfold reflects in Hr. rewrite Hsl in Hr.
    destruct Hr as (p & th' & _ & Hth' & _ & Hf & _). congruence.
Qed.

(** C21: Once a report is stopped, the stop having returned, every thread that was
    ever made for it is at its end, no callback of it starts or ends, whatever
    else the service thread, the other threads and the clock do, until the
    report is polled again. *)
Theorem stopped_is_quiet k acts s s' :
  reachable s → slots s k = None → runs acts s s' → Forall (λ act, ∀ sec, act ≠ APoll k (Some sec)) acts →
  slots s' k = None ∧ of_slot k (log s') = of_slot k (log s) ∧
  ∀ id th, threads s' !! id = Some th → th_slot th = k → th_pc th = TDone.
Proof.
  intros Hs Hk Hruns Hacts. induction Hruns as [s|act acts s1 s2 s3 Hstep Hruns IH].
  - split_and!; [done|done|]. intros id th Hth E. apply reachable_refines in Hs as (_ & Hst & _).
    destruct (Hst _ _ Hth) as [_ [?|?]]; congruence.
  - inversion_clear Hacts as [|?? Hact Hacts'].
    destruct (off_step _ _ _ _ (reachable_refines _ Hs) Hk Hstep Hact) as [Hk2 E2].
    destruct (IH ltac:(by eapply reach_step) Hk2 Hacts') as (Hk3 & E3 & Hd). split_and!; [done|congruence|done].
Qed.

(** While the service thread waits, only the thread itself moves. *)
Lemma waiting_step k next id p th s act s' :
  main s = MJoin k next → slots s k = Some id → mem s !! id = Some p → p_stop p = true → threads s !! id = Some th →
  psys_step s act s' → act ≠ AJoin k →
  main s' = MJoin k next ∧ slots s' k = Some id ∧ mem s' !! id = Some p ∧ ∃ th', threads s' !! id = Some th' ∧
    ((if decide (act = AThread id) then 1 else 0) + left_to_do (th_pc th') ≤ left_to_do (th_pc th))%nat.
Proof.
  intros Hm Hk Hp Hst Hth [t Ht Hle|k' next' ok Hm'|k' next' ok id' th' Hm' Hk' Hth' Hpc|id' th' s1 Hth' Hstep] Hne;
    try congruence.
  - split_and!; [done..|]. by exists th.
  - destruct (thread_step_shape _ _ _ _ Hstep) as (_ & Es & Em & Ema & _ & _ & th2 & E2 & _).
    rewrite Ema, Es, Em. split_and!; [done..|]. destruct (decide (id' = id)) as [->|Hid].
    + assert (th' = th) as -> by congruence. rewrite decide_True by done.
      destruct (stopping_step _ _ _ _ _ Hp Hst Hstep) as (r & Hr & Hlt). exists r. split; [done|lia].
    + rewrite decide_False by congruence. exists th. by rewrite E2, lookup_insert_ne.
Qed.
Lemma waiting_runs k next id p acts s s' : runs acts s s' → Forall (λ act, act ≠ AJoin k) acts →
  ∀ th, main s = MJoin k next → slots s k = Some id → mem s !! id = Some p → p_stop p = true → threads s !! id = Some th →
  main s' = MJoin k next ∧ slots s' k = Some id ∧ mem s' !! id = Some p ∧ ∃ th', threads s' !! id = Some th' ∧
    (length (filter (λ act, act = AThread id) acts) + left_to_do (th_pc th') ≤ left_to_do (th_pc th))%nat.
Proof.
  induction 1 as [s|act acts s1 s2 s3 Hstep Hruns IH]; intros Hacts th Hm Hk Hp Hst Hth.
  { split_and!; [done..|]. by exists th. }
  inversion_clear Hacts as [|?? Hact Hacts'].
  destruct (waiting_step _ _ _ _ _ _ _ _ Hm Hk Hp Hst Hth Hstep Hact) as (Hm2 & Hk2 & Hp2 & th2 & Hth2 & Hle).
  destruct (IH Hacts' th2 Hm2 Hk2 Hp2 Hst Hth2) as (Hm3 & Hk3 & Hp3 & r & Hr & Hle3). split_and!; [done..|].
  exists r. split; [done|]. destruct (decide (act = AThread id)) as [->|Hne].
  - rewrite filter_cons_True by done. cbn [length] in *. lia.
  - rewrite filter_cons_False by done. lia.
Qed.

(** C30: A stop always returns: while the service thread waits in the join,
    whatever the other threads and the clock do, the thread it waits for makes
    at most four more steps and is never stuck before its end; then the join
    can return, and the service thread goes on. *)
Theorem stop_returns k next acts s s' :
  reachable s → main s = MJoin k next → runs acts s s' → Forall (λ act, act ≠ AJoin k) acts →
  ∃ id, slots s' k = Some id ∧
  (length (filter (λ act, act = AThread id) acts) ≤ 4)%nat ∧
  ∃ s'', psys_step s' (AThread id) s'' ∨ (psys_step s' (AJoin k) s'' ∧ ∀ k' next', main s'' ≠ MJoin k' next').
Proof.
  intros Hs Hm Hruns Hacts. destruct (reachable_joins s Hs k next Hm) as (id & p & Hk & Hp & Hst).
  assert (reachable s') as Hs'.
  { clear -Hs Hruns. induction Hruns as [|act acts s1 s2 s3 Hstep _ IH]; [done|]. apply IH. by eapply reach_step. }
  apply reachable_refines in Hs as (_ & _ & a & _ & Hr). specialize (Hr k). unfold reflects in Hr. rewrite Hk in Hr.
  destruct Hr as (p' & th & _ & Hth & _).
  destruct (waiting_runs _ _ _ _ _ _ _ Hruns Hacts th Hm Hk Hp Hst Hth) as (Hm' & Hk' & Hp' & th' & Hth' & Hle).
  exists id. assert (left_to_do (th_pc th) ≤ 4)%nat by (destruct (th_pc th); cbn; lia). split; [done|]. split; [lia|].
  apply reachable_refines in Hs' as (_ & _ & a' & _ & Hr). specialize (Hr k). unfold reflects in Hr. rewrite Hk' in Hr.
  destruct Hr as (p2 & th2 & _ & Hth2 & _ & Hf & _). assert (th2 = th') as -> by congruence.
  destruct (stopping_enabled id p th' s' Hp' Hst Hf) as [Hd|[s'' Hstep]].
  - eexists. right. split; [by eapply (ps_join s' k next true id th')|]. intros k' next' E. by apply after_destroy_main in E.
  - exists s''. left. by econstructor.
Qed.

(** ** A concrete run *)
Definition t0 : timespec := mk_timespec 100 999999999.
Definition health_pc (pc : thread_pc) : thread := mk_thread health_periodic 0 pc.
Definition sys_started : psys := plat_poll health_periodic (Some 60) true (psys_init t0).
Definition sys_waiting : psys := thread_to 0 (health_pc (TWaiting t0)) (thread_to 0 (health_pc TLoop) sys_started).
Definition sys_joining : psys := plat_poll health_periodic None true sys_waiting.
Definition sys_stopped : psys :=
  periodic_joined health_periodic None true 0 (thread_to 0 (health_pc TDone) sys_joining).

Lemma waiting_reachable : reachable sys_waiting.
Proof.
  eapply reach_step; [eapply reach_step; [eapply reach_step; [by apply (reach_init t0)|]|]|].
  - by apply (ps_poll (psys_init t0) health_periodic (Some 60) true).
  - apply (ps_thread _ 0 (mk_thread health_periodic 0 TStart)); [reflexivity|].
    exact (ts_start 0 (mk_thread health_periodic 0 TStart) sys_started (mk_periodic false 0 60000000) eq_refl eq_refl).
  - apply (ps_thread _ 0 (health_pc TLoop)); [reflexivity|].
    exact (ts_lock 0 (health_pc TLoop) (thread_to 0 (health_pc TLoop) sys_started) (mk_periodic false 0 60000000) eq_refl eq_refl).
Qed.
Lemma joining_reachable : reachable sys_joining.
Proof. eapply reach_step; [exact waiting_reachable|]. by apply ps_poll. Qed.
Lemma stopped_reachable : reachable sys_stopped.
Proof.
  eapply reach_step; [eapply reach_step; [exact joining_reachable|]|].
  - apply (ps_thread _ 0 (health_pc (TWaiting t0))); [reflexivity|].
    exact (ts_stop 0 (health_pc (TWaiting t0)) sys_joining t0 (mk_periodic true 0 60000000) eq_refl eq_refl eq_refl).
  - by apply (ps_join _ health_periodic None true 0 (health_pc TDone)).
Qed.

Lemma periodic_refines_witness : reachable sys_waiting ∧
  ∀ id th, threads sys_waiting !! id = Some th → th_pc th ≠ TDone → slots sys_waiting (th_slot th) = Some id ∧ th_pc th ≠ TFault.
Proof. split; [exact waiting_reachable|]. exact (proj2 (periodic_refines sys_waiting waiting_reachable)). Defined.
Lemma stopped_is_quiet_witness :
  let s' := sys_stopped <| now := mk_timespec 200 0 |> in
  slots s' health_periodic = None ∧ of_slot health_periodic (log s') = of_slot health_periodic (log sys_stopped) ∧
  ∀ id th, threads s' !! id = Some th → th_slot th = health_periodic → th_pc th = TDone.
Proof.
  apply (stopped_is_quiet health_periodic [ATick] sys_stopped _ stopped_reachable).
  - reflexivity.
  - eapply runs_cons; [by apply (ps_tick sys_stopped (mk_timespec 200 0))|constructor].
  - by constructor.
Defined.
Lemma stop_returns_witness :
  ∃ id, slots sys_joining health_periodic = Some id ∧
  (length (filter (λ act, act = AThread id) []) ≤ 4)%nat ∧
  ∃ s'', psys_step sys_joining (AThread id) s'' ∨
         (psys_step sys_joining (AJoin health_periodic) s'' ∧ ∀ k' next', main s'' ≠ MJoin k' next').
Proof.
  apply (stop_returns health_periodic None [] sys_joining); [exact joining_reachable|reflexivity|constructor|constructor].
Defined.
Example period_overflows : period_usec 2147 = Some 2147000000 ∧ period_usec 2148 = None.
Proof. by vm_compute. Qed.
