(* ===== verification/PlatReport.v ===== *)
(** * Collecting the state of the switch ([plat-gnma.c], [plat_state_get])

    The functions that fill a [plat_state_info] for the state and telemetry
    reports: ports, neighbours, authenticated clients, power over Ethernet,
    VLANs, MAC table, gateways and the system itself.  The documents the switch
    layer returns are parsed here once more.  Memory given back on an error
    path is not modelled, nor is the memory some of those paths forget. *)

From S2P Require Import Prelude CNum CStr Bitmap Router Json PlatTypes World ProtoConv State Gnma PlatState PlatPort PlatAaa PlatInit PlatApply.
From Stdlib Require Import Ascii Floats.SpecFloat.
#[local] Open Scope list_scope.

(** What else of libc is used: [inet_pton] for AF_INET6 and [strtod]. *)
Class ReportLibc := {
  inet_pton6 : string → Z;
  strtod : string → double
}.

(** What [time], [sysinfo] and [getloadavg] say. *)
Record system := mk_system {
  st_time : Z;
  st_uptime : Z;
  st_bufferram : Z;
  st_freeram : Z;
  st_freeswap : Z;
  st_totalram : Z;
  st_mem_unit : Z;
  st_loadavg : list double }.

Definition zero_lldp : plat_port_lldp_peer_info :=
  mk_plat_port_lldp_peer_info false false false false "" "" "" [""; ""] "".
#[export] Instance eta_lldp : Eta plat_port_lldp_peer_info := λ r,
  mk_plat_port_lldp_peer_info (lldp_is_bridge r) (lldp_is_router r) (lldp_is_wlan_ap r) (lldp_is_station r)
    (lldp_name r) (lldp_mac r) (lldp_description r) (lldp_mgmt_ips r) (lldp_port r).
Definition zero_poe_state : plat_poe_state := mk_plat_poe_state 0 0 0 "".
#[export] Instance eta_poe_state : Eta plat_poe_state := λ r,
  mk_plat_poe_state (poes_max_power_budget r) (poes_power_threshold r) (poes_power_consumed r) (poes_power_status r).
#[export] Instance eta_poe_port_state : Eta plat_poe_port_state := λ r,
  mk_plat_poe_port_state (poep_status r) (poep_fault_status r) (poep_output_voltage r) (poep_temperature r)
    (poep_output_power r) (poep_output_current r) (poep_class_requested r) (poep_class_assigned r)
    (poep_overload r) (poep_shorted r) (poep_power_denied r) (poep_absent r) (poep_invalid_signature r).

(** The tokens of [strtok(s, ",")]. *)
Fixpoint tokens_from (tok : string) (s : string) : list string :=
  match s with
  | EmptyString => match tok with EmptyString => [] | _ => [tok] end
  | String c r =>
      if Ascii.eqb c ","%char then match tok with EmptyString => tokens_from "" r | _ => tok :: tokens_from "" r end
      else tokens_from (tok +:+ String c "") r
  end.
Definition strtok_comma (s : string) : list string := tokens_from "" s.

(** The lines of a text. *)
Fixpoint lines_from (line : string) (s : string) : list string :=
  match s with
  | EmptyString => match line with EmptyString => [] | _ => [line] end
  | String c r => if Ascii.eqb c "010"%char then line :: lines_from "" r else lines_from (line +:+ String c "") r
  end.

Section report.
Context `{J : CJson, G : Gnma, L : CLibc, RL : ReportLibc, T : CTarget}.

(** ** Ports *)
Definition plat_port_speed_get (fp_p_id speed : Z) : M plat Z :=
  '(rc, speed_str) ← ask (gnma_port_speed_get (PID_TO_NAME fp_p_id) 8) "";
  _ ← fail_if (negb (rc =? 0));
  speed_str ← c_buf_str 8 speed_str;
  ret match scan_u speed_str with SConv v => wrap 32 v | _ => speed end.

Definition plat_port_duplex_get (fp_p_id : Z) : M plat bool :=
  '(rc, full) ← ask (gnma_port_duplex_get (PID_TO_NAME fp_p_id)) false;
  _ ← fail_if (negb (rc =? 0)); ret full.

(** [*is_up] may be left as it was: nothing yet. *)
Definition plat_port_oper_status_get (fp_p_id : Z) : M plat (option bool) :=
  '(rc, is_up) ← ask (gnma_port_oper_status_get (PID_TO_NAME fp_p_id)) None;
  _ ← fail_if (negb (rc =? 0)); ret is_up.

(** The nodes of the caller's list are filled in order, however many they are. *)
Definition plat_port_list_get (list_size : Z) (nodes : nat) : M plat (list string) :=
  _ ← pl_alloc_or_fail;
  '(rc, (_, arr)) ← ask (gnma_port_list_get list_size) (list_size, []);
  _ ← fail_if (list_failed rc);
  fold_m (λ names i,
      name ← of_option OutOfBounds (padded list_size arr !! i);
      name ← c_strcpy 32 name;
      ret (names ++ [name])) (seq 0 nodes) [].

(** [counters[ARR_FIND_VALUE_IDX(stat_types, len, t)]] *)
Definition counter_of {A} `{EqDecision A} (stat_types : list A) (counters : list Z) (t : A) : M plat Z :=
  of_option Uninitialised ('(i, _) ← list_find (λ u, u = t) stat_types; counters !! i).

Definition port_stat_types : list gnma_port_stat_type :=
  [GNMA_PORT_STAT_IN_OCTETS; GNMA_PORT_STAT_IN_DISCARDS; GNMA_PORT_STAT_IN_ERRORS;
   GNMA_PORT_STAT_IN_BCAST_PKTS; GNMA_PORT_STAT_IN_MCAST_PKTS; GNMA_PORT_STAT_IN_UCAST_PKTS;
   GNMA_PORT_STAT_OUT_OCTETS; GNMA_PORT_STAT_OUT_DISCARDS; GNMA_PORT_STAT_OUT_ERRORS;
   GNMA_PORT_STAT_OUT_BCAST_PKTS; GNMA_PORT_STAT_OUT_MCAST_PKTS; GNMA_PORT_STAT_OUT_UCAST_PKTS].

Definition plat_port_stats_get (fp_p_id : Z) : M plat plat_port_counters :=
  '(rc, counters) ← ask (gnma_port_stats_get (PID_TO_NAME fp_p_id) port_stat_types) [];
  _ ← fail_if (negb (rc =? 0));
  let get := counter_of port_stat_types counters in
  rx_bytes ← get GNMA_PORT_STAT_IN_OCTETS;
  rx_dropped ← get GNMA_PORT_STAT_IN_DISCARDS;
  rx_error ← get GNMA_PORT_STAT_IN_ERRORS;
  rx_u ← get GNMA_PORT_STAT_IN_UCAST_PKTS;
  rx_m ← get GNMA_PORT_STAT_IN_MCAST_PKTS;
  rx_b ← get GNMA_PORT_STAT_IN_BCAST_PKTS;
  tx_bytes ← get GNMA_PORT_STAT_OUT_OCTETS;
  tx_dropped ← get GNMA_PORT_STAT_OUT_DISCARDS;
  tx_error ← get GNMA_PORT_STAT_OUT_ERRORS;
  tx_u ← get GNMA_PORT_STAT_OUT_UCAST_PKTS;
  tx_m ← get GNMA_PORT_STAT_OUT_MCAST_PKTS;
  tx_b ← get GNMA_PORT_STAT_OUT_BCAST_PKTS;
  ret (mk_plat_port_counters 0 0 rx_bytes rx_dropped rx_error (wrap 64 (wrap 64 (rx_u + rx_m) + rx_b))
         tx_bytes tx_dropped tx_error (wrap 64 (wrap 64 (tx_u + tx_m) + tx_b))).

(** ** Neighbours *)

(** One capability; that of a station is stored in [is_wlan_ap]. *)
Definition lldp_capability (peer : plat_port_lldp_peer_info) (it : json) : M plat plat_port_lldp_peer_info :=
  let enabled := get_item (get_item (Some it) "state") "enabled" in
  match string_value (get_item (Some it) "name") with
  | None => fail
  | Some name =>
      if negb (is_bool enabled) then fail
      else
        let b := is_true enabled in
        ret (if streq name "openconfig-lldp-types:MAC_BRIDGE" then peer <| lldp_is_bridge := b |>
             else if streq name "openconfig-lldp-types:ROUTER" then peer <| lldp_is_router := b |>
             else if streq name "openconfig-lldp-types:WLAN_ACCESS_POINT" then peer <| lldp_is_wlan_ap := b |>
             else if streq name "openconfig-lldp-types:STATION_ONLY" then peer <| lldp_is_wlan_ap := b |>
             else peer)
  end.

(** An address is refused only if it is one of both families. *)
Definition INET6_ADDRSTRLEN : nat := 46.
Definition mgmt_ip (ips : list string) (p : string) : M plat (list string) :=
  let '(ret4, _) := inet_pton p in
  if negb (ret4 =? 0) && negb (inet_pton6 p =? 0) then fail
  else ret (ips ++ [c_strncpy INET6_ADDRSTRLEN p]).

Definition lldp_peer_info_buf_parse (buf : string) : M plat plat_port_lldp_peer_info :=
  lldp ← match cJSON_Parse buf with Some j => ret j | None => fail end;
  let state := get_item (Some lldp) "state" in
  let capability := get_item (get_item (Some lldp) "capabilities") "capability" in
  if negb (non_null state) || negb (is_array capability) then fail
  else
    peer ← fold_m lldp_capability (for_each_child capability) zero_lldp;
    match string_value (get_item state "system-description"), string_value (get_item state "management-address"),
          string_value (get_item state "system-name"), string_value (get_item state "chassis-id") with
    | Some description, Some mgmt_address, Some name, Some mac =>
        name ← c_strcpy 64 name;
        description ← c_strcpy 512 description;
        mac ← c_strcpy 18 mac;
        ips ← fold_m mgmt_ip (take 2 (strtok_comma mgmt_address)) [];
        match string_value (get_item (Some lldp) "id") with
        | None => fail
        | Some id =>
            port ← c_strcpy 32 id;
            ret (peer <| lldp_name := name |> <| lldp_description := description |> <| lldp_mac := mac |>
                      <| lldp_mgmt_ips := ips ++ replicate (2 - length ips) "" |> <| lldp_port := port |>)
        end
    | _, _, _, _ => fail
    end.

Definition plat_port_lldp_peer_info_get (fp_p_id : Z) : M plat plat_port_lldp_peer_info :=
  _ ← pl_alloc_or_fail;
  '(rc, buf) ← ask (gnma_port_lldp_peer_info_get (PID_TO_NAME fp_p_id) 4096) "";
  _ ← fail_if (negb (rc =? 0));
  lldp_peer_info_buf_parse buf.

(** Not implemented: always an error. *)
Definition plat_port_transceiver_info_get (port_id : Z) : M plat plat_port_transceiver_info := fail.

(** ** Clients of IEEE 802.1X *)
Definition auth_client (it : json) : M plat ieee8021x_client_info :=
  let cl_state := get_item (Some it) "state" in
  let vid := get_item cl_state "vlan-id" in
  match string_value (get_item cl_state "authenticated-method"), string_value (get_item cl_state "macaddress"),
        string_value (get_item cl_state "user-name"), string_value (get_item cl_state "vlan-type") with
  | Some auth_method, Some mac, Some username, Some vlan_type =>
      ret (mk_ieee8021x_client_info (c_strncpy 31 auth_method) (c_strncpy 17 mac)
             (d2u 64 (number_value (get_item cl_state "session-time"))) (c_strncpy 63 username)
             (c_strncpy 31 vlan_type) (d2u 16 (number_value vid)))
  | _, _, _, _ => fail
  end.

(** The clients are counted by the name in their state, and stored by their
    own: [arr_len] of them are reported, of an array of [arr_len * arr_len]. *)
Definition zero_client : ieee8021x_client_info := mk_ieee8021x_client_info "" "" 0 "" "" 0.
Definition client_name (it : json) : option string := string_value (get_item (get_item (Some it) "state") "name").
Definition ieee8021x_auth_clients_parse (port_id : Z) (buf : string) : M plat (list ieee8021x_client_info) :=
  let port := PID_TO_NAME port_id in
  root ← match cJSON_Parse buf with Some j => ret j | None => fail end;
  let clients := for_each_child (get_item (get_item (Some root)
                   "openconfig-authmgr:authmgr-authenticated-clients") "authenticated-client") in
  arr_len ← fold_m (λ n it, match client_name it with
                            | None => fail
                            | Some name => ret (if streq port name then n + 1 else n)%nat
                            end) clients 0%nat;
  _ ← fail_if (arr_len =? 0)%nat;
  _ ← pl_alloc_or_fail;
  client_arr ← fold_m (λ arr it,
      match string_value (get_item (Some it) "name") with
      | None => fail
      | Some name =>
          if negb (streq port name) then ret arr
          else if (arr_len * arr_len <=? length arr)%nat &&
                  non_null (string_value (get_item (get_item (Some it) "state") "authenticated-method"))
          then faulty BufferOverflow
          else info ← auth_client it; ret (arr ++ [info])
      end) clients [];
  ret (take arr_len (client_arr ++ replicate arr_len zero_client)).

(** The buffer is filled for the first port and kept for the others.  Without
    memory for it the test that should see that does not, and the switch layer
    writes through a null pointer if the request succeeds. *)
Definition PLAT_IEEE8021X_AUT_CLIENTS_BUF_SIZE : Z := 1024 * 10 * 100.
Definition plat_ieee8021x_system_auth_clients_get (port_id : Z) (buf : option string)
    : M plat (option string * option (list ieee8021x_client_info)) :=
  buf ← match buf with
        | Some text => ret (Some text)
        | None =>
            ok ← pl_alloc;
            '(rc, text) ← ask (gnma_ieee8021x_system_auth_clients_get PLAT_IEEE8021X_AUT_CLIENTS_BUF_SIZE) "";
            if negb (rc =? 0) then ret None
            else if negb ok then faulty NullDeref
            else ret (Some text)
        end;
  match buf with
  | None => ret (None, None)
  | Some text => clients ← try (ieee8021x_auth_clients_parse port_id text); ret (Some text, clients)
  end.

(** ** All ports *)

(** Port [i] of an array with room for [room] names of which [plist] were
    stored; [buf] is the text of the authenticated clients. *)
Definition port_info (room : Z) (plist : list string) (st : list plat_port_info * option string) (i : nat)
    : M plat (list plat_port_info * option string) :=
  let '(pinfo, buf) := st in
  name ← of_option (if Z.of_nat i <? room then Uninitialised else OutOfBounds) (plist !! i);
  pid ← of_option Uninitialised (NAME_TO_PID name);
  speed ← plat_port_speed_get pid 0;
  duplex ← plat_port_duplex_get pid;
  is_up ← plat_port_oper_status_get pid;
  carrier_up ← of_option Uninitialised is_up;
  stats ← plat_port_stats_get pid;
  lldp ← try (plat_port_lldp_peer_info_get pid);
  transceiver ← try (plat_port_transceiver_info_get pid);
  '(buf, clients) ← plat_ieee8021x_system_auth_clients_get pid buf;
  ret (pinfo ++ [mk_plat_port_info stats lldp (default [] clients) transceiver 0 speed carrier_up duplex
                   (c_snprintf_s 32 name)], buf).

Definition plat_port_info_get : M plat (list plat_port_info) :=
  pcount ← plat_gnma_port_num_get;
  _ ← pl_alloc_or_fail;
  '(rc, (count, plist)) ← ask (gnma_port_list_get pcount) (pcount, []);
  _ ← fail_if (list_failed rc);
  _ ← pl_alloc_or_fail;
  '(pinfo, _) ← fold_m (port_info pcount plist) (seq 0 (Z.to_nat (wrap 16 count))) ([], None);
  ret pinfo.

(** ** Power over Ethernet

    What was stored before a value is missing stays; the result of these
    functions is not looked at. *)
Definition poe_port_state_buf_parse (old : plat_poe_port_state) (buf : string) : M plat plat_poe_port_state :=
  match cJSON_Parse buf with
  | None => ret old
  | Some state =>
  let get := get_item (Some state) in
  let counters := get "openconfig-if-poe-ext:counters" in
  if negb (is_object counters) then ret old
  else
    let count key := d2u 64 (number_value (get_item counters key)) in
    let class key := if is_number (get key) then d2u 8 (number_value (get key)) else 0 in
    let s := old <| poep_absent := count "absent-counter" |> <| poep_shorted := count "short-counter" |>
                 <| poep_overload := count "overload-counter" |> <| poep_power_denied := count "power-denied-counter" |>
                 <| poep_invalid_signature := count "invalid-signature-counter" |>
                 <| poep_class_requested := class "openconfig-if-poe-ext:power-class-requested" |>
                 <| poep_class_assigned := class "power-class" |> in
    let current := get "openconfig-if-poe-ext:output-current" in
    match string_value (get "power-used"), string_value (get "openconfig-if-poe-ext:output-voltage") with
    | Some power, Some voltage =>
        if negb (is_number current) then ret s
        else match scan_u power with
        | SConv v =>
            let s := s <| poep_output_power := wrap 32 v |>
                       <| poep_output_current := d2u 32 (number_value current) |> in
            voltage ← c_strcpy 32 voltage;
            let s := s <| poep_output_voltage := voltage |> in
            match string_value (get_item (get "openconfig-if-poe-ext:diagnostics") "temperature") with
            | None => ret s
            | Some temperature =>
                temperature ← c_strcpy 32 temperature;
                let s := s <| poep_temperature := temperature |> in
                match string_value (get "openconfig-if-poe-ext:status"),
                      string_value (get "openconfig-if-poe-ext:fault-code") with
                | Some status, Some fault_status =>
                    status ← c_strcpy 32 status;
                    fault_status ← c_strcpy 32 fault_status;
                    ret (s <| poep_status := status |> <| poep_fault_status := fault_status |>)
                | _, _ => ret s
                end
            end
        | _ => ret s
        end
    | _, _ => ret s
    end
  end.

Definition plat_poe_port_state_get (pid : Z) (old : plat_poe_port_state) : M plat plat_poe_port_state :=
  ok ← pl_alloc;
  if negb ok then ret old
  else
    '(rc, buf) ← ask (gnma_poe_port_state_get (PID_TO_NAME pid) 4096) "";
    if negb (rc =? 0) then ret old else poe_port_state_buf_parse old buf.

Definition poe_state_buf_parse (old : plat_poe_state) (buf : string) : M plat plat_poe_state :=
  match cJSON_Parse buf with
  | None => ret old
  | Some state =>
  let get := get_item (Some state) in
  let s := old <| poes_max_power_budget := d2u 64 (number_value (get "max-power-budget")) |> in
  match string_value (get "power-threshold") with
  | None => ret s
  | Some threshold =>
      let s := s <| poes_power_threshold := d2u 64 (strtod threshold) |> in
      match string_value (get "power-consumption") with
      | None => ret s
      | Some consumed =>
          let s := s <| poes_power_consumed := d2u 64 (strtod consumed) |> in
          match string_value (get "pse-oper-status") with
          | None => ret s
          | Some status => status ← c_strcpy 32 status; ret (s <| poes_power_status := status |>)
          end
      end
  end
  end.

Definition plat_poe_state_get (old : plat_poe_state) : M plat plat_poe_state :=
  ok ← pl_alloc;
  if negb ok then ret old
  else
    '(rc, buf) ← ask (gnma_poe_state_get 4096) "";
    if negb (rc =? 0) then ret old else poe_state_buf_parse old buf.

(** ** VLANs *)

(** The second question may find a document of another length than the first:
    see [GnmaState.Report.gnma_igmp_iface_groups_get]. *)
Definition VLAN_TO_NAME (vid : Z) : string := "Vlan" +:+ dec (wrap 16 vid).

Definition igmp_group_of (group : json) : M plat igmp_group :=
  let state := get_item (Some group) "state" in
  let e_ifaces := get_item state "outgoing-interface" in
  match string_value (get_item state "group") with
  | Some gaddr =>
      if negb (is_object state) || negb (is_array e_ifaces) then fail
      else
        let '(rc, addr) := inet_pton gaddr in
        if negb (rc =? 1) then fail
        else
          ports ← fold_m (λ ports e_iface,
              match string_value (Some e_iface) with
              | None => fail
              | Some name => _ ← pl_alloc_or_fail; ret (c_strncpy 32 name :: ports)
              end) (for_each_child e_ifaces) [];
          ret (mk_igmp_group addr ports)
  | None => fail
  end.

Definition plat_vlan_igmp_info_get (vid : Z) : M plat plat_igmp :=
  let iface := VLAN_TO_NAME vid in
  '(rc, (buf_size, _)) ← ask (gnma_igmp_iface_groups_get iface 0) (0, "");
  if (rc =? 0) && (buf_size =? 0) then ret zero_plat_igmp
  else if negb (rc =? GNMA_ERR_OVERFLOW) then fail
  else
    _ ← pl_alloc_or_fail;
    '(rc, (_, buf)) ← ask (gnma_igmp_iface_groups_get iface buf_size) (buf_size, "");
    _ ← fail_if (negb (rc =? 0));
    groups ← match cJSON_Parse buf with Some j => ret j | None => fail end;
    _ ← pl_alloc_or_fail;
    list ← fold_m (λ l group, g ← igmp_group_of group; ret (l ++ [g])) (for_each_child (Some groups)) [];
    ret (zero_plat_igmp <| igmp_groups := list |> <| igmp_num_groups := array_size (Some groups) |>
                        <| igmp_exist := true |>).

(** The last of the addresses of a VLAN. *)
Definition vlan_address (addrs : list gnma_vlan_ip) (vid : Z) : plat_ipv4 :=
  fold_left (λ ip a, if vip_vid a =? vid
                     then ip <| ip4_subnet := vip_address a |> <| ip4_subnet_len := vip_prefixlen a |>
                             <| ip4_exist := true |>
                     else ip) addrs zero_plat_ipv4.

(** [list_size] elements of a zeroed array with room for [room]. *)
Definition elements {A} (room : Z) (zero : A) (arr : list A) (list_size : Z) : M plat (list A) :=
  if room <? list_size then faulty OutOfBounds
  else ret (take (Z.to_nat list_size) (arr ++ replicate (Z.to_nat room) zero)).

Definition plat_vlan_info_get : M plat (list plat_port_vlan) :=
  '(rc, vlans) ← ask gnma_vlan_list_get ∅;
  _ ← fail_if (negb (rc =? 0));
  let vids := bits GNMA_MAX_VLANS vlans in
  match vids with
  | [] => ret []
  | _ =>
      _ ← pl_alloc_or_fail;
      '(rc, (list_size, _)) ← ask (gnma_ip_iface_addr_get 0 false) (0, []);
      _ ← fail_if (list_failed rc);
      addrs ← (if list_size =? 0 then ret []
               else
                 _ ← pl_alloc_or_fail;
                 '(rc, (list_size', arr)) ← ask (gnma_ip_iface_addr_get list_size true) (list_size, []);
                 _ ← fail_if (negb (rc =? 0));
                 elements list_size (mk_gnma_vlan_ip 0 0 0) arr list_size');
      fold_m (λ vinfo vid,
          igmp ← plat_vlan_igmp_info_get vid;
          ret (vinfo ++ [zero_plat_port_vlan <| vlan_id := vid |> <| vlan_igmp := igmp |>
                                             <| vlan_ipv4 := vlan_address addrs vid |>])) vids []
  end.

(** ** The MAC table: the dynamic entries *)
Definition zero_fdb_entry : gnma_fdb_entry := mk_gnma_fdb_entry "" GNMA_FDB_ENTRY_TYPE_STATIC 0 "".
Definition learned_mac (e : gnma_fdb_entry) : option plat_learned_mac_addr :=
  match fdb_type e with
  | GNMA_FDB_ENTRY_TYPE_DYNAMIC =>
      Some (mk_plat_learned_mac_addr (c_strncpy 32 (fdb_port e)) (fdb_vid e) (c_strncpy 18 (fdb_mac e)))
  | GNMA_FDB_ENTRY_TYPE_STATIC => None
  end.
Definition plat_learned_mac_addrs_get : M plat (list plat_learned_mac_addr) :=
  '(rc, (list_size, _)) ← ask (gnma_mac_address_list_get 0 false) (0, []);
  _ ← fail_if (list_failed rc);
  if list_size =? 0 then ret []
  else
    _ ← pl_alloc_or_fail;
    '(rc, (list_size', arr)) ← ask (gnma_mac_address_list_get list_size true) (list_size, []);
    _ ← fail_if (negb (rc =? 0));
    _ ← pl_alloc_or_fail;
    entries ← elements list_size zero_fdb_entry arr list_size';
    ret (omap learned_mac entries).

(** ** Change of authorisation counters *)
Definition dac_stat_types : list gnma_das_dac_stat_type :=
  [DAC_STAT_IN_COA_PKTS; DAC_STAT_OUT_COA_ACK_PKTS; DAC_STAT_OUT_COA_NAK_PKTS; DAC_STAT_IN_COA_IGNORED_PKTS;
   DAC_STAT_IN_COA_WRONG_ATTR_PKTS; DAC_STAT_IN_COA_WRONG_ATTR_VALUE_PKTS;
   DAC_STAT_IN_COA_WRONG_SESSION_CONTEXT_PKTS; DAC_STAT_IN_COA_ADMINISTRATIVELY_PROHIBITED_REQ_PKTS].
Definition plat_state_ieee8021x_coa_global_counters_get : M plat coa_counters :=
  '(rc, counters) ← ask (gnma_iee8021x_das_dac_global_stats_get dac_stat_types) [];
  _ ← fail_if (negb (rc =? 0));
  let get := counter_of dac_stat_types counters in
  received ← get DAC_STAT_IN_COA_PKTS;
  ack ← get DAC_STAT_OUT_COA_ACK_PKTS;
  nak ← get DAC_STAT_OUT_COA_NAK_PKTS;
  ignored ← get DAC_STAT_IN_COA_IGNORED_PKTS;
  attr ← get DAC_STAT_IN_COA_WRONG_ATTR_PKTS;
  value ← get DAC_STAT_IN_COA_WRONG_ATTR_VALUE_PKTS;
  session ← get DAC_STAT_IN_COA_WRONG_SESSION_CONTEXT_PKTS;
  prohibited ← get DAC_STAT_IN_COA_ADMINISTRATIVELY_PROHIBITED_REQ_PKTS;
  ret (mk_coa_counters received ack nak ignored attr value session prohibited).

(** ** Gateways: the next hops of the default routes *)
Definition NAME_TO_VLAN (name : string) : option Z :=
  match sscanf_lit_u 16 "Vlan" name with SConv v => Some v | _ => None end.
Definition is_default (r : gnma_ip_prefix * gnma_nexthop) : bool :=
  (gp_addr r.1 =? 0) && (gp_len r.1 =? 0).
Definition zero_next_hop : gnma_ip_prefix * gnma_nexthop := (zero_ip_prefix, mk_gnma_nexthop 0 0 "").

(** The port behind a VLAN: where its MAC address was learned. *)
Definition egress_port (learned : list plat_learned_mac_addr) (name mac : string) : string :=
  match NAME_TO_VLAN name with
  | None => name
  | Some vid =>
      match list_find (λ m, (wrap 16 (lm_vid m) =? vid) && streq (lm_mac m) mac = true) learned with
      | Some (_, m) => lm_port m
      | None => name
      end
  end.
Definition gw_address (learned : list plat_learned_mac_addr) (r : gnma_ip_prefix * gnma_nexthop)
    : M plat plat_gw_address :=
  name ← c_buf_str 32 (nh_egress_port r.2);
  '(rc, mac) ← ask (gnma_nei_addr_get name (nh_gw r.2) 18) "";
  _ ← fail_if (negb (rc =? 0));
  ret (mk_plat_gw_address (nh_gw r.2) (nh_metric r.2) (c_strncpy 32 (egress_port learned name mac)) (c_strncpy 18 mac)).

Definition plat_state_gw_ip_get (learned : list plat_learned_mac_addr) : M plat (list plat_gw_address) :=
  '(rc, (list_size, _)) ← ask (gnma_dyn_route_list_get 0 false) (0, []);
  _ ← fail_if (list_failed rc);
  if list_size =? 0 then ret []
  else
    ok1 ← pl_alloc;
    ok2 ← pl_alloc;
    _ ← fail_if (negb ok1 || negb ok2);
    '(rc, (list_size', arr)) ← ask (gnma_dyn_route_list_get list_size true) (list_size, []);
    _ ← fail_if (negb (rc =? 0));
    routes ← elements list_size zero_next_hop arr list_size';
    _ ← pl_alloc_or_fail;
    fold_m (λ l r, a ← gw_address learned r; ret (l ++ [a])) (List.filter is_default routes) [].

(** ** The system *)

(** The first line that starts with Cached: and a number; [*cached] keeps its
    0 otherwise. *)
Definition get_meminfo_cached_kib : M plat Z :=
  content ← try (open_r "/proc/meminfo");
  ret match content with
      | None => 0
      | Some text =>
          default 0 (head (omap (λ line, match sscanf_lit_u 64 "Cached:" line with SConv v => Some v | _ => None end)
                             (lines_from "" text)))
      end.

Definition hundredth (d : double) : double := SFdiv 53 1024 d (dbl_of_Z 100).
Definition plat_system_info_get (sys : system) : M plat plat_system_info :=
  cached ← get_meminfo_cached_kib;
  ret (mk_plat_system_info (wrap 64 (st_time sys)) (wrap 64 (st_uptime sys))
         (wrap 64 (st_bufferram sys * st_mem_unit sys)) (wrap 64 (cached * 1024))
         (wrap 64 (wrap 64 (st_freeram sys + st_freeswap sys) * st_mem_unit sys))
         (wrap 64 (st_totalram sys * st_mem_unit sys)) (hundredth <$> st_loadavg sys)).

(** ** The whole state *)

(** One port with power over Ethernet. *)
Definition poe_port_report (st : gmap Z plat_poe_port_state * bitmap) (i : Z)
    : M plat (gmap Z plat_poe_port_state * bitmap) :=
  let '(states, bm) := st in
  s ← plat_poe_port_state_get i (arr_get zero_plat_poe_port_state states i);
  bm ← bit_set bm i;
  ret (<[i := s]> states, bm).

Definition plat_state_get (sys : system) : M plat plat_state_info :=
  poe_state ← plat_poe_state_get zero_poe_state;
  s ← cache;
  '(poe_ports, poe_bmap) ← fold_m poe_port_report (BITMAP_FOR_EACH_BIT_SET (ps_poe_bmap s) MAX_NUM_OF_PORTS)
                             (∅, BITMAP_CLEAR MAX_NUM_OF_PORTS);
  system_info ← plat_system_info_get sys;
  port_info ← plat_port_info_get;
  vlan_info ← plat_vlan_info_get;
  learned ← plat_learned_mac_addrs_get;
  coa ← plat_state_ieee8021x_coa_global_counters_get;
  gw ← plat_state_gw_ip_get learned;
  ret (mk_plat_state_info poe_state poe_ports poe_bmap port_info vlan_info learned gw system_info coa).

(** The callbacks of the two periodic reports: what they hand to the protocol
    layer, or nothing when the state could not be collected. *)
Definition state_periodic_cb (sys : system) : M plat (option plat_state_info) := try (plat_state_get sys).
Definition telemetry_periodic_cb (sys : system) : M plat (option plat_state_info) := try (plat_state_get sys).
End report.
