(* ===== verification/PlatSample.v ===== *)
(** * A concrete switch for evaluated examples

    It answers the settings from a script, 0 when the script is over, and the
    questions from fixed values: three ports, two VLANs, no hosts and no
    routes.  Only witnesses use it. *)

From S2P Require Import Prelude CNum CStr Bitmap Router PlatTypes Gnma PlatState.

Definition sample_ports : list string := ["Ethernet0"; "Ethernet1"; "Ethernet2"].

Definition sample_answer {A} (q : gnma_query A) : Z * A :=
  match q in gnma_query A return Z * A with
  | gnma_vlan_list_get => (0, {[1; 7]})
  | gnma_vlan_member_bmap_get => (0, {[7 := mk_vlan_bmap {[0; 1]} {[1]}]})
  | gnma_port_list_get size =>
      ((if size <? 3 then GNMA_ERR_OVERFLOW else 0), (3, take (Z.to_nat size) sample_ports))
  | gnma_poe_port_list_get size =>
      ((if size <? 1 then GNMA_ERR_OVERFLOW else 0), (1, take (Z.to_nat size) sample_ports))
  | gnma_radius_hosts_list_get _ => (0, (0, []))
  | gnma_ieee8021x_das_dac_hosts_list_get _ => (0, (0, []))
  | gnma_route_list_get _ => (0, (0, []))
  | gnma_vlan_erif_attr_pref_list_get _ _ => (0, (0, mk_gnma_ip_prefix false 0 0))
  | gnma_portl2_erif_attr_pref_list_get _ _ => (0, (0, mk_gnma_ip_prefix false 0 0))
  | gnma_vlan_dhcp_relay_server_list_get _ _ => (-1, (0, 0))
  | gnma_vlan_dhcp_relay_ciruit_id_get _ => (0, CIRCUIT_ID_H_P)
  | gnma_vlan_dhcp_relay_policy_action_get _ => (0, POLICY_ACTION_DISCARD)
  | gnma_vlan_dhcp_relay_max_hop_cnt_get _ => (0, 4)
  | gnma_stp_mode_get => (0, (GNMA_STP_MODE_NONE, zero_stp_attr))
  | gnma_stp_vid_bulk_get => (0, ∅)
  | gnma_port_ieee8021x_pae_mode_get _ => (0, false)
  | gnma_port_ieee8021x_port_ctrl_get _ => (0, CTRL_FORCE_AUTHORIZED)
  | gnma_port_ieee8021x_port_host_mode_get _ => (0, HOST_MULTI_HOST)
  | gnma_port_ieee8021x_guest_vlan_get _ => (0, 0)
  | gnma_port_ieee8021x_unauthorized_vlan_get _ => (0, 0)
  | gnma_ieee8021x_system_auth_control_get => (0, false)
  | gnma_ieee8021x_das_bounce_port_ignore_get => (0, false)
  | gnma_ieee8021x_das_disable_port_ignore_get => (0, false)
  | gnma_ieee8021x_das_ignore_server_key_get => (0, false)
  | gnma_ieee8021x_das_ignore_session_key_get => (0, false)
  | gnma_ieee8021x_das_auth_type_key_get => (0, DAS_ANY)
  | gnma_poe_port_admin_mode_get _ => (0, true)
  | gnma_poe_port_detection_mode_get _ => (0, DETECTION_DOT3BT)
  | gnma_poe_port_power_limit_get _ => (0, (false, 0))
  | gnma_poe_port_priority_get _ => (0, PRIORITY_LOW)
  | gnma_poe_power_mgmt_get => (0, POWER_MGMT_CLASS)
  | gnma_poe_usage_threshold_get => (0, 80)
  | gnma_port_oper_status_get n => (0, Some (bool_decide (n = "Ethernet1")))
  | gnma_port_speed_get _ _ => (0, "1000")
  | gnma_port_duplex_get _ => (0, true)
  | gnma_port_stats_get _ ids => (0, (λ _, 5) <$> ids)
  | gnma_iee8021x_das_dac_global_stats_get ids => (0, (λ _, 0) <$> ids)
  | gnma_igmp_iface_groups_get _ _ => (0, (0, ""))
  | gnma_dyn_route_list_get _ _ => (0, (0, []))
  | gnma_mac_address_list_get size have =>
      if size <? 2 then (GNMA_ERR_OVERFLOW, (2, []))
      else (0, (2, [mk_gnma_fdb_entry "Ethernet1" GNMA_FDB_ENTRY_TYPE_DYNAMIC 7 "00:11:22:33:44:55";
                    mk_gnma_fdb_entry "Ethernet2" GNMA_FDB_ENTRY_TYPE_STATIC 7 "00:11:22:33:44:66"]))
  | gnma_ip_iface_addr_get size have =>
      if negb have then (GNMA_ERR_OVERFLOW, (1, [])) else (0, (1, [mk_gnma_vlan_ip 7 24 16777226]))
  | gnma_nei_addr_get _ _ _ => (0, "00:11:22:33:44:55")
  | gnma_image_running_name_get _ => (0, "SONiC")
  | gnma_metadata_get => (0, mk_gnma_metadata "x86_64" "AS4630" "00:aa:bb:cc:dd:ee")
  (* no documents *)
  | gnma_port_lldp_peer_info_get _ _ | gnma_poe_state_get _ | gnma_poe_port_state_get _ _
  | gnma_ieee8021x_system_auth_clients_get _ | gnma_rebootcause_get _ | gnma_image_install_status _ =>
      (-1, "")
  end.

Definition sample_gnma : Gnma := {|
  gst := list Z;
  gnma_do _ s := match s with [] => inl (0, []) | rc :: s => inl (rc, s) end;
  gnma_get _ q _ s := inl (sample_answer q, s)
|}.

#[export] Instance sample_safe : @GnmaSafe sample_gnma.
Proof. intros c [|rc g] _; eauto. Qed.

(** The process before [plat_init], with the given answers to come. *)
Definition sample_plat (answers : list Z) : @plat sample_gnma :=
  mk_plat sample_gnma answers [] zero_plat_state (mk_features FEATSTS_NONE FEATSTS_NONE FEATSTS_NONE)
    log_ring_init [] ∅ [].

(** The settings a run made, when it succeeded. *)
Definition calls_made `{G : Gnma} {A} (m : M plat A) (p : plat) : option (list (gnma_call * Z)) :=
  match m p with Ok _ p' => Some (pl_calls p') | _ => None end.

Lemma wp_calls `{G : Gnma} {A} (m : M plat A) Q E F p l :
  wp m Q E F p → calls_made m p = Some l → ∃ a p', pl_calls p' = l ∧ Q a p'.
Proof. unfold wp, calls_made. destruct (m p) as [a p'| |]; [|done|done]. intros H [= <-]. eauto. Qed.
