(* ===== verification/PlatSystem.v ===== *)
(** * The switch as a machine ([plat-gnma.c])

    Who it is, why it restarted, remote terminals, firmware upgrades, and what
    becomes of the memory of a configuration.  The processes, the download and the pipe are the environment: the next results
    of [fork], what libcurl wrote, how much each [write] took. *)

From S2P Require Import Prelude CNum CStr Bitmap Router Json PlatTypes World ProtoConv Handlers State StateSpec Gnma PlatState PlatPort PlatAaa PlatInit PlatApply PlatScript PlatReport PlatSample.
From Stdlib Require Import Ascii Floats.SpecFloat.
#[local] Open Scope list_scope.

(** ** Texts of the platform *)
Definition PLATFORM_INFO_STR_MAX_LEN : Z := 96.
Fixpoint strstr (s sub : string) : bool :=
  String.prefix sub s || match s with EmptyString => false | String _ r => strstr r sub end.

Definition present {S A} (o : option A) : M S A := match o with Some a => ret a | None => fail end.

(** The causes of a reboot, in the order of the enum. *)
Definition PLAT_REBOOT_CAUSE_REBOOT_CMD : Z := 0.
Definition PLAT_REBOOT_CAUSE_POWERLOSS : Z := 1.
Definition PLAT_REBOOT_CAUSE_CRASH : Z := 2.
Definition PLAT_REBOOT_CAUSE_UNAVAILABLE : Z := 3.

Section info.
Context `{J : CJson, G : Gnma, T : CTarget}.
Abbreviation plat := (@plat G).

Definition plat_info_get : M plat plat_platform_info :=
  '(rc, md) ← ask gnma_metadata_get (mk_gnma_metadata "" "" "");
  _ ← fail_if (negb (rc =? 0));
  platform ← c_buf_str 96 (md_platform md);
  hwsku ← c_buf_str 96 (md_hwsku md);
  mac ← c_buf_str 96 (md_mac md);
  let copy s := c_snprintf_s (Z.to_nat PLATFORM_INFO_STR_MAX_LEN) s in
  ret (mk_plat_platform_info (copy platform) (copy hwsku) (copy mac)).

Definition plat_running_img_name_get (str_max_len : Z) (old : string) : M plat (Z * string) :=
  ask (gnma_image_running_name_get str_max_len) old.
(** PLATFORM_REVISION is fixed when the program is built. *)
Definition plat_revision_get (revision : string) (str_max_len : nat) : Z * string :=
  (0, c_snprintf_s str_max_len revision).

(** The time stamp is the start of the system: the time less the uptime. *)
Definition reboot_cause_buf_parse (sys : system) (buf : string) : M plat (Z * Z * string) :=
  json ← present (cJSON_Parse buf);
  cause_str ← present (string_value (get_item (Some json) "openconfig-system-ext:reboot-cause"));
  let ts := wrap 64 (wrap 64 (st_time sys) - wrap 64 (st_uptime sys)) in
  ret (if strstr cause_str "not yet available" then
         (PLAT_REBOOT_CAUSE_UNAVAILABLE, ts,
          c_strncpy 127 "uCentral SW failed to fetch reboot cause string (not available)")
       else if strstr cause_str "Unknown" then
         (PLAT_REBOOT_CAUSE_POWERLOSS, ts, c_strncpy 127 "Powerloss detected.")
       else if strstr cause_str "reboot" then
         (PLAT_REBOOT_CAUSE_REBOOT_CMD, ts, c_strncpy 127 "Reboot command's been executed.")
       else
         (PLAT_REBOOT_CAUSE_CRASH, ts,
          c_strncpy 127 "Device's (kernel) crashed (kernelpanic caused device to reboot).")).
Definition plat_reboot_cause_get (sys : system) : M plat (Z * Z * string) :=
  _ ← pl_alloc_or_fail;
  '(rc, buf) ← ask (gnma_rebootcause_get 4096) "";
  _ ← fail_if (negb (rc =? 0));
  reboot_cause_buf_parse sys buf.
End info.

(** ** Remote terminals *)
Definition RTTY_SESS_MAX : nat := 10.

(** The children the process has: running, or ended and not waited for. *)
Record rtty := mk_rtty {
  rt_child : list Z;
  rt_procs : gmap Z bool;
  rt_fork : list (option Z);
  rt_killed : list Z;
  rt_started : list (Z * list string) }.
#[export] Instance eta_rtty : Eta rtty := λ r,
  mk_rtty (rt_child r) (rt_procs r) (rt_fork r) (rt_killed r) (rt_started r).

(** [waitpid(pid, 0, WNOHANG)], and the loop over EINTR with it: the pid of a
    child that ended, 0 for one that runs, -1 for no child. *)
Definition waitpid_nohang (pid : Z) (procs : gmap Z bool) : Z * gmap Z bool :=
  match procs !! pid with
  | Some false => (pid, delete pid procs)
  | Some true => (0, procs)
  | None => (-1, procs)
  end.

(** The first loop: an entry whose child ended is moved out of the array, with
    the next one in its place. *)
Fixpoint reap (fuel i : nat) (child : list Z) (procs : gmap Z bool) : list Z * gmap Z bool :=
  match fuel with
  | O => (child, procs)
  | S fuel =>
      if (RTTY_SESS_MAX <=? i)%nat then (child, procs)
      else
        let pid := default 0 (child !! i) in
        let '(n, procs) := if 0 <? pid then waitpid_nohang pid procs else (0, procs) in
        if n <=? 0 then reap fuel (S i) child procs
        else reap fuel i (take i child ++ drop (S i) child ++ [-1]) procs
  end.

(** The place for a new session: the first that is free. *)
Fixpoint free_place (child : list Z) : nat :=
  match child with
  | pid :: child => if 0 <? pid then S (free_place child) else O
  | [] => O
  end.

(** The child's arguments, from the fields of 64 bytes. *)
Definition rtty_args {S} (cfg : plat_rtty_cfg) : M S (list string) :=
  id ← c_buf_str 64 (rtty_id cfg);
  server ← c_buf_str 64 (rtty_server cfg);
  token ← c_buf_str 64 (rtty_token cfg);
  a0 ← c_strcpy 128 ("--id=" +:+ id);
  a1 ← c_strcpy 128 ("--host=" +:+ server);
  a3 ← c_strcpy 128 ("--token=" +:+ token);
  ret [a0; a1; "--port=" +:+ dec (wrap 16 (rtty_port cfg)); a3; "-d Edgecore Switch device"; "-v"; "-s"].

Definition plat_rtty (cfg : plat_rtty_cfg) : M rtty unit := λ r,
  let '(child, procs) := reap (2 * RTTY_SESS_MAX) 0 (rt_child r) (rt_procs r) in
  let i := free_place child in
  (* the oldest is killed, waited for and moved out when there is no place *)
  let '(i, child, procs, killed) :=
    if (i =? RTTY_SESS_MAX)%nat then
      let oldest := default 0 (head child) in
      ((RTTY_SESS_MAX - 1)%nat, tail child ++ [default 0 (last child)], delete oldest procs,
       match procs !! oldest with Some _ => [oldest] | None => [] end)
    else (i, child, procs, []) in
  let '(forked, rest) := match rt_fork r with [] => (None, []) | f :: rest => (f, rest) end in
  let r' := mk_rtty (<[i := default (-1) forked]> child)
              (match forked with Some pid => <[pid := true]> procs | None => procs end) rest
              (rt_killed r ++ killed) (rt_started r) in
  match forked with
  | None => Err r'
  | Some pid =>
      (* the arguments are built in the child, in a memory of its own *)
      match rtty_args cfg r' with
      | Ok args _ => Ok tt (r' <| rt_started := rt_started r' ++ [(pid, args)] |>)
      | Err _ | Fault _ => Ok tt r'
      end
  end.

(** ** Firmware *)
Definition IMG_DL_FILE_PATH : string := "/var/lib/ucentral/img".
Definition IMG_DL_PIPE_PATH : string := "/var/lib/ucentral/upgrade_pipe".
(** The signature of an archive of packages. *)
Definition IMG_DL_DEB_FILE_SIGNATURE : string := "!<arch>".

Record img_dl_task := mk_img_dl_task {
  dl_active : bool;
  dl_downloaded_full_img : bool;
  dl_percentage : Z;
  dl_upgrade_state : Z }.
#[export] Instance eta_img_dl_task : Eta img_dl_task := λ r,
  mk_img_dl_task (dl_active r) (dl_downloaded_full_img r) (dl_percentage r) (dl_upgrade_state r).

(** What [curl_easy_perform] returns and leaves in the file. *)
Record download := mk_download { dn_ok : bool; dn_content : string }.

(** [im_spawn]: whether the next threads start; [im_writes]: how many bytes the
    next [write]s take, negative for an error, all of them past the end of the
    list; [im_pipe]: what the upgrade script was sent. *)
Record img `{Gnma} := mk_img {
  im_plat : plat;
  im_task : img_dl_task;
  im_spawn : list bool;
  im_writes : list Z;
  im_pipe : string }.
#[export] Instance eta_img `{Gnma} : Eta img := λ r,
  mk_img _ (im_plat r) (im_task r) (im_spawn r) (im_writes r) (im_pipe r).

Section image.
Context `{J : CJson, G : Gnma, T : CTarget}.

Definition on_plat {A} (m : M plat A) : M img A := λ s,
  match m (im_plat s) with
  | Ok a p => Ok a (s <| im_plat := p |>)
  | Err p => Err (s <| im_plat := p |>)
  | Fault f => Fault f
  end.
Definition upd_task (f : img_dl_task → img_dl_task) : M img unit := modify (λ s, s <| im_task := f (im_task s) |>).
Definition im_spawn_next : M img bool := λ s,
  match im_spawn s with [] => Ok true s | b :: l => Ok b (s <| im_spawn := l |>) end.

(** The task is cleared, and active, before anything can fail. *)
Definition plat_img_dl_start (uri : string) (signature : option string) : M img unit :=
  _ ← upd_task (λ _, mk_img_dl_task true false 0 UPGRADE_STATE_DOWNLOAD);
  _ ← on_plat (open_w IMG_DL_FILE_PATH);
  _ ← on_plat pl_alloc_or_fail;
  ok ← im_spawn_next;
  fail_if (negb ok).
Definition plat_upgrade (uri : string) (signature : option string) : M img unit := plat_img_dl_start uri signature.

(** A [double] converted to [uint8_t]; libcurl starts with a total of 0. *)
Definition img_dl_progress_cb (dltotal dlnow : double) : M img unit :=
  upd_task (λ t, t <| dl_percentage := d2u 8 (SFmul 53 1024 (SFdiv 53 1024 dlnow dltotal) (dbl_of_Z 100)) |>).

(** An empty file has no page that could be read. *)
Definition img_dl_get_type : M img unit :=
  content ← on_plat (open_r IMG_DL_FILE_PATH);
  mapped ← on_plat pl_io_next;
  _ ← fail_if (negb mapped);
  if streq content "" then faulty OutOfBounds
  else upd_task (λ t, t <| dl_downloaded_full_img := negb (String.prefix IMG_DL_DEB_FILE_SIGNATURE content) |>).

Fixpoint write_all (rest : string) (writes : list Z) : M img unit := λ s,
  match rest with
  | EmptyString => Ok tt (s <| im_writes := writes |>)
  | _ =>
      match writes with
      | [] => Ok tt (s <| im_pipe := im_pipe s +:+ rest |> <| im_writes := [] |>)
      | n :: writes =>
          if n <? 0 then Err (s <| im_writes := writes |>)
          else write_all (String.substring (Z.to_nat n) (String.length rest) rest) writes
                 (s <| im_pipe := im_pipe s +:+ stake (Z.to_nat n) rest |>)
      end
  end.
Definition write_pipe (buf : string) : M img unit := λ s, write_all buf (im_writes s) s.
Definition img_dl_start_partial_upgrade (uri : string) : M img unit :=
  let buf := "upgrade " +:+ uri in
  opened ← on_plat pl_io_next;
  _ ← fail_if (negb opened);
  write_pipe buf.

(** What the thread does once libcurl is through. *)
Definition img_dl_finish (d : download) : M img unit :=
  _ ← fail_if (negb (dn_ok d));
  _ ← img_dl_get_type;
  full ← gets (λ s, dl_downloaded_full_img (im_task s));
  if negb full then
    _ ← img_dl_start_partial_upgrade IMG_DL_FILE_PATH;
    upd_task (λ t, t <| dl_upgrade_state := UPGRADE_STATE_SUCCESS |>)
  else
    _ ← on_plat (gnma_ok (gnma_image_install ("file://" +:+ IMG_DL_FILE_PATH)));
    upd_task (λ t, t <| dl_upgrade_state := UPGRADE_STATE_INSTALL |> <| dl_percentage := 0 |> <| dl_active := false |>).
Definition img_dl_entrypoint (d : download) : M img unit :=
  _ ← on_plat (file_set IMG_DL_FILE_PATH (dn_content d));
  ok ← attempt (img_dl_finish d);
  when (negb ok) (upd_task (λ t, t <| dl_upgrade_state := UPGRADE_STATE_FAIL |> <| dl_percentage := 0 |>)).

(** The state of an upgrade in the answer of the device. *)
Definition global_state (state_name : string) (percentage : Z) : Z * Z :=
  if streq state_name "GLOBAL_STATE_FAILED" then (UPGRADE_STATE_FAIL, 0)
  else if streq state_name "GLOBAL_STATE_DOWNLOAD" then (UPGRADE_STATE_DOWNLOAD, percentage)
  else if streq state_name "GLOBAL_STATE_INSTALL" then (UPGRADE_STATE_INSTALL, 0)
  else if streq state_name "GLOBAL_STATE_SUCCESS" then (UPGRADE_STATE_SUCCESS, 0)
  else (UPGRADE_STATE_IDLE, 0).
Definition plat_upgrade_state_gnmi : M plat (Z * Z) :=
  '(rc, buf) ← ask (gnma_image_install_status 256) "";
  _ ← fail_if (negb (rc =? 0));
  let json := cJSON_Parse buf in
  state ← present (get_item json "global_state");
  percentage ← present (get_item json "percentage");
  state_name ← deref (string_value (Some state));
  ret (global_state state_name (d2s 32 (number_value (Some percentage)))).
Definition plat_upgrade_state : M img (Z * Z) :=
  t ← gets im_task;
  if dl_active t then ret (dl_upgrade_state t, dl_percentage t) else on_plat plat_upgrade_state_gnmi.

(** The callback of the thread: its result is whether polling ends. *)
Definition upgrade_periodic_cb (cb : option (Z → Z → M img Z)) : M img Z :=
  s ← try plat_upgrade_state;
  match s, cb with
  | Some (operation, percentage), Some cb =>
      rc ← cb operation percentage; ret (if rc =? 0 then 0 else -1)
  | _, _ => ret 0
  end.
End image.

(** ** The memory of a configuration

    The live blocks, each with what its [next] points to, and the pointers
    [plat_config_destroy] follows: the array of routes, the members of every
    VLAN, the sessions of port isolation, the RADIUS hosts; 0 is NULL. *)
Record cfg_memory := mk_cfg_memory {
  cm_heap : gmap Z Z;
  cm_routes : Z;
  cm_vlans_to_cfg : bitmap;
  cm_members : gmap Z Z;
  cm_sessions : Z;
  cm_hosts : Z }.
#[export] Instance eta_cfg_memory : Eta cfg_memory := λ r,
  mk_cfg_memory (cm_heap r) (cm_routes r) (cm_vlans_to_cfg r) (cm_members r) (cm_sessions r) (cm_hosts r).

Definition mem_free (p : Z) : M cfg_memory unit :=
  h ← gets cm_heap;
  if p =? 0 then ret tt
  else match h !! p with
       | None => faulty DoubleFree
       | Some _ => modify (λ s, s <| cm_heap := delete p h |>)
       end.
Definition mem_next (p : Z) : M cfg_memory Z := h ← gets cm_heap; of_option UseAfterFree (h !! p).

(** A node is freed once its successor is known: the walk is one node ahead.
    No list has more nodes than there are blocks. *)
Fixpoint destroy_loop (fuel : nat) (tmp_node member_node : Z) : M cfg_memory unit :=
  match fuel with
  | O => ret tt
  | S fuel =>
      if member_node =? 0 then mem_free tmp_node
      else _ ← mem_free tmp_node; next ← mem_next member_node; destroy_loop fuel member_node next
  end.
Definition UCENTRAL_LIST_DESTROY_SAFE (head : Z) : M cfg_memory unit :=
  h ← gets cm_heap; destroy_loop (S (size h)) 0 head.

(** For a configuration that is not NULL.  The loop over the lists of the
    isolation sessions runs from 0 to 0. *)
Definition plat_config_destroy : M cfg_memory unit :=
  routes ← gets cm_routes;
  _ ← mem_free routes;
  _ ← modify (λ s, s <| cm_routes := 0 |>);
  vlans_to_cfg ← gets cm_vlans_to_cfg;
  _ ← for_each (BITMAP_FOR_EACH_BIT_SET vlans_to_cfg GNMA_MAX_VLANS) (λ i,
        members ← gets cm_members;
        head ← arr_read MAX_VLANS 0 members i;
        _ ← UCENTRAL_LIST_DESTROY_SAFE head;
        modify (λ s, s <| cm_members := <[i := 0]> (cm_members s) |>));
  sessions ← gets cm_sessions;
  _ ← mem_free sessions;
  hosts ← gets cm_hosts;
  UCENTRAL_LIST_DESTROY_SAFE hosts.

(** ** The sessions of remote terminals *)
Definition running (procs : gmap Z bool) (pid : Z) : Prop := procs !! pid = Some true.
#[export] Instance running_dec procs pid : Decision (running procs pid).
Proof. unfold running. apply _. Defined.
(** The array holds the sessions, oldest first, and no other child is left. *)
Definition sessions (r : rtty) (ss : list Z) : Prop :=
  ∃ fill, rt_child r = ss ++ fill ∧ length (rt_child r) = RTTY_SESS_MAX ∧
          Forall (λ pid, 0 < pid) ss ∧ Forall (λ pid, pid ≤ 0) fill ∧ NoDup ss ∧
          ∀ pid, pid ∈ ss ↔ is_Some (rt_procs r !! pid).

Lemma reap_rest fuel i child procs :
  (∀ j pid, (i ≤ j)%nat → child !! j = Some pid → pid ≤ 0) → reap fuel i child procs = (child, procs).
Proof.
  revert i. induction fuel as [|fuel IH]; intros i H; [done|]. cbn [reap].
  destruct (RTTY_SESS_MAX <=? i)%nat; [done|].
  assert ((0 <? default 0 (child !! i)) = false) as ->.
  { apply Z.ltb_ge. destruct (child !! i) as [pid|] eqn:E; [by apply (H i)|done]. }
  change (0 <=? 0) with true. cbv iota. apply IH. intros j pid Hj. apply H. lia.
Qed.

Lemma reap_sessions todo : ∀ fuel alive fill procs,
  (length todo ≤ fuel)%nat → length (alive ++ todo ++ fill) = RTTY_SESS_MAX →
  Forall (λ pid, 0 < pid) todo → Forall (λ pid, pid ≤ 0) fill → NoDup todo →
  (∀ pid, pid ∈ todo → is_Some (procs !! pid)) →
  ∃ fill' procs', reap fuel (length alive) (alive ++ todo ++ fill) procs =
      (alive ++ filter (running procs) todo ++ fill', procs') ∧
    length (alive ++ filter (running procs) todo ++ fill') = RTTY_SESS_MAX ∧ Forall (λ pid, pid ≤ 0) fill' ∧
    ∀ pid, procs' !! pid = if decide (pid ∈ todo ∧ ¬ running procs pid) then None else procs !! pid.
Proof.
  induction todo as [|pid todo IH]; intros fuel alive fill procs Hf Hl Hpos Hneg Hnd Hin.
  { exists fill, procs. cbn [app] in *. rewrite filter_nil. split_and!; [|done|done|].
    - apply reap_rest. intros j pid Hj Hpid. rewrite lookup_app_r in Hpid by done.
      eapply Forall_lookup_1 in Hneg; [|exact Hpid]. done.
    - intros pid. rewrite decide_False; [done|]. intros [H _]. by apply elem_of_nil in H. }
  destruct fuel as [|fuel]; [cbn in Hf; lia|]. cbn [reap length] in *.
  inversion_clear Hpos as [|?? Hp Hpos']. inversion_clear Hnd as [|?? Hnin Hnd'].
  assert (length alive < RTTY_SESS_MAX)%nat as Hi by (rewrite <- Hl, !length_app; cbn; lia).
  rewrite (proj2 (Nat.leb_gt _ _)) by done.
  rewrite lookup_app_r, Nat.sub_diag by done. cbn [lookup list_lookup app from_option].
  unfold id. rewrite (proj2 (Z.ltb_lt 0 pid)) by done. unfold waitpid_nohang.
  destruct (Hin pid ltac:(by left)) as [b Hb]. rewrite Hb. destruct b.
  - change (0 <=? 0) with true. cbv iota. rewrite filter_cons_True by done.
    destruct (IH fuel (alive ++ [pid]) fill procs) as (fill' & procs' & E & Hl' & Hneg' & Hprocs); try done.
    + lia.
    + by rewrite <- app_assoc.
    + intros q Hq. apply Hin. by right.
    + rewrite length_app, Nat.add_1_r, <- !app_assoc in E. rewrite <- app_assoc in Hl'. exists fill', procs'.
      split_and!; [exact E|exact Hl'|done|]. intros q. rewrite Hprocs.
      destruct (decide (q ∈ todo ∧ ¬ running procs q)) as [[Hq Hr]|Hq].
      * rewrite decide_True; [done|]. split; [by right|done].
      * rewrite decide_False; [done|]. intros [[->|?]%elem_of_cons Hr]; [done|by apply Hq].
  - rewrite (proj2 (Z.leb_gt pid 0)) by done. rewrite filter_cons_False by (unfold running; congruence).
    assert (take (length alive) (alive ++ pid :: todo ++ fill) ++ drop (S (length alive)) (alive ++ pid :: todo ++ fill) ++ [-1]
            = alive ++ todo ++ (fill ++ [-1])) as ->.
    { rewrite take_app_length. f_equal. rewrite drop_app_ge by lia.
      replace (S (length alive) - length alive)%nat with 1%nat by lia.
      change (drop 1 (pid :: todo ++ fill)) with (todo ++ fill). symmetry. apply app_assoc. }
    assert (filter (running procs) todo = filter (running (delete pid procs)) todo) as Hfilter.
    { apply list_filter_iff. intros q. unfold running. destruct (decide (q = pid)) as [->|Hne].
      - rewrite lookup_delete_eq, Hb. split; congruence.
      - by rewrite lookup_delete_ne. }
    destruct (IH fuel alive (fill ++ [-1]) (delete pid procs)) as (fill' & procs' & E & Hl' & Hneg' & Hprocs); try done.
    + lia.
    + rewrite !length_app in *. cbn in *. lia.
    + apply Forall_app. split; [done|]. by repeat constructor.
    + intros q Hq. rewrite lookup_delete_ne by (intros ->; done). apply Hin. by right.
    + exists fill', procs'. rewrite Hfilter. split_and!; [exact E|exact Hl'|done|]. intros q. rewrite Hprocs.
      destruct (decide (q = pid)) as [->|Hne].
      * rewrite decide_False by tauto. rewrite lookup_delete_eq, decide_True; [done|].
        split; [by left|unfold running; congruence].
      * rewrite lookup_delete_ne by done. apply decide_ext.
        rewrite elem_of_cons. unfold running. rewrite lookup_delete_ne by done. naive_solver.
Qed.

Lemma free_place_sessions ss fill :
  Forall (λ pid, 0 < pid) ss → Forall (λ pid, pid ≤ 0) fill → free_place (ss ++ fill) = length ss.
Proof.
  induction 1 as [|pid ss Hpid _ IH]; intros Hfill.
  - destruct Hfill as [|pid fill Hpid _]; [done|]. cbn. by rewrite (proj2 (Z.ltb_ge 0 pid)).
  - cbn. rewrite (proj2 (Z.ltb_lt 0 pid)) by done. by rewrite IH.
Qed.

Lemma rtty_args_short {S} cfg (s : S) :
  slen (rtty_id cfg) < 64 → slen (rtty_server cfg) < 64 → slen (rtty_token cfg) < 64 →
  rtty_args cfg s =
    Ok ["--id=" +:+ rtty_id cfg; "--host=" +:+ rtty_server cfg; "--port=" +:+ dec (wrap 16 (rtty_port cfg));
        "--token=" +:+ rtty_token cfg; "-d Edgecore Switch device"; "-v"; "-s"] s.
Proof.
  intros Hi Hs Ht.
  assert (∀ t, slen t < 64 → c_buf_str 64 t s = Ok t s) as Hbuf.
  { intros t Hlt. unfold c_buf_str. by rewrite (proj2 (Z.ltb_lt _ _) Hlt). }
  assert (∀ pre t, slen pre ≤ 8 → slen t < 64 → c_strcpy 128 (pre +:+ t) s = Ok (pre +:+ t) s) as Hcpy.
  { intros pre t Hpre Hlt. unfold c_strcpy. rewrite (proj2 (Z.ltb_lt _ _)); [done|]. rewrite slen_app. lia. }
  unfold rtty_args. do 3 (erewrite bind_run by by apply Hbuf). by do 3 (erewrite bind_run by by apply Hcpy).
Qed.

(** A new session in the place after those that are kept. *)
Lemma sessions_insert kept x fill procs forked rest killed started :
  length (kept ++ x :: fill) = RTTY_SESS_MAX → Forall (λ pid, 0 < pid) kept → Forall (λ pid, pid ≤ 0) fill →
  NoDup kept → (∀ pid, pid ∈ kept ↔ is_Some (procs !! pid)) →
  (∀ pid, forked = Some pid → 0 < pid ∧ pid ∉ kept) →
  sessions (mk_rtty (<[length kept := default (-1) forked]> (kept ++ x :: fill))
              (match forked with Some pid => <[pid := true]> procs | None => procs end) rest killed started)
           (kept ++ option_list forked).
Proof.
  intros Hl Hpos Hneg Hnd Hproc Hnew.
  assert (<[length kept := default (-1) forked]> (kept ++ x :: fill) = kept ++ default (-1) forked :: fill) as E.
  { rewrite insert_app_r_alt, Nat.sub_diag by done. done. }
  destruct forked as [pid|]; unfold option_list, option_rect.
  - destruct (Hnew pid eq_refl) as [Hp Hnin]. exists fill. cbn [rt_child rt_procs]. rewrite E. split_and!.
    + by rewrite <- app_assoc.
    + rewrite <- Hl, !length_app. done.
    + apply Forall_app. split; [done|by repeat constructor].
    + done.
    + apply NoDup_app. split_and!; [done| |by apply NoDup_singleton].
      intros q Hq [->|H]%elem_of_cons; [done|by apply elem_of_nil in H].
    + intros q. rewrite elem_of_app, elem_of_cons, elem_of_nil, Hproc.
      destruct (decide (q = pid)) as [->|Hne]; [rewrite lookup_insert_eq; naive_solver|].
      rewrite lookup_insert_ne by done. naive_solver.
  - exists (-1 :: fill). cbn [rt_child rt_procs]. rewrite E, app_nil_r. split_and!; try done.
    + rewrite <- Hl, !length_app. done.
    + by constructor.
Qed.

(** C18: Remote terminals ([plat_rtty]).  Among the children the process had, the
    sessions that still run are kept, in their order; when ten run, the oldest
    is killed and gives up its place.  The new session takes the place after
    the last; it is started with the identifier, the server, the port and the
    token that were asked for.  When [fork] fails the call fails, nothing is
    started, and no other session is lost; the ended children have been waited
    for in every case: the array holds exactly the children there are. *)
Theorem rtty_sessions cfg r ss forked rest :
  sessions r ss → rt_fork r = forked :: rest →
  slen (rtty_id cfg) < 64 → slen (rtty_server cfg) < 64 → slen (rtty_token cfg) < 64 →
  let live := filter (running (rt_procs r)) ss in
  let full := (length live =? RTTY_SESS_MAX)%nat in
  let kept := if full then tail live else live in
  (∀ pid, forked = Some pid → 0 < pid ∧ pid ∉ kept) →
  ∃ r',
    plat_rtty cfg r = (match forked with Some _ => Ok tt r' | None => Err r' end) ∧
    sessions r' (kept ++ option_list forked) ∧
    rt_killed r' = rt_killed r ++ (if full then take 1 live else []) ∧
    rt_fork r' = rest ∧
    rt_started r' = rt_started r ++
      ((λ pid, (pid, ["--id=" +:+ rtty_id cfg; "--host=" +:+ rtty_server cfg;
                      "--port=" +:+ dec (wrap 16 (rtty_port cfg)); "--token=" +:+ rtty_token cfg;
                      "-d Edgecore Switch device"; "-v"; "-s"])) <$> option_list forked).
Proof.
  intros (fill & Hchild & Hlen & Hpos & Hneg & Hnd & Hin) Hfork Hi Hs Ht live full kept Hnew.
  destruct (reap_sessions ss (2 * RTTY_SESS_MAX) [] fill (rt_procs r)) as (fill' & procs & E & Hl & Hneg' & Hprocs);
    [rewrite <- Hlen, Hchild, length_app; lia|by rewrite <- Hlen, Hchild|done..|by intros; apply Hin|].
  cbn [app length] in E, Hl. fold live in E, Hl.
  assert (Forall (λ pid, 0 < pid) live) as Hlive.
  { apply Forall_forall. intros pid [_ Hpid]%list_elem_of_filter. by eapply Forall_forall in Hpos. }
  assert (NoDup live) as Hndl by by apply list.NoDup_filter.
  assert (∀ pid, pid ∈ live ↔ is_Some (procs !! pid)) as Hproc.
  { intros pid. unfold live. rewrite list_elem_of_filter, Hprocs. case_decide as Hd.
    - rewrite is_Some_alt. tauto.
    - rewrite <- Hin. destruct (decide (running (rt_procs r) pid)); tauto. }
  assert (∃ child x fill'' procs' killed,
    (if full then (9%nat, tail (live ++ fill') ++ [default 0 (last (live ++ fill'))],
       delete (default 0 (head (live ++ fill'))) procs,
       match procs !! default 0 (head (live ++ fill')) with
       | Some _ => [default 0 (head (live ++ fill'))] | None => [] end)
     else (length live, live ++ fill', procs, [])) = (length kept, child, procs', killed) ∧
    child = kept ++ x :: fill'' ∧ length child = RTTY_SESS_MAX ∧ Forall (λ pid, pid ≤ 0) fill'' ∧
    Forall (λ pid, 0 < pid) kept ∧ NoDup kept ∧ (∀ pid, pid ∈ kept ↔ is_Some (procs' !! pid)) ∧
    killed = if full then take 1 live else []) as (child & x & fill'' & procs' & killed & Eif & -> & Hlc & Hn & Hp & Hd & Hk & ->).
  { unfold kept. destruct full eqn:Hfull; rewrite length_app in Hl.
    - apply Nat.eqb_eq in Hfull. destruct fill'; [|cbn in Hl; lia]. rewrite app_nil_r.
      destruct live as [|oldest live']; [done|]. cbn [tail head from_option id].
      destruct (proj1 (Hproc oldest) ltac:(by left)) as [b Hb]. rewrite Hb.
      injection Hfull as Hfull. exists (live' ++ [default 0 (last (oldest :: live'))]), (default 0 (last (oldest :: live'))), [].
      inversion_clear Hlive. inversion_clear Hndl. eexists _, _. split_and!; try done.
      + by rewrite Hfull.
      + rewrite length_app, Hfull. done.
      + intros pid. rewrite lookup_delete_is_Some, <- Hproc, elem_of_cons. split.
        * intros Hq. split; [by intros ->|by right].
        * intros [Hne [->|Hq]]; done.
    - apply Nat.eqb_neq in Hfull. destruct fill' as [|x fill']; [by rewrite Nat.add_0_r in Hl|].
      inversion_clear Hneg'. exists (live ++ x :: fill'), x, fill', procs, []. split_and!; try done.
      by rewrite length_app. }
  unfold plat_rtty. rewrite Hchild, E, free_place_sessions by done.
  change (RTTY_SESS_MAX - 1)%nat with 9%nat. fold full. rewrite Eif, Hfork.
  pose proof (sessions_insert kept x fill'' procs' forked rest (rt_killed r ++ if full then take 1 live else [])) as Hses.
  destruct forked as [pid|]; [rewrite rtty_args_short by done|]; eexists;
    (split_and!; [done|by apply Hses|done|done|]); [done|].
  symmetry. apply app_nil_r.
Qed.

(** A process with the children [ss], in the state [b]. *)
Definition with_children (ss : list Z) (b : bool) (forks : list (option Z)) : rtty :=
  mk_rtty (ss ++ replicate (RTTY_SESS_MAX - length ss) 0) (list_to_map ((λ pid, (pid, b)) <$> ss)) forks [] [].
Lemma with_children_sessions ss b forks :
  (length ss ≤ RTTY_SESS_MAX)%nat → Forall (λ pid, 0 < pid) ss → NoDup ss → sessions (with_children ss b forks) ss.
Proof.
  intros Hl Hpos Hnd. exists (replicate (RTTY_SESS_MAX - length ss) 0). split_and!; try done.
  - unfold with_children. cbn [rt_child]. rewrite length_app, length_replicate. lia.
  - by apply Forall_replicate.
  - intros pid. unfold with_children. cbn [rt_procs].
    rewrite <- not_eq_None_Some, <- not_elem_of_list_to_map, <- list_fmap_compose.
    assert (fst ∘ (λ pid : Z, (pid, b)) <$> ss = ss) as -> by apply list_fmap_id. split; [tauto|].
    destruct (decide (pid ∈ ss)); tauto.
Qed.

Definition sample_rtty : plat_rtty_cfg := mk_plat_rtty_cfg "dev-1" "" "" "rtty.example" "secret" "" 5912 60.
Lemma rtty_sessions_witness :
  ∃ r', plat_rtty sample_rtty (with_children [1; 2; 3; 4; 5; 6; 7; 8; 9; 10] true [Some 77]) = Ok tt r' ∧
        sessions r' [2; 3; 4; 5; 6; 7; 8; 9; 10; 77] ∧ rt_killed r' = [1].
Proof.
  destruct (rtty_sessions sample_rtty (with_children [1; 2; 3; 4; 5; 6; 7; 8; 9; 10] true [Some 77])
              [1; 2; 3; 4; 5; 6; 7; 8; 9; 10] (Some 77) []) as (r' & E & Hs & Hk & _).
  - apply with_children_sessions; [by vm_compute; lia| |]; [repeat constructor|].
    apply (bool_decide_unpack _). vm_compute. exact I.
  - done.
  - done.
  - done.
  - done.
  - intros pid [= <-]. split; [done|]. apply (bool_decide_unpack _). vm_compute. exact I.
  - exists r'. split; [exact E|]. split; [exact Hs|exact Hk].
Defined.

(** Ended sessions make place; when [fork] fails nothing is lost but them. *)
Example sessions_ended :
  ∃ r', plat_rtty sample_rtty (with_children [5; 6; 7] false [None]) = Err r' ∧ rt_procs r' = ∅ ∧ rt_killed r' = [].
Proof. eexists. split; [vm_compute; reflexivity|]. split; reflexivity. Qed.

(** ** How a download ends *)
Section upgrade.
Context `{J : CJson, G : Gnma, T : CTarget}.

Lemma wp_on_plat {A} (m : M plat A) (Q : A → img → Prop) E F s :
  wp m (λ a p, Q a (s <| im_plat := p |>)) (λ p, E (s <| im_plat := p |>)) F (im_plat s) → wp (on_plat m) Q E F s.
Proof. unfold wp, on_plat. by destruct (m (im_plat s)). Qed.

Lemma stake_rest n m s : (String.length s ≤ m)%nat → stake n s +:+ String.substring n m s = s.
Proof.
  unfold stake. revert n m. induction s as [|c s IH]; intros [|n] [|m] Hm; cbn in *; try done; try lia.
  - change (String c (stake m s) = String c s). f_equal. apply stake_all. unfold slen. lia.
  - change (String c (String.substring 0 n s +:+ String.substring n (S m) s) = String c s). f_equal. apply IH. lia.
Qed.

(** The script gets a prefix of the command, all of it unless a write fails. *)
Lemma write_all_spec writes : ∀ rest (s : img),
  wp (write_all rest writes)
    (λ _ s', ∃ ws, s' = s <| im_writes := ws |> <| im_pipe := im_pipe s +:+ rest |>)
    (λ s', ∃ ws sent unsent, rest = sent +:+ unsent ∧ s' = s <| im_writes := ws |> <| im_pipe := im_pipe s +:+ sent |> ∧
           ∃ n, n ∈ writes ∧ n < 0) no_fault s.
Proof.
  induction writes as [|n writes IH]; intros rest s; destruct rest as [|c rest].
  - exists []. cbn. rewrite str_app_empty. by destruct s.
  - exists []. by destruct s.
  - exists (n :: writes). cbn. rewrite str_app_empty. by destruct s.
  - unfold wp. cbn [write_all]. destruct (Z.ltb_spec n 0) as [Hn|Hn].
    + exists writes, "", (String c rest). rewrite str_app_empty. split_and!; [done|by destruct s|].
      exists n. split; [by left|done].
    + pose proof (stake_rest (Z.to_nat n) _ (String c rest) (le_n _)) as Hr. revert Hr.
      generalize (stake (Z.to_nat n) (String c rest)) as a. generalize (String.substring (Z.to_nat n) (String.length (String c rest)) (String c rest)) as b.
      intros b a Hr. specialize (IH b (s <| im_pipe := im_pipe s +:+ a |>)). revert IH. unfold wp.
      destruct (write_all _ _ _) as [[] s'|s'|f]; [| |done].
      * intros (ws & ->). exists ws. rewrite <- Hr. cbn. rewrite str_app_assoc. by destruct s.
      * intros (ws & sent & unsent & -> & -> & m & Hm & Hlt). exists ws, (a +:+ sent), unsent.
        split_and!; [by rewrite <- Hr, str_app_assoc|cbn; rewrite str_app_assoc; by destruct s|].
        exists m. split; [by right|done].
Qed.

(** What a download may come to, and what the callback is told from then on. *)
Definition upgrade_command : string := "upgrade " +:+ IMG_DL_FILE_PATH.
Definition install_image : gnma_call := gnma_image_install ("file://" +:+ IMG_DL_FILE_PATH).
Inductive upgrade_end (d : download) (s s' : img) : Prop :=
| ended_package :
    dn_ok d = true → String.prefix IMG_DL_DEB_FILE_SIGNATURE (dn_content d) = true →
    pl_calls (im_plat s') = pl_calls (im_plat s) → im_pipe s' = im_pipe s +:+ upgrade_command →
    plat_upgrade_state s' = Ok (UPGRADE_STATE_SUCCESS, dl_percentage (im_task s)) s' → upgrade_end d s s'
| ended_image :
    dn_ok d = true → String.prefix IMG_DL_DEB_FILE_SIGNATURE (dn_content d) = false →
    pl_calls (im_plat s') = pl_calls (im_plat s) ++ [(install_image, 0)] → im_pipe s' = im_pipe s →
    plat_upgrade_state s' = on_plat plat_upgrade_state_gnmi s' → upgrade_end d s s'
| ended_failed calls sent unsent :
    dn_ok d = false ∨ false ∈ pl_io (im_plat s) ∨ (∃ n, n ∈ im_writes s ∧ n < 0) ∨
      (∃ rc, rc ≠ 0 ∧ calls = [(install_image, rc)]) →
    calls = [] ∨ (sent = "" ∧ ∃ rc, rc ≠ 0 ∧ calls = [(install_image, rc)]) →
    pl_calls (im_plat s') = pl_calls (im_plat s) ++ calls →
    upgrade_command = sent +:+ unsent → im_pipe s' = im_pipe s +:+ sent →
    plat_upgrade_state s' = Ok (UPGRADE_STATE_FAIL, 0) s' → upgrade_end d s s'.

Lemma open_read_spec path content (p : plat) :
  pl_files p !! path = Some content →
  wp (open_r path) (λ c p', c = content ∧ ∃ io, p' = p <| pl_io := io |> ∧ (false ∈ io → false ∈ pl_io p))
    (λ p', false ∈ pl_io p ∧ ∃ io, p' = p <| pl_io := io |>) no_fault p.
Proof.
  intros Hf. unfold open_r. apply wp_bind, wp_gets. rewrite Hf. apply wp_bind. unfold wp, pl_io_next.
  destruct (pl_io p) as [|[] io] eqn:E; cbn.
  - split; [done|]. exists []. rewrite <- E. split; [by destruct p|done].
  - split; [done|]. exists io. split; [done|by right].
  - split; [by left|by exists io].
Qed.
Lemma io_next_spec (p : plat) :
  wp pl_io_next (λ b p', (b = false → false ∈ pl_io p) ∧ ∃ io, p' = p <| pl_io := io |> ∧ (false ∈ io → false ∈ pl_io p))
    (λ _, False) no_fault p.
Proof.
  unfold wp, pl_io_next. destruct (pl_io p) as [|b io] eqn:E; cbn.
  - split; [done|]. exists []. rewrite <- E. split; [by destruct p|done].
  - split; [intros ->; by left|]. exists io. split; [done|by right].
Qed.

Definition fail_task (t : img_dl_task) : img_dl_task := t <| dl_upgrade_state := UPGRADE_STATE_FAIL |> <| dl_percentage := 0 |>.
Lemma upgrade_failed d (s s2 : img) calls sent unsent :
  dl_active (im_task s2) = true →
  dn_ok d = false ∨ false ∈ pl_io (im_plat s) ∨ (∃ n, n ∈ im_writes s ∧ n < 0) ∨
    (∃ rc, rc ≠ 0 ∧ calls = [(install_image, rc)]) →
  calls = [] ∨ (sent = "" ∧ ∃ rc, rc ≠ 0 ∧ calls = [(install_image, rc)]) →
  pl_calls (im_plat s2) = pl_calls (im_plat s) ++ calls →
  upgrade_command = sent +:+ unsent → im_pipe s2 = im_pipe s +:+ sent →
  upgrade_end d s (s2 <| im_task := fail_task (im_task s2) |>).
Proof.
  intros Hact Hwhy Hcalls E Hcmd Hpipe. eapply ended_failed; try done.
  unfold plat_upgrade_state, mbind, M_bind, gets. cbn. by rewrite Hact.
Qed.

(** What the steps before the upgrade itself leave alone. *)
Record steady (s s' : img) : Prop := {
  steady_calls : pl_calls (im_plat s') = pl_calls (im_plat s);
  steady_files : pl_files (im_plat s') = pl_files (im_plat s);
  steady_io : false ∈ pl_io (im_plat s') → false ∈ pl_io (im_plat s);
  steady_pipe : im_pipe s' = im_pipe s;
  steady_writes : im_writes s' = im_writes s;
  steady_active : dl_active (im_task s') = dl_active (im_task s);
  steady_percentage : dl_percentage (im_task s') = dl_percentage (im_task s) }.
Lemma steady_trans s1 s2 s3 : steady s1 s2 → steady s2 s3 → steady s1 s3.
Proof. intros [????? ? ?] [????? ? ?]. split; first [congruence|tauto]. Qed.

Lemma io_next_steady (s : img) :
  wp (on_plat pl_io_next) (λ b s', (b = false → false ∈ pl_io (im_plat s)) ∧ steady s s' ∧ im_task s' = im_task s)
    (λ _, False) no_fault s.
Proof.
  apply wp_on_plat. eapply wp_mono; [apply io_next_spec| |done|done].
  intros b p (Hb & io & -> & Hio). by split_and!.
Qed.

Lemma get_type_spec content (s : img) :
  pl_files (im_plat s) !! IMG_DL_FILE_PATH = Some content → content ≠ "" →
  wp img_dl_get_type
    (λ _ s', steady s s' ∧ dl_downloaded_full_img (im_task s') = negb (String.prefix IMG_DL_DEB_FILE_SIGNATURE content))
    (λ s', steady s s' ∧ false ∈ pl_io (im_plat s)) no_fault s.
Proof.
  intros Hf Hne. unfold img_dl_get_type. apply wp_bind, wp_on_plat.
  eapply wp_mono; [by apply (open_read_spec IMG_DL_FILE_PATH content)| |intros p [Hio [io ->]]|done].
  2: { split; [split; try done|done]. }
  intros ? p1 [-> (io & -> & Hio)]. assert (steady s (s <| im_plat := im_plat s <| pl_io := io |> |>)) as Hst by done.
  revert Hst. generalize (s <| im_plat := im_plat s <| pl_io := io |> |>) as s1. intros s1 Hst.
  apply wp_bind. eapply wp_mono; [apply io_next_steady| |done|done]. intros b s2 (Hb & Hst' & _).
  apply wp_bind, wp_fail_if.
  { intros ->%negb_true_iff. split; [by eapply steady_trans|]. apply (steady_io _ _ Hst), Hb, eq_refl. }
  intros _. destruct (streq content "") eqn:E; [by apply streq_eq in E|]. apply wp_modify.
  pose proof (steady_trans _ _ _ Hst Hst') as []. by split.
Qed.

Lemma partial_upgrade_spec (s : img) :
  wp (img_dl_start_partial_upgrade IMG_DL_FILE_PATH)
    (λ _ s', ∃ s1 ws, steady s s1 ∧
       s' = s1 <| im_writes := ws |> <| im_pipe := im_pipe s +:+ upgrade_command |>)
    (λ s', ∃ s1 ws sent unsent, steady s s1 ∧ upgrade_command = sent +:+ unsent ∧
       s' = s1 <| im_writes := ws |> <| im_pipe := im_pipe s +:+ sent |> ∧
       (false ∈ pl_io (im_plat s) ∨ ∃ n, n ∈ im_writes s ∧ n < 0)) no_fault s.
Proof.
  unfold img_dl_start_partial_upgrade. fold upgrade_command.
  apply wp_bind. eapply wp_mono; [apply io_next_steady| |done|done]. intros b s1 (Hb & Hst & _).
  apply wp_bind, wp_fail_if.
  { intros ->%negb_true_iff. exists s1, (im_writes s1), "", upgrade_command. rewrite str_app_empty, <- (steady_pipe _ _ Hst).
    split_and!; [done|done|by destruct s1|auto]. }
  intros _. unfold write_pipe. pose proof (write_all_spec (im_writes s1) upgrade_command s1) as H. revert H. unfold wp.
  destruct (write_all _ _ _) as [[] s2|s2|f]; [| |done].
  - intros [ws ->]. exists s1, ws. by rewrite <- (steady_pipe _ _ Hst).
  - intros (ws & sent & unsent & Hcmd & -> & Hn). exists s1, ws, sent, unsent.
    rewrite <- (steady_pipe _ _ Hst), <- (steady_writes _ _ Hst). auto.
Qed.

Lemma finish_spec d (s : img) :
  dl_active (im_task s) = true → dn_content d ≠ "" →
  pl_files (im_plat s) !! IMG_DL_FILE_PATH = Some (dn_content d) →
  wp (img_dl_finish d)
    (λ _ s', upgrade_end d s s' ∧ pl_files (im_plat s') = pl_files (im_plat s))
    (λ s', upgrade_end d s (s' <| im_task := fail_task (im_task s') |>) ∧ pl_files (im_plat s') = pl_files (im_plat s))
    (λ f, ∃ g, gnma_do install_image g = inr f) s.
Proof.
  intros Hact Hne Hfile.
  assert (∀ s2, steady s s2 → dn_ok d = false ∨ false ∈ pl_io (im_plat s) →
    upgrade_end d s (s2 <| im_task := fail_task (im_task s2) |>) ∧ pl_files (im_plat s2) = pl_files (im_plat s)) as Hearly.
  { intros s2 [] Hwhy. split; [|done]. apply (upgrade_failed d s s2 [] "" upgrade_command);
      [congruence|tauto|by left|by rewrite app_nil_r|done|by rewrite str_app_empty]. }
  unfold img_dl_finish. apply wp_bind, wp_fail_if.
  { intros Hok%negb_true_iff. apply Hearly; [done|by left]. }
  intros Hok%negb_false_iff. apply wp_bind.
  eapply wp_mono; [by apply (get_type_spec (dn_content d))| |intros s2 [Hst Hio]; apply Hearly; auto|done].
  intros _ s1 [Hst Hfull]. apply wp_bind, wp_gets. rewrite Hfull.
  destruct (String.prefix IMG_DL_DEB_FILE_SIGNATURE (dn_content d)) eqn:Hsig; cbn [negb].
  - apply wp_bind. eapply wp_mono; [apply partial_upgrade_spec| | |done].
    + intros _ ? (s2 & ws & Hst2 & ->). pose proof (steady_trans _ _ _ Hst Hst2) as []. apply wp_modify. split; [|done].
      apply ended_package; [done|done|done|by rewrite <- (steady_pipe _ _ Hst)|].
      unfold plat_upgrade_state, mbind, M_bind, gets, ret. cbn. by rewrite steady_active0, Hact, <- steady_percentage0.
    + intros ? (s2 & ws & sent & unsent & Hst2 & Hcmd & -> & Hwhy).
      pose proof (steady_trans _ _ _ Hst Hst2) as [Hc Hf Hio Hp Hw Ha _]. split; [|done].
      apply (upgrade_failed d s _ [] sent unsent); [cbn; congruence| |by left|by rewrite app_nil_r|done|by rewrite <- (steady_pipe _ _ Hst)].
      rewrite <- (steady_writes _ _ Hst). pose proof (steady_io _ _ Hst). tauto.
  - destruct Hst as [Hc Hf Hio Hp Hw Ha _]. apply wp_bind, wp_on_plat. unfold gnma_ok, gnma. apply wp_bind. unfold wp at 1.
    fold install_image. destruct (gnma_do install_image _) as [[rc g]|f] eqn:Hdo; [|by eexists].
    apply wp_fail_if; intros Hrc.
    + apply negb_true_iff, Z.eqb_neq in Hrc. split; [|done].
      apply (upgrade_failed d s _ [(install_image, rc)] "" upgrade_command);
        [cbn; congruence|by do 3 right; exists rc|by right; split; [|exists rc]|cbn; congruence|done|by cbn; rewrite str_app_empty].
    + apply negb_false_iff, Z.eqb_eq in Hrc. subst rc. apply wp_modify. split; [|done].
      apply ended_image; [done|done|cbn; congruence|done|done].
Qed.

(** C16: A firmware upgrade ([img_dl_entrypoint]), for every file that is not
    empty.  An archive of packages is handed to the upgrade script, whose pipe
    gets the whole command and nothing else; the switch is not asked to install
    anything, and the upgrade is reported as successful.  Every other file is
    installed as an image, once, and from then on the state is the switch's own.
    Every other end is reported as a failure at 0 %, and has a reason: the
    download, a file operation, a write or the switch's refusal; the script has
    then got at most a part of the command.  The file is left in place. *)
Theorem image_upgrade_outcome d (s : img) :
  dl_active (im_task s) = true → dn_content d ≠ "" →
  wp (img_dl_entrypoint d)
    (λ _ s', upgrade_end d s s' ∧ pl_files (im_plat s') = <[IMG_DL_FILE_PATH := dn_content d]> (pl_files (im_plat s)))
    (λ _, False) (λ f, ∃ g, gnma_do install_image g = inr f) s.
Proof.
  intros Hact Hne. unfold img_dl_entrypoint. apply wp_bind, wp_on_plat, wp_modify, wp_bind, wp_attempt.
  set (s1 := s <| im_plat := _ |>).
  assert (∀ s', upgrade_end d s1 s' → upgrade_end d s s') as Hend.
  { intros s' [| |]; [by apply ended_package|by apply ended_image|by eapply ended_failed]. }
  eapply wp_mono; [apply (finish_spec d s1 Hact Hne), lookup_insert_eq| | |done].
  - intros _ s' [He Hf]. split; [by apply Hend|exact Hf].
  - intros s' [He Hf]. split; [by apply Hend|exact Hf].
Qed.
End upgrade.

#[local] Existing Instance sample_gnma.
(** A download under way, with the answers of the switch and of [write] to come. *)
Definition sample_img (answers writes : list Z) : img :=
  mk_img _ (sample_plat answers) (mk_img_dl_task true false 40 UPGRADE_STATE_DOWNLOAD) [] writes "".
Definition sample_package : download := mk_download true ("!<arch>" +:+ "debian-binary").
Definition sample_image : download := mk_download true "#!/bin/sh".

Lemma image_upgrade_outcome_witness :
  dl_active (im_task (sample_img [] [3; 0])) = true ∧
  wp (img_dl_entrypoint sample_package)
    (λ _ s', upgrade_end (J := jtree_cjson) (T := amd64) sample_package (sample_img [] [3; 0]) s' ∧
       pl_files (im_plat s') = <[IMG_DL_FILE_PATH := dn_content sample_package]> ∅)
    (λ _, False) (λ f, ∃ g, gnma_do install_image g = inr f) (sample_img [] [3; 0]).
Proof.
  split; [reflexivity|]. apply (image_upgrade_outcome (J := jtree_cjson) (T := amd64) sample_package (sample_img [] [3; 0])).
  - reflexivity.
  - discriminate.
Defined.

(** Partial writes, an image, an image the switch refuses, and a failed write. *)
Definition upgrade_of (d : download) (answers writes : list Z) : option (img_dl_task * string * list (gnma_call * Z)) :=
  match img_dl_entrypoint d (sample_img answers writes) with
  | Ok _ s => Some (im_task s, im_pipe s, pl_calls (im_plat s))
  | _ => None
  end.
Example upgrade_examples :
  upgrade_of sample_package [] [3; 0] =
    Some (mk_img_dl_task true false 40 UPGRADE_STATE_SUCCESS, "upgrade /var/lib/ucentral/img", []) ∧
  upgrade_of sample_image [] [] =
    Some (mk_img_dl_task false true 0 UPGRADE_STATE_INSTALL, "", [(install_image, 0)]) ∧
  upgrade_of sample_image [-1] [] =
    Some (mk_img_dl_task true true 0 UPGRADE_STATE_FAIL, "", [(install_image, -1)]) ∧
  upgrade_of sample_package [] [7; -1] =
    Some (mk_img_dl_task true false 0 UPGRADE_STATE_FAIL, "upgrade", []) ∧
  upgrade_of (mk_download true "") [] [] = None.
Proof. vm_compute. split_and!; reflexivity. Qed.

(** ** What [plat_config_destroy] frees *)
(** The list at [head] is made of the blocks [l]. *)
Fixpoint chain (h : gmap Z Z) (head : Z) (l : list Z) : Prop :=
  match l with
  | [] => head = 0
  | p :: l => head = p ∧ p ≠ 0 ∧ ∃ next, h !! p = Some next ∧ chain h next l
  end.
(** [h'] is [h] without the blocks [l]. *)
Definition minus (h : gmap Z Z) (l : list Z) (h' : gmap Z Z) : Prop :=
  ∀ p, h' !! p = if decide (p ∈ l) then None else h !! p.
(** The block at a pointer that may be NULL. *)
Definition block_at (p : Z) : list Z := if p =? 0 then [] else [p].

Lemma minus_nil h : minus h [] h.
Proof. intros p. rewrite decide_False; [done|]. by apply not_elem_of_nil. Qed.
Lemma minus_app h l1 h1 l2 h2 : minus h l1 h1 → minus h1 l2 h2 → minus h (l1 ++ l2) h2.
Proof.
  intros H1 H2 p. rewrite H2, H1.
  destruct (decide (p ∈ l2)), (decide (p ∈ l1)), (decide (p ∈ l1 ++ l2)) as [H|H];
    try done; rewrite elem_of_app in H; tauto.
Qed.
Lemma chain_live h head l p : chain h head l → p ∈ l → is_Some (h !! p) ∧ p ≠ 0.
Proof.
  revert head. induction l as [|q l IH]; intros head; [by intros _ ?%elem_of_nil|].
  intros (-> & Hq & next & Hn & Hc) [->|Hp]%elem_of_cons; [by rewrite Hn|by eapply IH].
Qed.
Lemma chain_minus h head l gone h' : chain h head l → minus h gone h' → (∀ p, p ∈ l → p ∉ gone) → chain h' head l.
Proof.
  revert head. induction l as [|q l IH]; intros head Hc Hm Hd; [done|]. destruct Hc as (-> & Hq & next & Hn & Hc).
  split; [done|]. split; [done|]. exists next. split.
  - rewrite Hm, decide_False; [done|]. apply Hd. by left.
  - apply (IH next Hc Hm). intros p Hp. apply Hd. by right.
Qed.
Lemma chain_size h head l : chain h head l → NoDup l → (length l ≤ size h)%nat.
Proof.
  intros Hc Hnd. rewrite <- (size_list_to_set (C := gset Z)) by done. rewrite <- size_dom. apply subseteq_size.
  intros p. rewrite elem_of_list_to_set, elem_of_dom. intros Hp. by destruct (chain_live _ _ _ _ Hc Hp).
Qed.

(** A freed block: the rest of the state is as it was. *)
Definition freed (s : cfg_memory) (l : list Z) (s' : cfg_memory) : Prop :=
  ∃ h', s' = s <| cm_heap := h' |> ∧ minus (cm_heap s) l h'.

Lemma mem_free_spec p s :
  p = 0 ∨ is_Some (cm_heap s !! p) → wp (mem_free p) (λ _, freed s (block_at p)) (λ _, False) no_fault s.
Proof.
  intros Hp. unfold mem_free, block_at. apply wp_bind, wp_gets. destruct (Z.eqb_spec p 0) as [E|E].
  - apply wp_ret. exists (cm_heap s). split; [by destruct s|apply minus_nil].
  - destruct Hp as [?|[n Hn]]; [done|]. rewrite Hn. apply wp_modify. exists (delete p (cm_heap s)). split; [done|].
    intros q. destruct (decide (q = p)) as [->|Hne].
    + rewrite lookup_delete_eq, decide_True; [done|by left].
    + rewrite lookup_delete_ne, decide_False by (rewrite ?elem_of_cons, ?elem_of_nil; naive_solver). done.
Qed.
Lemma freed_app s l1 s1 l2 s2 : freed s l1 s1 → freed s1 l2 s2 → freed s (l1 ++ l2) s2.
Proof.
  intros (h1 & -> & H1) (h2 & -> & H2). exists h2. split; [by destruct s|].
  by eapply minus_app.
Qed.

Lemma destroy_loop_spec l : ∀ fuel tmp pos s,
  chain (cm_heap s) pos l → NoDup l → tmp = 0 ∨ is_Some (cm_heap s !! tmp) → tmp ∉ l → (length l < fuel)%nat →
  wp (destroy_loop fuel tmp pos) (λ _, freed s (block_at tmp ++ l)) (λ _, False) no_fault s.
Proof.
  induction l as [|p l IH]; intros [|fuel] tmp pos s Hc Hnd Ht Hnin Hf; [cbn in Hf; lia| |cbn in Hf; lia|]; cbn [destroy_loop].
  - cbn in Hc. subst pos. cbn [Z.eqb]. rewrite app_nil_r. by apply mem_free_spec.
  - destruct Hc as (-> & Hp & next & Hn & Hc). rewrite (proj2 (Z.eqb_neq p 0)) by done.
    inversion_clear Hnd as [|?? Hpl Hnd']. apply not_elem_of_cons in Hnin as [Htp Htl].
    apply wp_bind. eapply wp_mono; [by apply mem_free_spec| |done|done]. intros _ s1 (h1 & -> & Hm).
    assert (∀ q, q ∈ block_at tmp → q = tmp) as Hblk.
    { unfold block_at. intros q. case_match; [by intros ?%elem_of_nil|]. rewrite elem_of_cons, elem_of_nil. tauto. }
    assert (h1 !! p = Some next) as Hn1 by (rewrite Hm, decide_False; [done|]; intros ?%Hblk; done).
    unfold mem_next. apply wp_bind, wp_bind, wp_gets, wp_of_option; cbn [cm_heap set]; rewrite Hn1; [|done].
    intros ? [= <-]. eapply wp_mono; [apply (IH fuel p next)| |done|done]; cbn [cm_heap set].
    + eapply chain_minus; [exact Hc|exact Hm|]. intros q Hq ->%Hblk. done.
    + done.
    + right. by exists next.
    + done.
    + cbn in Hf. lia.
    + intros _ s2 Hs2. replace (block_at p ++ l) with (p :: l) in Hs2
        by (unfold block_at; by rewrite (proj2 (Z.eqb_neq p 0))).
      eapply freed_app; [|exact Hs2]. by exists h1.
Qed.

Lemma list_destroy_spec l head s :
  chain (cm_heap s) head l → NoDup l → cm_heap s !! 0 = None →
  wp (UCENTRAL_LIST_DESTROY_SAFE head) (λ _, freed s l) (λ _, False) no_fault s.
Proof.
  intros Hc Hnd H0. unfold UCENTRAL_LIST_DESTROY_SAFE. apply wp_bind, wp_gets.
  change l with (block_at 0 ++ l) at 1. apply destroy_loop_spec; [done|done|by left| |].
  - intros Hin. by destruct (chain_live _ _ _ _ Hc Hin).
  - pose proof (chain_size _ _ _ Hc Hnd). lia.
Qed.

Lemma concat_parts {A B} (f : A → list B) a d x t b :
  NoDup (a ++ concat (f <$> (d ++ x :: t)) ++ b) →
  NoDup (f x) ∧ ∀ p, p ∈ f x → p ∉ a ++ concat (f <$> d).
Proof.
  rewrite fmap_app, fmap_cons, concat_app. cbn [concat].
  rewrite <- !(app_assoc (concat (f <$> d))), (app_assoc a), <- (app_assoc (f x)).
  intros (_ & Hd & Hx)%NoDup_app. split; [by apply NoDup_app in Hx as (? & _)|]. intros p Hp Hin. apply (Hd p Hin). rewrite elem_of_app. by left.
Qed.

(** C27: Giving back a configuration ([plat_config_destroy]): when the array of
    routes, the members of the configured VLANs, the isolation sessions and the
    RADIUS hosts are separate blocks, each is freed exactly once, none is read
    after it was freed, and every other block stays: the port lists of the
    isolation sessions and the IGMP groups of the VLANs, to which only freed
    blocks and the configuration itself point, are lost. *)
Theorem config_destroy_frees (s : cfg_memory) (members : Z → list Z) (hosts : list Z) :
  let vids := BITMAP_FOR_EACH_BIT_SET (cm_vlans_to_cfg s) GNMA_MAX_VLANS in
  let owned := block_at (cm_routes s) ++ concat (members <$> vids) ++ block_at (cm_sessions s) ++ hosts in
  cm_heap s !! 0 = None →
  cm_routes s = 0 ∨ is_Some (cm_heap s !! cm_routes s) →
  cm_sessions s = 0 ∨ is_Some (cm_heap s !! cm_sessions s) →
  (∀ vid, vid ∈ vids → chain (cm_heap s) (arr_get 0 (cm_members s) vid) (members vid)) →
  chain (cm_heap s) (cm_hosts s) hosts →
  NoDup owned →
  wp plat_config_destroy
    (λ _ s', minus (cm_heap s) owned (cm_heap s') ∧ cm_routes s' = 0 ∧
             ∀ vid, vid ∈ vids → arr_get 0 (cm_members s') vid = 0)
    (λ _, False) no_fault s.
Proof.
  intros vids owned H0 Hr Hss Hm Hh Hnd. unfold plat_config_destroy.
  apply wp_bind, wp_gets, wp_bind. eapply wp_mono; [by apply mem_free_spec| |done|done].
  intros _ s1 (h1 & -> & Hm1). apply wp_bind, wp_modify, wp_bind, wp_gets. cbn [cm_vlans_to_cfg set]. fold vids.
  assert (NoDup vids) as Hvids.
  { unfold vids. rewrite for_each_bit_set_eq by done. apply list.NoDup_filter, NoDup_seqZ. }
  apply wp_bind, (wp_for_each (λ done s', minus (cm_heap s) (block_at (cm_routes s) ++ concat (members <$> done)) (cm_heap s') ∧
    cm_routes s' = 0 ∧ cm_sessions s' = cm_sessions s ∧ cm_hosts s' = cm_hosts s ∧
    ∀ vid, arr_get 0 (cm_members s') vid = if decide (vid ∈ done) then 0 else arr_get 0 (cm_members s) vid)).
  - cbn. rewrite app_nil_r. by split_and!.
  - intros done vid todo s' Hsplit (Hmin & Hr' & Hs' & Hh' & Hmem).
    assert (vid ∈ vids) as Hin by (rewrite Hsplit, elem_of_app, elem_of_cons; tauto).
    assert (vid ∉ done) as Hnin.
    { rewrite Hsplit, NoDup_app in Hvids. destruct Hvids as (_ & Hd & _). intros H. apply (Hd _ H). by left. }
    unfold owned in Hnd. rewrite Hsplit in Hnd. apply concat_parts in Hnd as [Hndv Hdis].
    apply wp_bind, wp_gets, wp_bind. unfold arr_read.
    apply elem_of_for_each_bit_set in Hin as Hb; [|done]. destruct Hb as [Hb _].
    assert ((0 <=? vid) && (vid <? MAX_VLANS) = true) as ->
      by (unfold MAX_VLANS, GNMA_MAX_VLANS in *; apply andb_true_iff; split; lia).
    apply wp_ret, wp_bind. rewrite Hmem, decide_False by done.
    eapply wp_mono; [apply (list_destroy_spec (members vid))| |done|done].
    + eapply chain_minus; [by apply Hm|exact Hmin|exact Hdis].
    + done.
    + rewrite Hmin. by case_decide.
    + intros _ s2 (h2 & -> & Hm2). apply wp_modify. split_and!; try done.
      * rewrite fmap_app, concat_app, app_assoc. cbn [fmap list_fmap concat]. rewrite app_nil_r.
        eapply minus_app; [exact Hmin|exact Hm2].
      * intros v. cbn [cm_members set]. rewrite arr_get_insert, Hmem.
        destruct (decide (vid = v)) as [->|Hne].
        -- rewrite decide_True; [done|]. rewrite elem_of_app, elem_of_cons. tauto.
        -- apply decide_ext. rewrite elem_of_app, elem_of_cons, elem_of_nil. naive_solver.
  - intros s' (Hmin & Hr' & Hs' & Hh' & Hmem).
    unfold owned in Hnd |- *. rewrite app_assoc in Hnd |- *. apply NoDup_app in Hnd as (_ & Hd & Hnd2).
    apply NoDup_app in Hnd2 as (_ & Hd2 & Hndh).
    apply wp_bind, wp_gets, wp_bind. rewrite Hs'. eapply wp_mono; [apply mem_free_spec| |done|done].
    { destruct Hss as [->|[n Hn]]; [by left|]. destruct (decide (cm_sessions s = 0)) as [|Hne]; [by left|]. right.
      exists n. rewrite Hmin, decide_False; [done|]. intros Hin. apply (Hd _ Hin). rewrite elem_of_app. left.
      unfold block_at. rewrite (proj2 (Z.eqb_neq _ 0)) by done. by left. }
    intros _ s2 (h2 & -> & Hm2). apply wp_bind, wp_gets. cbn [cm_hosts set]. rewrite Hh'.
    pose proof (minus_app _ _ _ _ _ Hmin Hm2) as Hm12.
    eapply wp_mono; [apply (list_destroy_spec hosts); cbn [cm_heap set]| |done|done].
    + eapply chain_minus; [exact Hh|exact Hm12|]. intros q Hq. rewrite elem_of_app. intros [Hin|Hin].
      * apply (Hd _ Hin). rewrite elem_of_app. by right.
      * by apply (Hd2 _ Hin).
    + done.
    + rewrite Hm12. by case_decide.
    + intros _ s3 (h3 & -> & Hm3). split_and!; [|done|].
      * cbn [cm_heap set]. rewrite (app_assoc (_ ++ _)). by eapply minus_app.
      * intros vid Hvid. cbn [cm_members set]. by rewrite Hmem, decide_True.
Qed.

(** VLAN 7 has two members; the block 50 is a port of an isolation session. *)
Definition sample_heap : gmap Z Z := list_to_map [(10, 0); (20, 21); (21, 0); (30, 0); (40, 0); (50, 0)].
Definition sample_memory : cfg_memory :=
  mk_cfg_memory sample_heap 10
    (BITMAP_SET_BIT (BITMAP_CLEAR MAX_VLANS) 7) {[7 := 20]} 30 40.
Definition sample_members (vid : Z) : list Z := if vid =? 7 then [20; 21] else [].
Lemma sample_vids : BITMAP_FOR_EACH_BIT_SET (cm_vlans_to_cfg sample_memory) GNMA_MAX_VLANS = [7].
Proof. vm_compute. reflexivity. Qed.

Lemma sample_chains : chain sample_heap 20 [20; 21] ∧ chain sample_heap 40 [40].
Proof.
  split; cbn [chain].
  - split; [reflexivity|]. split; [discriminate|]. exists 21. split; [reflexivity|].
    split; [reflexivity|]. split; [discriminate|]. exists 0. split; reflexivity.
  - split; [reflexivity|]. split; [discriminate|]. exists 0. split; reflexivity.
Qed.

Lemma config_destroy_frees_witness :
  wp plat_config_destroy
    (λ _ s', minus (cm_heap sample_memory) [10; 20; 21; 30; 40] (cm_heap s') ∧ cm_heap s' !! 50 = Some 0)
    (λ _, False) no_fault sample_memory.
Proof.
  pose proof (config_destroy_frees sample_memory sample_members [40]) as H. cbv zeta in H. rewrite sample_vids in H.
  eapply wp_mono; [apply H| |done|done].
  - reflexivity.
  - right. by exists 0.
  - right. by exists 0.
  - intros vid ->%list_elem_of_singleton. exact (proj1 sample_chains).
  - exact (proj2 sample_chains).
  - apply (bool_decide_unpack _). vm_compute. exact I.
  - intros _ s' (Hm & _ & _). split; [exact Hm|].
    assert (50 ∉ [10; 20; 21; 30; 40]) as H50 by (rewrite !elem_of_cons, elem_of_nil; lia).
    pose proof (Hm 50) as E. rewrite E. by apply decide_False.
Defined.
