(* ===== verification/PlatRouterSpec.v ===== *)
(** * Applying the routes: the switch ends up with the configured ones

    [PlatVlan.config_router_apply] against an abstract routing table: the
    map of prefixes to routes that the settings answered with 0 build, whatever
    the switch answered to the others. *)

From S2P Require Import Prelude CNum CStr Bitmap Router PlatTypes Gnma PlatState PlatVlan PlatSample.
#[local] Open Scope list_scope.

(** ** The keys of the steps of a difference increase *)
Definition step_key (d : diff_step) : fib_key :=
  match d with DiffUpd n _ | DiffAdd n => node_key n | DiffDel o => node_key o end.

Lemma step_ok_key N O d : step_ok N O d → step_key d ∈ keys N ∨ step_key d ∈ keys O.
Proof.
  destruct d; simpl; [intros (H & _)|intros (H & _)|intros (H & _)]; auto using elem_of_keys.
Qed.

Lemma steps_above k N O ds :
  (∀ x, x ∈ keys N → key_lt k x) → (∀ x, x ∈ keys O → key_lt k x) →
  Forall (step_ok N O) ds → Forall (key_lt k) (step_key <$> ds).
Proof.
  intros HN HO H. apply Forall_fmap. eapply Forall_impl; [exact H|].
  intros d [Hd|Hd]%step_ok_key; simpl; auto.
Qed.

Lemma key_le_head k n l :
  key_lt k (node_key n) → fib_sorted (n :: l) → ∀ x, x ∈ keys (n :: l) → key_lt k x.
Proof.
  intros Hk Hs x. eapply (keys_below k (n :: l)); [done|]. by intros m l' [= <- <-].
Qed.

Lemma diff_loop_increasing new old fuel inew iold :
  fib_sorted (drop inew (r_arr new)) → fib_sorted (drop iold (r_arr old)) →
  StronglySorted key_lt (step_key <$> diff_loop fuel new old inew iold).
Proof.
  revert inew iold. induction fuel as [|fuel IH]; intros inew iold HN HO; [constructor|].
  cbn [diff_loop]. unfold router_db_diff_get.
  destruct (r_arr new !! inew) as [n|] eqn:En, (r_arr old !! iold) as [o|] eqn:Eo; [| | |constructor].
  all: try pose proof (drop_lookup _ _ _ En) as Dn; try pose proof (drop_none _ _ En) as Dn.
  all: try pose proof (drop_lookup _ _ _ Eo) as Do; try pose proof (drop_none _ _ Eo) as Do.
  all: pose proof HN as HN'; pose proof HO as HO'; rewrite Dn in HN'; rewrite Do in HO'.
  all: try pose proof (sorted_tail _ _ HN') as TN; try pose proof (sorted_tail _ _ HO') as TO.
  - destruct (Z.eqb_spec (ucentral_router_fib_key_cmp (node_key n) (node_key o)) 0) as [E0|E0].
    { apply key_cmp_0 in E0. constructor; [by apply IH|].
      eapply steps_above; [| |by apply diff_loop_steps].
      - intros x. by apply sorted_head.
      - intros x. simpl. rewrite E0. by apply sorted_head. }
    destruct (Z.ltb_spec 0 (ucentral_router_fib_key_cmp (node_key n) (node_key o))) as [E|E].
    + assert (key_lt (node_key o) (node_key n)) as Hlt.
      { apply key_cmp_lt. rewrite key_cmp_opp. lia. }
      constructor; [by apply IH|]. eapply steps_above; [| |by apply diff_loop_steps].
      * rewrite Dn. by apply key_le_head.
      * intros x. by apply sorted_head.
    + assert (key_lt (node_key n) (node_key o)) as Hlt by (apply key_cmp_lt; lia).
      constructor; [by apply IH|]. eapply steps_above; [| |by apply diff_loop_steps].
      * intros x. by apply sorted_head.
      * rewrite Do. by apply key_le_head.
  - constructor; [by apply IH|]. eapply steps_above; [| |by apply diff_loop_steps].
    + intros x. by apply sorted_head.
    + rewrite Do. intros x Hx. by apply elem_of_nil in Hx.
  - constructor; [by apply IH|]. eapply steps_above; [| |by apply diff_loop_steps].
    + rewrite Dn. intros x Hx. by apply elem_of_nil in Hx.
    + intros x. by apply sorted_head.
Qed.

(** ** The abstract table *)
Abbreviation routes := (gmap fib_key gnma_route_attrs).

Definition route_effect (t : routes) (c : gnma_call * Z) : routes :=
  match c with
  | (gnma_route_create pref attr, 0) => <[gnma_prefix2router_fib_key pref := attr]> t
  | (gnma_route_remove pref, 0) => delete (gnma_prefix2router_fib_key pref) t
  | _ => t
  end.
Definition route_table (t : routes) (calls : list (gnma_call * Z)) : routes :=
  foldl route_effect t calls.

(** The routes of a database the switch can be given. *)
Definition representable (m : gmap fib_key fib_info) : routes := omap router_fib_info2gnma_attr m.

Definition removed (c : gnma_call * Z) : bool :=
  match c with (gnma_route_remove _, rc) => rc =? 0 | _ => true end.
Definition is_route_call (c : gnma_call * Z) : bool :=
  match c.1 with gnma_route_create _ _ | gnma_route_remove _ => true | _ => false end.

Definition db_ok (r : router) : Prop :=
  NoDup (keys (r_arr r)) ∧ (r_sorted r = true → fib_sorted (r_arr r)).

Lemma key_of_prefix k : gnma_prefix2router_fib_key (router_fib_key2gnma_prefix k) = k.
Proof. by destruct k. Qed.

Lemma fib_sorted_nodup l : fib_sorted l → NoDup (keys l).
Proof.
  unfold fib_sorted. generalize (keys l). induction 1 as [|k ks Hs IH Hf]; constructor; [|done].
  intros Hin. rewrite Forall_forall in Hf. exact (key_lt_irrefl _ (Hf _ Hin)).
Qed.

Lemma fib_map_elem n l : NoDup (keys l) → n ∈ l → fib_map l !! node_key n = Some (node_info n).
Proof.
  intros Hd Hn. apply elem_of_list_to_map_1; [by rewrite map_map|].
  apply list_elem_of_fmap. by exists n.
Qed.

Section router_spec.
Context `{G : Gnma, GS : !GnmaSafe, Q : QSort, QL : !QSortLaws}.

Lemma sorted_db_spec r : db_ok r →
  fib_sorted (r_arr (sorted_db r)) ∧ r_arr (sorted_db r) ≡ₚ r_arr r ∧ r_sorted (sorted_db r) = true.
Proof.
  intros [Hd Hs]. unfold sorted_db. destruct (r_sorted r) eqn:E; [by auto|].
  destruct (db_sort_spec r) as (Hp & Ho & _). split_and!; [|done|done].
  apply sorted_distinct; [done|]. unfold keys. by rewrite Hp.
Qed.

Lemma fib_map_perm l1 l2 : NoDup (keys l1) → l1 ≡ₚ l2 → fib_map l1 = fib_map l2.
Proof.
  intros Hd Hp. apply list_to_map_proper; [by rewrite map_map|]. by rewrite Hp.
Qed.

Lemma keys_perm (l1 l2 : list fib_node) : l1 ≡ₚ l2 → keys l1 ≡ₚ keys l2.
Proof. intros H. unfold keys. by rewrite H. Qed.

Lemma representable_insert k i m :
  representable (<[k := i]> m) =
    match router_fib_info2gnma_attr i with
    | Some a => <[k := a]> (representable m)
    | None => delete k (representable m)
    end.
Proof. unfold representable. rewrite omap_insert. by destruct (router_fib_info2gnma_attr i). Qed.

Lemma wp_pl_alloc (P : bool → plat → Prop) E F p :
  (∀ ok p', pl_state p' = pl_state p ∧ pl_calls p' = pl_calls p → P ok p') → wp pl_alloc P E F p.
Proof. intros H. unfold pl_alloc, wp. destruct (pl_heap p); by apply H. Qed.

(** ** One step *)

(** What a run has set, and that it changed nothing else. *)
Definition route_calls (p p' : plat) (calls : list (gnma_call * Z)) : Prop :=
  pl_calls p' = pl_calls p ++ calls ∧ pl_state p' = pl_state p ∧
  Forall (λ c, is_route_call c = true) calls.

Lemma route_calls_none p : route_calls p p [].
Proof. split_and!; [by rewrite app_nil_r|done|constructor]. Qed.

Lemma route_calls_app p1 p2 p3 c1 c2 :
  route_calls p1 p2 c1 → route_calls p2 p3 c2 → route_calls p1 p3 (c1 ++ c2).
Proof.
  intros (A1 & B1 & F1) (A2 & B2 & F2). split_and!; [|congruence|by apply Forall_app].
  by rewrite A2, A1, app_assoc.
Qed.

(** The step [d] leads a switch whose table is [m] to one whose table is [m]
    after the step. *)
Definition step_reaches (m : gmap fib_key fib_info) (d : diff_step) (calls : list (gnma_call * Z)) : Prop :=
  Forall (λ c, removed c = true) calls →
  route_table (representable m) calls = representable (diff_apply m d).

Lemma route_remove_spec n p :
  wp (route_remove n) (λ _ p', ∃ rc, route_calls p p' [(gnma_route_remove (router_fib_key2gnma_prefix (node_key n)), rc)])
    (λ _, False) no_fault p.
Proof.
  unfold route_remove. apply wp_bind. unfold gnma, wp.
  destruct (gnma_do_safe (gnma_route_remove (router_fib_key2gnma_prefix (node_key n))) (pl_gnma p) eq_refl)
    as (rc & g & ->). cbn. exists rc. split_and!; [done|done|by repeat constructor].
Qed.

Lemma route_create_spec n p :
  wp (route_create n) (λ _ p', ∃ a, router_fib_info2gnma_attr (node_info n) = Some a ∧
      route_calls p p' [(gnma_route_create (router_fib_key2gnma_prefix (node_key n)) a, 0)])
    (λ p', pl_state p' = pl_state p) no_fault p.
Proof.
  unfold route_create. destruct (router_fib_info2gnma_attr _) as [a|]; [|by apply wp_fail].
  unfold gnma_ok, gnma. apply wp_bind. unfold wp at 1.
  destruct (gnma_do_safe (gnma_route_create (router_fib_key2gnma_prefix (node_key n)) a) (pl_gnma p) eq_refl)
    as (rc & g & ->).
  apply wp_fail_if; [done|]. intros Hrc%negb_false_iff%Z.eqb_eq. subst rc.
  exists a. split; [done|]. split_and!; [done|done|by repeat constructor].
Qed.

Lemma created_reaches m n a :
  router_fib_info2gnma_attr (node_info n) = Some a →
  route_effect (representable m) (gnma_route_create (router_fib_key2gnma_prefix (node_key n)) a, 0)
  = representable (<[node_key n := node_info n]> m).
Proof. intros Ha. rewrite representable_insert, Ha. cbn. by rewrite key_of_prefix. Qed.

Lemma step_spec d m p :
  (∀ n o, d = DiffUpd n o → node_key n = node_key o ∧ m !! node_key o = Some (node_info o)) →
  wp (route_diff_apply d) (λ _ p', ∃ calls, route_calls p p' calls ∧ step_reaches m d calls)
    (λ p', pl_state p' = pl_state p) no_fault p.
Proof.
  intros Hd. destruct d as [n o|o|n]; cbn [route_diff_apply].
  - destruct (Hd n o eq_refl) as [Hk Hm].
    destruct (Z.eqb_spec (ucentral_router_fib_info_cmp (node_info n) (node_info o)) 0) as [E|E].
    { apply info_cmp_0 in E. apply wp_ret. exists []. split; [apply route_calls_none|].
      intros _. cbn. rewrite insert_id; [done|]. by rewrite Hk, E. }
    apply wp_bind. eapply wp_mono; [apply route_remove_spec| |done|done].
    intros _ p1 (rc & C1). eapply wp_mono; [apply route_create_spec| | |done].
    + intros _ p2 (a & Ha & C2). eexists. split; [by eapply route_calls_app|].
      intros Hr. inversion_clear Hr as [|?? Hrc _]. cbn in Hrc. apply Z.eqb_eq in Hrc as ->.
      cbn. rewrite !key_of_prefix, insert_delete_eq, representable_insert, Ha. done.
    + intros p2 ->. by destruct C1 as (_ & ? & _).
  - eapply wp_mono; [apply route_remove_spec| |done|done]. intros _ p1 (rc & C1).
    eexists. split; [exact C1|]. intros Hr. inversion_clear Hr as [|?? Hrc _].
    cbn in Hrc. apply Z.eqb_eq in Hrc as ->. cbn. rewrite key_of_prefix.
    symmetry. apply omap_delete.
  - eapply wp_mono; [apply route_create_spec| |done|done]. intros _ p1 (a & Ha & C1).
    eexists. split; [exact C1|]. intros _. cbn [route_table foldl diff_apply]. by apply created_reaches.
Qed.

(** ** All steps *)

(** A step whose key the earlier ones do not have finds the old route. *)
Lemma untouched ds (m : gmap fib_key fib_info) k :
  k ∉ (step_key <$> ds) → foldl diff_apply m ds !! k = m !! k.
Proof.
  revert m. induction ds as [|d ds IH]; intros m Hk; [done|]. cbn in *.
  apply not_elem_of_cons in Hk as [Hk Hks]. rewrite IH by done.
  destruct d; cbn in *; [apply lookup_insert_ne|apply lookup_delete_ne|apply lookup_insert_ne]; congruence.
Qed.

Lemma route_table_app t c1 c2 : route_table t (c1 ++ c2) = route_table (route_table t c1) c2.
Proof. apply foldl_app. Qed.

Lemma steps_spec new old p :
  fib_sorted (r_arr new) → fib_sorted (r_arr old) →
  wp (for_each (for_router_db_diff new old) route_diff_apply)
    (λ _ p', ∃ calls, route_calls p p' calls ∧
       (Forall (λ c, removed c = true) calls →
        route_table (representable (fib_map (r_arr old))) calls = representable (fib_map (r_arr new))))
    (λ p', pl_state p' = pl_state p) no_fault p.
Proof.
  intros HN HO. set (m0 := fib_map (r_arr old)).
  pose proof (diff_loop_steps new old (length (r_arr new) + length (r_arr old)) 0 0) as Hok.
  pose proof (diff_loop_increasing new old (length (r_arr new) + length (r_arr old)) 0 0) as Hinc.
  rewrite !drop_0 in Hok, Hinc. specialize (Hok HN HO). specialize (Hinc HN HO).
  fold (for_router_db_diff new old) in Hok, Hinc.
  apply (wp_for_each (λ done p', ∃ calls, route_calls p p' calls ∧
    (Forall (λ c, removed c = true) calls →
     route_table (representable m0) calls = representable (foldl diff_apply m0 done)))).
  - exists []. split; [apply route_calls_none|done].
  - intros before d todo p1 Hl (c1 & C1 & R1). rewrite Hl in Hok, Hinc.
    apply Forall_app in Hok as [_ Hok]. inversion_clear Hok as [|?? Hd _].
    rewrite fmap_app in Hinc. cbn in Hinc.
    eapply wp_mono; [apply (step_spec d (foldl diff_apply m0 before))| | |done].
    + intros n o ->. cbn in Hd. destruct Hd as (_ & Ho & Hk). split; [done|].
      rewrite untouched; [by apply fib_map_elem; [apply fib_sorted_nodup|]|].
      intros Hin. rewrite <- Hk in Hin.
      apply (key_lt_irrefl (node_key n)).
      refine (StronglySorted_app_1_elem_of key_lt (step_key <$> before) _ _ _ Hinc Hin _). by left.
    + intros _ p2 (c2 & C2 & R2). exists (c1 ++ c2). split; [by eapply route_calls_app|].
      intros [F1 F2]%Forall_app. rewrite route_table_app, R1, R2, foldl_app by done. done.
    + intros p2 ->. by destruct C1 as (_ & ? & _).
  - intros p1 (calls & C & R). exists calls. split; [done|]. intros F. rewrite R by done.
    f_equal. apply map_eq. intros k. unfold for_router_db_diff.
    rewrite diff_loop_lookup by (rewrite ?drop_0; done || lia). rewrite !drop_0.
    destruct (fib_map (r_arr new) !! k); [done|]. case_decide; [done|].
    by apply fib_map_lookup_None.
Qed.

(** C6: Applying the routes of a configuration refines the assignment of a
    routing table.  Whatever the switch answers, when [config_router_apply]
    succeeds the cache is the database of the configuration, sorted; only
    routes were set; and if the switch had the routes of the cache and removed
    every route it was asked to remove, it now has exactly those of the
    configuration.  When it fails the cache keeps its routes, and it never
    faults.  No prefix may occur twice in either database. *)
Theorem router_apply_reconciles (cfg : plat_cfg) (p : plat) :
  db_ok (cfg_router cfg) → db_ok (ps_router (pl_state p)) →
  wp (config_router_apply cfg)
    (λ _ p', ps_router (pl_state p') = sorted_db (cfg_router cfg) ∧ db_ok (ps_router (pl_state p')) ∧
       ∃ calls, pl_calls p' = pl_calls p ++ calls ∧ Forall (λ c, is_route_call c = true) calls ∧
         (Forall (λ c, removed c = true) calls →
          route_table (representable (fib_map (r_arr (ps_router (pl_state p))))) calls =
          representable (fib_map (r_arr (cfg_router cfg)))))
    (λ p', db_ok (ps_router (pl_state p')) ∧
       fib_map (r_arr (ps_router (pl_state p'))) = fib_map (r_arr (ps_router (pl_state p))))
    no_fault p.
Proof.
  intros HN HO. destruct (sorted_db_spec _ HN) as (SN & PN & TN), (sorted_db_spec _ HO) as (SO & PO & TO).
  assert (∀ r, r_arr r = r_arr (sorted_db (ps_router (pl_state p))) →
    db_ok r ∧ fib_map (r_arr r) = fib_map (r_arr (ps_router (pl_state p)))) as Hkeep.
  { intros r Hr. unfold db_ok. rewrite Hr. split; [split; [by apply fib_sorted_nodup|by intros _]|].
    apply fib_map_perm; [by apply fib_sorted_nodup|done]. }
  unfold config_router_apply, cache. apply wp_bind, wp_gets, wp_bind, wp_pl_alloc. intros ok p1 [Hs Hc].
  unfold ucentral_router_fib_db_copy, ucentral_router_fib_db_alloc. destruct ok.
  2:{ apply wp_fail. by rewrite Hs. }
  cbn [r_max]. set (newr := {| r_arr := r_arr (cfg_router cfg); r_max := r_max (cfg_router cfg);
                               r_sorted := r_sorted (cfg_router cfg) |}).
  replace newr with (cfg_router cfg) by (by destruct (cfg_router cfg)). clear newr.
  apply wp_bind, wp_modify, wp_bind. set (p2 := set pl_state _ _).
  eapply wp_mono; [apply (steps_spec _ _ p2); [exact SN|exact SO]| | |done].
  - intros _ p3 (calls & (A & B & F) & R). apply wp_modify. cbn. split; [done|].
    split; [split; [by apply fib_sorted_nodup|by intros _]|].
    exists calls. rewrite A. cbn. rewrite Hc. split_and!; [done|done|]. intros Hr. specialize (R Hr).
    rewrite <- (fib_map_perm _ _ (fib_sorted_nodup _ SO) PO), R.
    by rewrite (fib_map_perm _ _ (fib_sorted_nodup _ SN) PN).
  - intros p3 ->. cbn. by apply Hkeep.
Qed.
End router_spec.

(** ** Witness: a route changes, one goes, one comes *)
#[local] Existing Instances sample_gnma merge_qsort.

Definition sample_key (a l : Z) : fib_key := {| prefix := a; prefix_len := l |}.
Definition old_routes : router :=
  {| r_arr := [{| node_key := sample_key 5 16; node_info := ROUTE_BLACKHOLE |};
               {| node_key := sample_key 3 16; node_info := ROUTE_CONNECTED 7 |}];
     r_max := 2; r_sorted := false |}.
Definition new_routes : router :=
  {| r_arr := [{| node_key := sample_key 1 24; node_info := ROUTE_BLACKHOLE |};
               {| node_key := sample_key 3 16; node_info := ROUTE_NH 7 9 |}];
     r_max := 2; r_sorted := false |}.
Definition routes_cfg : plat_cfg := zero_plat_cfg <| cfg_router := new_routes |>.
Definition routes_plat : plat :=
  sample_plat [] <| pl_state := zero_plat_state <| ps_router := old_routes |> |>.
Definition routes_calls : list (gnma_call * Z) :=
  [(gnma_route_remove (mk_gnma_ip_prefix false 3 16), 0);
   (gnma_route_create (mk_gnma_ip_prefix false 3 16) (GNMA_ROUTE_TYPE_NEXTHOP 7 9), 0);
   (gnma_route_remove (mk_gnma_ip_prefix false 5 16), 0);
   (gnma_route_create (mk_gnma_ip_prefix false 1 24) GNMA_ROUTE_TYPE_BLACKHOLE, 0)].

Lemma routes_run : calls_made (config_router_apply routes_cfg) routes_plat = Some routes_calls.
Proof. vm_compute. reflexivity. Qed.

Lemma router_apply_reconciles_witness :
  route_table (representable (fib_map (r_arr old_routes))) routes_calls =
  representable (fib_map (r_arr new_routes)).
Proof.
  pose proof (router_apply_reconciles (QL := merge_qsort_laws) routes_cfg routes_plat) as H.
  apply (λ W, wp_calls _ _ _ _ _ _ W routes_run) in H as (_ & p' & E & _ & _ & c & Hc & _ & Ht).
  - rewrite E in Hc. change (routes_calls = c) in Hc. subst c. apply Ht. repeat constructor.
  - split; [apply (bool_decide_unpack _); by vm_compute|done].
  - split; [apply (bool_decide_unpack _); by vm_compute|done].
Defined.
