(* ===== verification/PlatScriptSpec.v ===== *)
(** * Remote scripts: what can be run, and one at a time *)

From S2P Require Import Prelude CNum CStr Base64 PlatScript.
From Stdlib Require Import Ascii.
#[local] Open Scope list_scope.

(** ** One word *)
Lemma put_char_length n out c : (length out ≤ n)%nat → (length (put_char n out c) ≤ n)%nat.
Proof. unfold put_char. destruct (Nat.ltb_spec (length out) n); [rewrite length_app; simpl; lia|done]. Qed.

(** The loop consumes: what is left is shorter than the text, strictly when
    there was something to read; and the output stays within the limit. *)
Lemma wordexp_loop_spec n s esc q out tl :
  (length out ≤ n)%nat →
  match wordexp_loop n s esc q out tl with
  | (rest, out', _, _) => (length out' ≤ n)%nat ∧ (length rest ≤ length s)%nat ∧
                          (s ≠ [] → (length rest < length s)%nat)
  end.
Proof.
  revert esc q out tl. induction s as [|ch r IH]; intros esc q out tl Hn; cbn [wordexp_loop].
  { split_and!; [done|done|congruence]. }
  assert (∀ esc q out tl, (length out ≤ n)%nat →
    match wordexp_loop n r esc q out tl with
    | (rest, out', _, _) => (length out' ≤ n)%nat ∧ (length rest ≤ length (ch :: r))%nat ∧
                            (ch :: r ≠ [] → (length rest < length (ch :: r))%nat) end) as Hnext.
  { intros e q' o t Ho. specialize (IH e q' o t Ho). destruct (wordexp_loop n r e q' o t) as [[[? ?] ?] ?].
    destruct IH as (? & ? & ?). simpl. split_and!; [done|lia|intros; lia]. }
  assert (∀ b : bool, (length (if b then put_char n out backslash else out) ≤ n)%nat) as Hb.
  { intros []; auto using put_char_length. }
  destruct (negb esc && _); [by apply Hnext|].
  destruct esc; [by apply Hnext, put_char_length, Hb|]. destruct q as [c|].
  - destruct (Ascii.eqb ch c); apply Hnext; auto using put_char_length.
  - destruct (_ || _); [by apply Hnext|].
    destruct (is_space ch); [split_and!; simpl; lia|]. by apply Hnext, put_char_length.
Qed.

Lemma skip_blanks_length s : (length (skip_blanks s) ≤ length s)%nat.
Proof. induction s as [|c s IH]; simpl; [done|]. destruct (is_space c); simpl; lia. Qed.

Lemma wordexp_shrinks s n :
  match simple_wordexp s n with
  | (rest, out, _, _) => (length out ≤ n)%nat ∧ (s ≠ [] → (length rest < length s)%nat)
  end.
Proof.
  unfold simple_wordexp. pose proof (wordexp_loop_spec n (skip_blanks s) false None [] 0 ltac:(simpl; lia)) as H.
  pose proof (skip_blanks_length s).
  destruct (wordexp_loop _ _ _ _ _ _) as [[[rest out] tl] delim]. destruct H as (H1 & H2 & H3).
  split; [done|]. intros Hs. destruct (skip_blanks s) as [|c r] eqn:E.
  - destruct rest; simpl in *; [destruct s; simpl; [done|lia]|lia].
  - specialize (H3 ltac:(done)). lia.
Qed.

(** ** One line *)
Lemma parse_line_spec n script delim ignore args :
  (ignore = false → Forall (λ a, (length a < SCRIPT_TOKLEN)%nat) args) →
  match parse_line n script delim ignore args with
  | (rest, ignore', args') =>
      (length rest ≤ length script)%nat ∧
      (script ≠ [] → n ≠ O → delim ≠ "010"%char → (length rest < length script)%nat) ∧
      (ignore' = false → Forall (λ a, (length a < SCRIPT_TOKLEN)%nat) args')
  end.
Proof.
  revert script delim ignore args. induction n as [|n IH]; intros script delim ignore args Ha; cbn [parse_line].
  { split_and!; [done|done|done]. }
  destruct script as [|c script]; [by split_and!|].
  destruct (Ascii.eqb_spec delim "010") as [->|Hd]; [by split_and!|].
  pose proof (wordexp_shrinks (c :: script) SCRIPT_TOKLEN) as Hw.
  destruct (simple_wordexp _ _) as [[[rest out] tl] delim']. destruct Hw as [Ho Hs].
  specialize (Hs ltac:(done)).
  specialize (IH rest delim' (ignore || (length out =? SCRIPT_TOKLEN)%nat) (args ++ [out])).
  destruct (parse_line n _ _ _ _) as [[rest' ignore'] args']. destruct IH as (I1 & _ & I3).
  { intros [H1 H2%Nat.eqb_neq]%orb_false_iff. apply Forall_app. split; [by apply Ha|].
    constructor; [lia|constructor]. }
  split_and!; [lia|intros; lia|done].
Qed.

Lemma line_args_spec script :
  match line_args script with
  | (rest, ignore, args) => (script ≠ [] → (length rest < length script)%nat) ∧
      (ignore = false → Forall (λ a, (length a < SCRIPT_TOKLEN)%nat) args)
  end.
Proof.
  unfold line_args. pose proof (parse_line_spec SCRIPT_ARGMAX script nul false [] ltac:(done)) as H.
  destruct (parse_line _ _ _ _ _) as [[rest ignore] args]. destruct H as (_ & H1 & H2).
  split; [intros; by apply H1|done].
Qed.

(** What may be started. *)
Definition command_ok (args : list (list ascii)) : Prop :=
  (∃ prog rest, args = prog :: rest ∧ String.string_of_list_ascii prog ∈ programs) ∧
  (length args < SCRIPT_ARGMAX)%nat ∧ Forall (λ a, (length a < SCRIPT_TOKLEN)%nat) args.

Lemma allowed_spec args : allowed args = true →
  ∃ prog rest, args = prog :: rest ∧ String.string_of_list_ascii prog ∈ programs.
Proof.
  unfold allowed. destruct args as [|a rest]; [done|]. intros H. exists a, rest. split; [done|].
  apply existsb_exists in H as (p & Hp & He). apply String.eqb_eq in He. rewrite He.
  by apply list_elem_of_In.
Qed.

Lemma line_command_ok script :
  match line_args script with
  | (_, ignore, args) => ∀ c, line_command ignore args = Some c → command_ok c
  end.
Proof.
  pose proof (line_args_spec script) as H. destruct (line_args script) as [[rest ignore] args].
  destruct H as [_ H]. intros c. unfold line_command. destruct ignore; [done|]. cbn [orb].
  destruct (Nat.ltb_spec (length args) 1); [done|].
  destruct (Nat.leb_spec SCRIPT_ARGMAX (length args)); [done|]. cbn [orb].
  destruct (allowed args) eqn:E; [|done]. intros [= <-].
  split_and!; [by apply allowed_spec|done|by apply H].
Qed.

(** ** The runner *)
Definition result_ok (r : script_result) : Prop :=
  Forall command_ok (sr_commands r) ∧ Z.of_nat (length (sr_stdout r)) < SCRIPT_OUTLEN.

Lemma run_command_ok exec i args r : command_ok args → result_ok r → result_ok (run_command exec i args r).
Proof.
  intros Hc [H1 H2]. unfold run_command. set (r1 := set sr_commands _ r).
  assert (Forall command_ok (sr_commands r1)) as HF by (apply Forall_app; split; [done|by constructor]).
  destruct (exec i args) as [c|]; [|by split]. split; [exact HF|].
  cbn. rewrite length_app, length_take. unfold room, SCRIPT_OUTLEN in *. cbn. lia.
Qed.

Lemma script_loop_ok exec fuel i script r :
  result_ok r → result_ok (script_loop exec fuel i script r).
Proof.
  revert i script r. induction fuel as [|fuel IH]; intros i script r Hr; [done|]. cbn [script_loop].
  destruct script as [|c script]; [done|]. destruct (_ || _); [done|].
  pose proof (line_command_ok (c :: script)) as Hc. destruct (line_args _) as [[rest ignore] args].
  destruct (line_command ignore args) as [cmd|]; [|by apply IH].
  by apply IH, run_command_ok; [apply Hc|].
Qed.

Lemma script_loop_fuel exec fuel i script r :
  (length script ≤ fuel)%nat →
  script_loop exec fuel i script r = script_loop exec (length script) i script r.
Proof.
  revert i script r. induction fuel as [fuel IH] using lt_wf_ind. intros i script r Hf.
  destruct script as [|c script]; [by destruct fuel|]. destruct fuel as [|fuel]; [simpl in Hf; lia|].
  change (length (c :: script)) with (S (length script)). cbn [script_loop]. destruct (_ || _); [done|].
  pose proof (line_args_spec (c :: script)) as Hl. destruct (line_args _) as [[rest ignore] args].
  destruct Hl as [Hl _]. specialize (Hl ltac:(done)). simpl in *.
  assert (∀ r, script_loop exec fuel (S i) rest r = script_loop exec (length script) (S i) rest r) as E.
  { intros r'. rewrite (IH fuel) by lia. destruct (decide (length script = fuel)) as [->|].
    - by rewrite (IH fuel) by lia. - symmetry. apply IH; lia. }
  destruct (line_command ignore args); apply E.
Qed.

(** C15: Whatever a remote script says, and whatever the programs it starts do:
    the loop over its lines ends (every line consumes a character, so more fuel
    changes nothing); only [ping], [nslookup] and [traceroute] are started, with
    fewer than 32 words of fewer than 512 characters; and the collected output
    leaves room for its NUL in the buffer. *)
Theorem script_runner_safe (exec : nat → list (list ascii) → option cmd_result) (script : list ascii) :
  Forall command_ok (sr_commands (script_runner exec script)) ∧
  Z.of_nat (length (sr_stdout (script_runner exec script))) < SCRIPT_OUTLEN ∧
  (∀ fuel, (length script ≤ fuel)%nat →
     script_loop exec fuel 0 script (mk_script_result 0 0 [] false []) = script_runner exec script).
Proof.
  destruct (script_loop_ok exec (length script) 0 script (mk_script_result 0 0 [] false [])) as [H1 H2].
  { split; [constructor|done]. }
  split_and!; [exact H1|exact H2|]. intros fuel Hf. by apply script_loop_fuel.
Qed.

(** A blank before the end of a line hides it: the next line becomes arguments
    of this one. *)
Lemma trailing_blank_merges :
  let chars := String.list_ascii_of_string in
  line_args (chars "ping a " ++ "010"%char :: chars "ping b") =
    ([], false, chars <$> ["ping"; "a"; "ping"; "b"]) ∧
  line_args (chars "ping a" ++ "010"%char :: chars "ping b") =
    (chars "ping b", false, chars <$> ["ping"; "a"]).
Proof. split; by vm_compute. Qed.

(** ** One script at a time

    The calls of [plat_run_script] and the ends of the runners, in any order;
    a runner can only end when one is running. *)
Inductive script_event := RunScript (type : script_type) (script_base64 : list ascii) (timeout : Z) | RunnerEnds.

(** The state and the number of runners that are running. *)
Inductive script_step : script_state * nat → script_event → script_state * nat → Prop :=
  | step_started type b64 timeout s s' running :
      plat_run_script type b64 timeout s = Ok tt s' →
      script_step (s, running) (RunScript type b64 timeout) (s', S running)
  | step_refused type b64 timeout s s' running :
      plat_run_script type b64 timeout s = Err s' →
      script_step (s, running) (RunScript type b64 timeout) (s', running)
  | step_ends s s' running :
      runner_done s = Ok tt s' →
      script_step (s, S running) RunnerEnds (s', running).

Inductive script_run : script_state * nat → list script_event → script_state * nat → Prop :=
  | run_nil c : script_run c [] c
  | run_cons c1 e c2 es c3 : script_step c1 e c2 → script_run c2 es c3 → script_run c1 (e :: es) c3.

Definition one_runner (c : script_state * nat) : Prop := ss_count c.1 = Z.of_nat c.2 ∧ (c.2 ≤ 1)%nat.

Lemma ss_alloc_spec (P : bool → script_state → Prop) E F s :
  (∀ b s', ss_count s' = ss_count s → ss_started s' = ss_started s → P b s') → wp ss_alloc P E F s.
Proof. intros H. unfold wp, ss_alloc. destruct (ss_heap s); by apply H. Qed.
Lemma ss_spawn_spec (P : bool → script_state → Prop) E F s :
  (∀ b s', ss_count s' = ss_count s → ss_started s' = ss_started s → P b s') → wp ss_spawn P E F s.
Proof. intros H. unfold wp, ss_spawn. destruct (ss_thread s); by apply H. Qed.

Lemma script_prepare_spec type b64 s :
  wp (script_prepare type b64) (λ _ s', ss_count s' = ss_count s ∧ ss_started s' = ss_started s)
    (λ _, False) no_fault s.
Proof.
  destruct type; cbn [script_prepare]; [|by apply wp_ret|by apply wp_ret].
  apply wp_bind, ss_alloc_spec. intros [] s1 H1 L1; cbn [negb]; [|by apply wp_ret].
  destruct (_ =? 0)%nat; [by apply wp_ret|].
  apply wp_bind, ss_alloc_spec. intros b s2 H2 L2. apply wp_ret. split; congruence.
Qed.

(** A call starts a run only from a free lock, and holds it then; a refused
    call leaves the lock as it was and starts nothing. *)
Lemma run_script_spec type b64 timeout s :
  0 ≤ ss_count s →
  wp (plat_run_script type b64 timeout)
    (λ _ s', ss_count s = 0 ∧ ss_count s' = 1 ∧ ∃ script, ss_started s' = ss_started s ++ [(type, script)])
    (λ s', ss_count s' = ss_count s ∧ ss_started s' = ss_started s) no_fault s.
Proof.
  intros Hc. unfold plat_run_script, script_lock_aquire, script_lock_release.
  apply wp_bind, wp_fail_if; intros _; [done|].
  apply wp_bind, wp_bind, wp_gets. destruct (Z.eqb_spec (ss_count s) 0) as [E|E]; [|by apply wp_fail].
  apply wp_modify, wp_bind, wp_modify. set (s1 := set ss_is_tid_valid _ _).
  assert (ss_count s1 = 1 ∧ ss_started s1 = ss_started s) as [C1 L1] by (unfold s1; cbn; split; [lia|done]).
  clearbody s1. apply wp_bind. eapply wp_mono; [apply script_prepare_spec| |done|done].
  intros [script|] s2 [C2 L2].
  - apply wp_bind, ss_spawn_spec. intros [] s3 C3 L3; cbn [negb].
    + apply wp_modify. cbn. split_and!; [done|congruence|]. exists script. congruence.
    + apply wp_bind, wp_modify, wp_fail. cbn. rewrite C3, C2, C1, E. by split; [|congruence].
  - apply wp_bind, wp_modify, wp_fail. cbn. rewrite C2, C1, E. by split; [|congruence].
Qed.

Lemma step_one_runner c e c' : script_step c e c' → one_runner c → one_runner c'.
Proof.
  unfold one_runner. intros [type b64 timeout s s' running H|type b64 timeout s s' running H|s s' running H];
    cbn; intros [Hc Hr].
  - pose proof (run_script_spec type b64 timeout s ltac:(lia)) as Hs. unfold wp in Hs. rewrite H in Hs. lia.
  - pose proof (run_script_spec type b64 timeout s ltac:(lia)) as Hs. unfold wp in Hs. rewrite H in Hs. lia.
  - unfold runner_done, script_lock_release, modify in H. injection H as <-. cbn.
    destruct (Z.eqb_spec (ss_count s) 0); lia.
Qed.

Lemma run_one_runner c es c' : script_run c es c' → one_runner c → one_runner c'.
Proof. induction 1; eauto using step_one_runner. Qed.

(** C20: At most one script runs at a time.  From an idle platform, whatever the
    order of requests, refusals and ends, the lock counts the running scripts
    and is 0 or 1; so a request while one runs is refused and starts nothing,
    and no sequence of failures leaves the lock taken when nothing runs. *)
Theorem one_script_at_a_time (s s' : script_state) (events : list script_event) (running : nat) :
  ss_count s = 0 → script_run (s, O) events (s', running) →
  ss_count s' = Z.of_nat running ∧ (running ≤ 1)%nat ∧
  ∀ type b64 timeout, running = 1%nat →
    wp (plat_run_script type b64 timeout) (λ _ _, False)
      (λ s'', ss_count s'' = 1 ∧ ss_started s'' = ss_started s') no_fault s'.
Proof.
  intros Hs Hrun. destruct (run_one_runner _ _ _ Hrun) as [H1 H2]; [by split; simpl; lia|].
  simpl in *. split_and!; [done|done|]. intros type b64 timeout ->.
  pose proof (run_script_spec type b64 timeout s' ltac:(lia)) as H.
  eapply wp_mono; [exact H| | |done].
  - intros _ s2 (? & _). lia.
  - intros s2 [-> ?]. split; [lia|done].
Qed.

(** A ping is started, another request is refused, the ping ends. *)
Definition idle : script_state := mk_script_state 0 false [] [] [].
Definition ping_base64 : list ascii := String.list_ascii_of_string "cGluZyBhCg==".
Definition after_ping : script_state :=
  mk_script_state 1 true [(PLAT_SCRIPT_TYPE_SHELL, String.list_ascii_of_string "ping a" ++ ["010"%char])] [] [].

Lemma one_script_at_a_time_witness :
  script_run (idle, O) [RunScript PLAT_SCRIPT_TYPE_SHELL ping_base64 30] (after_ping, 1%nat) ∧
  wp (plat_run_script PLAT_SCRIPT_TYPE_DIAGNOSTICS [] 30) (λ _ _, False)
    (λ s', ss_count s' = 1 ∧ ss_started s' = ss_started after_ping) no_fault after_ping.
Proof.
  assert (script_run (idle, O) [RunScript PLAT_SCRIPT_TYPE_SHELL ping_base64 30] (after_ping, 1%nat)) as H.
  { eapply run_cons; [|apply run_nil]. apply step_started. by vm_compute. }
  split; [exact H|]. by apply (one_script_at_a_time idle after_ping _ 1 eq_refl H).
Defined.

(** ** Diagnostics *)
Lemma wait_for_file_spec fuel there i :
  wait_for_file fuel there i = true ↔ ∃ j, (i ≤ j < i + fuel)%nat ∧ there j = true.
Proof.
  revert i. induction fuel as [|fuel IH]; intros i; cbn [wait_for_file].
  - split; [done|]. intros (j & ? & _). lia.
  - rewrite orb_true_iff, IH. split.
    + intros [H|(j & ? & ?)]; [exists i|exists j]; (split; [lia|done]).
    + intros (j & Hj & H). destruct (decide (j = i)) as [->|]; [by left|]. right. exists j. split; [lia|done].
Qed.

(** The runner reports, and gives the script lock back, exactly when the dump
    could not be started or its file comes to be there; a dump that never
    appears keeps every later script from running. *)
Lemma diagnostics_end started there :
  (∃ fuel r, diagnostic_runner fuel started there = Some r) ↔ started.1 ≠ 0 ∨ ∃ i, there i = true.
Proof.
  unfold diagnostic_runner. destruct (Z.eqb_spec started.1 0) as [E|E]; cbn [negb].
  - split.
    + intros (fuel & r & H). destruct (wait_for_file fuel there 0) eqn:W; [|done].
      apply wait_for_file_spec in W as (j & _ & ?). right. by exists j.
    + intros [?|[i Hi]]; [done|]. exists (S i), (0, started.2).
      assert (wait_for_file (S i) there 0 = true) as -> by (apply wait_for_file_spec; exists i; split; [lia|done]). done.
  - split; [by left|]. intros _. by exists 0%nat, (1, started.2).
Qed.
