(* ===== verification/PlatFilesSpec.v ===== *)
(** * What the SONiC platform keeps in files: round trips;
    the order of the ring of log lines *)

From S2P Require Import Prelude CNum CStr Bitmap Router PlatTypes ProtoConv Gnma PlatState PlatApply PlatSample.
From Stdlib Require Import Ascii.
#[local] Open Scope list_scope.

(** ** Reading back a printed number *)
Lemma dec_aux_app fuel n acc : dec_aux fuel n acc = dec_aux fuel n EmptyString +:+ acc.
Proof.
  revert n acc. induction fuel as [|fuel IH]; intros n acc; [done|]. cbn [dec_aux].
  destruct (n / 10 =? 0); [done|].
  rewrite (IH _ (String _ acc)), (IH _ (String _ EmptyString)), <- str_app_assoc. done.
Qed.

Lemma digits_rest_dec_aux fuel n acc : 0 ≤ n → digits_rest (dec_aux fuel n acc) = digits_rest acc.
Proof.
  revert n acc. induction fuel as [|fuel IH]; intros n acc Hn; [done|]. cbn [dec_aux].
  assert (digits_rest (String (digit_char (n mod 10)) acc) = digits_rest acc) as E.
  { cbn [digits_rest]. rewrite digit_val_char; [done|]. apply Z.mod_pos_bound. lia. }
  destruct (n / 10 =? 0); [done|]. rewrite IH; [done|]. by apply Z.div_pos.
Qed.

(** A text that does not go on with a digit. *)
Definition ends_number (rest : string) : Prop :=
  match rest with String c _ => digit_val c = None | EmptyString => True end.

Lemma scan_number_dec n rest : 0 ≤ n < 2 ^ 64 → ends_number rest →
  scan_number (dec n +:+ rest) = Some (false, n, rest).
Proof.
  intros Hn Hr. unfold dec. rewrite <- dec_aux_app.
  pose proof (digits_rest_dec_aux 20 n rest ltac:(lia)) as Hrest.
  destruct (digits_from_dec_aux 20 n rest) as (d & r & E & Hd & Hf); [simpl; lia|lia|].
  rewrite E in *. destruct (digit_char_not_special d Hd) as (Hs & Hm & Hp).
  unfold scan_number. cbn [skip_space]. rewrite Hs. cbn [scan_sign]. rewrite Hm, Hp.
  cbn [digits]. rewrite digit_val_char by done. cbn [mbind option_bind]. rewrite Hrest, Hf.
  destruct rest as [|c rest]; cbn in *; [done|]. by rewrite Hr.
Qed.

Lemma scan_number_newline s : scan_number (newline +:+ s) = scan_number s.
Proof. done. Qed.

Lemma fscanf_u_dec n rest : 0 ≤ n < 2 ^ 64 → ends_number rest → fscanf_u (dec n +:+ rest) = Some (n, rest).
Proof.
  intros Hn Hr. unfold fscanf_u. rewrite scan_number_dec by done. cbn. unfold strtoul_sat.
  by rewrite (proj2 (Z.ltb_lt n (2 ^ 64))) by lia.
Qed.
Lemma fscanf_u_newline s : fscanf_u (newline +:+ s) = fscanf_u s.
Proof. done. Qed.
Lemma fscanf_d_newline s : fscanf_d (newline +:+ s) = fscanf_d s.
Proof. done. Qed.
Lemma fscanf_d_flag b rest : fscanf_d (flag b +:+ newline +:+ rest) = Some (if b then 1 else 0, newline +:+ rest).
Proof. by destruct b. Qed.

Lemma ends_newline rest : ends_number (newline +:+ rest).
Proof. done. Qed.

Section files_spec.
Context `{G : Gnma, GS : !GnmaSafe}.

(** Writing when nothing fails. *)
Lemma open_w_spec path p : pl_io p = [] →
  wp (open_w path) (λ _ p', pl_files p' = <[path := EmptyString]> (pl_files p) ∧ pl_io p' = []) (λ _, False) no_fault p.
Proof. intros H. unfold open_w, pl_io_next. apply wp_bind. unfold wp at 1. rewrite H. by apply wp_modify. Qed.

Lemma write_spec path text p content : pl_io p = [] → pl_files p !! path = Some content →
  wp (write path text) (λ ok p', ok = true ∧ pl_files p' = <[path := content +:+ text]> (pl_files p) ∧ pl_io p' = [])
    (λ _, False) no_fault p.
Proof.
  intros H Hf. unfold write, pl_io_next. apply wp_bind. unfold wp at 1. rewrite H.
  apply wp_bind, wp_gets, wp_bind, wp_modify, wp_ret. cbn. by rewrite Hf.
Qed.

Lemma open_r_spec path p content : pl_io p = [] → pl_files p !! path = Some content →
  wp (try (open_r path)) (λ r _, r = Some content) (λ _, False) no_fault p.
Proof.
  intros H Hf. apply wp_try. unfold open_r. apply wp_bind, wp_gets. rewrite Hf.
  apply wp_bind. unfold pl_io_next, wp at 1. rewrite H. by apply wp_ret.
Qed.

(** Lines written one after the other. *)
Lemma write_lines_spec path ls p : pl_io p = [] → pl_files p !! path = Some EmptyString →
  wp (for_each ls (λ line, _ ← write path (line +:+ newline); ret tt))
    (λ _ p', pl_io p' = [] ∧
       pl_files p' !! path = Some (String.concat EmptyString ((λ l, l +:+ newline) <$> ls)))
    (λ _, False) no_fault p.
Proof.
  intros H Hf.
  apply (wp_for_each (λ l p', pl_io p' = [] ∧
    pl_files p' !! path = Some (String.concat EmptyString ((λ l, l +:+ newline) <$> l)))); [done| |done].
  intros before x after p1 _ [H1 F1]. apply wp_bind.
  eapply wp_mono; [by apply write_spec| |done|done]. intros ok p2 (-> & F2 & H2). apply wp_ret.
  split; [done|]. rewrite F2, lookup_insert_eq. f_equal. clear.
  induction before as [|b before IH]; [done|].
  rewrite fmap_cons, <- app_comm_cons, fmap_cons, !concat_cons, <- str_app_assoc. by rewrite IH.
Qed.

(** The identifier a configuration is saved under is the one read back, for
    every 64-bit identifier, unless the switch refuses to save. *)
Theorem saved_id_roundtrip (id : Z) (p : plat) :
  0 ≤ id < 2 ^ 64 → pl_io p = [] →
  wp (_ ← plat_config_save id; plat_saved_config_id_get) (λ r _, r = (0, id)) any_err no_fault p.
Proof.
  intros Hid Hio. unfold plat_config_save, plat_config_id_store, gnma_ok, gnma.
  apply wp_bind, wp_bind, wp_bind. unfold wp at 1. destruct (gnma_do_safe gnma_config_save (pl_gnma p) eq_refl) as (rc & g & ->).
  apply wp_fail_if; [done|intros _]. set (p1 := set pl_calls _ _).
  assert (pl_io p1 = []) as H1 by done. clearbody p1.
  apply wp_bind, wp_attempt, wp_bind. eapply wp_mono; [by apply open_w_spec| |done|done].
  intros [] p2 [F2 H2]. apply wp_bind. eapply wp_mono; [eapply write_spec; [done|]| |done|done].
  { rewrite F2. apply lookup_insert_eq. }
  intros ok p3 (-> & F3 & H3). apply wp_ret, wp_ret.
  unfold plat_saved_config_id_get, plat_config_id_load. apply wp_bind.
  eapply wp_mono; [eapply open_r_spec; [done|]| |done|done]. { rewrite F3. apply lookup_insert_eq. }
  intros r p4 ->. change (EmptyString +:+ dec id) with (dec id).
  pose proof (fscanf_u_dec id EmptyString Hid I) as E. rewrite str_app_empty in E.
  rewrite E. by apply wp_ret.
Qed.

(** C23: The metrics survive a restart, but for the address used to look up the
    public one.  With the files working and the intervals in their 64 bits,
    what [plat_metrics_restore] stores after [plat_metrics_save] is the saved
    health check and state reporting settings, the limit of MAC addresses at
    its default, and an empty [public_ip_lookup]: [fgets] reads the newline the
    last [fscanf] left. *)
Theorem metrics_roundtrip (c c0 : plat_metrics_cfg) (p : plat) :
  0 ≤ poll_interval (met_healthcheck c) < 2 ^ 64 → 0 ≤ mst_interval (met_state c) < 2 ^ 64 →
  pl_io p = [] →
  wp (_ ← plat_metrics_save (Some c); plat_metrics_restore (Some c0))
    (λ r _, r = (0, Some (c0 <| met_healthcheck := met_healthcheck c |>
                             <| met_state := met_state c <| mst_public_ip_lookup := EmptyString |>
                                               <| mst_max_mac_count := METRICS_WIRED_CLIENTS_MAX_NUM |> |>)))
    (λ _, False) no_fault p.
Proof.
  intros Hh Hs Hio. unfold plat_metrics_save, plat_metrics_restore. apply wp_bind, wp_bind.
  eapply wp_mono; [by apply open_w_spec| |done|done]. intros [] p1 [F1 H1].
  eapply wp_mono; [apply write_lines_spec; [done|]| |done|done]. { rewrite F1. apply lookup_insert_eq. }
  intros [] p2 [H2 F2]. apply wp_bind. eapply wp_mono; [by eapply open_r_spec| |done|done].
  intros r p3 ->. rewrite !fmap_cons, fmap_nil, !concat_cons. cbn [String.concat].
  rewrite <- !str_app_assoc, str_app_empty.
  unfold metrics_fields. cbn [metrics_scan].
  rewrite fscanf_d_flag. cbn [metrics_scan]. rewrite fscanf_u_newline, fscanf_u_dec by done.
  do 3 (cbn [metrics_scan]; rewrite fscanf_d_newline, fscanf_d_flag).
  cbn [metrics_scan]. rewrite fscanf_u_newline, fscanf_u_dec by done. cbn [metrics_scan].
  unfold fgets. cbn. apply wp_ret. clear.
  destruct c0 as [t h s], c as [t1 [[] i1] [[] [] [] i2 m ip]]; reflexivity.
Qed.
End files_spec.
#[local] Existing Instance sample_gnma.

Lemma saved_id_roundtrip_witness :
  wp (_ ← plat_config_save 1234; plat_saved_config_id_get) (λ r _, r = (0, 1234)) any_err no_fault
    (sample_plat []).
Proof. refine (saved_id_roundtrip 1234 (sample_plat []) _ eq_refl). lia. Defined.

Definition sample_metrics : plat_metrics_cfg :=
  mk_plat_metrics_cfg zero_metrics_poll (mk_metrics_poll true 60)
    (mk_metrics_state true false true 300 9 "ifconfig.example.org").

Lemma metrics_roundtrip_witness :
  wp (_ ← plat_metrics_save (Some sample_metrics); plat_metrics_restore (Some zero_plat_metrics_cfg))
    (λ r _, r = (0, Some (mk_plat_metrics_cfg zero_metrics_poll (mk_metrics_poll true 60)
       (mk_metrics_state true false true 300 2000 EmptyString)))) (λ _, False) no_fault (sample_plat []).
Proof.
  refine (metrics_roundtrip sample_metrics zero_plat_metrics_cfg (sample_plat []) _ _ eq_refl); cbn; lia.
Defined.

(** ** The ring of log lines: in what order lines come out

    [__plat_log_push] moves the write index before it writes, while
    [plat_log_pop] reads at the read index first: slot 0 is the last to be
    filled and the first to be read. *)

(** [line '\n'] for each line. *)
Fixpoint lines (l : list string) : string :=
  match l with
  | [] => EmptyString
  | m :: l => m +:+ String (Ascii.ascii_of_nat 10) EmptyString +:+ lines l
  end.

Section log_spec.
Context `{G : Gnma}.

Definition ring_of (p : plat) (buf : list (option string)) (rp wp : Z) : Prop :=
  pl_log p = mk_log_ring buf rp wp ∧ pl_heap p = [].

(** The ring after [msgs], fewer than 64, were pushed into the empty one. *)
Definition slots (msgs : list string) : list (option string) :=
  None :: (Some <$> msgs) ++ replicate (63 - length msgs) None.

Arguments slots : simpl never.

Lemma slots_nil : slots [] = lr_buf log_ring_init.
Proof. done. Qed.

Lemma push_slot msgs m : (length msgs < 63)%nat →
  <[S (length msgs) := Some m]> (slots msgs) = slots (msgs ++ [m]).
Proof.
  intros Hl. unfold slots.
  transitivity (None :: <[length msgs := Some m]> ((Some <$> msgs) ++ replicate (63 - length msgs) None)); [done|].
  f_equal. rewrite fmap_app, <- app_assoc. rewrite insert_app_r_alt by (rewrite length_fmap; lia).
  rewrite length_fmap, Nat.sub_diag. f_equal. rewrite length_app. simpl length.
  replace (63 - length msgs)%nat with (S (63 - (length msgs + 1)))%nat by lia. done.
Qed.

Lemma printf_spec p msgs m :
  ring_of p (slots msgs) 0 (Z.of_nat (length msgs)) → (length msgs < 63)%nat →
  wp (plat_log_printf m) (λ _ p', ring_of p' (slots (msgs ++ [m])) 0 (Z.of_nat (length (msgs ++ [m]))))
    (λ _, False) no_fault p.
Proof.
  intros [Hr Hh] Hl. unfold plat_log_printf, pl_alloc. apply wp_bind. unfold wp at 1. rewrite Hh.
  unfold when, plat_log_push_, ring_upd. apply wp_bind, wp_modify. cbn. rewrite Hr.
  apply wp_bind, wp_gets. cbn. unfold plat_log_ringbuf_size. rewrite Z.mod_small by lia.
  destruct (Z.eqb_spec (Z.of_nat (length msgs) + 1) 0); [lia|].
  apply wp_bind, wp_ret, wp_modify. cbn.
  replace (Z.to_nat (Z.of_nat (length msgs) + 1)) with (S (length msgs)) by lia.
  split; [|exact Hh]. cbn. rewrite push_slot by done. f_equal. rewrite length_app. simpl. lia.
Qed.

Lemma printfs_spec p msgs more :
  ring_of p (slots msgs) 0 (Z.of_nat (length msgs)) → (length msgs + length more < 64)%nat →
  wp (for_each more plat_log_printf)
    (λ _ p', ring_of p' (slots (msgs ++ more)) 0 (Z.of_nat (length (msgs ++ more)))) (λ _, False) no_fault p.
Proof.
  intros Hr Hl. apply (wp_for_each (λ l p', ring_of p' (slots (msgs ++ l)) 0 (Z.of_nat (length (msgs ++ l))))).
  - by rewrite app_nil_r.
  - intros before x after p' -> Hb. rewrite app_assoc. apply printf_spec; [done|].
    rewrite !length_app in *. simpl in Hl. lia.
  - done.
Qed.

(** Popping: slots before the read index are empty, those from it on full. *)
Definition full_from (k : nat) (rest : list string) : list (option string) :=
  replicate k None ++ (Some <$> rest).

Lemma pop_at p k m rest w :
  ring_of p (full_from k (m :: rest)) (Z.of_nat k) w → (k < 64)%nat →
  wp plat_log_pop (λ r p', r = Some m ∧
      ring_of p' (full_from (S k) rest) (Z.of_nat (S k) mod 64) w) (λ _, False) no_fault p.
Proof.
  intros [Hr Hh] Hk. unfold plat_log_pop. apply wp_bind, wp_gets. rewrite Hr. cbn [lr_buf lr_rp].
  rewrite Nat2Z.id. unfold full_from. rewrite fmap_cons, list_lookup_middle by (by rewrite length_replicate).
  unfold ring_upd. apply wp_bind, wp_modify, wp_ret. split; [done|]. split; [|exact Hh]. cbn.
  rewrite Hr. cbn. rewrite Nat2Z.id. unfold plat_log_ringbuf_size. f_equal; [|f_equal; lia].
  unfold full_from. rewrite insert_app_r_alt by (by rewrite length_replicate).
  rewrite length_replicate, Nat.sub_diag. clear. induction k as [|k IH]; [done|].
  exact (f_equal (cons None) IH).
Qed.

Lemma concatenate_spec fuel p k rest res w :
  ring_of p (full_from k rest) (Z.of_nat k mod 64) w → (k + length rest = 64)%nat → (length rest < fuel)%nat →
  wp (concatenate_loop fuel res) (λ r _, r = Some (res +:+ lines rest)) (λ _, False) no_fault p.
Proof.
  revert p k rest res. induction fuel as [|fuel IH]; intros p k rest res Hr Hk Hf; [lia|].
  cbn [concatenate_loop]. destruct rest as [|m rest].
  - simpl in Hk. replace k with 64%nat in * by lia. apply wp_bind.
    unfold plat_log_pop. apply wp_bind, wp_gets. destruct Hr as [Hr _]. rewrite Hr. cbn.
    apply wp_ret. cbn. by rewrite str_app_empty.
  - simpl in Hk, Hf. rewrite Z.mod_small in Hr by lia. apply wp_bind.
    eapply wp_mono; [apply pop_at; [exact Hr|lia]| |done|done]. intros r p1 [-> H1].
    apply wp_bind. unfold pl_alloc, wp at 1. destruct (H1) as [_ Hh]. rewrite Hh. cbn [negb].
    eapply wp_mono; [apply (IH _ (S k) rest); [exact H1|lia|lia]| |done|done].
    intros r p2 ->. cbn [lines]. by rewrite !str_app_assoc.
Qed.

(** The push that comes round to slot 0. *)
Lemma printf_64 p msgs m :
  ring_of p (slots msgs) 0 63 → length msgs = 63%nat →
  wp (plat_log_printf m) (λ _ p', ring_of p' (full_from 0 (m :: msgs)) 0 0) (λ _, False) no_fault p.
Proof.
  intros [Hr Hh] Hl. unfold plat_log_printf, pl_alloc. apply wp_bind. unfold wp at 1. rewrite Hh.
  unfold when, plat_log_push_, ring_upd. apply wp_bind, wp_modify. cbn [pl_log set]. rewrite Hr.
  apply wp_bind, wp_gets. cbn. split; [|exact Hh]. cbn. f_equal.
  unfold slots, full_from. rewrite Hl. simpl. by rewrite app_nil_r.
Qed.

(** The log lines of a failed configuration come out late and out of order.
    From the empty ring, with memory for everything: while fewer than 64 lines
    were logged, [plat_log_pop_concatenate] returns the empty text; when the
    64th is, it returns the 64th line first and then the 63 others. *)
Theorem log_lines_late (p : plat) (msgs : list string) (last : string) :
  pl_log p = log_ring_init → pl_heap p = [] → (length msgs < 64)%nat →
  wp (_ ← for_each msgs plat_log_printf; plat_log_pop_concatenate)
    (λ r _, r = Some EmptyString) (λ _, False) no_fault p ∧
  (length msgs = 63%nat →
   wp (_ ← for_each msgs plat_log_printf; _ ← plat_log_printf last; plat_log_pop_concatenate)
     (λ r _, r = Some (lines (last :: msgs))) (λ _, False) no_fault p).
Proof.
  intros Hr Hh Hl. assert (ring_of p (slots []) 0 (Z.of_nat (length (@nil string)))) as H0.
  { split; [by rewrite Hr|done]. }
  pose proof (printfs_spec p [] msgs H0 Hl) as H. split.
  - apply wp_bind. eapply wp_mono; [exact H| |done|done]. intros _ p1 [R1 A1].
    unfold plat_log_pop_concatenate, pl_alloc. apply wp_bind. unfold wp at 1. rewrite A1. cbn [negb].
    cbn [concatenate_loop]. apply wp_bind. unfold plat_log_pop. apply wp_bind, wp_gets. rewrite R1. by cbn.
  - intros H63. apply wp_bind. eapply wp_mono; [exact H| |done|done]. intros _ p1 [R1 A1].
    cbn [app] in R1. rewrite H63 in R1.
    apply wp_bind. eapply wp_mono; [apply (printf_64 _ msgs); [by split|done]| |done|done].
    intros [] p2 R2. unfold plat_log_pop_concatenate, pl_alloc. apply wp_bind. unfold wp at 1.
    rewrite (proj2 R2). cbn [negb].
    eapply wp_mono; [apply (concatenate_spec _ _ O (last :: msgs) _ 0); [exact R2|simpl; lia|unfold plat_log_ringbuf_size; simpl; lia]| |done|done].
    by intros r p3 ->.
Qed.
End log_spec.
#[local] Existing Instance sample_gnma.

Lemma log_lines_late_witness :
  wp (_ ← for_each ["a"; "b"] plat_log_printf; plat_log_pop_concatenate)
    (λ r _, r = Some EmptyString) (λ _, False) no_fault (sample_plat []).
Proof. refine (proj1 (log_lines_late (sample_plat []) ["a"; "b"] "c" eq_refl eq_refl _)). simpl. lia. Defined.
