(* ===== verification/PlatFrame.v ===== *)
(** * Effects of the platform layer

    [within R m]: [m] relates the states before and after by [R], whether it
    succeeds or fails.  [PlatAsks R] lists the steps [R] has to allow of
    operations that only ask the switch, [PlatReads R] adds those of operations
    that also write the cache, [PlatFrame R] adds the settings; the
    operations of the platform layer are walked once, for every such [R], which
    each theorem then chooses. *)

From S2P Require Import Prelude CNum CStr Bitmap Router PlatTypes ProtoConv Gnma PlatState PlatVlan PlatPort PlatAaa PlatInit PlatApply.
#[local] Open Scope list_scope.

Class PlatAsks `{G : Gnma} (R : relation plat) : Prop := {
  pf_preorder :: PreOrder R;
  pf_ask {A} (q : gnma_query A) old p rc a g : gnma_get q old (pl_gnma p) = inl (rc, a, g) →
    R p (p <| pl_gnma := g |>);
  pf_heap p b h : pl_heap p = b :: h → R p (p <| pl_heap := h |>);
  pf_io p b l : pl_io p = b :: l → R p (p <| pl_io := l |>) }.
Class PlatReads `{G : Gnma} (R : relation plat) : Prop := {
  pf_asks :: PlatAsks R;
  pf_state p s : R p (p <| pl_state := s |>);
  pf_features p f : FEAT_CORE f = FEAT_CORE (pl_features p) → R p (p <| pl_features := f |>);
  pf_log p l : R p (p <| pl_log := l |>) }.

Definition allows `{G : Gnma} (R : relation plat) (c : gnma_call) : Prop :=
  ∀ p rc g, gnma_do c (pl_gnma p) = inl (rc, g) →
    R p (p <| pl_gnma := g |> <| pl_calls := pl_calls p ++ [(c, rc)] |>).
Class PlatFrame `{G : Gnma} (R : relation plat) : Prop := {
  pf_reads :: PlatReads R;
  pf_gnma c : allows R c }.

Section rules.
Context `{G : Gnma} (R : relation plat) `{F : !PlatAsks R}.

Definition within {A} (m : M plat A) : Prop := ∀ p, wp m (λ _ p', R p p') (λ p', R p p') any_fault p.

Lemma within_ret {A} (a : A) : within (ret a).
Proof. intros p. by apply wp_ret. Qed.
Lemma within_fail {A} : within (fail (A := A)).
Proof. intros p. by apply wp_fail. Qed.
Lemma within_faulty {A} f : within (faulty (A := A) f).
Proof. intros p. by apply wp_faulty. Qed.
Lemma within_gets {A} (f : plat → A) : within (gets f).
Proof. intros p. by apply wp_gets. Qed.
Lemma within_after {A} (m : M plat A) p p1 :
  within m → R p p1 → wp m (λ _ p', R p p') (λ p', R p p') any_fault p1.
Proof.
  intros Hm H1. eapply wp_mono; [apply Hm|intros ? p2 H2|intros p2 H2|done]; by transitivity p1.
Qed.
Lemma within_bind {A B} (m : M plat A) (k : A → M plat B) : within m → (∀ a, within (k a)) → within (m ≫= k).
Proof.
  intros Hm Hk p. apply wp_bind. eapply wp_mono; [apply Hm| |done|done]. intros a p1 H1. by apply within_after.
Qed.
Lemma within_when b m : within m → within (when b m).
Proof. intros H. destruct b; [done|apply within_ret]. Qed.
Lemma within_fail_if b : within (fail_if b).
Proof. destruct b; [apply within_fail|apply within_ret]. Qed.
Lemma within_attempt {A} (m : M plat A) : within m → within (attempt m).
Proof. intros H p. apply wp_attempt. by eapply wp_mono; [apply H| | |]. Qed.
Lemma within_try {A} (m : M plat A) : within m → within (try m).
Proof. intros H p. apply wp_try. by eapply wp_mono; [apply H| | |]. Qed.
Lemma within_deref {A} (o : option A) : within (deref o).
Proof. destruct o; [apply within_ret|apply within_faulty]. Qed.
Lemma within_of_option {A} f (o : option A) : within (of_option f o).
Proof. destruct o; [apply within_ret|apply within_faulty]. Qed.
Lemma within_for_each {A} (l : list A) body : (∀ x, within (body x)) → within (for_each l body).
Proof.
  intros H p. apply (wp_for_each_inv (R p)); [done| |done]. intros x p1 _ H1. by apply within_after.
Qed.
Lemma within_fold_m {A B} (f : B → A → M plat B) l b : (∀ b x, within (f b x)) → within (fold_m f l b).
Proof.
  intros H. revert b. induction l as [|x l IH]; intros b; [apply within_ret|].
  exact (within_bind (f b x) (fold_m f l) (H b x) IH).
Qed.

(** ** The primitives *)
Lemma within_call c : allows R c → within (gnma c).
Proof. intros H p. unfold gnma, wp. destruct (gnma_do c _) as [[rc g]|f] eqn:E; [|done]. by apply H. Qed.
Lemma within_call_ok c : allows R c → within (gnma_ok c).
Proof. intros H. apply within_bind; [by apply within_call|]. intros rc. apply within_fail_if. Qed.
Lemma within_ask {A} (q : gnma_query A) old : within (ask q old).
Proof. intros p. unfold ask, wp. destruct (gnma_get q old _) as [[[rc a] g]|f] eqn:E; [|done]. by eapply pf_ask. Qed.
Lemma within_alloc : within pl_alloc.
Proof. intros p. unfold pl_alloc, wp. destruct (pl_heap p) eqn:E; [done|by eapply pf_heap]. Qed.
Lemma within_alloc_or_fail : within pl_alloc_or_fail.
Proof. apply within_bind; [apply within_alloc|]. intros b. apply within_fail_if. Qed.
Lemma within_io : within pl_io_next.
Proof. intros p. unfold pl_io_next, wp. destruct (pl_io p) eqn:E; [done|by eapply pf_io]. Qed.
Lemma within_arr_read {A} n (zero : A) a i : within (arr_read n zero a i).
Proof. unfold arr_read. case_match; [apply within_ret|apply within_faulty]. Qed.
Lemma within_arr_write {A} n (a : gmap Z A) i x : within (arr_write n a i x).
Proof. unfold arr_write. case_match; [apply within_ret|apply within_faulty]. Qed.
Lemma within_bit_test A k : within (bit_test A k).
Proof. unfold bit_test. case_match; [apply within_ret|apply within_faulty]. Qed.
Lemma within_bit_set A k : within (bit_set A k).
Proof. unfold bit_set. case_match; [apply within_ret|apply within_faulty]. Qed.
End rules.

Section writes.
Context `{G : Gnma} (R : relation plat) `{F : !PlatReads R}.
Lemma within_upd_cache f : within R (upd_cache f).
Proof. intros p. apply wp_modify, pf_state. Qed.
Lemma within_upd_features f : (∀ x, FEAT_CORE (f x) = FEAT_CORE x) → within R (upd_features f).
Proof. intros Hf p. apply wp_modify, pf_features, Hf. Qed.
Lemma within_ring f : within R (ring_upd f).
Proof. intros p. apply wp_modify, pf_log. Qed.
End writes.

Create HintDb within discriminated.
#[export] Hint Resolve within_ret within_fail within_faulty within_gets within_fail_if within_deref
  within_of_option within_ask within_alloc within_alloc_or_fail within_io
  within_upd_cache within_ring within_arr_read within_arr_write within_bit_test
  within_bit_set : within.

Ltac within_step :=
  lazymatch goal with
  | |- PlatFrame _ => assumption
  | |- PlatReads _ => exact _
  | |- PlatAsks _ => exact _
  | |- within _ (upd_features _) => apply within_upd_features; [..|intros; reflexivity]
  | |- within _ (gnma _) => apply within_call
  | |- within _ (gnma_ok _) => apply within_call_ok
  | |- allows _ _ => first [ apply pf_gnma | assumption ]
  | |- within _ (mbind _ _) => apply within_bind
  | |- within _ (when _ _) => apply within_when
  | |- within _ (for_each _ _) => apply within_for_each
  | |- within _ (fold_m _ _ _) => apply within_fold_m
  | |- within _ (attempt _) => apply within_attempt
  | |- within _ (try _) => apply within_try
  | |- within _ (match ?x with _ => _ end) => destruct x
  | |- within _ ((match ?x with _ => _ end) _) => destruct x
  | |- within _ _ => solve [auto 5 with within nocore typeclass_instances]
  end.
Ltac within_solve := repeat (intros; cbv beta; within_step).

(** ** Operations that only ask, or make the settings they are given *)
Section reads.
Context `{G : Gnma} (R : relation plat) `{F : !PlatReads R}.

Lemma within_crit text : within R (CFG_LOG_CRIT text).
Proof. unfold CFG_LOG_CRIT, plat_log_printf, plat_log_push_, plat_log_pop. within_solve. Qed.
Lemma within_radius_init : within R plat_state_radius_init.
Proof. unfold plat_state_radius_init, set_radius. within_solve. Qed.
Lemma within_dac_init : within R plat_state_ieee8021x_dac_list_init.
Proof. unfold plat_state_ieee8021x_dac_list_init, set_dac, set_radius. within_solve. Qed.
Lemma within_hosts_clean remove hosts a n i changed :
  (∀ k, allows R (remove k)) → within R (hosts_clean remove hosts a n i changed).
Proof.
  intros Hr. revert i changed. induction n as [|n IH]; intros i changed; cbn [hosts_clean]; unfold host_clean;
    within_solve; first [apply Hr|apply IH].
Qed.
Lemma within_hosts_add adds changed : Forall (allows R) adds → within R (hosts_add adds changed).
Proof.
  intros Ha. unfold hosts_add. apply within_bind; [exact _| |within_solve].
  induction Ha as [|c adds Hc Ha IH]; [apply within_ret; exact _|].
  exact (within_bind R (gnma_ok c) (λ _, for_each adds gnma_ok) (within_call_ok R c Hc) (λ _, IH)).
Qed.
#[local] Hint Resolve within_radius_init within_dac_init : within.
Lemma within_radius hosts :
  (∀ h, allows R (gnma_radius_host_remove h)) →
  Forall (λ h, allows R (gnma_radius_host_add (rad_hostname h) (rad_passkey h) (rad_auth_port h)
                           (rad_priority h))) hosts →
  within R (plat_radius_hosts_list_set hosts).
Proof.
  intros Hr Ha. unfold plat_radius_hosts_list_set, cache. within_solve.
  - by apply within_hosts_clean.
  - by apply within_hosts_add, Forall_fmap.
Qed.

(** Reading the switch into the cache. *)
Lemma within_read_into {A} (q : gnma_query A) old store :
  (∀ a, within R (store a)) → within R (read_into q old store).
Proof. intros Hs. unfold read_into, cache. within_solve. Qed.
Lemma within_upd_poe k f : within R (upd_poe k f).
Proof. unfold upd_poe, cache. within_solve. Qed.
Lemma within_upd_x k f : within R (upd_x k f).
Proof. unfold upd_x, cache. within_solve. Qed.
Lemma within_upd_relay k f : within R (upd_relay k f).
Proof. unfold upd_relay, cache. within_solve. Qed.
Lemma within_names_of room arr n : within R (names_of room arr n).
Proof. unfold names_of. within_solve. Qed.
#[local] Hint Resolve within_upd_poe within_upd_x within_upd_relay within_names_of : within.
Ltac read_step :=
  lazymatch goal with
  | |- within _ (read_into _ _ _) => apply within_read_into
  | |- _ => within_step
  end.
Ltac read_solve := repeat (intros; cbv beta; read_step).

Lemma within_poe_init : within R plat_state_poe_init.
Proof. unfold plat_state_poe_init, plat_poe_port_num_get, poe_port_init, read_cache, cache. read_solve. Qed.
Lemma within_ports_init : within R plat_state_ports_init.
Proof.
  unfold plat_state_ports_init, plat_gnma_port_num_get, port_init, plat_state_port_ieee8021x_init, cache.
  read_solve.
Qed.
Lemma within_portl2_init : within R plat_state_portsl2_init.
Proof. unfold plat_state_portsl2_init, plat_gnma_port_num_get, portl2_init, cache. read_solve. Qed.
Lemma within_relay_init n vid : within R (relay_init n vid).
Proof. unfold relay_init, vlan_state, cache. read_solve. Qed.
Lemma within_router_init : within R router_init.
Proof. unfold router_init, router_append, cache. read_solve. Qed.
#[local] Hint Resolve within_poe_init within_ports_init within_portl2_init within_relay_init within_router_init
  : within.
Lemma within_aaa_init : within R (mark (λ f, f <| FEAT_AAA := FEATSTS_FAIL |>) plat_state_ieee8021x_init).
Proof. unfold mark, plat_state_ieee8021x_init, read_cache. read_solve. Qed.
Lemma within_hosts_init : within R (mark (λ f, f <| FEAT_AAA := FEATSTS_FAIL |>) plat_state_radius_init).
Proof. unfold mark. read_solve. Qed.
#[local] Hint Resolve within_aaa_init within_hosts_init : within.
(** The whole of it also writes the state of the core feature. *)
Lemma within_state_init : (∀ p f, R p (p <| pl_features := f |>)) → within R plat_state_init.
Proof.
  intros Hf. assert (∀ f, within R (upd_features f)) as Hu by (intros f p; apply wp_modify, Hf).
  unfold plat_state_init, state_init_core, read_cache.
  repeat (intros; cbv beta; first [ apply Hu | read_step | progress unfold mark ]).
Qed.
End reads.
#[export] Hint Resolve within_crit within_radius_init within_dac_init within_aaa_init within_hosts_init
  within_ports_init : within.

(** ** The operations *)
Section walk.
Context `{G : Gnma, Q : QSort} (R : relation plat) `{F : !PlatFrame R}.

Lemma within_upd_vlan vid f : within R (upd_vlan vid f).
Proof. unfold upd_vlan, cache. within_solve. Qed.
Lemma within_vlan_state vid : within R (vlan_state vid).
Proof. unfold vlan_state, cache. within_solve. Qed.
#[local] Hint Resolve within_upd_vlan within_vlan_state : within.

Lemma within_rif_set vid ipv4 : within R (plat_vlan_rif_set vid ipv4).
Proof. unfold plat_vlan_rif_set. within_solve. Qed.
Lemma within_group_list igmp n idx : within R (igmp_group_list igmp n idx).
Proof. revert idx. induction n as [|n IH]; intros idx; cbn [igmp_group_list]; within_solve; apply IH. Qed.
#[local] Hint Resolve within_rif_set within_group_list : within.
Lemma within_igmp_set vid igmp : within R (plat_vlan_igmp_set vid igmp).
Proof. unfold plat_vlan_igmp_set. within_solve. Qed.
#[local] Hint Resolve within_igmp_set : within.
Lemma within_vlan_ipv4 cfg : within R (config_vlan_ipv4_apply cfg).
Proof. unfold config_vlan_ipv4_apply. within_solve. Qed.

Lemma within_change_add c op : within R (change_add c op).
Proof. unfold change_add. within_solve. Qed.
#[local] Hint Resolve within_change_add : within.
Lemma within_change_add_ok c op : within R (change_add_ok c op).
Proof. unfold change_add_ok. within_solve. Qed.
#[local] Hint Resolve within_change_add_ok : within.
Lemma within_vlan_apply cfg : within R (config_vlan_apply cfg).
Proof.
  unfold config_vlan_apply, plat_vlan_memberlist_set, plat_vlan_list_set, member_bits. within_solve.
Qed.
Lemma within_dhcp cfg : within R (config_vlan_dhcp_relay_apply cfg).
Proof. unfold config_vlan_dhcp_relay_apply, dhcp_relay_clear, dhcp_relay_set. within_solve. Qed.
Lemma within_portl2 cfg : within R (config_portl2_ipv4_apply cfg).
Proof. unfold config_portl2_ipv4_apply, plat_portl2_rif_set, cache. within_solve. Qed.
Lemma within_ports_enable : within R config_stp_apply_ports_enable_all.
Proof. unfold config_stp_apply_ports_enable_all, plat_gnma_port_num_get. within_solve. Qed.
#[local] Hint Resolve within_ports_enable : within.
Lemma within_stp cfg : within R (config_stp_apply cfg).
Proof. unfold config_stp_apply, stp_vid_apply, cache. within_solve. Qed.
Lemma within_metrics cfg : within R (config_metrics_apply cfg).
Proof. unfold config_metrics_apply. within_solve. Qed.
Lemma within_router cfg : within R (config_router_apply cfg).
Proof. unfold config_router_apply, route_diff_apply, route_create, route_remove, cache. within_solve. Qed.
#[local] Hint Resolve within_vlan_ipv4 within_vlan_apply within_dhcp within_portl2 within_stp within_metrics
  within_router : within.

Lemma within_port_x i c : within R (config_port_ieee8021x_apply i c).
Proof. unfold config_port_ieee8021x_apply, cache. within_solve. Qed.
Lemma within_port_poe i c : within R (config_poe_port_apply i c).
Proof. unfold config_poe_port_apply, upd_poe, cache. within_solve. Qed.
#[local] Hint Resolve within_port_x within_port_poe : within.
Lemma within_ports cfg : within R (plat_port_config_apply cfg).
Proof.
  unfold plat_port_config_apply, port_link_apply, plat_port_admin_state_set, plat_port_speed_set,
    plat_port_duplex_set, cache. within_solve.
Qed.
Lemma within_unit cfg : within R (config_unit_apply cfg).
Proof. unfold config_unit_apply, cache. within_solve. Qed.

Lemma within_radius_set hosts : within R (plat_radius_hosts_list_set hosts).
Proof. apply within_radius; [exact _|intros; apply pf_gnma|]. apply Forall_forall. intros; apply pf_gnma. Qed.
Lemma within_dac_set hosts : within R (plat_dac_list_set hosts).
Proof.
  unfold plat_dac_list_set, cache. within_solve.
  - apply within_hosts_clean; [exact _|]. intros; apply pf_gnma.
  - apply within_hosts_add; [exact _|]. apply Forall_forall. intros; apply pf_gnma.
Qed.
#[local] Hint Resolve within_radius_set within_dac_set : within.
Lemma within_aaa cfg : within R (config_ieee8021x_apply cfg).
Proof. unfold config_ieee8021x_apply, cache. within_solve. Qed.
Lemma within_password cfg : within R (config_system_password_apply cfg).
Proof. unfold config_system_password_apply, c_buf_str. within_solve. Qed.
Lemma within_syslog_entries cfg n i : within R (syslog_entries cfg n i).
Proof. revert i. induction n as [|n IH]; intros i; cbn [syslog_entries]; within_solve; apply IH. Qed.
#[local] Hint Resolve within_syslog_entries : within.
Lemma within_syslog cfg n : within R (plat_syslog_set cfg n).
Proof. unfold plat_syslog_set. within_solve. Qed.
#[local] Hint Resolve within_ports within_unit within_aaa within_password within_syslog : within.

Lemma within_config_apply cfg : within R (plat_config_apply cfg).
Proof. unfold plat_config_apply. within_solve. Qed.
End walk.

(** ** What is asked of the switch, in order

    [does may key e m]: every setting [m] makes is one [may] allows and was
    accepted, unless its answer is not looked at ([unheeded]); a run that fails
    may end with one refused setting.  What [key] keeps of the settings is exactly
    [e] when [m] succeeds. *)
Definition unheeded (c : gnma_call) : bool :=
  match c with
  | gnma_port_admin_state_set _ _ | gnma_port_speed_set _ _ | gnma_port_duplex_set _ _
  | gnma_route_remove _ | gnma_syslog_cfg_clear | gnma_syslog_cfg_set _ => true
  | _ => false
  end.

Section order.
Context `{G : Gnma}.

Definition heeded (may : gnma_call → bool) (e : gnma_call * Z) : Prop :=
  may e.1 = true ∧ (e.2 = 0 ∨ unheeded e.1 = true).
Definition picked (key : gnma_call → option gnma_call) (l : list (gnma_call * Z)) : list gnma_call :=
  omap key l.*1.
Definition all_made (may : gnma_call → bool) (key : gnma_call → option gnma_call) (e : list gnma_call) (l : list (gnma_call * Z)) : Prop :=
  Forall (heeded may) l ∧ picked key l = e.
(** The refused setting is the last one. *)
Definition cut_short (may : gnma_call → bool) (l : list (gnma_call * Z)) : Prop :=
  ∃ before last, l = before ++ option_list last ∧ Forall (heeded may) before ∧
    ∀ c, last = Some c → may c.1 = true.
Definition adds (P : list (gnma_call * Z) → Prop) (p p' : plat) : Prop :=
  ∃ l, pl_calls p' = pl_calls p ++ l ∧ P l.
Definition does (may : gnma_call → bool) (key : gnma_call → option gnma_call) (e : list gnma_call) {A} (m : M plat A) : Prop :=
  ∀ p, wp m (λ _ p', adds (all_made may key e) p p') (adds (cut_short may) p) any_fault p.

Section rules.
Context (may : gnma_call → bool) (key : gnma_call → option gnma_call).
Abbreviation D := (does may key).

Lemma made_nil p : adds (all_made may key []) p p.
Proof. exists []. rewrite app_nil_r. split; [done|]. by split. Qed.
Lemma cut_nil p : adds (cut_short may) p p.
Proof. exists []. rewrite app_nil_r. split; [done|]. by exists [], None. Qed.
Lemma made_app e1 e2 p p1 p2 :
  adds (all_made may key e1) p p1 → adds (all_made may key e2) p1 p2 → adds (all_made may key (e1 ++ e2)) p p2.
Proof.
  intros (l1 & E1 & H1 & K1) (l2 & E2 & H2 & K2). exists (l1 ++ l2). rewrite E2, E1, app_assoc.
  split; [done|]. split; [by apply Forall_app_2|]. unfold picked in *. by rewrite fmap_app, omap_app, K1, K2.
Qed.
Lemma cut_app e p p1 p2 : adds (all_made may key e) p p1 → adds (cut_short may) p1 p2 → adds (cut_short may) p p2.
Proof.
  intros (l1 & E1 & H1 & _) (l2 & E2 & b & o & -> & H2 & H3). exists (l1 ++ b ++ option_list o).
  rewrite E2, E1, <- app_assoc. split; [done|]. exists (l1 ++ b), o. split; [apply app_assoc|].
  split; [by apply Forall_app_2|done].
Qed.
Lemma made_cut e p p' : adds (all_made may key e) p p' → adds (cut_short may) p p'.
Proof. intros H. eapply cut_app; [exact H|apply cut_nil]. Qed.

Lemma does_pure {A} (m : M plat A) :
  (∀ p, wp m (λ _ p', pl_calls p' = pl_calls p) (λ p', pl_calls p' = pl_calls p) any_fault p) → D [] m.
Proof.
  intros H p. eapply wp_mono; [apply H|..]; [| |done].
  - intros ? p' E. exists []. rewrite E, app_nil_r. split; [done|]. by split.
  - intros p' E. exists []. rewrite E, app_nil_r. split; [done|]. by exists [], None.
Qed.
Lemma does_ret {A} (a : A) : D [] (ret a).
Proof. apply does_pure. done. Qed.
Lemma does_fail {A} e : D e (fail (A := A)).
Proof. intros p. apply wp_fail, cut_nil. Qed.
Lemma does_faulty {A} e f : D e (faulty (A := A) f).
Proof. intros p. by apply wp_faulty. Qed.
Lemma does_bind {A B} e1 e2 (m : M plat A) (k : A → M plat B) :
  D e1 m → (∀ a, D e2 (k a)) → D (e1 ++ e2) (m ≫= k).
Proof.
  intros Hm Hk p. apply wp_bind. eapply wp_mono; [apply Hm| |done|done]. intros a p1 H1.
  eapply wp_mono; [apply Hk| | |done]; 
    [intros ? p2 H2; exact (made_app _ _ _ _ _ H1 H2)|intros p2 H2; exact (cut_app _ _ _ _ H1 H2)].
Qed.
Lemma does_bind_r {A B} e (m : M plat A) (k : A → M plat B) : D [] m → (∀ a, D e (k a)) → D e (m ≫= k).
Proof. apply (does_bind [] e). Qed.
Lemma does_bind_l {A B} e (m : M plat A) (k : A → M plat B) : D e m → (∀ a, D [] (k a)) → D e (m ≫= k).
Proof. intros Hm Hk. pose proof (does_bind e [] m k Hm Hk) as H. by rewrite app_nil_r in H. Qed.
Lemma does_gets {A} (f : plat → A) : D [] (gets f).
Proof. by apply does_pure. Qed.
Lemma does_when b m : D [] m → D [] (when b m).
Proof. intros H. destruct b; [done|apply does_ret]. Qed.
Lemma does_fail_if b : D [] (fail_if b).
Proof. destruct b; [apply does_fail|apply does_ret]. Qed.
Lemma does_deref {A} (o : option A) : D [] (deref o).
Proof. destruct o; [apply does_ret|apply does_faulty]. Qed.
Lemma does_of_option {A} f (o : option A) : D [] (of_option f o).
Proof. destruct o; [apply does_ret|apply does_faulty]. Qed.
Lemma does_for_each {A} (l : list A) body e : (∀ x, D (e x) (body x)) → D (concat (map e l)) (for_each l body).
Proof.
  intros H. induction l as [|x l IH]; [apply does_ret|].
  exact (does_bind (e x) _ (body x) (λ _, for_each l body) (H x) (λ _, IH)).
Qed.
Lemma does_fold_m {A B} (f : B → A → M plat B) l b e :
  (∀ b x, D (e x) (f b x)) → D (concat (map e l)) (fold_m f l b).
Proof.
  intros H. revert b. induction l as [|x l IH]; intros b; [apply does_ret|].
  exact (does_bind (e x) _ (f b x) (fold_m f l) (H b x) IH).
Qed.
(** The answers of what is attempted are not looked at. *)
Lemma does_attempt {A} may' (m : M plat A) :
  (∀ c, may' c = true → may c = true ∧ key c = None ∧ unheeded c = true) →
  does may' (λ _, None) [] m → D [] (attempt m).
Proof.
  intros Hm H p. apply wp_attempt.
  assert (∀ l, Forall (λ c, may' c.1 = true) l → all_made may key [] l) as Hall.
  { intros l Hl. induction Hl as [|[c rc] l Hc Hl [IH1 IH2]]; [by split|].
    destruct (Hm c Hc) as (H1 & H2 & H3). split; [constructor; [by split; [|right]|done]|].
    unfold picked in *. cbn [fmap list_fmap omap list_omap fst]. by rewrite H2. }
  assert (∀ l, Forall (heeded may') l → Forall (λ c, may' c.1 = true) l) as Hh
    by (intros l Hl; eapply Forall_impl; [exact Hl|by intros ? []]).
  eapply wp_mono; [apply H| | |done].
  - intros ? p' (l & E & Hl & _). exists l. split; [done|]. by apply Hall, Hh.
  - intros p' (l & E & b & o & -> & Hb & Ho). exists (b ++ option_list o). split; [done|].
    apply Hall, Forall_app_2; [by apply Hh|]. destruct o; [by constructor; [apply Ho|]|constructor].
Qed.

(** The primitives. *)
Lemma does_ask {A} (q : gnma_query A) old : D [] (ask q old).
Proof. apply does_pure. intros p. unfold ask, wp. by destruct (gnma_get q old _) as [[[rc a] g]|f]. Qed.
Lemma does_alloc : D [] pl_alloc.
Proof. apply does_pure. intros p. unfold pl_alloc, wp. by destruct (pl_heap p). Qed.
Lemma does_alloc_or_fail : D [] pl_alloc_or_fail.
Proof. apply (does_bind_r []); [apply does_alloc|]. intros b. apply does_fail_if. Qed.
Lemma does_upd_cache f : D [] (upd_cache f).
Proof. by apply does_pure. Qed.
Lemma does_log f : D [] (ring_upd f).
Proof. by apply does_pure. Qed.
Lemma does_arr_read {A} n (zero : A) a i : D [] (arr_read n zero a i).
Proof. unfold arr_read. case_match; [apply does_ret|apply does_faulty]. Qed.
Lemma does_arr_write {A} n (a : gmap Z A) i x : D [] (arr_write n a i x).
Proof. unfold arr_write. case_match; [apply does_ret|apply does_faulty]. Qed.
Lemma does_bit_test A k : D [] (bit_test A k).
Proof. unfold bit_test. case_match; [apply does_ret|apply does_faulty]. Qed.
Lemma does_bit_set A k : D [] (bit_set A k).
Proof. unfold bit_set. case_match; [apply does_ret|apply does_faulty]. Qed.
Lemma does_call c e : may c = true → unheeded c = true → omap key [c] = e → D e (gnma c).
Proof.
  intros Hm Hu Hk p. unfold gnma, wp. destruct (gnma_do c _) as [[rc g]|f]; [|done].
  exists [(c, rc)]. split; [done|]. split; [|done]. constructor; [|done]. by split; [|right].
Qed.
Lemma does_call_ok c e : may c = true → omap key [c] = e → D e (gnma_ok c).
Proof.
  intros Hm Hk p. unfold gnma_ok, gnma, fail_if, mbind, M_bind, wp. destruct (gnma_do c _) as [[rc g]|f]; [|done].
  destruct (Z.eqb_spec rc 0) as [->|Hrc]; cbn [negb].
  - exists [(c, 0)]. split; [done|]. split; [|done]. constructor; [|done]. by split; [|left].
  - exists [(c, rc)]. split; [done|]. exists [], (Some (c, rc)). by split_and!; [|constructor|intros ? [= <-]].
Qed.

Lemma does_for_each_quiet {A} (l : list A) body : (∀ x, D [] (body x)) → D [] (for_each l body).
Proof.
  intros H. pose proof (does_for_each l body (λ _, []) H) as Hl.
  assert (concat (map (λ _ : A, @nil gnma_call) l) = []) as E by (clear; by induction l). by rewrite E in Hl.
Qed.
Lemma does_fold_m_quiet {A B} (f : B → A → M plat B) l b : (∀ b x, D [] (f b x)) → D [] (fold_m f l b).
Proof.
  intros H. pose proof (does_fold_m f l b (λ _, []) H) as Hl.
  assert (concat (map (λ _ : A, @nil gnma_call) l) = []) as E by (clear; by induction l). by rewrite E in Hl.
Qed.
End rules.
End order.

Create HintDb does discriminated.
#[export] Hint Resolve does_ret does_fail does_faulty does_gets does_fail_if does_deref does_of_option does_ask
  does_alloc does_alloc_or_fail does_upd_cache does_log does_arr_read does_arr_write does_bit_test does_bit_set
  : does.
Ltac does_step :=
  lazymatch goal with
  | |- does _ _ [] (mbind _ _) => apply does_bind_r
  | |- does _ _ _ (when _ _) => apply does_when
  | |- does _ _ _ (for_each _ _) => apply does_for_each_quiet
  | |- does _ _ _ (fold_m _ _ _) => apply does_fold_m_quiet
  | |- does _ _ _ (gnma _) => apply does_call; reflexivity
  | |- does _ _ _ (gnma_ok _) => apply does_call_ok; reflexivity
  | |- does _ _ _ (match ?x with _ => _ end) => destruct x
  | |- does _ _ _ ((match ?x with _ => _ end) _) => destruct x
  | |- does _ _ _ _ => solve [auto 2 with does nocore]
  end.
Ltac does_solve := repeat (intros; cbv beta; does_step).

(** ** The stages of [plat_config_apply] *)
Definition vlan_calls (c : gnma_call) : bool :=
  match c with
  | gnma_vlan_erif_attr_pref_update _ _ | gnma_vlan_erif_attr_pref_delete _ _ | gnma_igmp_snooping_set _ _
  | gnma_vlan_dhcp_relay_server_add _ _ | gnma_vlan_dhcp_relay_server_remove _ _ => true
  | _ => false
  end.
Definition vlan_stage (c : gnma_call) : bool :=
  match c with gnma_vlan_remove _ | gnma_change_exec _ => true | _ => vlan_calls c end.
Definition port_stage (c : gnma_call) : bool :=
  match c with
  | gnma_port_admin_state_set _ _ | gnma_port_speed_set _ _ | gnma_port_duplex_set _ _
  | gnma_port_ieee8021x_pae_mode_set _ _ | gnma_port_ieee8021x_port_ctrl_set _ _
  | gnma_port_ieee8021x_port_host_mode_set _ _ | gnma_port_ieee8021x_guest_vlan_set _ _
  | gnma_port_ieee8021x_unauthorized_vlan_set _ _ | gnma_poe_port_admin_mode_set _ _
  | gnma_poe_port_detection_mode_set _ _ | gnma_poe_port_power_limit_set _ _ _
  | gnma_poe_port_priority_set _ _ | gnma_poe_port_reset _ => true
  | _ => false
  end.
Definition unit_stage (c : gnma_call) : bool :=
  match c with gnma_poe_power_mgmt_set _ | gnma_poe_usage_threshold_set _ => true | _ => false end.
Definition stp_stage (c : gnma_call) : bool :=
  match c with gnma_stp_mode_set _ _ | gnma_stp_ports_enable _ | gnma_stp_vid_set _ _ => true | _ => false end.
Definition address_stage (c : gnma_call) : bool :=
  match c with gnma_igmp_static_groups_set _ _ => true | _ => vlan_calls c end.
Definition portl2_stage (c : gnma_call) : bool :=
  match c with
  | gnma_portl2_erif_attr_pref_update _ _ | gnma_portl2_erif_attr_pref_delete _ _ => true
  | _ => false
  end.
Definition relay_stage (c : gnma_call) : bool :=
  match c with
  | gnma_vlan_dhcp_relay_server_add _ _ | gnma_vlan_dhcp_relay_server_remove _ _
  | gnma_vlan_dhcp_relay_ciruit_id_set _ _ | gnma_vlan_dhcp_relay_policy_action_set _ _
  | gnma_vlan_dhcp_relay_max_hop_cnt_set _ _ => true
  | _ => false
  end.
Definition route_stage (c : gnma_call) : bool :=
  match c with gnma_route_create _ _ | gnma_route_remove _ => true | _ => false end.
Definition host_added (c : gnma_call) : bool :=
  match c with gnma_radius_host_add _ _ _ _ | gnma_ieee8021x_das_dac_host_add _ _ => true | _ => false end.
Definition auth_stage (c : gnma_call) : bool :=
  match c with
  | gnma_ieee8021x_system_auth_control_set _ | gnma_radius_host_remove _ | gnma_ieee8021x_das_dac_host_remove _ => true
  | _ => host_added c
  end.
Definition password_stage (c : gnma_call) : bool :=
  match c with gnma_system_password_set _ => true | _ => false end.
Definition syslog_stage (c : gnma_call) : bool :=
  match c with gnma_syslog_cfg_clear | gnma_syslog_cfg_set _ => true | _ => false end.

(** What is known of the settings of a stage whatever the cache holds; the
    members of the change and the groups are left out. *)
Definition none_kept (c : gnma_call) : option gnma_call := None.
Definition kept_of_vlans (c : gnma_call) : option gnma_call :=
  match c with gnma_change_exec _ => Some (gnma_change_exec []) | _ => None end.
Definition kept_of_ports (c : gnma_call) : option gnma_call :=
  match c with gnma_port_admin_state_set _ _ => Some c | _ => None end.
Definition kept_of_addresses (c : gnma_call) : option gnma_call :=
  match c with
  | gnma_igmp_snooping_set _ _ => Some c
  | gnma_igmp_static_groups_set vid _ => Some (gnma_igmp_static_groups_set vid [])
  | _ => None
  end.
Definition kept_of_relays (c : gnma_call) : option gnma_call :=
  match c with gnma_vlan_dhcp_relay_server_add _ _ => Some c | _ => None end.
Definition kept_of_auth (c : gnma_call) : option gnma_call := if host_added c then Some c else None.

Definition no_call (c : gnma_call) : bool := false.
Record stage := mk_stage {
  st_may : gnma_call → bool;
  st_key : gnma_call → option gnma_call;
  st_kept : list gnma_call }.
Definition port_of (cfg : plat_cfg) (i : Z) : plat_port := arr_get zero_plat_port (cfg_ports cfg) i.
Definition vlan_of (cfg : plat_cfg) (i : Z) : plat_port_vlan := arr_get zero_plat_port_vlan (cfg_vlans cfg) i.
Definition admin_of (cfg : plat_cfg) (i : Z) : gnma_call :=
  gnma_port_admin_state_set (PID_TO_NAME i) (port_state (port_of cfg i) =? PORT_ENABLED_E).
Definition snooping_of (cfg : plat_cfg) (i : Z) : list gnma_call :=
  let vlan := vlan_of cfg i in
  if i =? FIRST_VLAN then []
  else [gnma_igmp_snooping_set (vlan_id vlan) no_snooping;
        gnma_igmp_snooping_set (vlan_id vlan) (snoop_attr (vlan_igmp vlan));
        gnma_igmp_static_groups_set (vlan_id vlan) []].
Definition relay_of (cfg : plat_cfg) (i : Z) : list gnma_call :=
  let relay := vlan_dhcp (vlan_of cfg i) in
  if negb (relay_enabled relay) || (i =? FIRST_VLAN) then []
  else [gnma_vlan_dhcp_relay_server_add i (relay_server_address relay)].
Definition dac_of (h : string * string) : gnma_call := gnma_ieee8021x_das_dac_host_add h.1 h.2.
Definition radius_of (h : plat_radius_host) : gnma_call :=
  gnma_radius_host_add (rad_hostname h) (rad_passkey h) (rad_auth_port h) (rad_priority h).
Definition hosts_of (cfg : plat_cfg) : list gnma_call :=
  map dac_of (cfgx_das_dac_list (cfg_ieee8021x cfg)) ++ map radius_of (cfg_radius_hosts_list cfg).
Definition password_of (cfg : plat_cfg) : list gnma_call :=
  if unit_password_changed (cfg_unit cfg) then [gnma_system_password_set (unit_password (cfg_unit cfg))] else [].

Definition config_ports (cfg : plat_cfg) : list Z := BITMAP_FOR_EACH_BIT_SET (cfg_ports_to_cfg cfg) MAX_NUM_OF_PORTS.
Definition config_vlans (cfg : plat_cfg) : list Z := BITMAP_FOR_EACH_BIT_SET (cfg_vlans_to_cfg cfg) MAX_VLANS.
Definition stages (cfg : plat_cfg) (f : features) : list stage :=
  [mk_stage vlan_stage kept_of_vlans [gnma_change_exec []];
   mk_stage port_stage kept_of_ports (map (admin_of cfg) (config_ports cfg));
   mk_stage unit_stage none_kept [];
   mk_stage stp_stage none_kept [];
   mk_stage address_stage kept_of_addresses (concat (map (snooping_of cfg) (config_vlans cfg)));
   mk_stage portl2_stage none_kept [];
   mk_stage relay_stage kept_of_relays (concat (map (relay_of cfg) (config_vlans cfg)));
   mk_stage route_stage none_kept [];
   mk_stage auth_stage kept_of_auth (if bool_decide (FEAT_AAA f = FEATSTS_OK) then hosts_of cfg else []);
   mk_stage password_stage Some (password_of cfg);
   mk_stage syslog_stage none_kept []].

Section stages.
Context `{G : Gnma, Q : QSort}.
Abbreviation in_stage st m := (does (st_may st) (st_key st) (st_kept st) m).

Lemma does_crit may key text : does may key [] (CFG_LOG_CRIT text).
Proof. unfold CFG_LOG_CRIT, plat_log_printf, plat_log_push_, plat_log_pop. does_solve. Qed.
Lemma does_upd_vlan may key vid f : does may key [] (upd_vlan vid f).
Proof. unfold upd_vlan, cache. does_solve. Qed.
Lemma does_vlan_state may key vid : does may key [] (vlan_state vid).
Proof. unfold vlan_state, cache. does_solve. Qed.
#[local] Hint Resolve does_crit does_upd_vlan does_vlan_state : does.

Lemma does_vlan_apply cfg : does vlan_stage kept_of_vlans [gnma_change_exec []] (config_vlan_apply cfg).
Proof.
  unfold config_vlan_apply. apply does_bind_r; [unfold plat_vlan_list_set, plat_vlan_rif_set; does_solve|intros _].
  apply does_bind_r; [does_solve|intros _]. apply does_bind_r; [does_solve|intros [rc mbr]].
  apply does_bind_r; [does_solve|intros _]. apply does_bind_r; [does_solve|intros _].
  apply does_bind_r; [|intros c; does_solve].
  unfold plat_vlan_memberlist_set, change_add_ok, change_add, member_bits. does_solve.
Qed.

Lemma does_port_link i p :
  does port_stage kept_of_ports [gnma_port_admin_state_set (PID_TO_NAME i) (port_state p =? PORT_ENABLED_E)]
    (port_link_apply i p).
Proof.
  unfold port_link_apply. apply does_bind_l; [|intros _].
  - unfold plat_port_admin_state_set. apply does_bind_l; [by apply does_call|does_solve].
  - unfold plat_port_duplex_set. does_step; [does_solve|]. does_step; [|does_solve].
    apply (does_attempt _ _ (λ c, match c with gnma_port_speed_set _ _ => true | _ => false end)); [by intros []|].
    unfold plat_port_speed_set. does_solve.
Qed.
Lemma does_ports cfg :
  does port_stage kept_of_ports (map (admin_of cfg) (config_ports cfg)) (plat_port_config_apply cfg).
Proof.
  assert (map (admin_of cfg) (config_ports cfg) = concat (map (λ i, [admin_of cfg i]) (config_ports cfg))) as ->.
  { induction (config_ports cfg) as [|i l IH]; [done|]. cbn [map concat app]. by rewrite IH. }
  unfold plat_port_config_apply. apply does_bind_l; [|does_solve]. apply does_fold_m. intros [xr pr] i.
  apply does_bind_l; [apply does_port_link|].
  unfold config_port_ieee8021x_apply, config_poe_port_apply, upd_poe, cache. does_solve.
Qed.
Lemma does_unit cfg : does unit_stage none_kept [] (config_unit_apply cfg).
Proof. unfold config_unit_apply, cache. does_solve. Qed.
Lemma does_stp cfg : does stp_stage none_kept [] (config_stp_apply cfg).
Proof.
  unfold config_stp_apply, config_stp_apply_ports_enable_all, plat_gnma_port_num_get, stp_vid_apply, cache. does_solve.
Qed.

Lemma does_group_list may key igmp n idx : does may key [] (igmp_group_list igmp n idx).
Proof. revert idx. induction n as [|n IH]; intros idx; cbn [igmp_group_list]; does_solve; apply IH. Qed.
#[local] Hint Resolve does_group_list : does.
Lemma does_addresses cfg :
  does address_stage kept_of_addresses (concat (map (snooping_of cfg) (config_vlans cfg)))
    (config_vlan_ipv4_apply cfg).
Proof.
  unfold config_vlan_ipv4_apply. apply does_for_each. intros i. unfold snooping_of, vlan_of. cbv zeta.
  destruct (i =? FIRST_VLAN); [apply does_ret|].
  apply (does_bind _ _ [_] [_; _]); [|intros _].
  - unfold plat_vlan_rif_set. cbv zeta. apply does_bind_r; [does_solve|intros [rc [n old]]].
    apply does_bind_r; [does_solve|intros _]. apply does_bind_r; [does_solve|intros v]. apply does_bind_r; [does_solve|intros _].
    apply does_bind_l; [by apply does_call_ok|]. does_solve.
  - unfold plat_vlan_igmp_set. apply does_bind_r; [does_solve|intros _]. apply does_bind_r; [does_solve|intros g].
    apply (does_bind _ _ [_] [_]); [by apply does_call_ok|intros _; by apply does_call_ok].
Qed.
Lemma does_portl2 cfg : does portl2_stage none_kept [] (config_portl2_ipv4_apply cfg).
Proof. unfold config_portl2_ipv4_apply, plat_portl2_rif_set, cache. does_solve. Qed.

Lemma does_relays cfg :
  does relay_stage kept_of_relays (concat (map (relay_of cfg) (config_vlans cfg))) (config_vlan_dhcp_relay_apply cfg).
Proof.
  unfold config_vlan_dhcp_relay_apply. apply does_bind_r; [unfold dhcp_relay_clear; does_solve|intros _].
  apply does_for_each. intros i. unfold relay_of, dhcp_relay_set, vlan_of. cbv zeta.
  destruct (_ || _); [apply does_ret|]. apply does_bind_l; [by apply does_call_ok|intros _].
  does_solve.
Qed.
Lemma does_router cfg : does route_stage none_kept [] (config_router_apply cfg).
Proof. unfold config_router_apply, route_diff_apply, route_create, route_remove, cache. does_solve. Qed.

Lemma does_hosts_clean remove hosts a n i changed :
  (∀ h, auth_stage (remove h) = true ∧ kept_of_auth (remove h) = None) →
  does auth_stage kept_of_auth [] (hosts_clean remove hosts a n i changed).
Proof.
  intros Hr. assert (∀ h, does auth_stage kept_of_auth [] (gnma_ok (remove h))) as Hd.
  { intros h. destruct (Hr h) as [H1 H2]. apply does_call_ok; [done|]. cbn. by rewrite H2. }
  revert i changed. induction n as [|n IH]; intros i changed; cbn [hosts_clean]; [does_solve|].
  unfold host_clean. repeat (intros; cbv beta; first [apply Hd|apply IH|does_step]).
Qed.
Lemma does_hosts_add adds changed :
  Forall (λ c, host_added c = true) adds → does auth_stage kept_of_auth adds (hosts_add adds changed).
Proof.
  intros Ha. unfold hosts_add. apply does_bind_l; [|does_solve].
  induction Ha as [|c adds Hc Ha IH]; [apply does_ret|].
  refine (does_bind _ _ [c] adds (gnma_ok c) (λ _, for_each adds gnma_ok) _ (λ _, IH)).
  apply does_call_ok; [by destruct c|]. cbn. unfold kept_of_auth. by rewrite Hc.
Qed.
Lemma does_host_lists {A} (hosts : list A) (add : A → gnma_call) remove names a n (again : M plat unit) :
  (∀ h, auth_stage (remove h) = true ∧ kept_of_auth (remove h) = None) → (∀ h, host_added (add h) = true) →
  does no_call none_kept [] again →
  does auth_stage kept_of_auth (map add hosts)
    (changed ← hosts_clean remove names a n 0 false;
     changed ← hosts_add (add <$> hosts) changed;
     if (changed : bool) then _ ← attempt again; ret tt else ret tt).
Proof.
  intros Hr Ha Hg. apply does_bind_r; [by apply does_hosts_clean|intros c].
  apply does_bind_l; [apply does_hosts_add, Forall_fmap, Forall_true, Ha|].
  intros [|]; [|apply does_ret]. apply does_bind_r; [|intros; apply does_ret].
  by apply (does_attempt _ _ no_call).
Qed.
Lemma does_auth cfg : does auth_stage kept_of_auth (hosts_of cfg) (config_ieee8021x_apply cfg).
Proof.
  unfold config_ieee8021x_apply, plat_dac_list_set, plat_radius_hosts_list_set, cache.
  apply does_bind_r; [does_solve|intros s]. apply does_bind_r; [does_solve|intros _].
  apply does_bind; [|intros _]; (apply does_bind_r; [does_solve|intros s']).
  - apply (does_host_lists _ dac_of); [done|done|].
    unfold plat_state_ieee8021x_dac_list_init, set_dac, set_radius. does_solve.
  - apply (does_host_lists _ radius_of); [done|done|]. unfold plat_state_radius_init, set_radius. does_solve.
Qed.
Lemma does_password cfg : does password_stage Some (password_of cfg) (config_system_password_apply cfg).
Proof.
  unfold config_system_password_apply, password_of, c_buf_str. destruct (unit_password_changed _); [|apply does_ret].
  cbn [when]. destruct (_ <? _); [by apply does_call_ok|apply does_faulty].
Qed.
Lemma does_syslog_entries may key cfg n i : does may key [] (syslog_entries cfg n i).
Proof. revert i. induction n as [|n IH]; intros i; cbn [syslog_entries]; does_solve; apply IH. Qed.
#[local] Hint Resolve does_syslog_entries : does.
Lemma does_syslog cfg n : does syslog_stage none_kept [] (attempt (plat_syslog_set cfg n)).
Proof.
  apply (does_attempt _ _ syslog_stage); [by intros []|]. unfold plat_syslog_set. does_solve.
Qed.
End stages.

(** ** The whole *)
Section whole.
Context `{G : Gnma, Q : QSort}.

Definition stage_made (st : stage) : list (gnma_call * Z) → Prop := all_made (st_may st) (st_key st) (st_kept st).
(** The settings of one stage after those of another, none missing. *)
Definition finished (sts : list stage) (l : list (gnma_call * Z)) : Prop :=
  ∃ parts, l = concat parts ∧ Forall2 stage_made sts parts.
(** Some stages, then the beginning of the next one. *)
Definition given_up (sts : list stage) (l : list (gnma_call * Z)) : Prop :=
  ∃ before st after l1 l2, sts = before ++ st :: after ∧ l = l1 ++ l2 ∧ finished before l1 ∧
    cut_short (st_may st) l2.
Definition runs (sts : list stage) (m : M plat unit) : Prop :=
  ∀ p, wp m (λ _ p', adds (finished sts) p p') (adds (given_up sts) p) any_fault p.

Lemma runs_ret : runs [] (ret tt).
Proof. intros p. apply wp_ret. exists []. rewrite app_nil_r. split; [done|]. by exists []. Qed.
Lemma runs_stage {A} st sts (m : M plat A) k :
  does (st_may st) (st_key st) (st_kept st) m → (∀ a, runs sts (k a)) → runs (st :: sts) (m ≫= k).
Proof.
  intros Hm Hk p. apply wp_bind. eapply wp_mono; [apply Hm| | |done].
  - intros a p1 (l1 & E1 & H1). eapply wp_mono; [apply Hk| | |done].
    + intros ? p2 (l2 & E2 & parts & -> & H2). exists (concat (l1 :: parts)). rewrite E2, E1, <- app_assoc.
      split; [done|]. exists (l1 :: parts). by split; [|constructor].
    + intros p2 (l2 & E2 & before & st' & after & k1 & k2 & -> & -> & (parts & -> & H2) & Hc).
      exists (l1 ++ concat parts ++ k2). rewrite E2, E1, <- app_assoc. split; [done|].
      exists (st :: before), st', after, (concat (l1 :: parts)), k2. cbn [concat app]. rewrite <- app_assoc.
      split_and!; [done|done| |done]. exists (l1 :: parts). by split; [|constructor].
  - intros p1 (l1 & E1 & H1). exists l1. split; [done|]. exists [], st, sts, [], l1. split_and!; [done|done| |done].
    exists []. by split; [|constructor].
Qed.
Lemma runs_quiet {A} sts (m : M plat A) k :
  (∀ may key, does may key [] m) → (∀ a, runs sts (k a)) → sts ≠ [] → runs sts (m ≫= k).
Proof.
  intros Hm Hk Hne p. apply wp_bind.
  assert (∀ l, Forall (heeded no_call) l → l = []) as Hnil by (intros l Hl; by destruct Hl as [|? ? []]).
  eapply wp_mono; [apply (Hm no_call none_kept)| | |done].
  - intros a p1 (l1 & E1 & H1 & _). rewrite (Hnil l1 H1), app_nil_r in E1.
    eapply wp_mono; [apply Hk| | |done]; unfold adds; by rewrite E1.
  - intros p1 (l1 & E1 & b & o & -> & Hb & Ho). rewrite (Hnil b Hb) in E1.
    destruct o as [c|]; [by specialize (Ho c eq_refl)|]. destruct sts as [|st sts]; [done|].
    exists []. split; [done|]. exists [], st, sts, [], []. split_and!; [done|done| |].
    + exists []. by split; [|constructor].
    + by exists [], None.
Qed.

(** C4: What [plat_config_apply] asks of the switch, in order: the VLANs with
    one change of their members, the ports (each with its administrative state),
    the power of the unit, spanning tree, the addresses of VLANs with IGMP
    snooping and static groups for each, the addresses of ports, the DHCP relays
    with the server of each, the routes, the authentication with the hosts of
    both lists (if the feature is up), the password if it changed, syslog.  No
    setting comes out of its turn.  When it succeeds every setting was accepted
    but those whose answer is not looked at ([unheeded]: the link of a port,
    routes removed, syslog); when it fails, the stages before were completed,
    the one it failed in ends with at most one refused setting, and nothing is
    asked after that. *)
Theorem config_apply_in_order cfg (p : plat) :
  wp (plat_config_apply cfg)
    (λ _ p', adds (finished (stages cfg (pl_features p))) p p')
    (adds (given_up (stages cfg (pl_features p))) p) any_fault p.
Proof.
  unfold plat_config_apply. apply wp_bind, wp_gets. generalize (pl_features p) as f. intros f. revert p.
  change (runs (stages cfg f) (
    _ ← when (bool_decide (FEAT_CORE f ≠ FEATSTS_OK))
          (CFG_LOG_CRIT "core features are not initialized, the system is not stable");
    _ ← config_vlan_apply cfg; _ ← plat_port_config_apply cfg; _ ← config_unit_apply cfg;
    _ ← config_stp_apply cfg; _ ← config_vlan_ipv4_apply cfg; _ ← config_portl2_ipv4_apply cfg;
    _ ← config_vlan_dhcp_relay_apply cfg; _ ← config_metrics_apply cfg; _ ← config_router_apply cfg;
    _ ← (if bool_decide (FEAT_AAA f = FEATSTS_OK) then config_ieee8021x_apply cfg
         else CFG_LOG_CRIT "AAA feature is not initialized, skipping configuration");
    _ ← config_system_password_apply cfg;
    _ ← attempt (plat_syslog_set (cfg_log_cfg cfg) (cfg_log_cfg_cnt cfg)); ret tt)).
  apply runs_quiet; [intros; apply does_when, does_crit|intros _|done].
  apply runs_stage; [apply does_vlan_apply|intros _]. apply runs_stage; [apply does_ports|intros _].
  apply runs_stage; [apply does_unit|intros _]. apply runs_stage; [apply does_stp|intros _].
  apply runs_stage; [apply does_addresses|intros _]. apply runs_stage; [apply does_portl2|intros _].
  apply runs_stage; [apply does_relays|intros _].
  apply runs_quiet; [intros; apply does_ret|intros _|done].
  apply runs_stage; [apply does_router|intros _].
  apply runs_stage; [cbn [st_may st_key st_kept]; destruct (bool_decide _); [apply does_auth|apply does_crit]|intros _].
  apply runs_stage; [apply does_password|intros _]. apply runs_stage; [apply does_syslog|intros _].
  apply runs_ret.
Qed.
End whole.
