(* ===== verification/PlatCache.v ===== *)
(** * The cache and the switch agree ([plat-gnma.c])

    What the switch has been set to, as a map from the things that can be set
    to the last setting it accepted; the cache stands for such settings.
    [coherent] says the two agree on IEEE 802.1X, power over Ethernet and the
    settings of the unit.  [keeps] is the frame rule for the operations that
    leave all of this alone. *)

From S2P Require Import Prelude CNum CStr Bitmap Router PlatTypes ProtoConv PortList Gnma PlatState.
#[local] Open Scope list_scope.

(** ** Settings *)
Inductive setting :=
  | KPae (port : string) | KCtrl (port : string) | KHost (port : string)
  | KGuest (port : string) | KUnauth (port : string)
  | KPoeDetection (port : string) | KPoePriority (port : string)
  | KPoeLimit (port : string) | KPoeAdmin (port : string)
  | KPowerMgmt | KThreshold | KAuthControl.
#[export] Instance setting_eq_dec : EqDecision setting.
Proof. solve_decision. Defined.

Definition setting_of (c : gnma_call) : option setting :=
  match c with
  | gnma_port_ieee8021x_pae_mode_set n _ => Some (KPae n)
  | gnma_port_ieee8021x_port_ctrl_set n _ => Some (KCtrl n)
  | gnma_port_ieee8021x_port_host_mode_set n _ => Some (KHost n)
  | gnma_port_ieee8021x_guest_vlan_set n _ => Some (KGuest n)
  | gnma_port_ieee8021x_unauthorized_vlan_set n _ => Some (KUnauth n)
  | gnma_poe_port_detection_mode_set n _ => Some (KPoeDetection n)
  | gnma_poe_port_priority_set n _ => Some (KPoePriority n)
  | gnma_poe_port_power_limit_set n _ _ => Some (KPoeLimit n)
  | gnma_poe_port_admin_mode_set n _ => Some (KPoeAdmin n)
  | gnma_poe_power_mgmt_set _ => Some KPowerMgmt
  | gnma_poe_usage_threshold_set _ => Some KThreshold
  | gnma_ieee8021x_system_auth_control_set _ => Some KAuthControl
  | _ => None
  end.

(** The last setting accepted for each thing. *)
Definition view : Type := setting → option gnma_call.
Definition view_set (v : view) (k : setting) (c : gnma_call) : view :=
  λ k', if decide (k' = k) then Some c else v k'.
Definition settle (v : view) (call : gnma_call * Z) : view :=
  if call.2 =? 0 then match setting_of call.1 with Some k => view_set v k call.1 | None => v end else v.
Definition view_after (v : view) (calls : list (gnma_call * Z)) : view := foldl settle v calls.

Definition holds (v : view) (l : list (setting * gnma_call)) : Prop := Forall (λ e, v e.1 = Some e.2) l.

(** ** What the cache says *)
Definition x_settings (n : string) (x : x_port) : list (setting * gnma_call) :=
  [(KPae n, gnma_port_ieee8021x_pae_mode_set n (xp_is_authenticator x));
   (KCtrl n, gnma_port_ieee8021x_port_ctrl_set n (xp_control_mode x));
   (KHost n, gnma_port_ieee8021x_port_host_mode_set n (xp_host_mode x));
   (KGuest n, gnma_port_ieee8021x_guest_vlan_set n (xp_guest_vid x));
   (KUnauth n, gnma_port_ieee8021x_unauthorized_vlan_set n (xp_auth_fail_vid x))].
Definition poe_settings (n : string) (p : poe_port) : list (setting * gnma_call) :=
  [(KPoeDetection n, gnma_poe_port_detection_mode_set n (pp_detection_mode p));
   (KPoePriority n, gnma_poe_port_priority_set n (pp_priority p));
   (KPoeLimit n, gnma_poe_port_power_limit_set n (pp_is_power_limit_user_defined p) (pp_power_limit p));
   (KPoeAdmin n, gnma_poe_port_admin_mode_set n (pp_is_admin_mode_up p))].
Definition unit_settings (s : plat_state) : list (setting * gnma_call) :=
  [(KPowerMgmt, gnma_poe_power_mgmt_set (ps_power_mgmt s));
   (KThreshold, gnma_poe_usage_threshold_set (ps_usage_threshold s));
   (KAuthControl, gnma_ieee8021x_system_auth_control_set (ps_is_auth_control_enabled s))].

Definition cached_x (s : plat_state) (i : Z) : x_port := arr_get zero_x_port (ps_ports s) i.
Definition cached_poe (s : plat_state) (i : Z) : poe_port := arr_get zero_poe_port (ps_poe_ports s) i.
Definition has_poe (s : plat_state) (i : Z) : Prop :=
  0 ≤ i < MAX_NUM_OF_PORTS ∧ BITMAP_TEST_BIT (ps_poe_bmap s) i = true.

Record coherent (v : view) (s : plat_state) : Prop := {
  coh_x i : 0 ≤ i < MAX_NUM_OF_PORTS → holds v (x_settings (PID_TO_NAME i) (cached_x s i));
  coh_poe i : has_poe s i →
    pp_key (cached_poe s i) = PID_TO_NAME i ∧ holds v (poe_settings (PID_TO_NAME i) (cached_poe s i));
  coh_unit : holds v (unit_settings s) }.

(** ** Facts on views *)
Lemma view_set_eq v k c : view_set v k c k = Some c.
Proof. unfold view_set. by rewrite decide_True. Qed.
Lemma view_set_ne v k c k' : k' ≠ k → view_set v k c k' = v k'.
Proof. intros H. unfold view_set. by rewrite decide_False. Qed.

Lemma view_after_app v c1 c2 : view_after v (c1 ++ c2) = view_after (view_after v c1) c2.
Proof. apply foldl_app. Qed.

Lemma holds_ext v v' l : (∀ k, k ∈ l.*1 → v' k = v k) → holds v l → holds v' l.
Proof.
  intros H Hl. unfold holds in *. rewrite Forall_forall in *. intros [k c] Hin. cbn in *.
  rewrite H; [by apply (Hl (k, c))|]. apply list_elem_of_fmap. by exists (k, c).
Qed.

Lemma pid_name_inj i j : 0 ≤ i < MAX_NUM_OF_PORTS → 0 ≤ j < MAX_NUM_OF_PORTS →
  PID_TO_NAME i = PID_TO_NAME j → i = j.
Proof.
  unfold MAX_NUM_OF_PORTS. intros Hi Hj E.
  pose proof (name_to_pid_to_name i ltac:(lia)) as H. rewrite E, name_to_pid_to_name in H by lia. congruence.
Qed.

(** ** The part of the state the view speaks of *)
Definition core (s : plat_state) :=
  (ps_ports s, ps_poe_ports s, ps_poe_bmap s, ps_power_mgmt s, ps_usage_threshold s,
   ps_is_auth_control_enabled s).

Lemma coherent_core v v' s s' :
  core s' = core s → (∀ k, v' k = v k) → coherent v s → coherent v' s'.
Proof.
  intros Hc Hv [H1 H2 H3]. unfold core in Hc. injection Hc as E1 E2 E3 E4 E5 E6.
  split; unfold cached_x, cached_poe, has_poe in *.
  - intros i Hi. rewrite E1. eapply holds_ext; [by intros; apply Hv|by apply H1].
  - intros i Hi. rewrite E2. rewrite E3 in Hi. destruct (H2 i Hi) as [? ?]. split; [done|].
    by eapply holds_ext; [intros; apply Hv|].
  - unfold unit_settings in *. rewrite E4, E5, E6. by eapply holds_ext; [intros; apply Hv|].
Qed.

Section keeps.
Context `{G : Gnma} (v0 : view).

Definition view_of (p : plat) : view := view_after v0 (pl_calls p).
Definition coh (p : plat) : Prop := coherent (view_of p) (pl_state p).

(** Nothing the view or the coherence speaks of has changed, and memory that
    does not run out still does not. *)
Definition same (p p' : plat) : Prop :=
  (∀ k, view_of p' k = view_of p k) ∧ core (pl_state p') = core (pl_state p) ∧
  pl_features p' = pl_features p ∧ (pl_heap p = [] → pl_heap p' = []).
#[export] Instance same_preorder : PreOrder same.
Proof.
  split; [done|]. intros p1 p2 p3 (A1 & B1 & C1 & D1) (A2 & B2 & C2 & D2).
  split_and!; [|congruence|congruence|auto]. intros k. by rewrite A2, A1.
Qed.

Lemma same_coh p p' : same p p' → coh p → coh p'.
Proof. intros (A & B & C). by apply coherent_core. Qed.

(** ** Operations that keep all of it *)
Definition keeps {A} (m : M plat A) : Prop :=
  ∀ p, wp m (λ _ p', same p p') (λ p', same p p') any_fault p.

Lemma keeps_ret {A} (a : A) : keeps (ret a).
Proof. intros p. by apply wp_ret. Qed.
Lemma keeps_fail {A} : keeps (fail (A := A)).
Proof. intros p. by apply wp_fail. Qed.
Lemma keeps_faulty {A} f : keeps (faulty (A := A) f).
Proof. intros p. by apply wp_faulty. Qed.
Lemma keeps_gets {A} (f : plat → A) : keeps (gets f).
Proof. intros p. by apply wp_gets. Qed.
Lemma keeps_bind {A B} (m : M plat A) (k : A → M plat B) : keeps m → (∀ a, keeps (k a)) → keeps (m ≫= k).
Proof.
  intros Hm Hk p. apply wp_bind. eapply wp_mono; [apply Hm| |done|done]. intros a p1 H1.
  eapply wp_mono; [apply Hk| | |done].
  - intros ? p2 H2. by transitivity p1.
  - intros p2 H2. by transitivity p1.
Qed.
Lemma keeps_when b m : keeps m → keeps (when b m).
Proof. intros H. destruct b; [done|apply keeps_ret]. Qed.
Lemma keeps_fail_if b : keeps (fail_if b).
Proof. destruct b; [apply keeps_fail|apply keeps_ret]. Qed.
Lemma keeps_attempt {A} (m : M plat A) : keeps m → keeps (attempt m).
Proof. intros H p. apply wp_attempt. by eapply wp_mono; [apply H| | |]. Qed.
Lemma keeps_deref {A} (o : option A) : keeps (deref o).
Proof. destruct o; [apply keeps_ret|apply keeps_faulty]. Qed.
Lemma keeps_of_option {A} f (o : option A) : keeps (of_option f o).
Proof. destruct o; [apply keeps_ret|apply keeps_faulty]. Qed.
Lemma keeps_for_each {A} (l : list A) body : (∀ x, keeps (body x)) → keeps (for_each l body).
Proof.
  intros H p. apply (wp_for_each_inv (same p)); [done| |done]. intros x p1 _ H1.
  eapply wp_mono; [apply H| | |done].
  - intros ? p2 H2. by transitivity p1.
  - intros p2 H2. by transitivity p1.
Qed.
Lemma keeps_fold_m {A B} (f : B → A → M plat B) l b : (∀ b x, keeps (f b x)) → keeps (fold_m f l b).
Proof.
  intros H. revert b. induction l as [|x l IH]; intros b; [apply keeps_ret|].
  exact (keeps_bind (f b x) (fold_m f l) (H b x) IH).
Qed.

(** The primitives. *)
Lemma keeps_ask {A} (q : gnma_query A) old : keeps (ask q old).
Proof. intros p. unfold ask, wp. by destruct (gnma_get q old _) as [[[rc a] g]|f]. Qed.
Lemma keeps_alloc : keeps pl_alloc.
Proof. intros p. unfold pl_alloc, wp. by destruct (pl_heap p) eqn:E; split_and!; rewrite ?E. Qed.
Lemma keeps_gnma c : setting_of c = None → keeps (gnma c).
Proof.
  intros Hc p. unfold gnma, wp. destruct (gnma_do c _) as [[rc g]|f]; [|done]. split_and!; [|done|done|done].
  intros k. unfold view_of. cbn. rewrite view_after_app. cbn. unfold settle. cbn. rewrite Hc. by case_match.
Qed.
Lemma keeps_gnma_ok c : setting_of c = None → keeps (gnma_ok c).
Proof. intros Hc. apply keeps_bind; [by apply keeps_gnma|]. intros rc. apply keeps_fail_if. Qed.
Lemma keeps_upd_cache f : (∀ s, core (f s) = core s) → keeps (upd_cache f).
Proof. intros Hf p. apply wp_modify. split_and!; [done|apply Hf|done|done]. Qed.
Lemma keeps_arr_read {A} n (zero : A) a i : keeps (arr_read n zero a i).
Proof. unfold arr_read. case_match; [apply keeps_ret|apply keeps_faulty]. Qed.
Lemma keeps_arr_write {A} n (a : gmap Z A) i x : keeps (arr_write n a i x).
Proof. unfold arr_write. case_match; [apply keeps_ret|apply keeps_faulty]. Qed.
Lemma keeps_bit_test A k : keeps (bit_test A k).
Proof. unfold bit_test. case_match; [apply keeps_ret|apply keeps_faulty]. Qed.
Lemma keeps_bit_set A k : keeps (bit_set A k).
Proof. unfold bit_set. case_match; [apply keeps_ret|apply keeps_faulty]. Qed.
Lemma keeps_alloc_or_fail : keeps pl_alloc_or_fail.
Proof. apply keeps_bind; [apply keeps_alloc|]. intros b. apply keeps_fail_if. Qed.
Lemma keeps_log f : keeps (ring_upd f).
Proof. intros p. by apply wp_modify. Qed.
End keeps.

(** The frame rules by the shape of the code; the lemmas on the operations of
    the other files come from the hint database. *)
Create HintDb keeps discriminated.
#[export] Hint Resolve keeps_ret keeps_fail keeps_faulty keeps_gets keeps_fail_if keeps_deref
  keeps_of_option keeps_ask keeps_alloc keeps_alloc_or_fail keeps_arr_read keeps_arr_write
  keeps_bit_test keeps_bit_set keeps_log : keeps.

Ltac keeps_step :=
  lazymatch goal with
  | |- keeps _ (mbind _ _) => apply keeps_bind
  | |- keeps _ (when _ _) => apply keeps_when
  | |- keeps _ (for_each _ _) => apply keeps_for_each
  | |- keeps _ (fold_m _ _ _) => apply keeps_fold_m
  | |- keeps _ (attempt _) => apply keeps_attempt
  | |- keeps _ (gnma _) => first [apply keeps_gnma; reflexivity|apply keeps_gnma]
  | |- keeps _ (gnma_ok _) => first [apply keeps_gnma_ok; reflexivity|apply keeps_gnma_ok]
  | |- keeps _ (upd_cache _) => apply keeps_upd_cache; intros; reflexivity
  | |- keeps _ (match ?x with _ => _ end) => destruct x
  | |- keeps _ ((match ?x with _ => _ end) _) => destruct x
  | |- keeps _ _ => solve [auto 1 with keeps nocore]
  end.
Ltac keeps_solve := repeat (intros; cbv beta; keeps_step).
