(* ===== verification/PlatApplySpec.v ===== *)
(** * Applying a configuration: 802.1X, PoE and the unit

    The parts of [plat_config_apply] that leave IEEE 802.1X, power over
    Ethernet and the unit alone, the parts that set them, and their
    composition. *)

From S2P Require Import Prelude CNum CStr Bitmap Router PlatTypes ProtoConv Gnma PortList PlatState PlatVlan PlatPort PlatAaa PlatInit PlatApply PlatSample PlatCache.
#[local] Open Scope list_scope.

Section apply_spec.
Context `{G : Gnma, Q : QSort} (v0 : view).

(** ** The parts that do not touch the view *)
Lemma keeps_crit text : keeps v0 (CFG_LOG_CRIT text).
Proof. unfold CFG_LOG_CRIT, plat_log_printf, plat_log_push_, plat_log_pop. keeps_solve. Qed.

Lemma keeps_upd_vlan vid f : keeps v0 (upd_vlan vid f).
Proof. unfold upd_vlan, cache. keeps_solve. Qed.
Lemma keeps_vlan_state vid : keeps v0 (vlan_state vid).
Proof. unfold vlan_state, cache. keeps_solve. Qed.
#[local] Hint Resolve keeps_crit keeps_upd_vlan keeps_vlan_state : keeps.

Lemma keeps_rif_set vid ipv4 : keeps v0 (plat_vlan_rif_set vid ipv4).
Proof. unfold plat_vlan_rif_set. keeps_solve. Qed.
Lemma keeps_group_list igmp n idx : keeps v0 (igmp_group_list igmp n idx).
Proof. revert idx. induction n as [|n IH]; intros idx; cbn [igmp_group_list]; keeps_solve; apply IH. Qed.
#[local] Hint Resolve keeps_rif_set keeps_group_list : keeps.
Lemma keeps_igmp_set vid igmp : keeps v0 (plat_vlan_igmp_set vid igmp).
Proof. unfold plat_vlan_igmp_set. keeps_solve. Qed.
#[local] Hint Resolve keeps_igmp_set : keeps.
Lemma keeps_vlan_ipv4 cfg : keeps v0 (config_vlan_ipv4_apply cfg).
Proof. unfold config_vlan_ipv4_apply. keeps_solve. Qed.

Lemma keeps_change_add c op : keeps v0 (change_add c op).
Proof. unfold change_add. keeps_solve. Qed.
#[local] Hint Resolve keeps_change_add : keeps.
Lemma keeps_change_add_ok c op : keeps v0 (change_add_ok c op).
Proof. unfold change_add_ok. keeps_solve. Qed.
Lemma keeps_member_bits l : keeps v0 (member_bits l).
Proof. unfold member_bits. keeps_solve. Qed.
#[local] Hint Resolve keeps_change_add_ok keeps_member_bits : keeps.
Lemma keeps_memberlist c bm vlan : keeps v0 (plat_vlan_memberlist_set c bm vlan).
Proof. unfold plat_vlan_memberlist_set. keeps_solve. Qed.
Lemma keeps_vlan_list bm : keeps v0 (plat_vlan_list_set bm).
Proof. unfold plat_vlan_list_set. keeps_solve. Qed.
#[local] Hint Resolve keeps_memberlist keeps_vlan_list : keeps.
Lemma keeps_vlan_apply cfg : keeps v0 (config_vlan_apply cfg).
Proof. unfold config_vlan_apply. keeps_solve. Qed.

Lemma keeps_dhcp cfg : keeps v0 (config_vlan_dhcp_relay_apply cfg).
Proof. unfold config_vlan_dhcp_relay_apply, dhcp_relay_clear, dhcp_relay_set. keeps_solve. Qed.

Lemma keeps_portl2 cfg : keeps v0 (config_portl2_ipv4_apply cfg).
Proof. unfold config_portl2_ipv4_apply, plat_portl2_rif_set, cache. keeps_solve. Qed.

Lemma keeps_ports_enable : keeps v0 config_stp_apply_ports_enable_all.
Proof. unfold config_stp_apply_ports_enable_all, plat_gnma_port_num_get. keeps_solve. Qed.
#[local] Hint Resolve keeps_ports_enable : keeps.
Lemma keeps_stp cfg : keeps v0 (config_stp_apply cfg).
Proof. unfold config_stp_apply, stp_vid_apply, cache. keeps_solve. Qed.

Lemma keeps_metrics cfg : keeps v0 (config_metrics_apply cfg).
Proof. unfold config_metrics_apply. keeps_solve. Qed.
Lemma keeps_router cfg : keeps v0 (config_router_apply cfg).
Proof.
  unfold config_router_apply, route_diff_apply, route_create, route_remove, cache. keeps_solve.
Qed.

Lemma keeps_link i p : keeps v0 (port_link_apply i p).
Proof.
  unfold port_link_apply, plat_port_admin_state_set, plat_port_speed_set, plat_port_duplex_set. keeps_solve.
Qed.

Lemma keeps_radius_init : keeps v0 plat_state_radius_init.
Proof. unfold plat_state_radius_init, set_radius. keeps_solve. Qed.
Lemma keeps_dac_init : keeps v0 plat_state_ieee8021x_dac_list_init.
Proof. unfold plat_state_ieee8021x_dac_list_init, set_dac, set_radius. keeps_solve. Qed.
#[local] Hint Resolve keeps_radius_init keeps_dac_init : keeps.

Lemma keeps_hosts_clean remove hosts a n i changed :
  (∀ k, setting_of (remove k) = None) → keeps v0 (hosts_clean remove hosts a n i changed).
Proof.
  intros Hr. revert i changed. induction n as [|n IH]; intros i changed; cbn [hosts_clean]; [keeps_solve|].
  unfold host_clean. keeps_solve; first [apply Hr|apply IH].
Qed.
Lemma keeps_hosts_add adds changed :
  Forall (λ c, setting_of c = None) adds → keeps v0 (hosts_add adds changed).
Proof.
  intros Ha. unfold hosts_add. apply keeps_bind; [|keeps_solve].
  induction Ha as [|c adds Hc Ha IH]; [apply keeps_ret|].
  exact (keeps_bind v0 (gnma_ok c) (λ _, for_each adds gnma_ok) (keeps_gnma_ok v0 c Hc) (λ _, IH)).
Qed.
Lemma keeps_radius hosts : keeps v0 (plat_radius_hosts_list_set hosts).
Proof.
  unfold plat_radius_hosts_list_set, cache. keeps_solve.
  - by apply keeps_hosts_clean.
  - apply keeps_hosts_add, Forall_fmap. by apply Forall_true.
Qed.
Lemma keeps_dac hosts : keeps v0 (plat_dac_list_set hosts).
Proof.
  unfold plat_dac_list_set, cache. keeps_solve.
  - by apply keeps_hosts_clean.
  - apply keeps_hosts_add, Forall_fmap. by apply Forall_true.
Qed.

Lemma keeps_password cfg : keeps v0 (config_system_password_apply cfg).
Proof. unfold config_system_password_apply, c_buf_str. keeps_solve. Qed.
Lemma keeps_syslog_entries cfg n i : keeps v0 (syslog_entries cfg n i).
Proof. revert i. induction n as [|n IH]; intros i; cbn [syslog_entries]; keeps_solve; apply IH. Qed.
#[local] Hint Resolve keeps_syslog_entries : keeps.
Lemma keeps_syslog cfg n : keeps v0 (plat_syslog_set cfg n).
Proof. unfold plat_syslog_set. keeps_solve. Qed.

(** ** Settings that are accepted *)

(** [l] set on top of [v], the first entry last. *)
Definition overlay (v : view) (l : list (setting * gnma_call)) : view :=
  foldr (λ e v, view_set v e.1 e.2) v l.

Lemma overlay_other v l k : k ∉ l.*1 → overlay v l k = v k.
Proof.
  induction l as [|e l IH]; intros H; [done|]. cbn in *. apply not_elem_of_cons in H as [H1 H2].
  rewrite view_set_ne by done. by apply IH.
Qed.
Lemma overlay_self v l : NoDup l.*1 → holds (overlay v l) l.
Proof.
  induction l as [|e l IH]; intros H; [constructor|]. cbn in H. inversion_clear H as [|?? Hn Hd].
  constructor; [apply view_set_eq|]. eapply holds_ext; [|by apply IH].
  intros k Hk. apply view_set_ne. by intros ->.
Qed.
Lemma overlay_holds v l l' : (∀ k, k ∈ l'.*1 → k ∉ l.*1) → holds v l' → holds (overlay v l) l'.
Proof. intros H. apply holds_ext. intros k Hk. by apply overlay_other, H. Qed.

(** From [p], the settings [l] were accepted and nothing else of interest
    happened. *)
Definition reached (p : plat) (l : list (setting * gnma_call)) (p' : plat) : Prop :=
  pl_state p' = pl_state p ∧ pl_features p' = pl_features p ∧
  ∀ k, view_of v0 p' k = overlay (view_of v0 p) l k.

Lemma reached_nil p : reached p [] p.
Proof. done. Qed.

Lemma gnma_ok_reached p l p1 c k : setting_of c = Some k → reached p l p1 →
  wp (gnma_ok c) (λ _ p2, reached p ((k, c) :: l) p2) any_err any_fault p1.
Proof.
  intros Hk (A & B & C). unfold gnma_ok, gnma. apply wp_bind. unfold wp at 1.
  destruct (gnma_do c _) as [[rc g]|f]; [|done]. apply wp_fail_if; [done|]. intros Hrc%negb_false_iff.
  split_and!; [done|done|]. intros k'. unfold view_of. cbn. rewrite view_after_app. cbn.
  unfold settle. cbn. rewrite Hrc, Hk. unfold view_set. case_decide; [done|apply C].
Qed.

Lemma when_reached b p l p1 c k : setting_of c = Some k → reached p l p1 →
  (b = false → overlay (view_of v0 p) l k = Some c) →
  wp (when b (gnma_ok c)) (λ _ p2, reached p ((k, c) :: l) p2) any_err any_fault p1.
Proof.
  intros Hk Hr Hb. destruct b; [by apply gnma_ok_reached|]. apply wp_ret.
  destruct Hr as (A & B & C). split_and!; [done|done|]. intros k'. rewrite C. cbn.
  unfold view_set. case_decide as E; [|done]. subst. by apply Hb.
Qed.

(** ** IEEE 802.1X on a port *)
Definition x_of_cfg (key : string) (x : plat_port) : x_port :=
  let x := port_ieee8021x x in
  mk_x_port key (ctrl_mode_of (x_control_mode x)) (host_mode_of (x_host_mode x)) (x_auth_fail_vid x)
    (x_guest_vid x) (x_is_authenticator x).

(** The port and the kind of a setting. *)
Definition kind (k : setting) : option string * bool :=
  match k with
  | KPae n | KCtrl n | KHost n | KGuest n | KUnauth n => (Some n, true)
  | KPoeDetection n | KPoePriority n | KPoeLimit n | KPoeAdmin n => (Some n, false)
  | KPowerMgmt | KThreshold | KAuthControl => (None, false)
  end.
Definition of_kind (q : option string * bool) (l : list (setting * gnma_call)) : Prop :=
  Forall (λ k, kind k = q) l.*1.

Lemma x_kind n x : of_kind (Some n, true) (x_settings n x).
Proof. by repeat constructor. Qed.
Lemma poe_kind n p : of_kind (Some n, false) (poe_settings n p).
Proof. by repeat constructor. Qed.
Lemma unit_kind s : of_kind (None, false) (unit_settings s).
Proof. by repeat constructor. Qed.
#[local] Hint Resolve x_kind poe_kind unit_kind : core.

Lemma kinds_apart q q' l l' : of_kind q l → of_kind q' l' → q ≠ q' → ∀ k, k ∈ l.*1 → k ∉ l'.*1.
Proof.
  unfold of_kind. rewrite !Forall_forall. intros H H' Hne k Hk Hk'. apply Hne.
  by rewrite <- (H k), (H' k).
Qed.

Lemma x_settings_nodup n x : NoDup (x_settings n x).*1.
Proof.
  cbn. repeat (constructor; [rewrite ?not_elem_of_cons; split_and?; try done; by apply not_elem_of_nil|]).
  constructor.
Qed.

Lemma overlay_perm v l l' : l ≡ₚ l' → NoDup l'.*1 → holds (overlay v l) l'.
Proof.
  intros Hp Hd. unfold holds. rewrite <- Hp. apply overlay_self. by rewrite Hp.
Qed.
Lemma overlay_perm_other v l l' l2 :
  l ≡ₚ l' → (∀ k, k ∈ l2.*1 → k ∉ l'.*1) → holds v l2 → holds (overlay v l) l2.
Proof. intros Hp H. apply overlay_holds. intros k Hk. rewrite Hp. by apply H. Qed.

Lemma x_coherent s i x v l :
  coherent v s → 0 ≤ i < MAX_NUM_OF_PORTS → l ≡ₚ x_settings (PID_TO_NAME i) x →
  coherent (overlay v l) (s <| ps_ports := <[i := x]> (ps_ports s) |>).
Proof.
  intros [H1 H2 H3] Hi Hl. pose proof (λ l2, overlay_perm_other v l _ l2 Hl) as Ho. split.
  - intros j Hj. unfold cached_x. cbn. rewrite arr_get_insert. case_decide as E.
    + subst j. apply overlay_perm; [done|apply x_settings_nodup].
    + apply Ho; [|by apply H1]. eapply kinds_apart; [done|done|].
      intros Hn. apply E. apply pid_name_inj; [done|done|congruence].
  - intros j Hj. unfold cached_poe. cbn. destruct (H2 j Hj) as [? ?]. split; [done|].
    apply Ho; [|done]. by eapply kinds_apart.
  - apply Ho; [|done]. by eapply kinds_apart.
Qed.

(** Other ports, and what is not of ports, stay. *)
Definition only_port (i : Z) (p p' : plat) : Prop :=
  pl_features p' = pl_features p ∧ ps_poe_bmap (pl_state p') = ps_poe_bmap (pl_state p) ∧
  unit_settings (pl_state p') = unit_settings (pl_state p) ∧
  ∀ j, j ≠ i → cached_x (pl_state p') j = cached_x (pl_state p) j ∧
               cached_poe (pl_state p') j = cached_poe (pl_state p) j.
#[local] Instance only_port_preorder i : PreOrder (only_port i).
Proof.
  split; [done|]. intros p1 p2 p3 (A1 & B1 & C1 & D1) (A2 & B2 & C2 & D2).
  split_and!; [congruence|congruence|congruence|]. intros j Hj.
  destruct (D1 j Hj), (D2 j Hj). split; congruence.
Qed.

(** One setting of [config_port_ieee8021x_apply], after which [R] holds. *)
Ltac next_setting R := apply wp_bind; eapply wp_mono;
  [eapply when_reached; [reflexivity|exact R|]| |done|done].

Lemma x_apply_spec i port p :
  coh v0 p → 0 ≤ i < MAX_NUM_OF_PORTS →
  wp (config_port_ieee8021x_apply i port)
    (λ _ p', coh v0 p' ∧ only_port i p p' ∧ cached_poe (pl_state p') i = cached_poe (pl_state p) i ∧
       cached_x (pl_state p') i = x_of_cfg (xp_key (cached_x (pl_state p) i)) port)
    any_err any_fault p.
Proof.
  intros Hc Hi. unfold config_port_ieee8021x_apply, cache, arr_read. cbv zeta.
  apply wp_bind, wp_gets, wp_bind. rewrite (proj2 (Z.leb_le 0 i)), (proj2 (Z.ltb_lt i _)) by lia.
  apply wp_ret. fold (cached_x (pl_state p) i). set (x := cached_x (pl_state p) i).
  set (n := PID_TO_NAME i). pose proof (coh_x _ _ Hc i Hi) as Hx. fold n x in Hx.
  pose proof (reached_nil p) as R0.
  assert (∀ k c, (k, c) ∈ x_settings n x → view_of v0 p k = Some c) as Hv.
  { intros k c Hk. unfold holds in Hx. rewrite Forall_forall in Hx. exact (Hx (k, c) Hk). }
  next_setting R0.
  { intros E%negb_false_iff%eqb_prop. cbn. apply Hv. rewrite <- E. set_solver. }
  intros ? p1 R1. next_setting R1.
  { intros E%bool_decide_eq_false. rewrite overlay_other by set_solver. apply Hv.
    apply dec_stable in E. rewrite <- E. set_solver. }
  intros ? p2 R2. next_setting R2.
  { intros E%bool_decide_eq_false. rewrite overlay_other by set_solver. apply Hv.
    apply dec_stable in E. rewrite <- E. set_solver. }
  intros ? p3 R3. next_setting R3.
  { intros E%negb_false_iff%Z.eqb_eq. rewrite overlay_other by set_solver. apply Hv. rewrite <- E. set_solver. }
  intros ? p4 R4. next_setting R4.
  { intros E%negb_false_iff%Z.eqb_eq. rewrite overlay_other by set_solver. apply Hv. rewrite <- E. set_solver. }
  intros ? p5 (S5 & F5 & V5). apply wp_modify.
  change (mk_x_port _ _ _ _ _ _) with (x_of_cfg (xp_key x) port). rewrite <- S5.
  split_and!; [| |cbn; by rewrite S5|unfold cached_x; cbn; by rewrite arr_get_insert, decide_True].
  - unfold coh. cbn. eapply (coherent_core (overlay (view_of v0 p) _)); [reflexivity|exact V5|].
    rewrite S5. apply x_coherent; [done|done|]. symmetry. apply Permutation_rev.
  - split_and!; [done|cbn; by rewrite S5|cbn; by rewrite S5|]. intros j Hj.
    unfold cached_x, cached_poe. cbn. rewrite arr_get_insert, decide_False by done. by rewrite S5.
Qed.

(** ** Power over Ethernet on a port *)

(** [q'] is [q] but for the setting [k], which is now [c]. *)
Definition changes_to (n : string) (q q' : poe_port) (k : setting) (c : gnma_call) : Prop :=
  pp_key q' = pp_key q ∧ setting_of c = Some k ∧ kind k = (Some n, false) ∧
  Forall (λ e, e = (k, c) ∨ e.1 ≠ k ∧ e ∈ poe_settings n q) (poe_settings n q').

Lemma poe_coherent s i q' k c v v' a :
  coherent v s → has_poe s i → changes_to (PID_TO_NAME i) (cached_poe s i) q' k c →
  (∀ k', v' k' = view_set v k c k') → a = <[i := q']> (ps_poe_ports s) →
  coherent v' (s <| ps_poe_ports := a |>).
Proof.
  intros [H1 H2 H3] Hi (Hk & _ & Hkind & Hf) Hv ->.
  assert (∀ q l, of_kind q l → q ≠ (Some (PID_TO_NAME i), false) → holds v l → holds v' l) as Ho.
  { intros q l Hl Hq. apply holds_ext. intros k' Hk'. rewrite Hv. apply view_set_ne. intros ->.
    unfold of_kind in Hl. rewrite Forall_forall in Hl. apply Hq. by rewrite <- Hkind, (Hl k). }
  split.
  - intros j Hj. eapply Ho; [apply x_kind|done|by apply H1].
  - intros j Hj. destruct (H2 j Hj) as [Kj Vj]. unfold cached_poe in *. cbn. rewrite arr_get_insert.
    case_decide as E.
    + subst j. split; [congruence|]. unfold holds in *. rewrite Forall_forall in Hf, Vj |- *.
      intros e He. destruct (Hf e He) as [->|[Hne Hin]]; rewrite Hv; [apply view_set_eq|].
      rewrite view_set_ne by done. by apply Vj.
    + split; [done|]. eapply Ho; [apply poe_kind| |done]. intros Hn. apply E. symmetry.
      destruct Hi, Hj. apply pid_name_inj; [done|done|congruence].
  - eapply Ho; [apply unit_kind|done|done].
Qed.

(** What a run of the settings of a port has done so far. *)
Definition poe_now (i : Z) (p : plat) (q : poe_port) (p' : plat) : Prop :=
  coh v0 p' ∧ has_poe (pl_state p') i ∧ cached_poe (pl_state p') i = q ∧
  only_port i p p' ∧ cached_x (pl_state p') i = cached_x (pl_state p) i.

Lemma poe_step b i p q p1 c k f :
  poe_now i p q p1 → (b = true → changes_to (PID_TO_NAME i) q (f q) k c) →
  wp (when b (_ ← gnma_ok c; upd_poe i f)) (λ _ p2, poe_now i p (if b then f q else q) p2) any_err any_fault p1.
Proof.
  intros Hn Hb. destruct b; [|by apply wp_ret]. specialize (Hb eq_refl).
  destruct Hn as (Hc & Hi & Hq & Ho & Hx). pose proof Hb as (_ & Hs & _).
  apply wp_bind. eapply wp_mono; [by eapply gnma_ok_reached, reached_nil| |done|done].
  intros ? p2 (S2 & F2 & V2). unfold upd_poe, cache, arr_write. apply wp_bind, wp_gets, wp_bind.
  rewrite S2. rewrite (proj2 (Z.leb_le 0 i)), (proj2 (Z.ltb_lt i _)) by (destruct Hi; lia).
  apply wp_ret, wp_modify. fold (cached_poe (pl_state p1) i). rewrite Hq.
  split_and!.
  - unfold coh. cbn. rewrite S2.
    eapply poe_coherent; [exact Hc|exact Hi|rewrite Hq; exact Hb|exact V2|done].
  - cbn. by rewrite S2.
  - unfold cached_poe. cbn. by rewrite arr_get_insert, decide_True.
  - transitivity p1; [exact Ho|]. split_and!; [done|cbn; by rewrite S2|cbn; by rewrite S2|].
    intros j Hj. unfold cached_x, cached_poe. cbn. rewrite S2. split; [done|].
    by rewrite arr_get_insert, decide_False.
  - unfold cached_x in *. cbn. by rewrite S2.
Qed.

Definition poe_limit (x : plat_port) : Z :=
  if poe_is_power_limit_set (port_poe x) then poe_power_limit (port_poe x) else 0.

(** What the configuration asks of the port. *)
Definition poe_configured (x : plat_port) (q : poe_port) : Prop :=
  let c := port_poe x in
  (poe_is_detection_mode_set c = true →
     pp_detection_mode q = poe_port_detection_mode_str2num (poe_detection_mode c)) ∧
  (poe_is_priority_set c = true → pp_priority q = poe_port_priority_mode_str2num (poe_priority c)) ∧
  pp_power_limit q = poe_limit x ∧ pp_is_power_limit_user_defined q = poe_is_power_limit_set c ∧
  pp_is_admin_mode_up q = poe_is_admin_mode_up c.

Lemma when_quiet b c p : setting_of c = None →
  wp (when b (gnma_ok c)) (λ _ p', same v0 p p') any_err any_fault p.
Proof.
  intros Hc. pose proof (keeps_when v0 b _ (keeps_gnma_ok v0 c Hc) p) as H. revert H.
  unfold wp. destruct b; [|done]. unfold when, gnma_ok, gnma, mbind, M_bind.
  destruct (gnma_do c (pl_gnma p)) as [[rc g]|f]; [|done]. by destruct (negb (rc =? 0)).
Qed.

(** What the four settings make of the cached port. *)
Definition poe_final (x : plat_port) (q : poe_port) : poe_port :=
  let c := port_poe x in
  let mode := poe_port_detection_mode_str2num (poe_detection_mode c) in
  let prio := poe_port_priority_mode_str2num (poe_priority c) in
  let q1 := if poe_is_detection_mode_set c && bool_decide (pp_detection_mode q ≠ mode)
            then q <| pp_detection_mode := mode |> else q in
  let q2 := if poe_is_priority_set c && bool_decide (pp_priority q ≠ prio)
            then q1 <| pp_priority := prio |> else q1 in
  let q3 := if negb (pp_power_limit q =? poe_limit x) ||
               negb (eqb (pp_is_power_limit_user_defined q) (poe_is_power_limit_set c))
            then q2 <| pp_is_power_limit_user_defined := poe_is_power_limit_set c |>
                    <| pp_power_limit := poe_limit x |> else q2 in
  if negb (eqb (pp_is_admin_mode_up q) (poe_is_admin_mode_up c))
  then q3 <| pp_is_admin_mode_up := poe_is_admin_mode_up c |> else q3.

Lemma unchanged_when {A} `{EqDecision A} (b : bool) (x y : A) :
  b && bool_decide (x ≠ y) = false → b = true → x = y.
Proof. intros H ->. cbn in H. apply bool_decide_eq_false in H. by apply dec_stable. Qed.

Lemma poe_final_configured x q : poe_configured x (poe_final x q).
Proof.
  unfold poe_final, poe_configured. cbv zeta.
  destruct (poe_is_detection_mode_set _ && _) eqn:E1; destruct (poe_is_priority_set _ && _) eqn:E2;
    destruct (_ || _) eqn:E3; destruct (negb (eqb (pp_is_admin_mode_up _) _)) eqn:E4; cbn.
  all: try apply orb_false_iff in E3 as [E3%negb_false_iff%Z.eqb_eq E3'%negb_false_iff%eqb_prop].
  all: try apply negb_false_iff, eqb_prop in E4.
  all: split_and!; try done; by eapply unchanged_when.
Qed.

(** The same of [config_poe_port_apply]. *)
Ltac next_poe N := apply wp_bind; eapply wp_mono;
  [eapply poe_step; [exact N|intros _; split_and!; [done|reflexivity|reflexivity|]]| |done|done].
Ltac others := repeat (constructor; [first [by left|right; split; [done|apply list_elem_of_In; cbn; tauto]]|]); constructor.

Lemma poe_apply_spec i port p :
  coh v0 p → has_poe (pl_state p) i →
  wp (config_poe_port_apply i port)
    (λ _ p', coh v0 p' ∧ only_port i p p' ∧ cached_x (pl_state p') i = cached_x (pl_state p) i ∧
       poe_configured port (cached_poe (pl_state p') i))
    any_err any_fault p.
Proof.
  intros Hc Hi. unfold config_poe_port_apply, cache, arr_read. cbv zeta.
  apply wp_bind, wp_gets, wp_bind. rewrite (proj2 (Z.leb_le 0 i)), (proj2 (Z.ltb_lt i _)) by (destruct Hi; lia).
  apply wp_ret. fold (cached_poe (pl_state p) i).
  set (q := cached_poe (pl_state p) i). destruct (coh_poe _ _ Hc i Hi) as [Hk _]. fold q in Hk. rewrite Hk.
  assert (poe_now i p q p) as N0 by done.
  next_poe N0; [others|]. intros ? p1 N1. next_poe N1; [others|]. intros ? p2 N2.
  next_poe N2; [others|]. intros ? p3 N3. next_poe N3; [others|]. intros ? p4 N4.
  change (poe_now i p (poe_final port q) p4) in N4. clear N1 N2 N3.
  eapply wp_mono; [apply when_quiet; reflexivity| |done|done].
  intros ? p5 (V & S & F & _). destruct N4 as (C4 & H4 & Q4 & (F4 & B4 & U4 & O4) & X4).
  injection S as S1 S2 S3 S4 S5 S6. unfold cached_x, cached_poe, unit_settings in *.
  split_and!.
  - eapply coherent_core; [|exact V|exact C4]. unfold core. by rewrite S1, S2, S3, S4, S5, S6.
  - unfold only_port, cached_x, cached_poe, unit_settings. rewrite F, S1, S2, S3, S4, S5, S6. done.
  - by rewrite S1.
  - rewrite S2, Q4. apply poe_final_configured.
Qed.

(** ** The settings of the unit *)
Definition ports_part (s : plat_state) := (ps_ports s, ps_poe_ports s, ps_poe_bmap s).
Definition unit_change (s s' : plat_state) (k : setting) (c : gnma_call) : Prop :=
  ports_part s' = ports_part s ∧ setting_of c = Some k ∧ kind k = (None, false) ∧
  Forall (λ e, e = (k, c) ∨ e.1 ≠ k ∧ e ∈ unit_settings s) (unit_settings s').

Lemma unit_coherent s s' k c v v' :
  coherent v s → unit_change s s' k c → (∀ k', v' k' = view_set v k c k') → coherent v' s'.
Proof.
  intros [H1 H2 H3] (Hp & _ & Hk & Hf) Hv. injection Hp as P1 P2 P3.
  assert (∀ n b l, of_kind (Some n, b) l → holds v l → holds v' l) as Ho.
  { intros n b l Hl. apply holds_ext. intros k' Hk'. rewrite Hv. apply view_set_ne. intros ->.
    unfold of_kind in Hl. rewrite Forall_forall in Hl. specialize (Hl k Hk'). congruence. }
  split; unfold cached_x, cached_poe, has_poe in *; rewrite ?P1, ?P2, ?P3.
  - intros i Hi. eapply Ho; [apply x_kind|by apply H1].
  - intros i Hi. destruct (H2 i Hi). split; [done|]. eapply Ho; [apply poe_kind|done].
  - unfold holds in *. rewrite Forall_forall in *. intros e He.
    destruct (Hf e He) as [->|[Hne Hin]]; rewrite Hv; [apply view_set_eq|].
    rewrite view_set_ne by done. by apply H3.
Qed.

Lemma unit_step b p c k f :
  coh v0 p → (b = true → unit_change (pl_state p) (f (pl_state p)) k c) →
  wp (when b (_ ← gnma_ok c; upd_cache f))
    (λ _ p', coh v0 p' ∧ pl_features p' = pl_features p ∧
       pl_state p' = if b then f (pl_state p) else pl_state p) any_err any_fault p.
Proof.
  intros Hc Hb. destruct b; [|by apply wp_ret]. specialize (Hb eq_refl). pose proof Hb as (_ & Hs & _).
  apply wp_bind. eapply wp_mono; [by eapply gnma_ok_reached, reached_nil| |done|done].
  intros ? p2 (S2 & F2 & V2). apply wp_modify. cbn. rewrite S2. split_and!; [|done|done].
  unfold coh. cbn. by eapply unit_coherent.
Qed.

(** The entry that changes, and the others. *)
Ltac unit_entries := split_and!; [done|reflexivity|reflexivity|];
  repeat (constructor; [first [by left|right; split; [done|apply list_elem_of_In; cbn; tauto]]|]); constructor.

Definition unit_configured (u : plat_unit) (s : plat_state) : Prop :=
  (unit_is_power_mgmt_set u = true → ps_power_mgmt s = poe_power_mgmt_str2num (unit_power_mgmt u)) ∧
  (unit_is_usage_threshold_set u = true → ps_usage_threshold s = unit_usage_threshold u).

Lemma unit_apply_spec cfg p :
  coh v0 p →
  wp (config_unit_apply cfg)
    (λ _ p', coh v0 p' ∧ pl_features p' = pl_features p ∧
       ports_part (pl_state p') = ports_part (pl_state p) ∧
       ps_is_auth_control_enabled (pl_state p') = ps_is_auth_control_enabled (pl_state p) ∧
       unit_configured (cfg_unit cfg) (pl_state p')) any_err any_fault p.
Proof.
  intros Hc. unfold config_unit_apply, cache. cbv zeta.
  apply wp_bind, wp_fail_if; [done|intros _]. apply wp_bind, wp_gets, wp_bind.
  eapply wp_mono; [eapply unit_step; [exact Hc|intros _; unit_entries]| |done|done].
  intros ? p1 (C1 & F1 & S1).
  eapply wp_mono; [eapply unit_step; [exact C1|intros _; unit_entries]| |done|done].
  intros ? p2 (C2 & F2 & S2). rewrite S2, S1.
  split_and!; [done|congruence|by repeat case_match|by repeat case_match|].
  unfold unit_configured.
  destruct (unit_is_power_mgmt_set _ && _) eqn:E1; destruct (unit_is_usage_threshold_set _ && _) eqn:E2; cbn.
  all: split; try done; try (by eapply unchanged_when).
  all: intros Hs; rewrite Hs in E2; cbn in E2; by apply negb_false_iff, Z.eqb_eq in E2.
Qed.

Lemma auth_apply_spec cfg p :
  coh v0 p →
  wp (config_ieee8021x_apply cfg)
    (λ _ p', coh v0 p' ∧ pl_features p' = pl_features p ∧
       ports_part (pl_state p') = ports_part (pl_state p) ∧
       ps_power_mgmt (pl_state p') = ps_power_mgmt (pl_state p) ∧
       ps_usage_threshold (pl_state p') = ps_usage_threshold (pl_state p) ∧
       ps_is_auth_control_enabled (pl_state p') = cfgx_is_auth_ctrl_enabled (cfg_ieee8021x cfg))
    any_err any_fault p.
Proof.
  intros Hc. unfold config_ieee8021x_apply, cache. cbv zeta. apply wp_bind, wp_gets, wp_bind.
  eapply wp_mono; [eapply unit_step; [exact Hc|intros _; unit_entries]| |done|done].
  intros ? p1 (C1 & F1 & S1).
  eapply wp_mono; [apply (keeps_bind v0 _ _ (keeps_dac _) (λ _, keeps_radius _))| |done|done].
  intros ? p2 H2. pose proof (same_coh _ _ _ H2 C1) as C2. destruct H2 as (_ & S2 & F2 & _).
  injection S2 as E1 E2 E3 E4 E5 E6. unfold ports_part. rewrite E1, E2, E3, E4, E5, E6, S1.
  split_and!; [done|congruence|by case_match|by case_match|by case_match|].
  destruct (negb _) eqn:E; [done|]. by apply negb_false_iff, eqb_prop in E.
Qed.

(** ** All ports *)
Definition port_configured (cfg : plat_cfg) (s : plat_state) (i : Z) : Prop :=
  let x := arr_get zero_plat_port (cfg_ports cfg) i in
  (∃ key, cached_x s i = x_of_cfg key x) ∧ (has_poe s i → poe_configured x (cached_poe s i)).

Definition features_up (f : features) : Prop := FEAT_AAA f = FEATSTS_OK ∧ FEAT_POE f = FEATSTS_OK.

Lemma configured_stays cfg i p p' j :
  only_port i p p' → j ≠ i → port_configured cfg (pl_state p) j → port_configured cfg (pl_state p') j.
Proof.
  intros (_ & B & _ & D) Hj. destruct (D j Hj) as [Dx Dp]. unfold port_configured, has_poe.
  by rewrite Dx, Dp, B.
Qed.

Lemma same_only_port i p p' : same v0 p p' → only_port i p p'.
Proof.
  intros (_ & C & F & _). injection C as E1 E2 E3 E4 E5 E6.
  unfold only_port, cached_x, cached_poe, unit_settings. by rewrite F, E1, E2, E3, E4, E5, E6.
Qed.

(** One iteration of the loop. *)
Lemma one_port_spec cfg i xr pr p :
  coh v0 p → features_up (pl_features p) → 0 ≤ i < MAX_NUM_OF_PORTS →
  wp (_ ← port_link_apply i (arr_get zero_plat_port (cfg_ports cfg) i);
      f ← gets pl_features;
      x_reported ← (if bool_decide (FEAT_AAA f = FEATSTS_OK)
                    then _ ← config_port_ieee8021x_apply i (arr_get zero_plat_port (cfg_ports cfg) i); ret xr
                    else
                      _ ← when (negb xr)
                            (CFG_LOG_CRIT "AAA feature is not initialized, skipping configuration");
                      ret true);
      s ← cache;
      has_poe ← bit_test (ps_poe_bmap s) i;
      if negb has_poe then ret (x_reported, pr)
      else if bool_decide (FEAT_POE f = FEATSTS_OK)
      then _ ← config_poe_port_apply i (arr_get zero_plat_port (cfg_ports cfg) i); ret (x_reported, pr)
      else
        _ ← when (negb pr)
              (CFG_LOG_CRIT "POE feature is not initialized, skipping configuration");
        ret (x_reported, true))
    (λ _ p', coh v0 p' ∧ only_port i p p' ∧ port_configured cfg (pl_state p') i) any_err any_fault p.
Proof.
  intros Hc [HA HP] Hi. set (x := arr_get zero_plat_port (cfg_ports cfg) i).
  apply wp_bind. eapply wp_mono; [apply keeps_link| |done|done].
  intros ? p2 H2. pose proof (same_coh _ _ _ H2 Hc) as C2. pose proof (same_only_port i _ _ H2) as O2.
  destruct H2 as (_ & _ & F2 & _). apply wp_bind, wp_gets. rewrite F2, HA, HP, !bool_decide_true by done.
  apply wp_bind, wp_bind. eapply wp_mono; [by apply x_apply_spec| |done|done].
  intros ? p3 (C3 & O3 & P3 & X3). apply wp_ret. unfold cache. apply wp_bind, wp_gets.
  assert (only_port i p p3) as O13 by (by transitivity p2).
  apply wp_bind. unfold bit_test. case_match; [|done]. apply wp_ret.
  destruct (BITMAP_TEST_BIT (ps_poe_bmap (pl_state p3)) i) eqn:Eb; cbn [negb].
  - apply wp_bind. eapply wp_mono; [by apply poe_apply_spec| |done|done].
    intros ? p4 (C4 & O4 & X4 & P4). apply wp_ret. split; [done|]. split; [by transitivity p3|].
    split; [|by intros _]. rewrite X4, X3. by eexists.
  - apply wp_ret. split; [done|]. split; [done|]. split; [rewrite X3; by eexists|].
    intros [_ Hb]. congruence.
Qed.

Lemma ports_apply_spec cfg p :
  coh v0 p → features_up (pl_features p) →
  wp (plat_port_config_apply cfg)
    (λ _ p', coh v0 p' ∧ pl_features p' = pl_features p ∧
       unit_settings (pl_state p') = unit_settings (pl_state p) ∧
       ∀ i, i ∈ BITMAP_FOR_EACH_BIT_SET (cfg_ports_to_cfg cfg) MAX_NUM_OF_PORTS →
         port_configured cfg (pl_state p') i) any_err any_fault p.
Proof.
  intros Hc [HA HP]. unfold plat_port_config_apply. apply wp_bind.
  apply (wp_fold_m (λ l _ p', coh v0 p' ∧ pl_features p' = pl_features p ∧
    ps_poe_bmap (pl_state p') = ps_poe_bmap (pl_state p) ∧
    unit_settings (pl_state p') = unit_settings (pl_state p) ∧
    ∀ i, i ∈ l → port_configured cfg (pl_state p') i)).
  - split_and!; [done|done|done|done|]. intros i Hi. by apply elem_of_nil in Hi.
  - intros before i todo [xr pr] p1 Hl (C1 & F1 & B1 & U1 & D1).
    assert (0 ≤ i < MAX_NUM_OF_PORTS) as Hi.
    { apply (elem_of_for_each_bit_set (cfg_ports_to_cfg cfg) MAX_NUM_OF_PORTS); [done|]. rewrite Hl. set_solver. }
    eapply wp_mono; [apply (one_port_spec cfg i xr pr p1); [done| |done]| |done|done].
    { by rewrite F1. }
    intros ? p2 (C2 & O2 & D2). pose proof O2 as (F2 & B2 & U2 & _).
    split_and!; [done|congruence|congruence|congruence|].
    intros j [Hj| ->%list_elem_of_singleton]%elem_of_app; [|done].
    destruct (decide (j = i)) as [->|]; [done|]. eapply configured_stays; [done|done|by apply D1].
  - intros b p' (C & F & _ & U & D). by apply wp_ret.
Qed.

(** ** The whole *)
Lemma configured_part cfg s s' i :
  ports_part s' = ports_part s → port_configured cfg s i → port_configured cfg s' i.
Proof.
  intros Hp. injection Hp as P1 P2 P3. unfold port_configured, cached_x, cached_poe, has_poe.
  by rewrite P1, P2, P3.
Qed.

(** What has been reached before [config_stp_apply], and is kept. *)
Definition applied (cfg : plat_cfg) (f : features) (p : plat) : Prop :=
  coh v0 p ∧ pl_features p = f ∧ unit_configured (cfg_unit cfg) (pl_state p) ∧
  ∀ i, i ∈ BITMAP_FOR_EACH_BIT_SET (cfg_ports_to_cfg cfg) MAX_NUM_OF_PORTS →
    port_configured cfg (pl_state p) i.

Lemma applied_same cfg f p p' : same v0 p p' → applied cfg f p → applied cfg f p'.
Proof.
  intros H (C & F & U & D). pose proof (same_coh _ _ _ H C). destruct H as (_ & S & E & _).
  injection S as E1 E2 E3 E4 E5 E6. split_and!; [done|congruence| |].
  - unfold unit_configured in *. by rewrite E4, E5.
  - intros i Hi. eapply configured_part; [|by apply D]. unfold ports_part. by rewrite E1, E2, E3.
Qed.

Lemma applied_then {A} cfg f (m : M plat A) p :
  keeps v0 m → applied cfg f p → wp m (λ _ p', applied cfg f p') any_err any_fault p.
Proof.
  intros Hm Ha. eapply wp_mono; [apply Hm| |done|done]. intros ? p' H. exact (applied_same cfg f p p' H Ha).
Qed.

(** C3: IEEE 802.1X, power over Ethernet and the unit: applying a configuration
    sets them to what it says, through a cache that never lies.  [v0] is what the
    switch had been set to; it agrees with the cache at the start.  With the
    AAA and PoE features up, when [plat_config_apply] succeeds cache and switch
    agree again, and the last settings the switch accepted for each port of the
    configuration are its IEEE 802.1X modes and VLANs and, where the port has
    PoE, what the configuration asks of it; so are the PoE settings of the
    unit and the global authentication control.  Settings skipped because
    the cache has them already are among these.  It says nothing of the other
    parts of a configuration: for VLAN members see [vlan_apply_reconciles], for
    routes [router_apply_reconciles], for what is asked of the switch in all
    of them [config_apply_in_order]; the answers to link settings are not
    looked at, so that none is promised. *)
Theorem config_apply_reaches (cfg : plat_cfg) (p : plat) :
  coh v0 p → features_up (pl_features p) →
  wp (plat_config_apply cfg)
    (λ _ p', coh v0 p' ∧ unit_configured (cfg_unit cfg) (pl_state p') ∧
       view_of v0 p' KAuthControl =
         Some (gnma_ieee8021x_system_auth_control_set (cfgx_is_auth_ctrl_enabled (cfg_ieee8021x cfg))) ∧
       ∀ i, i ∈ BITMAP_FOR_EACH_BIT_SET (cfg_ports_to_cfg cfg) MAX_NUM_OF_PORTS →
         let x := arr_get zero_plat_port (cfg_ports cfg) i in
         holds (view_of v0 p') (x_settings (PID_TO_NAME i) (x_of_cfg EmptyString x)) ∧
         (has_poe (pl_state p') i → ∃ q, poe_configured x q ∧
            holds (view_of v0 p') (poe_settings (PID_TO_NAME i) q)))
    any_err any_fault p.
Proof.
  intros Hc Hf. unfold plat_config_apply. apply wp_bind, wp_gets, wp_bind.
  eapply wp_mono; [apply (keeps_when v0), keeps_crit| |done|done]. intros ? p1 H1.
  apply wp_bind. eapply wp_mono; [apply keeps_vlan_apply| |done|done]. intros ? p2 H2.
  assert (same v0 p p2) as H12 by (by transitivity p1). pose proof (same_coh _ _ _ H12 Hc) as C2.
  destruct H12 as (_ & _ & F2 & _). apply wp_bind.
  eapply wp_mono; [apply (ports_apply_spec cfg p2 C2); by rewrite F2| |done|done].
  intros ? p3 (C3 & F3 & _ & D3). apply wp_bind.
  eapply wp_mono; [by apply unit_apply_spec| |done|done]. intros ? p4 (C4 & F4 & P4 & _ & U4).
  assert (applied cfg (pl_features p) p4) as A4.
  { split_and!; [done|congruence|done|]. intros i Hi. eapply configured_part; [exact P4|by apply D3]. }
  apply wp_bind. eapply wp_mono; [eapply applied_then; [apply keeps_stp|exact A4]| |done|done]. intros ? p5 A5.
  apply wp_bind. eapply wp_mono; [eapply applied_then; [apply keeps_vlan_ipv4|exact A5]| |done|done]. intros ? p6 A6.
  apply wp_bind. eapply wp_mono; [eapply applied_then; [apply keeps_portl2|exact A6]| |done|done]. intros ? p7 A7.
  apply wp_bind. eapply wp_mono; [eapply applied_then; [apply keeps_dhcp|exact A7]| |done|done]. intros ? p8' A8'.
  apply wp_bind. eapply wp_mono; [eapply applied_then; [apply keeps_metrics|exact A8']| |done|done]. intros ? p8 A8.
  apply wp_bind. eapply wp_mono; [eapply applied_then; [apply keeps_router|exact A8]| |done|done].
  intros ? p9 (C9 & F9 & U9 & D9).
  rewrite bool_decide_true by apply Hf. apply wp_bind.
  eapply wp_mono; [by apply auth_apply_spec| |done|done].
  intros ? p10 (C10 & F10 & P10 & W10 & T10 & E10).
  assert (keeps v0 (_ ← config_system_password_apply cfg;
    _ ← attempt (plat_syslog_set (cfg_log_cfg cfg) (cfg_log_cfg_cnt cfg)); ret tt)) as Hk.
  { apply keeps_bind; [apply keeps_password|]. intros ?. apply keeps_bind; [apply keeps_attempt, keeps_syslog|].
    intros ?. apply keeps_ret. }
  eapply wp_mono; [apply Hk| |done|done]. intros ? p11 H11.
  pose proof (same_coh _ _ _ H11 C10) as C11. destruct H11 as (_ & S11 & _ & _).
  injection S11 as E1 E2 E3 E4 E5 E6. split_and!; [done| | |].
  - unfold unit_configured in *. by rewrite E4, E5, W10, T10.
  - pose proof (coh_unit _ _ C11) as Hu. unfold holds, unit_settings in Hu.
    rewrite Forall_forall in Hu. rewrite <- E10, <- E6.
    apply (Hu (KAuthControl, _)). apply list_elem_of_In. cbn. tauto.
  - intros i Hi. cbv zeta. assert (port_configured cfg (pl_state p11) i) as [[key Hx] Hp].
    { eapply configured_part; [|by apply D9]. unfold ports_part in *. congruence. }
    assert (0 ≤ i < MAX_NUM_OF_PORTS) as Hr by (by apply elem_of_for_each_bit_set in Hi as [? _]).
    split.
    + pose proof (coh_x _ _ C11 i Hr) as H. by rewrite Hx in H.
    + intros Hpoe. exists (cached_poe (pl_state p11) i). split; [by apply Hp|].
      by apply (coh_poe _ _ C11 i Hpoe).
Qed.
End apply_spec.

(** ** Witness: a port with PoE is configured, an unknown VLAN goes *)
#[local] Existing Instances sample_gnma merge_qsort.

(** Everything was set to what the cache has before a port is configured. *)
Definition initial_view : view := λ k,
  Some match k with
  | KPae n => gnma_port_ieee8021x_pae_mode_set n false
  | KCtrl n => gnma_port_ieee8021x_port_ctrl_set n CTRL_FORCE_AUTHORIZED
  | KHost n => gnma_port_ieee8021x_port_host_mode_set n HOST_MULTI_AUTH
  | KGuest n => gnma_port_ieee8021x_guest_vlan_set n 0
  | KUnauth n => gnma_port_ieee8021x_unauthorized_vlan_set n 0
  | KPoeDetection n => gnma_poe_port_detection_mode_set n DETECTION_2PT_DOT3AF
  | KPoePriority n => gnma_poe_port_priority_set n PRIORITY_LOW
  | KPoeLimit n => gnma_poe_port_power_limit_set n false 0
  | KPoeAdmin n => gnma_poe_port_admin_mode_set n false
  | KPowerMgmt => gnma_poe_power_mgmt_set POWER_MGMT_CLASS
  | KThreshold => gnma_poe_usage_threshold_set 0
  | KAuthControl => gnma_ieee8021x_system_auth_control_set false
  end.

Definition poe_on_1 : bitmap := BITMAP_SET_BIT (BITMAP_CLEAR MAX_NUM_OF_PORTS) 1.
Definition apply_plat : plat :=
  sample_plat []
    <| pl_state := zero_plat_state <| ps_poe_bmap := poe_on_1 |>
                                   <| ps_poe_ports := {[ 1 := zero_poe_port <| pp_key := "Ethernet1" |> ]} |> |>
    <| pl_features := mk_features FEATSTS_OK FEATSTS_OK FEATSTS_OK |>.
Definition apply_cfg : plat_cfg :=
  zero_plat_cfg
    <| cfg_ports := {[ 1 := zero_plat_port
         <| port_state := 1 |> <| port_speed := SPEED_1000_E |>
         <| port_ieee8021x := zero_port_ieee8021x_cfg <| x_control_mode := CONTROL_AUTO |>
                                                       <| x_guest_vid := 7 |> |>
         <| port_poe := zero_port_poe_cfg <| poe_is_admin_mode_up := true |> |> ]} |>
    <| cfg_ports_to_cfg := poe_on_1 |>.

Lemma apply_coherent : coh initial_view apply_plat.
Proof.
  split.
  - intros i _. repeat constructor.
  - intros i [Hi Hb]. assert (i = 1) as ->; [|split; [by vm_compute|by repeat constructor]].
    assert (Forall (λ j, BITMAP_TEST_BIT poe_on_1 j = true → j = 1) (seqZ 0 MAX_NUM_OF_PORTS)) as H.
    { apply (bool_decide_unpack _). by vm_compute. }
    rewrite Forall_forall in H. apply H; [|done]. apply elem_of_seqZ. lia.
  - repeat constructor.
Qed.

Lemma wp_made {A} (m : M plat A) Q E F p :
  wp m Q E F p → is_Some (calls_made m p) → ∃ a p', m p = Ok a p' ∧ Q a p'.
Proof. unfold wp, calls_made. destruct (m p); [eauto|by intros _ []|by intros _ []]. Qed.

Lemma apply_runs : is_Some (calls_made (plat_config_apply apply_cfg) apply_plat).
Proof. apply (bool_decide_unpack _). by vm_compute. Qed.

Lemma config_apply_reaches_witness :
  ∃ p', plat_config_apply apply_cfg apply_plat = Ok tt p' ∧
    holds (view_of initial_view p')
      (x_settings (PID_TO_NAME 1) (mk_x_port EmptyString CTRL_AUTO HOST_MULTI_AUTH 0 7 false)).
Proof.
  pose proof (config_apply_reaches initial_view apply_cfg apply_plat apply_coherent (conj eq_refl eq_refl)) as H.
  destruct (wp_made _ _ _ _ _ H apply_runs) as ([] & p' & E & _ & _ & _ & Hp). exists p'. split; [exact E|].
  apply (Hp 1). apply list_elem_of_In. vm_compute. left. reflexivity.
Defined.
