(* ===== verification/PlatVlanSpec.v ===== *)
(** * VLAN membership: the change that reaches the switch reconciles it

    [config_vlan_apply] reads the members of every VLAN, collects the requests
    of one change and executes it.  Here a membership says, for each VLAN and
    port name, whether the port is a member and tagged; the effect of a change
    is that of its requests in order. *)

From S2P Require Import Prelude CNum CStr Bitmap Router PlatTypes ProtoConv PortList Gnma PlatState PlatVlan PlatCache PlatApplySpec PlatSample.
#[local] Open Scope list_scope.

(** ** Membership *)
Definition membership : Type := Z → string → option bool.

Definition member_upd (m : membership) (v : Z) (n : string) (t : option bool) : membership :=
  λ v' n', if decide (v' = v ∧ n' = n) then t else m v' n'.
Definition op_effect (m : membership) (op : change_op) : membership :=
  match op with
  | OpVlanCreate _ => m
  | OpMemberCreate v n t => member_upd m v n (Some t)
  | OpMemberRemove v n => member_upd m v n None
  end.
Definition change_effect (m : membership) (c : list change_op) : membership := foldl op_effect m c.

(** What the switch answered of a VLAN. *)
Definition current (now : vlan_bmap) (i : Z) : option bool :=
  if decide (i ∈ port_member now) then Some (bool_decide (i ∈ port_tagged now)) else None.
Definition represents (mbr : gmap Z vlan_bmap) (m : membership) : Prop :=
  ∀ v i, 0 ≤ i < MAX_NUM_OF_PORTS →
    m v (PID_TO_NAME i) = current (arr_get zero_vlan_bmap mbr v) i.

(** What the configuration says: a port named more than once is tagged when
    one of its entries is. *)
Definition entries_of (l : list vlan_member) (i : Z) : list vlan_member :=
  filter (λ m, NAME_TO_PID (mem_name m) = Some i) l.
Definition wanted (l : list vlan_member) (i : Z) : option bool :=
  match entries_of l i with [] => None | es => Some (existsb mem_tagged es) end.

(** ** The bitmaps of the configured members *)
Definition member_bit (l : list vlan_member) (i : Z) : Prop :=
  ∃ m, m ∈ l ∧ NAME_TO_PID (mem_name m) = Some i.
Definition tagged_bit (l : list vlan_member) (i : Z) : Prop :=
  ∃ m, m ∈ l ∧ NAME_TO_PID (mem_name m) = Some i ∧ mem_tagged m = true.
Abbreviation port_bits := (bits_are MAX_NUM_OF_PORTS).

Definition members_named (l : list vlan_member) : Prop :=
  Forall (λ m, ∃ i, NAME_TO_PID (mem_name m) = Some i ∧ i < 128) l.

Lemma bits_room bm X i : port_bits bm X → 0 ≤ i < 128 → bit_ok bm i = true.
Proof. intros H Hi. by apply (bits_are_room _ _ _ i H). Qed.

Lemma exists_app {A} (P : A → Prop) l x : (∃ y, y ∈ l ++ [x] ∧ P y) ↔ (∃ y, y ∈ l ∧ P y) ∨ P x.
Proof.
  split.
  - intros (y & [Hy| ->%list_elem_of_singleton]%elem_of_app & HP); [left; eauto|by right].
  - intros [(y & Hy & HP)|HP]; [exists y|exists x]; (split; [set_solver|done]).
Qed.

Section vlan_spec.
Context `{G : Gnma}.

Lemma member_bit_set {S} bm X i (Q : bitmap → S → Prop) E F s :
  port_bits bm X → 0 ≤ i < 128 →
  (∀ bm', port_bits bm' (λ j, X j ∨ j = i) → Q bm' s) → wp (bit_set bm i) Q E F s.
Proof.
  intros Hb Hi HQ. unfold bit_set. rewrite (bits_room _ _ _ Hb Hi). apply wp_ret, HQ.
  apply bits_are_set; [done|by eapply bits_room].
Qed.
Lemma member_bit_test {S} bm X i (Q : bool → S → Prop) E F s :
  port_bits bm X → 0 ≤ i < 128 → (∀ b : bool, (b = true ↔ X i) → Q b s) → wp (bit_test bm i) Q E F s.
Proof.
  intros Hb Hi HQ. unfold bit_test. rewrite (bits_room _ _ _ Hb Hi). apply wp_ret, HQ.
  destruct Hb as [_ Hb]. apply Hb. lia.
Qed.

Lemma member_bits_spec l (p : plat) :
  members_named l →
  wp (member_bits l)
    (λ '(mb, tb) p', p' = p ∧ port_bits mb (member_bit l) ∧ port_bits tb (tagged_bit l))
    (λ _, False) no_fault p.
Proof.
  intros Hl. unfold member_bits.
  apply (wp_fold_m (λ before '(mb, tb) p', p' = p ∧ port_bits mb (member_bit before) ∧
    port_bits tb (tagged_bit before))); [| |by intros [mb tb]].
  - split_and!; [done| |]; (eapply bits_are_proper; [apply bits_are_clear|]; intros k; split; [done|]);
      intros (m & Hm & _); by apply elem_of_nil in Hm.
  - intros before m todo [mb tb] p' -> (-> & Hm & Ht). unfold members_named in Hl.
    apply Forall_app in Hl as [_ Hl]. inversion_clear Hl as [|?? (i & Hi & Hlt) _]. rewrite Hi.
    pose proof (name_to_pid_range _ _ Hi).
    apply wp_bind. eapply member_bit_set; [done|lia|]. intros mb' Hm'.
    apply wp_bind. destruct (mem_tagged m) eqn:Et.
    + eapply member_bit_set; [done|lia|]. intros tb' Ht'. apply wp_ret. split_and!; [done| |].
      * eapply bits_are_proper; [exact Hm'|]. intros k. unfold member_bit. rewrite exists_app, Hi. naive_solver.
      * eapply bits_are_proper; [exact Ht'|]. intros k. unfold tagged_bit. rewrite exists_app, Hi. naive_solver.
    + apply wp_ret, wp_ret. split_and!; [done| |].
      * eapply bits_are_proper; [exact Hm'|]. intros k. unfold member_bit. rewrite exists_app, Hi. naive_solver.
      * eapply bits_are_proper; [exact Ht|]. intros k. unfold tagged_bit. rewrite exists_app, Hi, Et. naive_solver.
Qed.
End vlan_spec.

Lemma wanted_spec l i mb tb :
  port_bits mb (member_bit l) → port_bits tb (tagged_bit l) → 0 ≤ i →
  wanted l i = if BITMAP_TEST_BIT mb i then Some (BITMAP_TEST_BIT tb i) else None.
Proof.
  intros [_ Hm] [_ Ht] Hi. specialize (Hm i Hi). specialize (Ht i Hi). unfold wanted, entries_of.
  destruct (filter _ l) as [|e es] eqn:E.
  - destruct (BITMAP_TEST_BIT mb i); [|done]. destruct Hm as [Hm _].
    destruct (Hm eq_refl) as (m & Hin & Hn). exfalso. apply (not_elem_of_nil m). rewrite <- E.
    by apply list_elem_of_filter.
  - assert (BITMAP_TEST_BIT mb i = true) as ->.
    { apply Hm. exists e. assert (e ∈ filter (λ m, NAME_TO_PID (mem_name m) = Some i) l) as He.
      { rewrite E. by left. } by apply list_elem_of_filter in He as [? ?]. }
    f_equal. apply eq_true_iff_eq. rewrite Ht, existsb_exists. unfold tagged_bit. split.
    + intros (m & Hin & Hmt). apply list_elem_of_In in Hin. rewrite <- E in Hin.
      apply list_elem_of_filter in Hin as [? ?]. by exists m.
    + intros (m & Hin & Hn & Hmt). exists m. split; [|done]. apply list_elem_of_In. rewrite <- E.
      by apply list_elem_of_filter.
Qed.

(** ** The requests for one VLAN *)
Definition removes (vid : Z) (mb : bitmap) (l : list Z) : list change_op :=
  (λ i, OpMemberRemove vid (PID_TO_NAME i)) <$> filter (λ i, BITMAP_TEST_BIT mb i = false) l.
Definition creates (vid : Z) (tb : bitmap) (now : vlan_bmap) (l : list Z) : list change_op :=
  (λ i, OpMemberCreate vid (PID_TO_NAME i) (BITMAP_TEST_BIT tb i)) <$>
    filter (λ i, current now i ≠ Some (BITMAP_TEST_BIT tb i)) l.
Definition vlan_requests (vid : Z) (mb tb : bitmap) (now : vlan_bmap) : list change_op :=
  OpVlanCreate vid :: removes vid mb (bits MAX_NUM_OF_PORTS (port_member now)) ++
  creates vid tb now (BITMAP_FOR_EACH_BIT_SET mb MAX_NUM_OF_PORTS).

Abbreviation in_range i := (0 ≤ i < MAX_NUM_OF_PORTS).

Lemma elem_of_bits len A i : i ∈ bits len A ↔ i ∈ A ∧ 0 ≤ i < len.
Proof. unfold bits. rewrite list_elem_of_filter, elem_of_seqZ. naive_solver lia. Qed.

Lemma change_effect_cons m op c : change_effect m (op :: c) = change_effect (op_effect m op) c.
Proof. done. Qed.
Lemma change_effect_app m c1 c2 : change_effect m (c1 ++ c2) = change_effect (change_effect m c1) c2.
Proof. apply foldl_app. Qed.

Lemma removes_effect vid mb l m v i : in_range i → Forall (λ j, in_range j) l →
  change_effect m (removes vid mb l) v (PID_TO_NAME i) =
    if decide (v = vid ∧ i ∈ l ∧ BITMAP_TEST_BIT mb i = false) then None else m v (PID_TO_NAME i).
Proof.
  intros Hi. revert m. induction l as [|j l IH]; intros m Hl.
  { cbn. rewrite decide_False; [done|]. intros (_ & H & _). by apply elem_of_nil in H. }
  inversion_clear Hl as [|?? Hj Hl']. unfold removes in *. rewrite filter_cons.
  destruct (decide (BITMAP_TEST_BIT mb j = false)) as [Ej|Ej].
  - rewrite fmap_cons, change_effect_cons, IH by done. cbn [op_effect]. unfold member_upd.
    destruct (decide (v = vid ∧ i ∈ l ∧ BITMAP_TEST_BIT mb i = false)) as [H|H].
    + rewrite decide_True; [done|]. destruct H as (? & ? & ?). split_and!; [done|by right|done].
    + destruct (decide (v = vid ∧ PID_TO_NAME i = PID_TO_NAME j)) as [[-> Hn]|Hn].
      * apply pid_name_inj in Hn as ->; [|done|done]. rewrite decide_True; [done|].
        split_and!; [done|by left|done].
      * rewrite decide_False; [done|]. intros (-> & [->|Hin]%elem_of_cons & Hb); [by apply Hn|by apply H].
  - rewrite IH by done. apply decide_ext. rewrite elem_of_cons. split; [naive_solver|].
    intros (? & [->|?] & ?); [done|done].
Qed.

Lemma creates_effect vid tb now l m v i : in_range i → Forall (λ j, in_range j) l →
  (i ∈ l → current now i = Some (BITMAP_TEST_BIT tb i) → v = vid →
   m v (PID_TO_NAME i) = Some (BITMAP_TEST_BIT tb i)) →
  change_effect m (creates vid tb now l) v (PID_TO_NAME i) =
    if decide (v = vid ∧ i ∈ l) then Some (BITMAP_TEST_BIT tb i) else m v (PID_TO_NAME i).
Proof.
  intros Hi. revert m. induction l as [|j l IH]; intros m Hl Hm.
  { cbn. rewrite decide_False; [done|]. intros (_ & H). by apply elem_of_nil in H. }
  inversion_clear Hl as [|?? Hj Hl']. unfold creates in *. rewrite filter_cons.
  destruct (decide (current now j ≠ Some (BITMAP_TEST_BIT tb j))) as [Ej|Ej].
  - rewrite fmap_cons, change_effect_cons. cbn [op_effect].
    assert (PID_TO_NAME i = PID_TO_NAME j → i = j) as Hinj by (by apply pid_name_inj).
    rewrite IH; [|done|].
    + unfold member_upd. destruct (decide (v = vid ∧ i ∈ l)) as [[-> H]|H].
      * rewrite decide_True; [done|]. split; [done|by right].
      * destruct (decide (v = vid ∧ PID_TO_NAME i = PID_TO_NAME j)) as [[-> Hn]|Hn].
        -- apply Hinj in Hn as ->. rewrite decide_True; [done|]. split; [done|by left].
        -- rewrite decide_False; [done|]. intros (-> & [->|Hin]%elem_of_cons); [by apply Hn|by apply H].
    + intros Hin Hc ->. unfold member_upd.
      destruct (decide (vid = vid ∧ PID_TO_NAME i = PID_TO_NAME j)) as [[_ En]|En].
      * by apply Hinj in En as ->.
      * apply Hm; [by right|done|done].
  - apply dec_stable in Ej. rewrite IH; [|done|].
    + destruct (decide (v = vid ∧ i ∈ l)) as [[-> H]|H].
      * rewrite decide_True; [done|]. split; [done|by right].
      * destruct (decide (v = vid ∧ i ∈ j :: l)) as [[-> [->|H']%elem_of_cons]|H']; [| |done].
        -- apply Hm; [by left|done|done].
        -- exfalso. by apply H.
    + intros Hin Hc Hv. apply Hm; [by right|done|done].
Qed.

(** The requests of a VLAN turn its membership from what the switch answered
    into what the configuration says, and leave the other VLANs alone. *)
Lemma vlan_requests_effect vid l mb tb now m v i :
  port_bits mb (member_bit l) → port_bits tb (tagged_bit l) → in_range i →
  (∀ i, in_range i → m vid (PID_TO_NAME i) = current now i) →
  change_effect m (vlan_requests vid mb tb now) v (PID_TO_NAME i) =
    if decide (v = vid) then wanted l i else m v (PID_TO_NAME i).
Proof.
  intros Hm Ht Hi Hnow. unfold vlan_requests. rewrite change_effect_cons, change_effect_app. cbn [op_effect].
  assert (Forall (λ j, in_range j) (bits MAX_NUM_OF_PORTS (port_member now))) as Hr1.
  { apply Forall_forall. intros j Hj. by apply elem_of_bits in Hj as [_ ?]. }
  assert (Forall (λ j, in_range j) (BITMAP_FOR_EACH_BIT_SET mb MAX_NUM_OF_PORTS)) as Hr2.
  { apply Forall_forall. intros j Hj. by apply elem_of_for_each_bit_set in Hj as [? _]. }
  rewrite creates_effect; [|done|done|].
  2:{ intros [_ Hb]%elem_of_for_each_bit_set Hc ->; [|done]. rewrite removes_effect by done.
      rewrite decide_False by (intros (_ & _ & ?); congruence). by rewrite Hnow. }
  rewrite removes_effect by done.
  destruct (decide (v = vid)) as [->|Hv].
  2:{ by rewrite !decide_False by tauto. }
  rewrite (wanted_spec l i mb tb) by (done || lia).
  destruct (BITMAP_TEST_BIT mb i) eqn:Eb.
  - rewrite decide_True; [done|]. split; [done|]. apply elem_of_for_each_bit_set; [done|]. by split.
  - rewrite decide_False.
    2:{ intros [_ [_ Hb]%elem_of_for_each_bit_set]; [congruence|done]. }
    destruct (decide (i ∈ port_member now)) as [Hin|Hin].
    + rewrite decide_True; [done|]. split_and!; [done|by apply elem_of_bits|done].
    + rewrite decide_False by (by intros (_ & [? _]%elem_of_bits & _)).
      rewrite Hnow by done. unfold current. by rewrite decide_False.
Qed.

(** ** The code makes these requests *)
Section requests.
Context `{G : Gnma}.

Lemma change_add_spec c op (p : plat) : pl_heap p = [] →
  wp (change_add c op) (λ r p', p' = p ∧ r = Some (c ++ [op])) (λ _, False) no_fault p.
Proof. intros H. unfold change_add, pl_alloc. apply wp_bind. unfold wp at 1. by rewrite H. Qed.
Lemma change_add_ok_spec c op (p : plat) : pl_heap p = [] →
  wp (change_add_ok c op) (λ r p', p' = p ∧ r = c ++ [op]) (λ _, False) no_fault p.
Proof.
  intros H. unfold change_add_ok. apply wp_bind. eapply wp_mono; [by apply change_add_spec| |done|done].
  intros ? p' [-> ->]. by apply wp_ret.
Qed.

Lemma removes_spec vid mb X l c (p : plat) : pl_heap p = [] → port_bits mb X → Forall (λ j, in_range j) l →
  wp (fold_m (λ c i,
        stays ← bit_test mb i;
        if (stays : bool) then ret c
        else r ← change_add c (OpMemberRemove vid (PID_TO_NAME i)); ret (default c r)) l c)
    (λ c' p', p' = p ∧ c' = c ++ removes vid mb l) (λ _, False) no_fault p.
Proof.
  intros Hh Hb Hl. apply (wp_fold_m (λ before c' p', p' = p ∧ c' = c ++ removes vid mb before)).
  - by rewrite app_nil_r.
  - intros before i todo c' p' -> [-> ->]. apply Forall_app in Hl as [_ Hl].
    inversion_clear Hl as [|?? Hi _]. apply wp_bind.
    unfold bit_test. rewrite (bits_room _ _ _ Hb) by (unfold MAX_NUM_OF_PORTS in Hi; lia). apply wp_ret.
    unfold removes. rewrite filter_app, fmap_app, filter_cons, filter_nil.
    destruct (BITMAP_TEST_BIT mb i).
    + apply wp_ret. by rewrite app_nil_r.
    + apply wp_bind. eapply wp_mono; [by apply change_add_spec| |done|done]. intros ? p' [-> ->].
      apply wp_ret. cbn. by rewrite <- app_assoc.
  - done.
Qed.

Lemma current_same now i t :
  bool_decide (i ∈ port_member now) && eqb t (bool_decide (i ∈ port_tagged now)) = true ↔
  current now i = Some t.
Proof.
  unfold current. destruct (decide (i ∈ port_member now)) as [H|H].
  - rewrite bool_decide_true by done. cbn. rewrite eqb_true_iff. split; [by intros ->|by intros [= ->]].
  - by rewrite bool_decide_false.
Qed.

Lemma creates_spec vid tb X now l c (p : plat) : pl_heap p = [] → port_bits tb X → Forall (λ j, in_range j) l →
  wp (fold_m (λ c i,
        tagged ← bit_test tb i;
        if bool_decide (i ∈ port_member now) && eqb tagged (bool_decide (i ∈ port_tagged now)) then ret c
        else change_add_ok c (OpMemberCreate vid (PID_TO_NAME i) tagged)) l c)
    (λ c' p', p' = p ∧ c' = c ++ creates vid tb now l) (λ _, False) no_fault p.
Proof.
  intros Hh Hb Hl. apply (wp_fold_m (λ before c' p', p' = p ∧ c' = c ++ creates vid tb now before)).
  - by rewrite app_nil_r.
  - intros before i todo c' p' -> [-> ->]. apply Forall_app in Hl as [_ Hl].
    inversion_clear Hl as [|?? Hi _]. apply wp_bind.
    unfold bit_test. rewrite (bits_room _ _ _ Hb) by (unfold MAX_NUM_OF_PORTS in Hi; lia). apply wp_ret.
    unfold creates. rewrite filter_app, fmap_app, filter_cons, filter_nil.
    pose proof (current_same now i (BITMAP_TEST_BIT tb i)) as Hc. destruct (_ && _) eqn:E.
    + apply wp_ret. split; [done|]. rewrite decide_False; [by rewrite app_nil_r|].
      intros Hne. apply Hne. by apply Hc.
    + eapply wp_mono; [by apply change_add_ok_spec| |done|done]. intros ? p' [-> ->]. split; [done|].
      rewrite decide_True; [by rewrite <- app_assoc|]. intros Heq. apply Hc in Heq. congruence.
  - done.
Qed.

Lemma memberlist_spec c mbr vlan (p : plat) :
  pl_heap p = [] → members_named (vlan_members vlan) → 0 ≤ vlan_id vlan < GNMA_MAX_VLANS →
  wp (plat_vlan_memberlist_set c mbr vlan)
    (λ c' p', p' = p ∧ ∃ mb tb, port_bits mb (member_bit (vlan_members vlan)) ∧
       port_bits tb (tagged_bit (vlan_members vlan)) ∧
       c' = c ++ vlan_requests (vlan_id vlan) mb tb (arr_get zero_vlan_bmap mbr (vlan_id vlan)))
    (λ _, False) no_fault p.
Proof.
  intros Hh Hn Hv. unfold plat_vlan_memberlist_set. cbv zeta. apply wp_bind.
  eapply wp_mono; [by apply change_add_ok_spec| |done|done]. intros ? p1 [-> ->].
  apply wp_bind. eapply wp_mono; [by apply member_bits_spec| |done|done]. intros [mb tb] p1 (-> & Hm & Ht).
  apply wp_bind. unfold arr_read. rewrite (proj2 (Z.leb_le 0 _)), (proj2 (Z.ltb_lt _ _)) by lia. apply wp_ret.
  apply wp_bind. eapply wp_mono; [eapply removes_spec; [done|exact Hm|]| |done|done].
  { apply Forall_forall. intros j Hj. by apply elem_of_bits in Hj as [_ ?]. }
  intros ? p1 [-> ->]. eapply wp_mono; [eapply creates_spec; [done|exact Ht|]| |done|done].
  { apply Forall_forall. intros j Hj. by apply elem_of_for_each_bit_set in Hj as [? _]. }
  intros ? p1 [-> ->]. split; [done|]. exists mb, tb. split_and!; [done|done|].
  unfold vlan_requests. by rewrite <- !app_assoc.
Qed.

(** The VLANs of a configuration, as the parser leaves them. *)
Definition vlan_cfg_ok (cfg : plat_cfg) : Prop :=
  ∀ v, v ∈ BITMAP_FOR_EACH_BIT_SET (cfg_vlans_to_cfg cfg) GNMA_MAX_VLANS →
    let vlan := arr_get zero_plat_port_vlan (cfg_vlans cfg) v in
    vlan_id vlan = v ∧ members_named (vlan_members vlan).

(** The members the configuration gives a VLAN. *)
Definition members_of (cfg : plat_cfg) (v i : Z) : option bool :=
  wanted (vlan_members (arr_get zero_plat_port_vlan (cfg_vlans cfg) v)) i.

Lemma all_requests_spec cfg mbr (p : plat) :
  pl_heap p = [] → vlan_cfg_ok cfg →
  wp (fold_m (λ c i,
        plat_vlan_memberlist_set c mbr (arr_get zero_plat_port_vlan (cfg_vlans cfg) i))
      (BITMAP_FOR_EACH_BIT_SET (cfg_vlans_to_cfg cfg) GNMA_MAX_VLANS) [])
    (λ c p', p' = p ∧ ∀ m, represents mbr m → ∀ v i, in_range i →
       change_effect m c v (PID_TO_NAME i) =
         if decide (v ∈ BITMAP_FOR_EACH_BIT_SET (cfg_vlans_to_cfg cfg) GNMA_MAX_VLANS)
         then members_of cfg v i else m v (PID_TO_NAME i))
    (λ _, False) no_fault p.
Proof.
  intros Hh Hok. set (vids := BITMAP_FOR_EACH_BIT_SET _ _) in *.
  assert (NoDup vids) as Hnd.
  { unfold vids. rewrite for_each_bit_set_eq by done. unfold bits_set. apply list.NoDup_filter, NoDup_seqZ. }
  apply (wp_fold_m (λ before c p', p' = p ∧ ∀ m, represents mbr m → ∀ v i, in_range i →
    change_effect m c v (PID_TO_NAME i) = if decide (v ∈ before) then members_of cfg v i else m v (PID_TO_NAME i))).
  - split; [done|]. intros m Hm v i Hi. rewrite decide_False; [done|]. by intros ?%elem_of_nil.
  - intros before v todo c p' Hl [-> Hc].
    assert (v ∈ vids) as Hv by (rewrite Hl; set_solver). destruct (Hok v Hv) as [Hid Hn].
    assert (0 ≤ v < GNMA_MAX_VLANS) as Hr by (by apply elem_of_for_each_bit_set in Hv as [? _]).
    eapply wp_mono; [apply memberlist_spec; [done|done|by rewrite Hid]| |done|done].
    intros c' p' (-> & mb & tb & Hm & Ht & ->). rewrite Hid. split; [done|]. intros m Hrep w i Hi.
    rewrite change_effect_app, (vlan_requests_effect v _ mb tb _ _ w i Hm Ht Hi).
    + destruct (decide (w = v)) as [->|Hw].
      * rewrite decide_True; [done|]. set_solver.
      * rewrite Hc by done. apply decide_ext. set_solver.
    + intros j Hj. rewrite Hc by done. rewrite decide_False; [by apply Hrep|].
      rewrite Hl in Hnd. apply NoDup_app in Hnd as (_ & Hd & _). intros Hin. apply (Hd v Hin). by left.
  - intros c p' [-> Hc]. by split.
Qed.
End requests.

(** C5: The change [config_vlan_apply] executes reconciles the VLAN members.
    With memory for the requests, and a configuration whose members are ports:
    when it succeeds, its last setting is one change, accepted, that turns any
    membership that is what the switch answered into one where each port of
    each configured VLAN is a member, tagged or not, exactly as configured,
    and the members of the other VLANs are as they were. *)
Theorem vlan_apply_reconciles `{G : Gnma} (cfg : plat_cfg) (p : plat) :
  pl_heap p = [] → vlan_cfg_ok cfg →
  wp (config_vlan_apply cfg)
    (λ _ p', ∃ mbr c calls g g', gnma_get gnma_vlan_member_bmap_get ∅ g = inl (0, mbr, g') ∧
       pl_calls p' = calls ++ [(gnma_change_exec c, 0)] ∧
       ∀ m, represents mbr m → ∀ v i, 0 ≤ i < MAX_NUM_OF_PORTS →
         change_effect m c v (PID_TO_NAME i) =
           if decide (v ∈ BITMAP_FOR_EACH_BIT_SET (cfg_vlans_to_cfg cfg) GNMA_MAX_VLANS)
           then members_of cfg v i else m v (PID_TO_NAME i))
    any_err any_fault p.
Proof.
  intros Hh Hok. unfold config_vlan_apply. apply wp_bind.
  eapply wp_mono; [apply (keeps_vlan_list (λ _, None))| |done|done]. intros ? p1 (_ & _ & _ & H1).
  specialize (H1 Hh). apply wp_bind. unfold pl_alloc_or_fail, pl_alloc. apply wp_bind.
  unfold wp at 1. rewrite H1. apply wp_ret, wp_bind. unfold ask. unfold wp at 1.
  destruct (gnma_get gnma_vlan_member_bmap_get ∅ (pl_gnma p1)) as [[[rc mbr] g']|f] eqn:Eg; [|done].
  apply wp_bind, wp_fail_if; [done|]. intros Hrc%negb_false_iff%Z.eqb_eq. subst rc.
  set (p2 := set pl_gnma _ p1). assert (pl_heap p2 = []) as H2 by done.
  apply wp_bind. unfold pl_alloc_or_fail, pl_alloc. apply wp_bind. unfold wp at 1. rewrite H2.
  apply wp_ret, wp_bind. eapply wp_mono; [by apply all_requests_spec| |done|done]. intros c p3 [-> Hc].
  unfold gnma_ok, gnma. apply wp_bind. unfold wp at 1. destruct (gnma_do _ _) as [[rc g2]|f]; [|done].
  apply wp_fail_if; [done|]. intros Hrc%negb_false_iff%Z.eqb_eq. subst rc.
  exists mbr, c, (pl_calls p2), (pl_gnma p1), g'. by split_and!.
Qed.

(** ** Witness: port 0 leaves VLAN 7, port 1 becomes untagged, port 2 joins *)
#[local] Existing Instance sample_gnma.

Definition vlan_cfg : plat_cfg :=
  zero_plat_cfg
    <| cfg_vlans := {[ 7 := zero_plat_port_vlan <| vlan_id := 7 |>
         <| vlan_members := [mk_vlan_member "Ethernet2" 2 true; mk_vlan_member "Ethernet1" 1 false] |> ]} |>
    <| cfg_vlans_to_cfg := BITMAP_SET_BIT (BITMAP_CLEAR MAX_VLANS) 7 |>.

Lemma vlan_cfg_ids : BITMAP_FOR_EACH_BIT_SET (cfg_vlans_to_cfg vlan_cfg) GNMA_MAX_VLANS = [7].
Proof. by vm_compute. Qed.
Lemma vlan_cfg_is_ok : vlan_cfg_ok vlan_cfg.
Proof.
  intros v Hv. assert (v = 7) as ->.
  { rewrite vlan_cfg_ids in Hv. by apply list_elem_of_singleton. }
  split; [done|]. repeat constructor; eexists; (split; [by vm_compute|done]).
Qed.
Lemma vlan_runs : is_Some (calls_made (config_vlan_apply vlan_cfg) (sample_plat [])).
Proof. apply (bool_decide_unpack _). by vm_compute. Qed.

Lemma vlan_apply_reconciles_witness :
  ∃ p' c, config_vlan_apply vlan_cfg (sample_plat []) = Ok tt p' ∧
    ∀ m, represents {[7 := mk_vlan_bmap {[0; 1]} {[1]}]} m →
      change_effect m c 7 (PID_TO_NAME 0) = None ∧ change_effect m c 7 (PID_TO_NAME 2) = Some true.
Proof.
  pose proof (vlan_apply_reconciles vlan_cfg (sample_plat []) eq_refl vlan_cfg_is_ok) as H.
  destruct (wp_made _ _ _ _ _ H vlan_runs) as ([] & p' & E & mbr & c & calls & g & g' & Eg & _ & Hc).
  exists p', c. split; [exact E|]. clear E H. intros m Hm. injection Eg as <- <-.
  rewrite vlan_cfg_ids in Hc.
  split; rewrite (Hc m Hm) by (unfold MAX_NUM_OF_PORTS; lia); (rewrite decide_True by apply list_elem_of_here); vm_compute; reflexivity.
Defined.
