(* ===== verification/PlatGnmiSpec.v ===== *)
(** * The platform layer over gNMI: plat-gnma.c and gnma_common.c together

    The theorems of the platform layer hold for every switch; here the switch
    is [gnma_common], and what the platform layer sets becomes messages to the
    device. *)

From S2P Require Import Prelude CNum CStr Bitmap Router Json PlatTypes World ProtoConv Gnma Gnmi Sample PortList GnmaSet GnmaGet GnmaImpl GnmaSpec GnmaAnswers GnmaReadSpec PlatState PlatVlan PlatPort PlatAaa PlatInit PlatApply PlatSample PlatFrame PlatVlanSpec.
#[local] Open Scope list_scope.

Section plat.
Context `{J : CJson, N : !Gnmi, L : CLibc, T : CTarget, Q : QSort}.
Abbreviation plat := (@plat gnma_common).
Implicit Types p : plat.

Definition sent (p : plat) : list (gnmi_msg * Z) := gn_sent (pl_gnma p).

(** ** Settings and messages *)

(** The messages of one setting with the return value it had. *)
Definition explains (call : gnma_call * Z) (msgs : list (gnmi_msg * Z)) : Prop :=
  one_message call.1 = true →
  (msgs = [] ∧ call.2 ≠ 0) ∨
  ∃ msg r, atomic msg (run_call call.1) ∧ msgs = [(msg, r)] ∧ (call.2 = 0 ↔ r = 0).

(** From [p] to [p'], the settings made are explained by the messages sent, in
    the same order. *)
Definition traced (p p' : plat) : Prop :=
  ∃ calls parts, pl_calls p' = pl_calls p ++ calls ∧ sent p' = sent p ++ concat parts ∧
    Forall2 explains calls parts.

Lemma traced_same p p' : pl_calls p' = pl_calls p → sent p' = sent p → traced p p'.
Proof. intros E1 E2. exists [], []. rewrite E1, E2, !app_nil_r. by split_and!. Qed.
#[export] Instance traced_preorder : PreOrder traced.
Proof.
  split; [intros p; by apply traced_same|].
  intros p1 p2 p3 (c1 & m1 & A1 & B1 & F1) (c2 & m2 & A2 & B2 & F2). exists (c1 ++ c2), (m1 ++ m2).
  split_and!; [by rewrite A2, A1, app_assoc|by rewrite B2, B1, concat_app, app_assoc|by apply Forall2_app].
Qed.

Lemma ask_asked {A} (q : gnma_query A) old g rc a g' :
  gnma_get q old g = inl (rc, a, g') → asked g g'.
Proof.
  cbn. pose proof (run_query_typed q old g) as H. unfold wp in H.
  destruct (run_query q old g) as [[rc' a'] g1|g1|f]; intros E; inversion E; subst; [apply H|done].
Qed.
Lemma ask_sent {A} (q : gnma_query A) old g rc a g' :
  gnma_get q old g = inl (rc, a, g') → gn_sent g' = gn_sent g.
Proof. intros E. by apply ask_asked in E as [E _]. Qed.

Lemma traced_call c : allows traced c.
Proof.
  intros p rc g E. cbn in E. pose proof (run_call_later c (pl_gnma p)) as Hl. unfold wp in Hl.
  destruct (one_message c) eqn:H1.
  - destruct (run_call_atomic c H1) as [msg Hm]. pose proof (Hm (pl_gnma p)) as Hw. unfold wp in Hw.
    destruct (run_call c (pl_gnma p)) as [rc' g'|g'|f]; [|done..].
    assert (rc' = rc ∧ g' = g) as [-> ->] by (by inversion E).
    destruct Hw as [[[Es _] Hrc]|(r & Es & Hr)].
    + exists [(c, rc)], [[]]. split_and!; [done|unfold sent; cbn; by rewrite Es, app_nil_r|].
      constructor; [|constructor]. intros _. by left.
    + exists [(c, rc)], [[(msg, r)]]. split_and!; [done|done|].
      constructor; [|constructor]. intros _. right. by exists msg, r.
  - destruct (run_call c (pl_gnma p)) as [rc' g'|g'|f]; [|..|done];
      (assert (g' = g) as -> by (by inversion E));
      destruct Hl as [l Hl]; exists [(c, rc)], [l]; (split_and!; [done|unfold sent; cbn; by rewrite app_nil_r|]);
      (constructor; [|constructor]); intros H; cbn in H; congruence.
Qed.
#[export] Instance traced_frame : PlatFrame traced.
Proof.
  split; [|apply traced_call]. split; [split; [apply _|..]|..].
  - intros A q old p rc a g E. apply traced_same; [done|]. by apply ask_sent in E.
  - intros p b h _. by apply traced_same.
  - intros p b l _. by apply traced_same.
  - intros p s. by apply traced_same.
  - intros p f _. by apply traced_same.
  - intros p s. by apply traced_same.
Qed.

(** ** Reading the switch makes no setting and sends nothing *)
Definition unchanged (p p' : plat) : Prop := pl_calls p' = pl_calls p ∧ sent p' = sent p.
#[export] Instance unchanged_reads : PlatReads unchanged.
Proof.
  split; [split|..]; try done.
  - split; [done|]. intros p1 p2 p3 [A1 B1] [A2 B2]. split; congruence.
  - intros A q old p rc a g E. split; [done|]. by apply ask_sent in E.
Qed.

(** ** What the RADIUS hosts become *)
Definition das_client (host : string) : string := Common.das_clients +:+ "[clientaddress=" +:+ host +:+ "]/".
Definition radius_msg (m : gnmi_msg) : Prop :=
  (∃ val, m = gnmi_jsoni_set servers_path val) ∨ (∃ host, m = gnmi_jsoni_del (das_client host)).
Definition radius_sent (p p' : plat) : Prop :=
  ∃ l, sent p' = sent p ++ l ∧ Forall (λ m, radius_msg m.1) l.

#[export] Instance radius_reads : PlatReads radius_sent.
Proof.
  assert (∀ p p', sent p' = sent p → radius_sent p p') as Hs by (intros p p' E; exists []; by rewrite E, app_nil_r).
  split; [split|..].
  - split; [intros p; by apply Hs|]. intros p1 p2 p3 (l1 & A1 & B1) (l2 & A2 & B2). exists (l1 ++ l2).
    split; [by rewrite A2, A1, app_assoc|by apply Forall_app_2].
  - intros A q old p rc a g E. apply Hs. by apply ask_sent in E.
  - intros p b h _. by apply Hs.
  - intros p b l _. by apply Hs.
  - intros p s. by apply Hs.
  - intros p f _. by apply Hs.
  - intros p s. by apply Hs.
Qed.
Lemma radius_allows c msg : atomic msg (run_call c) → radius_msg msg → allows radius_sent c.
Proof.
  intros Hm Hok p rc g E. cbn in E. specialize (Hm (pl_gnma p)). unfold wp in Hm.
  destruct (run_call c (pl_gnma p)) as [rc' g'|g'|f]; [|done..].
  assert (rc' = rc ∧ g' = g) as [-> ->] by (by inversion E).
  destruct Hm as [[[Es _] _]|(r & Es & _)].
  - exists []. by rewrite app_nil_r.
  - exists [(msg, r)]. split; [done|]. by constructor.
Qed.
Lemma radius_set_sent hosts : within radius_sent (plat_radius_hosts_list_set hosts).
Proof.
  apply within_radius; [apply _|intros h|apply Forall_forall; intros h _].
  - eapply radius_allows; [apply atomic_del_at|]. right. by exists h.
  - eapply radius_allows; [apply atomic_set_at|]. left. by eexists.
Qed.

(** ** A device whose answers do not change by reading *)
Definition steady (g : gnmi) (docs : string → option json) : Prop :=
  constant g ∧
  ∀ path j, docs path = Some j →
    ∃ text, (gdev_get path (gn_dev g)).1 = Some text ∧ cJSON_Parse text = Some j.

Lemma root_steady g docs path j : steady g docs → docs path = Some j → gnmi_get_root path g = Ok (Some j) g.
Proof.
  intros [(_ & _ & Hd & _) Ht] Hj. destruct (Ht path j Hj) as (text & Hg & Hp). specialize (Hd path).
  unfold gnmi_get_root, gnmi_jsoni_get_alloc, mbind, M_bind.
  destruct (gdev_get path (gn_dev g)) as [o d]. cbn in *. subst o d. cbn. rewrite Hp. by destruct g.
Qed.
Lemma leaf_steady g docs path key j :
  steady g docs → docs path = Some j → Query.leaf_at path key g = Ok (get_item (Some j) key) g.
Proof.
  intros Hs Hj. pose proof (proj1 (proj1 Hs)) as Hh. pose proof (root_steady _ _ _ _ Hs Hj) as Hr.
  unfold Query.leaf_at, asprintf, gn_alloc_or_fail, gn_alloc, gnmi_get_json, mbind, M_bind in *.
  rewrite Hh. cbn. by rewrite Hr.
Qed.
End plat.

Section relay.
Context `{J : CJson, JL : !CJsonLaws, N : !Gnmi, L : CLibc, T : CTarget, Q : QSort}.

Definition helper_path (vid : Z) : string := Common.relay_path vid "config/helper-address".
Definition circuit_path (vid : Z) : string := Common.relay_path vid "agent-information-option/config/circuit-id".
(** The documents the two settings of the relay send. *)
Definition helper_doc (ip : Z) : item :=
  IObj [("openconfig-relay-agent:helper-address", IArr [IStr (inet_ntop ip)])].
Definition circuit_doc (id : gnma_dhcp_relay_circuit_id) : item :=
  IObj [("openconfig-relay-agent:circuit-id", IStr (Common.circuit_id_text id))].

Lemma servers_steady g docs vid n old ip :
  steady g docs → docs (helper_path vid) = Some (json_of (helper_doc ip)) → 1 ≤ n →
  ∃ addr, Query.gnma_vlan_dhcp_relay_server_list_get vid n old g = Ok (0, (1, addr)) g.
Proof.
  intros Hs Hd Hn. destruct (inet_pton (inet_ntop ip)) as [rc addr] eqn:E. eexists. unfold Query.gnma_vlan_dhcp_relay_server_list_get, common_out, mbind, M_bind.
  fold (helper_path vid). rewrite (leaf_steady g docs _ _ _ Hs Hd). unfold helper_doc. rewrite member_of_one.
  cbn [is_array]. rewrite array_json. cbn [negb]. unfold array_size. cbn [for_each_child]. rewrite children_json.
  cbn [fmap list_fmap length]. change (wrap 16 (Z.of_nat 1)) with 1. destruct (Z.ltb_spec n 1); [lia|].
  unfold Query.server_addresses. cbn [fold_m]. unfold mbind, M_bind. cbn [json_of].
  change (string_value (Some (cJSON_CreateString (inet_ntop ip)))) with
    (cJSON_valuestring (cJSON_CreateString (inet_ntop ip))). rewrite valuestring_create. cbn [deref].
  unfold ret at 1. rewrite E. reflexivity.
Qed.
Lemma circuit_steady g docs vid old :
  steady g docs → docs (circuit_path vid) = Some (json_of (circuit_doc CIRCUIT_ID_I)) →
  Query.gnma_vlan_dhcp_relay_ciruit_id_get vid old g = Ok (GNMA_ERR_COMMON, old) g.
Proof.
  intros Hs Hd. unfold Query.gnma_vlan_dhcp_relay_ciruit_id_get, Query.named_strict, common_out, mbind, M_bind.
  fold (circuit_path vid). rewrite (leaf_steady g docs _ _ _ Hs Hd). unfold circuit_doc. rewrite member_of_one.
  cbn [json_of is_string string_value]. by rewrite isstring_create, valuestring_create.
Qed.

Abbreviation plat := (@plat gnma_common).

Lemma ask_ok {A} (q : gnma_query A) old (p : plat) rc a :
  run_query q old (pl_gnma p) = Ok (rc, a) (pl_gnma p) → ask q old p = Ok (rc, a) p.
Proof. intros E. unfold ask. cbn. rewrite E. by destruct p. Qed.

Lemma wp_ask_ok {A} (q : gnma_query A) old (p : plat) rc a (P : Z * A → plat → Prop) E F :
  run_query q old (pl_gnma p) = Ok (rc, a) (pl_gnma p) → P (rc, a) p → wp (ask q old) P E F p.
Proof. intros Hq HP. unfold wp. by rewrite (ask_ok _ _ _ _ _ Hq). Qed.
Lemma wp_upd_relay vid f (p : plat) (P : unit → plat → Prop) E F :
  0 ≤ vid < GNMA_MAX_VLANS →
  (∀ p', pl_gnma p' = pl_gnma p → pl_features p' = pl_features p → P tt p') → wp (upd_relay vid f) P E F p.
Proof.
  intros Hv HP. unfold upd_relay. apply wp_bind, wp_gets, wp_bind, wp_arr_write; [intros _|done].
  apply wp_modify. by apply HP.
Qed.

(** Reading the circuit id fails. *)
Lemma read_circuit docs vid (p : plat) (P : unit → plat → Prop) :
  steady (pl_gnma p) docs → 0 ≤ vid < GNMA_MAX_VLANS →
  docs (circuit_path vid) = Some (json_of (circuit_doc CIRCUIT_ID_I)) →
  wp (read_into (gnma_vlan_dhcp_relay_ciruit_id_get vid) (dr_circ_id ∘ relay_at vid)
        (λ c, upd_relay vid (λ v, v <| dr_circ_id := c |>))) P
    (λ p', pl_gnma p' = pl_gnma p ∧ pl_features p' = pl_features p) no_fault p.
Proof.
  intros Hs Hv Hc. unfold read_into. apply wp_bind, wp_gets, wp_bind.
  eapply wp_ask_ok; [exact (circuit_steady _ docs vid _ Hs Hc)|].
  apply wp_bind, wp_upd_relay; [done|]. intros p1 G1 F1. by apply wp_fail_if.
Qed.

Lemma relay_init_fails docs vid ip (p : plat) :
  steady (pl_gnma p) docs → 0 ≤ vid < GNMA_MAX_VLANS →
  docs (helper_path vid) = Some (json_of (helper_doc ip)) →
  docs (circuit_path vid) = Some (json_of (circuit_doc CIRCUIT_ID_I)) →
  wp (relay_init 1 vid) (λ _ _, False)
    (λ p', pl_gnma p' = pl_gnma p ∧ pl_features p' = pl_features p) no_fault p.
Proof.
  intros Hs Hv Hh Hc. unfold relay_init, vlan_state.
  apply wp_bind, wp_bind, wp_gets, wp_arr_read; [intros _|done].
  apply wp_bind. set (old := dr_helper_address _).
  destruct (servers_steady (pl_gnma p) docs vid 1 old ip Hs Hh ltac:(lia)) as [addr Ha].
  eapply wp_ask_ok.
  { cbn [run_query snd]. exact Ha. }
  apply wp_bind, wp_ret, wp_bind, wp_upd_relay; [done|]. intros p1 G1 F1. cbn [negb Z.eqb].
  apply wp_bind. eapply wp_mono; [apply (read_circuit docs vid p1 (λ _ _, False)); [by rewrite G1|done|done]| | |done].
  - done.
  - intros p2 [G2 F2]. split; congruence.
Qed.

(** The first VLAN with such a relay ends the reading of the switch. *)
Lemma relays_fail docs vid ip vids (p : plat) :
  steady (pl_gnma p) docs → 0 ≤ vid < GNMA_MAX_VLANS →
  docs (helper_path vid) = Some (json_of (helper_doc ip)) →
  docs (circuit_path vid) = Some (json_of (circuit_doc CIRCUIT_ID_I)) →
  wp (fold_m relay_init (vid :: vids) 1) (λ _ _, False) (λ p', pl_features p' = pl_features p) no_fault p.
Proof.
  intros Hs Hv Hh Hc. cbn [fold_m]. apply wp_bind.
  eapply wp_mono; [apply (relay_init_fails docs vid ip p); done| |by intros p' [_ H]|done]. done.
Qed.

(** ** A restart *)
Definition vlans_path : string := "/sonic-vlan:sonic-vlan/VLAN/VLAN_LIST".
Definition vlans_doc (vids : list Z) : item :=
  IObj [("sonic-vlan:VLAN_LIST", IArr (Common.vlan_item <$> vids))].

Lemma vlan_item_id v :
  0 ≤ v < GNMA_MAX_VLANS → d2u 16 (number_value (get_item (Some (json_of (Common.vlan_item v))) "vlanid")) = v.
Proof.
  intros Hv. cbn [get_item]. unfold Common.vlan_item. rewrite member_json.
  apply (number_created 16 v); [unfold GNMA_MAX_VLANS in Hv; lia|done].
Qed.
Lemma vlans_listed vids : ∀ old : gset Z,
  Forall (λ v, 0 ≤ v < GNMA_MAX_VLANS) vids →
  fold_left (λ vlans vlan,
      let vid := d2u 16 (number_value (get_item (Some vlan) "vlanid")) in
      if vid <? GNMA_MAX_VLANS then {[vid]} ∪ vlans else vlans)
    (json_of <$> (Common.vlan_item <$> vids)) old = list_to_set vids ∪ old.
Proof.
  induction vids as [|v vids IH]; intros old Hv; cbn [fmap list_fmap fold_left]; [by rewrite list_to_set_nil, (left_id_L ∅ (∪))|].
  inversion_clear Hv as [|?? Hv1 Hvs]. cbv zeta. rewrite vlan_item_id by done.
  destruct (Z.ltb_spec v GNMA_MAX_VLANS); [|lia]. rewrite IH by done.
  apply set_eq. intros w. rewrite !elem_of_union, !elem_of_list_to_set, elem_of_cons, elem_of_singleton. tauto.
Qed.
Lemma vlans_steady g docs vids :
  steady g docs → docs vlans_path = Some (json_of (vlans_doc vids)) →
  Forall (λ v, 0 ≤ v < GNMA_MAX_VLANS) vids →
  Query.gnma_vlan_list_get ∅ g = Ok (0, list_to_set vids) g.
Proof.
  intros Hs Hd Hv. unfold Query.gnma_vlan_list_get, common_out, gnmi_get_json, mbind, M_bind. fold vlans_path.
  rewrite (root_steady _ _ _ _ Hs Hd). cbn [ret]. unfold vlans_doc. rewrite member_of_one.
  cbn [is_array non_null for_each_child andb]. unfold ret at 1. rewrite array_json. cbn [negb].
  rewrite children_json, vlans_listed by done. by rewrite (right_id_L ∅ (∪)).
Qed.

Lemma bits_least len (A : gset Z) v :
  v ∈ A → 0 ≤ v < len → (∀ w, w ∈ A → v ≤ w) → ∃ rest, bits len A = v :: rest.
Proof.
  intros Hv Hr Hmin. unfold bits.
  assert (seqZ 0 len = seqZ 0 v ++ v :: seqZ (v + 1) (len - v - 1)) as ->.
  { replace len with (v + (1 + (len - v - 1))) at 1 by lia.
    rewrite seqZ_app by lia. rewrite (seqZ_app _ 1) by lia. by rewrite Z.add_0_l. }
  rewrite list.filter_app, filter_cons_True by done. eexists. rewrite filter_none; [done|].
  intros i Hi%elem_of_seqZ HA. specialize (Hmin i HA). lia.
Qed.

(** What reading the switch leaves alone when reading does not change it. *)
Definition core_kept (p p' : plat) : Prop :=
  FEAT_CORE (pl_features p') = FEAT_CORE (pl_features p) ∧
  (constant (pl_gnma p) → pl_gnma p' = pl_gnma p).
#[export] Instance core_kept_reads : PlatReads core_kept.
Proof.
  split; [split|..]; try done.
  - split; [done|]. intros p1 p2 p3 [A1 B1] [A2 B2]. split; [congruence|]. intros Hc.
    pose proof (B1 Hc) as E. rewrite <- E. apply B2. by rewrite E.
  - intros A q old p rc a g E. split; [done|]. apply ask_asked in E as [_ E]. exact E.
Qed.

Lemma core_init_fails docs vids vid ip (p : plat) :
  steady (pl_gnma p) docs → Forall (λ v, 0 ≤ v < GNMA_MAX_VLANS) vids → vid ∈ vids →
  (∀ v, v ∈ vids → vid ≤ v) →
  docs vlans_path = Some (json_of (vlans_doc vids)) →
  docs (helper_path vid) = Some (json_of (helper_doc ip)) →
  docs (circuit_path vid) = Some (json_of (circuit_doc CIRCUIT_ID_I)) →
  wp state_init_core (λ _ _, False) (λ p', FEAT_CORE (pl_features p') = FEAT_CORE (pl_features p)) any_fault p.
Proof.
  intros Hs Hr Hv Hmin Hd Hh Hc. pose proof (proj1 (Forall_forall _ _) Hr vid Hv) as Hvr. cbv beta in Hvr.
  unfold state_init_core. apply wp_bind.
  eapply wp_mono; [apply (within_ports_init core_kept)|intros [] p1 [F1 G1]|by intros p1 [F1 _]|done].
  specialize (G1 (proj1 Hs)). rewrite <- G1 in Hs.
  apply wp_bind. eapply wp_ask_ok; [exact (vlans_steady _ _ _ Hs Hd Hr)|]. cbv beta iota.
  apply wp_bind, wp_fail_if; [done|intros _]. apply wp_bind.
  eapply wp_mono; [apply (within_read_into core_kept); intros [mode attr]; apply within_upd_cache, _
                  |intros [] p2 [F2 G2]|intros p2 [F2 _]; congruence|done].
  specialize (G2 (proj1 Hs)). rewrite <- G2 in Hs. apply wp_bind.
  eapply wp_mono; [apply (within_read_into core_kept); intros a; apply within_upd_cache, _
                  |intros [] p3 [F3 G3]|intros p3 [F3 _]; congruence|done].
  specialize (G3 (proj1 Hs)). rewrite <- G3 in Hs. apply wp_bind.
  destruct (bits_least GNMA_MAX_VLANS (list_to_set vids) vid) as [rest ->].
  { by apply elem_of_list_to_set. }
  { done. }
  { intros w Hw%elem_of_list_to_set. auto. }
  eapply wp_mono; [by eapply relays_fail|done|intros p4 F4; congruence|done].
Qed.

Lemma state_init_fails docs vids vid ip (p : plat) :
  steady (pl_gnma p) docs → Forall (λ v, 0 ≤ v < GNMA_MAX_VLANS) vids → vid ∈ vids →
  (∀ v, v ∈ vids → vid ≤ v) →
  docs vlans_path = Some (json_of (vlans_doc vids)) →
  docs (helper_path vid) = Some (json_of (helper_doc ip)) →
  docs (circuit_path vid) = Some (json_of (circuit_doc CIRCUIT_ID_I)) →
  wp plat_state_init (λ _ _, False) (λ p', FEAT_CORE (pl_features p') = FEATSTS_FAIL) any_fault p.
Proof.
  intros Hs Hr Hv Hmin Hd Hh Hc. unfold plat_state_init.
  apply wp_bind, wp_modify, wp_bind, wp_modify. set (p0 := set pl_features _ _).
  assert (FEAT_CORE (pl_features p0) = FEATSTS_FAIL) as F0 by done.
  assert (pl_gnma p0 = pl_gnma p) as G0 by done. rewrite <- G0 in Hs. clearbody p0.
  apply wp_bind.
  eapply wp_mono; [apply (within_aaa_init core_kept)|intros [] p1 [F1 G1]|intros p1 [F1 _]; congruence|done].
  specialize (G1 (proj1 Hs)). rewrite <- G1 in Hs. apply wp_bind.
  eapply wp_mono; [apply (within_hosts_init core_kept)|intros [] p2 [F2 G2]|intros p2 [F2 _]; congruence|done].
  specialize (G2 (proj1 Hs)). rewrite <- G2 in Hs. apply wp_bind, wp_attempt.
  eapply wp_mono; [by eapply core_init_fails|done| |done]. intros p3 F3.
  apply wp_bind, wp_gets, wp_fail_if; [intros _; congruence|].
  intros Ho%negb_false_iff. unfold features_ok in Ho.
  apply andb_prop in Ho as [Ho _]. apply andb_prop in Ho as [Ho _].
  apply bool_decide_eq_true in Ho. congruence.
Qed.

(** ** The members of VLANs *)

(** An entry of the device: the VLAN, the port, whether tagged. *)
Abbreviation entry := (Z * Z * bool)%type.
Definition members_doc (l : list entry) : item :=
  IObj [("sonic-vlan:VLAN_MEMBER_LIST",
         IArr ((λ e : entry, Common.member_item e.1.1 (PID_TO_NAME e.1.2) e.2) <$> l))].
Definition entry_fits (e : entry) : Prop := 0 ≤ e.1.1 < GNMA_MAX_VLANS ∧ 0 ≤ e.1.2 < GNMA_MAX_PORT_ID.

(** The membership the entries make up. *)
Definition table (l : list entry) : membership := λ v n,
  match filter (λ e : entry, e.1.1 = v ∧ PID_TO_NAME e.1.2 = n) l with
  | [] => None
  | es => Some (existsb snd es)
  end.

Lemma scan_port i : 0 ≤ i < GNMA_MAX_PORT_ID → sscanf_lit_u 16 "Ethernet" (PID_TO_NAME i) = SConv i.
Proof.
  intros Hi. unfold GNMA_MAX_PORT_ID in Hi. pose proof (name_to_pid_to_name i ltac:(lia)) as H.
  unfold NAME_TO_PID in H. destruct (sscanf_lit_u 16 "Ethernet" (PID_TO_NAME i)); congruence.
Qed.
Lemma members_step e items m :
  entry_fits e →
  Query.vlan_members (json_of (Common.member_item e.1.1 (PID_TO_NAME e.1.2) e.2) :: items) m =
  Query.vlan_members items (Query.set_member e.1.1 e.1.2 e.2 m).
Proof.
  destruct e as [[v i] t]. intros [Hv Hi]. cbn [fst snd] in *. cbn [Query.vlan_members].
  unfold Common.member_item. cbn [get_item]. rewrite !member_json.
  change (member _ "name") with (Some (IStr (Common.vlan_name v))).
  change (member _ "tagging_mode") with (Some (IStr (if t then "tagged" else "untagged"))).
  change (member _ "ifname") with (Some (IStr (PID_TO_NAME i))).
  cbn [fmap option_fmap option_map]. rewrite !text_item. unfold Common.vlan_name.
  rewrite sscanf_lit_u_dec by (unfold GNMA_MAX_VLANS in Hv; lia). rewrite scan_port by done.
  change (is_string (Some (json_of (IStr (if t then "tagged" else "untagged"))))) with
    (cJSON_IsString (cJSON_CreateString (if t then "tagged" else "untagged"))).
  rewrite isstring_create. cbn [negb].
  rewrite (proj2 (Z.leb_gt _ _)) by apply Hv. rewrite (proj2 (Z.leb_gt _ _)) by apply Hi. cbn [orb].
  by destruct t.
Qed.
Lemma members_listed l : ∀ m,
  Forall entry_fits l →
  Query.vlan_members (json_of <$> ((λ e : entry, Common.member_item e.1.1 (PID_TO_NAME e.1.2) e.2) <$> l)) m =
  (0, foldl (λ m (e : entry), Query.set_member e.1.1 e.1.2 e.2 m) m l).
Proof.
  induction l as [|e l IH]; intros m Hl; [done|]. inversion_clear Hl as [|?? He Hl'].
  cbn [fmap list_fmap foldl]. rewrite members_step by done. by apply IH.
Qed.

Lemma set_member_at v' i' t' m v :
  arr_get zero_vlan_bmap (Query.set_member v' i' t' m) v =
  let b := arr_get zero_vlan_bmap m v in
  if decide (v' = v)
  then mk_vlan_bmap ({[i']} ∪ port_member b) (if t' then {[i']} ∪ port_tagged b else port_tagged b)
  else b.
Proof.
  unfold Query.set_member. rewrite arr_get_insert. cbv zeta. destruct (decide (v' = v)) as [->|]; done.
Qed.
Lemma members_bits (l : list entry) v i :
  let m := foldl (λ m (e : entry), Query.set_member e.1.1 e.1.2 e.2 m) ∅ l in
  (i ∈ port_member (arr_get zero_vlan_bmap m v) ↔ ∃ t, (v, i, t) ∈ l) ∧
  (i ∈ port_tagged (arr_get zero_vlan_bmap m v) ↔ (v, i, true) ∈ l).
Proof.
  induction l as [|[[v' i'] t'] l [IHm IHt]] using rev_ind.
  - cbn. unfold arr_get. rewrite lookup_empty. cbn. split; (split; [by intros ?%elem_of_empty|]).
    + by intros [t ?%elem_of_nil].
    + by intros ?%elem_of_nil.
  - rewrite foldl_snoc. cbn [fst snd] in *. rewrite set_member_at. cbv zeta.
    setoid_rewrite elem_of_app. setoid_rewrite list_elem_of_singleton.
    destruct (decide (v' = v)) as [->|Hne]; cbn [port_member port_tagged].
    + rewrite elem_of_union, elem_of_singleton, IHm. split; [|destruct t'; rewrite ?elem_of_union, ?elem_of_singleton, IHt];
        naive_solver.
    + rewrite IHm, IHt. split; naive_solver.
Qed.

Lemma port_name_inj i j :
  0 ≤ i < 2 ^ 16 → 0 ≤ j < 2 ^ 16 → PID_TO_NAME i = PID_TO_NAME j → i = j.
Proof.
  intros Hi Hj E. pose proof (name_to_pid_to_name i Hi) as H. rewrite E, name_to_pid_to_name in H by done. congruence.
Qed.
Lemma table_spec l v i :
  Forall entry_fits l → 0 ≤ i < MAX_NUM_OF_PORTS →
  table l v (PID_TO_NAME i) =
  current (arr_get zero_vlan_bmap (foldl (λ m (e : entry), Query.set_member e.1.1 e.1.2 e.2 m) ∅ l) v) i.
Proof.
  intros Hl Hi. destruct (members_bits l v i) as [Hm Ht]. unfold table, current.
  assert (∀ e, e ∈ filter (λ e : entry, e.1.1 = v ∧ PID_TO_NAME e.1.2 = PID_TO_NAME i) l ↔
               e.1 = (v, i) ∧ e ∈ l) as Hf.
  { intros [[v' i'] t']. rewrite list_elem_of_filter. cbn. split; [|naive_solver].
    intros [[-> E] He]. split; [|done]. rewrite Forall_forall in Hl. specialize (Hl _ He) as [_ Hr]. cbn in Hr.
    apply port_name_inj in E; [congruence|unfold GNMA_MAX_PORT_ID in Hr; lia|unfold MAX_NUM_OF_PORTS in Hi; lia]. }
  destruct (filter _ l) as [|e es] eqn:Ef.
  - rewrite decide_False; [done|]. rewrite Hm. intros [t Hin].
    by apply (elem_of_nil (v, i, t)), Hf.
  - destruct (proj1 (Hf e) (list_elem_of_here _ _)) as [E He]. rewrite decide_True.
    2:{ apply Hm. exists e.2. by rewrite <- E, <- surjective_pairing. }
    f_equal. apply eq_true_iff_eq. rewrite existsb_exists, bool_decide_eq_true, Ht. split.
    + intros (e' & Hin & Hb). apply list_elem_of_In, Hf in Hin as [E' Hin].
      rewrite (surjective_pairing e'), E', Hb in Hin. done.
    + intros Hin. exists (v, i, true). split; [|done]. apply list_elem_of_In, Hf. done.
Qed.

Lemma members_read docs l (g : gnmi) :
  steady g docs → Forall entry_fits l →
  docs members_path = Some (json_of (members_doc l)) →
  ∃ m, gnma_get gnma_vlan_member_bmap_get ∅ g = inl (0, m, g) ∧ represents m (table l).
Proof.
  intros Hs Hl Hd. eexists. split; [|intros v i Hi; by apply table_spec].
  cbn [gnma_get gnma_common run_query]. unfold Query.gnma_vlan_member_bmap_get, common_out, gnmi_get_json, mbind, M_bind.
  fold members_path. rewrite (root_steady _ _ _ _ Hs Hd). unfold members_doc, ret. cbv beta iota.
  rewrite member_of_one. cbn [is_array for_each_child]. rewrite array_json. cbn [negb].
  rewrite children_json, members_listed by done. done.
Qed.
End relay.

(** ** The properties *)
Section properties.
Context `{J : CJson, N : !Gnmi, L : CLibc, T : CTarget, Q : QSort}.
Abbreviation plat := (@plat gnma_common).

(** Applying a configuration over gNMI: the settings made, in order, are
    explained by the messages sent, in order.  A setting that is one message
    returned 0 exactly when the device accepted that message, and sent nothing
    when it failed before; this holds whether the configuration is applied to the
    end or given up on the way. *)
Theorem config_apply_traced cfg (p : plat) :
  wp (plat_config_apply cfg) (λ _, traced p) (traced p) any_fault p.
Proof. apply (within_config_apply traced). Qed.

(** Reading the switch into the cache makes no setting and sends the device
    nothing, however the reading ends. *)
Theorem state_init_reads_only (p : plat) :
  wp plat_state_init (λ _, unchanged p) (unchanged p) any_fault p.
Proof. by apply (within_state_init unchanged). Qed.

(** Bringing the RADIUS hosts up to date only ever adds to the device's list
    of RADIUS servers: every message is an update of that list or a removal from
    the list of dynamic authorisation clients, where the code looks for the host
    to remove.  A RADIUS server that is taken out of the configuration stays. *)
Theorem radius_never_removed hosts (p : plat) :
  wp (plat_radius_hosts_list_set hosts) (λ _ p', radius_sent p p') (radius_sent p) any_fault p.
Proof. apply (radius_set_sent hosts). Qed.

(** Once the circuit id of a DHCP relay has been set to the interface number,
    the switch cannot be read again: the setting sends a text the question does
    not know, and while the device shows it [plat_state_init] fails with the core
    feature down.  (The VLAN is the least one, so that its relay is asked for with
    room for one server.  No configuration asks for the interface number, because
    the parser stores another text for it than the platform layer compares with;
    whoever else configures the device can.) *)
Theorem circuit_id_stops_init `{JL : !CJsonLaws} docs vids vid ip (p : plat) :
  steady (pl_gnma p) docs → Forall (λ v, 0 ≤ v < GNMA_MAX_VLANS) vids → vid ∈ vids →
  (∀ v, v ∈ vids → vid ≤ v) →
  docs vlans_path = Some (json_of (vlans_doc vids)) →
  docs (helper_path vid) = Some (json_of (helper_doc ip)) →
  docs (circuit_path vid) = Some (json_of (circuit_doc CIRCUIT_ID_I)) →
  atomic (gnmi_jsoni_set (circuit_path vid) (json_of (circuit_doc CIRCUIT_ID_I)))
    (run_call (gnma_vlan_dhcp_relay_ciruit_id_set vid CIRCUIT_ID_I)) ∧
  wp plat_state_init (λ _ _, False) (λ p', FEAT_CORE (pl_features p') = FEATSTS_FAIL) any_fault p.
Proof.
  intros. split; [apply atomic_relay_set, relay_path_slen|]. by eapply state_init_fails.
Qed.

(** The members of VLANs are read back as they were set: when the device lists
    entries of the form [gnma_vlan_member_create] sends, the bitmaps that are read
    represent exactly the membership the entries make up. *)
Theorem vlan_members_read_back `{JL : !CJsonLaws} docs l (g : gnmi) :
  steady g docs → Forall entry_fits l →
  docs members_path = Some (json_of (members_doc l)) →
  ∃ m, @gnma_get gnma_common _ gnma_vlan_member_bmap_get ∅ g = inl (0, m, g) ∧ represents m (table l).
Proof. apply members_read. Qed.
End properties.

(** ** Witnesses *)
Definition vlan7_docs (path : string) : option jtree :=
  if decide (path = vlans_path) then Some (@json_of jtree_cjson (vlans_doc [7; 9]))
  else if decide (path = helper_path 7) then
    Some (@json_of jtree_cjson (@helper_doc gnmi_libc 16777226))
  else if decide (path = circuit_path 7) then Some (@json_of jtree_cjson (circuit_doc CIRCUIT_ID_I))
  else None.
Definition vlan7_device : @gnmi jtree_cjson sample_gnmi :=
  sample_session []
    [(vlans_path, "{'sonic-vlan:VLAN_LIST':[{'vlanid':7,'name':'Vlan7'},{'vlanid':9,'name':'Vlan9'}]}");
     (helper_path 7, "{'openconfig-relay-agent:helper-address':['10.0.0.1']}");
     (circuit_path 7, "{'openconfig-relay-agent:circuit-id':'%i'}")].
Definition vlan7_plat : @plat (@gnma_common jtree_cjson sample_gnmi gnmi_libc amd64) :=
  @mk_plat (@gnma_common jtree_cjson sample_gnmi gnmi_libc amd64) vlan7_device [] zero_plat_state
    (mk_features FEATSTS_NONE FEATSTS_NONE FEATSTS_NONE) log_ring_init [] ∅ [].

Lemma vlan7_steady : @steady jtree_cjson sample_gnmi vlan7_device vlan7_docs.
Proof.
  split; [by split_and!|]. intros path j. unfold vlan7_docs.
  destruct (decide (path = vlans_path)) as [->|_];
    [|destruct (decide (path = helper_path 7)) as [->|_];
      [|destruct (decide (path = circuit_path 7)) as [->|_]; [|done]]];
    intros [= <-]; (eexists; split; [vm_compute; reflexivity|vm_compute; reflexivity]).
Qed.

Lemma circuit_id_stops_init_witness :
  @steady jtree_cjson sample_gnmi vlan7_device vlan7_docs ∧
  wp (@plat_state_init (@gnma_common jtree_cjson sample_gnmi gnmi_libc amd64)) (λ _ _, False)
    (λ p', FEAT_CORE (pl_features p') = FEATSTS_FAIL) any_fault vlan7_plat.
Proof.
  split; [exact vlan7_steady|].
  refine (proj2 (circuit_id_stops_init (L := gnmi_libc) (T := amd64) (JL := jtree_laws) vlan7_docs [7; 9] 7
    16777226 vlan7_plat vlan7_steady _ _ _ eq_refl eq_refl eq_refl)).
  - constructor; [done|]. by constructor.
  - by left.
  - intros v Hv. apply elem_of_cons in Hv as [->|Hv]; [lia|].
    apply list_elem_of_singleton in Hv as ->. lia.
Defined.

Definition members_docs (path : string) : option jtree :=
  if decide (path = members_path) then Some (@json_of jtree_cjson (members_doc [(7, 3, true)])) else None.
Lemma vlan_members_read_back_witness :
  ∃ m, @gnma_get (@gnma_common jtree_cjson sample_gnmi gnmi_libc amd64) _ gnma_vlan_member_bmap_get ∅
         (sample_session [] [(members_path, sample_members)]) =
       inl (0, m, sample_session [] [(members_path, sample_members)]) ∧ represents m (table [(7, 3, true)]).
Proof.
  refine (vlan_members_read_back (L := gnmi_libc) (T := amd64) (JL := jtree_laws) members_docs [(7, 3, true)]
    (sample_session [] [(members_path, sample_members)]) _ _ eq_refl).
  - split; [by split|]. intros path j. unfold members_docs.
    destruct (decide (path = members_path)) as [->|_]; [|done].
    intros [= <-]. exists (quoted sample_members). split; vm_compute; reflexivity.
  - by constructor.
Defined.
