(* ===== verification/PlatReportSpec.v ===== *)
(** * What collecting the state does and reports

    Collecting only asks the switch; what is reported of the MAC table and of
    the gateways. *)

From Stdlib Require Import Ascii.
From S2P Require Import Prelude CNum CStr Bitmap Router Json PlatTypes World ProtoConv State Netlink Gnma Gnmi Sample StateSpec GnmaSet GnmaGet GnmaState GnmaImpl GnmaSpec GnmaAnswers GnmaReadSpec PlatState PlatVlan PlatPort PlatAaa PlatInit PlatApply PlatReport PlatFrame PlatGnmiSpec.
#[local] Open Scope list_scope.
Import GnmaState.Report.

(** ** Collecting only asks *)
Section asks.
Context `{J : CJson, G : Gnma, L : CLibc, RL : ReportLibc, T : CTarget} (R : relation plat) `{F : !PlatAsks R}.

Lemma within_strcpy n s : within R (c_strcpy n s).
Proof. unfold c_strcpy. within_solve. Qed.
Lemma within_buf_str n s : within R (c_buf_str n s).
Proof. unfold c_buf_str. within_solve. Qed.
#[local] Hint Resolve within_strcpy within_buf_str : within.
Lemma within_counter {A} `{EqDecision A} (types : list A) counters t : within R (counter_of types counters t).
Proof. unfold counter_of. within_solve. Qed.
Lemma within_elements {A} room (zero : A) arr n : within R (elements room zero arr n).
Proof. unfold elements. within_solve. Qed.
#[local] Hint Resolve within_counter within_elements : within.

Lemma within_stats pid : within R (plat_port_stats_get pid).
Proof. unfold plat_port_stats_get. within_solve. Qed.
Lemma within_lldp pid : within R (plat_port_lldp_peer_info_get pid).
Proof. unfold plat_port_lldp_peer_info_get, lldp_peer_info_buf_parse, lldp_capability, mgmt_ip. within_solve. Qed.
Lemma within_clients pid buf : within R (plat_ieee8021x_system_auth_clients_get pid buf).
Proof. unfold plat_ieee8021x_system_auth_clients_get, ieee8021x_auth_clients_parse, auth_client. within_solve. Qed.
#[local] Hint Resolve within_stats within_lldp within_clients : within.
Lemma within_port_info : within R plat_port_info_get.
Proof.
  unfold plat_port_info_get, plat_gnma_port_num_get, port_info, plat_port_speed_get, plat_port_duplex_get,
    plat_port_oper_status_get, plat_port_transceiver_info_get. within_solve.
Qed.
Lemma within_poe_port i old : within R (plat_poe_port_state_get i old).
Proof. unfold plat_poe_port_state_get, poe_port_state_buf_parse. within_solve. Qed.
Lemma within_poe old : within R (plat_poe_state_get old).
Proof. unfold plat_poe_state_get, poe_state_buf_parse. within_solve. Qed.
Lemma within_igmp vid : within R (plat_vlan_igmp_info_get vid).
Proof. unfold plat_vlan_igmp_info_get, igmp_group_of. within_solve. Qed.
#[local] Hint Resolve within_port_info within_poe_port within_poe within_igmp : within.
Lemma within_vlan_info : within R plat_vlan_info_get.
Proof. unfold plat_vlan_info_get. within_solve. Qed.
Lemma within_learned : within R plat_learned_mac_addrs_get.
Proof. unfold plat_learned_mac_addrs_get. within_solve. Qed.
Lemma within_coa : within R plat_state_ieee8021x_coa_global_counters_get.
Proof. unfold plat_state_ieee8021x_coa_global_counters_get. within_solve. Qed.
Lemma within_gw learned : within R (plat_state_gw_ip_get learned).
Proof. unfold plat_state_gw_ip_get, gw_address. within_solve. Qed.
Lemma within_system sys : within R (plat_system_info_get sys).
Proof. unfold plat_system_info_get, get_meminfo_cached_kib, open_r. within_solve. Qed.
#[local] Hint Resolve within_vlan_info within_learned within_coa within_gw within_system : within.
Lemma within_state_get sys : within R (plat_state_get sys).
Proof. unfold plat_state_get, poe_port_report, cache. within_solve. Qed.
End asks.

(** What collecting leaves as it was: everything but the answers still to
    come, and everything when the switch answers alike each time and neither an
    allocation nor a file fails. *)
Section collecting.
Context `{J : CJson, N : !Gnmi, L : CLibc, RL : ReportLibc, T : CTarget}.
Abbreviation plat := (@plat gnma_common).

Definition only_asked (p p' : plat) : Prop :=
  gn_sent (pl_gnma p') = gn_sent (pl_gnma p) ∧ pl_calls p' = pl_calls p ∧ pl_state p' = pl_state p ∧
  pl_features p' = pl_features p ∧ pl_log p' = pl_log p ∧ pl_files p' = pl_files p ∧
  (constant (pl_gnma p) → pl_heap p = [] → pl_io p = [] → p' = p).
#[export] Instance only_asked_asks : PlatAsks only_asked.
Proof.
  split; [split|..].
  - by intros p.
  - intros p1 p2 p3 (A1 & A2 & A3 & A4 & A5 & A6 & A7) (B1 & B2 & B3 & B4 & B5 & B6 & B7).
    unfold only_asked. split_and!; try congruence. intros Hc Hh Hi. specialize (A7 Hc Hh Hi). subst p2. auto.
  - intros A q old p rc a g E. apply ask_asked in E as [Es Ec]. unfold only_asked. split_and!; try done.
    intros Hc _ _. rewrite (Ec Hc). by destruct p.
  - intros p b h E. unfold only_asked. split_and!; try done. intros _ Hh. by rewrite Hh in E.
  - intros p b l E. unfold only_asked. split_and!; try done. intros _ _ Hi. by rewrite Hi in E.
Qed.

(** C12: collecting the state report over gNMI only asks: whether it succeeds or
    fails, no message that changes the switch is sent, no setting is made, and
    the cache, the feature states, the log and the files are unchanged; over a
    device that answers alike each time, with no failing allocation or file,
    the whole platform state is unchanged, so the same report is collected
    again. *)
Theorem report_reads_only sys (p : plat) :
  wp (plat_state_get sys) (λ _ p', only_asked p p') (only_asked p) any_fault p.
Proof. exact (within_state_get only_asked sys p). Qed.
End collecting.

(** ** The MAC table *)
Section tables.
Context `{J : CJson, N : !Gnmi, L : CLibc, RL : ReportLibc, T : CTarget}.
Abbreviation plat := (@plat gnma_common).

Definition fdb_of (root : json) : option json := get_item (Some root) "openconfig-network-instance:fdb".
(** The number of entries the document announces, and the entries it has. *)
Definition fdb_count (root : json) (n : Z) : Prop :=
  let state := get_item (fdb_of root) "state" in
  is_number (get_item state "dynamic-count") = true ∧ is_number (get_item state "static-count") = true ∧
  n = wrap 64 (valueint (get_item state "dynamic-count") + valueint (get_item state "static-count")).
Definition fdb_items (root : json) (items : list json) : Prop :=
  ∃ entry, get_item (get_item (get_item (fdb_of root) "mac-table") "entries") "entry" = Some entry ∧
           items = for_each_child (Some entry).

Lemma fdb_entries_read size items es : Forall2 (λ i e, fdb_entry_of i = Some e) items es →
  ∀ ls found (g : gnmi),
  fdb_entries size items ls found g =
  if decide (es = [] ∨ Z.of_nat (length found + length es) ≤ size)
  then Ok (0, (if decide (es = []) then ls else Z.of_nat (length found + length es), found ++ es)) g
  else Fault BufferOverflow.
Proof.
  induction 1 as [|i e items es Hi Hes IH]; intros ls found g; cbn [fdb_entries].
  { rewrite !decide_True by auto. by rewrite app_nil_r. }
  rewrite Hi. rewrite (decide_False (P := e :: es = [])) by done.
  destruct (Z.leb_spec size (Z.of_nat (length found))) as [Hs|Hs].
  { rewrite decide_False; [done|]. cbn [length]. intros [?|?]; [done|lia]. }
  rewrite IH. rewrite length_app. cbn [length]. rewrite <- app_assoc. cbn [app].
  destruct (decide (es = [])) as [->|Hne].
  - cbn [length]. rewrite !decide_True; [|right; lia|by left]. do 3 f_equal. lia.
  - replace (Z.of_nat (length found + 1 + length es)) with (Z.of_nat (length found + S (length es))) by lia.
    destruct (decide (Z.of_nat (length found + S (length es)) ≤ size)).
    + by rewrite !decide_True by auto.
    + rewrite !decide_False; [done|by intros []..].
Qed.

Lemma mac_list_steady g docs root n items es size have :
  steady g docs → docs fdb_path = Some root → fdb_count root n → 0 < n → fdb_items root items →
  Forall2 (λ i e, fdb_entry_of i = Some e) items es →
  size = 0 ∧ have = false ∨ size = n ∧ have = true →
  gnma_mac_address_list_get size have g =
  if size =? 0 then Ok (GNMA_ERR_OVERFLOW, (n, [])) g
  else if decide (es = [] ∨ Z.of_nat (length es) ≤ n)
       then Ok (0, (if decide (es = []) then n else Z.of_nat (length es), es)) g
       else Fault BufferOverflow.
Proof.
  intros Hs Hd (Hdyn & Hstat & En) Hn (entry & Hentry & Ei) Hes Hsize.
  unfold gnma_mac_address_list_get, common_out, gnmi_get_json, mbind, M_bind.
  change "/openconfig-network-instance:network-instances/network-instance[name=default]/fdb" with fdb_path.
  rewrite (root_steady _ _ _ _ Hs Hd). unfold ret at 1. cbv zeta. unfold fdb_of in *.
  rewrite Hdyn, Hstat. cbn [negb orb]. rewrite <- En.
  destruct Hsize as [[-> ->]|[-> ->]].
  - rewrite (proj2 (Z.ltb_lt 0 n)) by done. done.
  - rewrite Z.ltb_irrefl. rewrite (proj2 (Z.eqb_neq n 0)) by lia. cbn [negb]. rewrite Hentry, <- Ei.
    rewrite (fdb_entries_read _ _ _ Hes). cbn [length Nat.add app]. by case_decide.
Qed.

Lemma alloc_run (p : plat) : pl_heap p = [] → pl_alloc p = Ok true p.
Proof. intros H. unfold pl_alloc. by rewrite H. Qed.
Lemma alloc_or_fail_run (p : plat) : pl_heap p = [] → pl_alloc_or_fail p = Ok tt p.
Proof. intros H. unfold pl_alloc_or_fail. by rewrite (bind_run _ _ _ _ _ (alloc_run p H)). Qed.
Lemma unless_run {S} (s : S) : fail_if false s = Ok tt s.
Proof. done. Qed.
Lemma elements_run {A} room (zero : A) (arr : list A) (p : plat) :
  Z.of_nat (length arr) ≤ room → elements room zero arr (Z.of_nat (length arr)) p = Ok arr p.
Proof.
  intros H. unfold elements. rewrite (proj2 (Z.ltb_ge _ _)) by done. by rewrite Nat2Z.id, take_app_length.
Qed.
Lemma no_elements_run {A} n (zero : A) (p : plat) : elements n zero [] n p = Ok (replicate (Z.to_nat n) zero) p.
Proof.
  unfold elements. rewrite Z.ltb_irrefl. cbn [app]. unfold ret. f_equal. by apply take_ge; rewrite length_replicate.
Qed.

(** C26: over a device that answers alike each time, the MAC table is reported
    exactly: the dynamic entries of the table in its order, with port, VLAN and
    address, when the table has no more entries than the sum of the two counts
    the switch announces with it; otherwise the entry after the last announced
    one is stored past the end of the array that was allocated for them. *)
Theorem learned_macs_exact docs root n items es (p : plat) :
  steady (pl_gnma p) docs → pl_heap p = [] → docs fdb_path = Some root →
  fdb_count root n → 0 < n → fdb_items root items →
  Forall2 (λ i e, fdb_entry_of i = Some e) items es →
  plat_learned_mac_addrs_get p =
  if decide (es = [] ∨ Z.of_nat (length es) ≤ n) then Ok (omap learned_mac es) p else Fault BufferOverflow.
Proof.
  intros Hs Hh Hd Hc Hn Hi Hes. unfold plat_learned_mac_addrs_get.
  pose proof (λ size have, mac_list_steady _ docs root n items es size have Hs Hd Hc Hn Hi Hes) as Hq.
  erewrite bind_run; [|apply (ask_ok _ _ _ GNMA_ERR_OVERFLOW (n, [])); cbn [run_query]; rewrite Hq by auto; done].
  cbv beta iota. erewrite bind_run by exact (unless_run p). cbv beta iota. rewrite (proj2 (Z.eqb_neq n 0)) by lia.
  rewrite (bind_run _ _ _ _ _ (alloc_or_fail_run _ Hh)).
  specialize (Hq n true (or_intror (conj eq_refl eq_refl))). rewrite (proj2 (Z.eqb_neq n 0)) in Hq by lia.
  case_decide as Hcase.
  2:{ unfold mbind at 1, M_bind at 1, ask. cbn [gnma_get gnma_common run_query]. by rewrite Hq. }
  erewrite bind_run; [|apply ask_ok, Hq].
  cbv beta iota. erewrite bind_run by exact (unless_run p). rewrite (bind_run _ _ _ _ _ (alloc_or_fail_run _ Hh)).
  case_decide as He.
  - subst es. rewrite (bind_run _ _ _ _ _ (no_elements_run _ _ _)). unfold ret. f_equal.
    by induction (Z.to_nat n).
  - erewrite bind_run; [done|]. apply elements_run. by destruct Hcase.
Qed.

(** ** The gateways *)
Definition route_path : string :=
  "/openconfig-network-instance:network-instances/network-instance[name=default]/afts/ipv4-unicast/ipv4-entry".
Definition neighbour_path (iface : string) (ip : Z) : string :=
  if match iface with String c _ => Ascii.eqb c "V"%char | EmptyString => false end
  then "/openconfig-interfaces:interfaces/interface[name=" +:+ iface +:+
       "]/openconfig-vlan:routed-vlan/openconfig-if-ip:ipv4/neighbors/neighbor[ip=" +:+ inet_ntop ip +:+
       "]/state/link-layer-address"
  else "/openconfig-interfaces:interfaces/interface[name=" +:+ iface +:+
       "]/subinterfaces/subinterface[index=0]/openconfig-if-ip:ipv4/neighbors/neighbor[ip=" +:+ inet_ntop ip +:+
       "]/state/link-layer-address".

(** The neighbour table has the MAC address [mac] for the next hop of [r]. *)
Definition neighbour (docs : string → option json) (r : gnma_ip_prefix * gnma_nexthop) (mac : string) : Prop :=
  slen (nh_egress_port r.2) < 32 ∧ mac ≠ "" ∧
  ∃ j, docs (neighbour_path (nh_egress_port r.2) (nh_gw r.2)) = Some j ∧
       string_value (get_item (Some j) "openconfig-if-ip:link-layer-address") = Some mac.

(** The port a next hop is reported with: where its MAC address was learned on
    the VLAN it is reached through, the interface itself otherwise. *)
Definition reached_by (learned : list plat_learned_mac_addr) (name mac port : string) : Prop :=
  let there vid m := m ∈ learned ∧ wrap 16 (lm_vid m) = vid ∧ lm_mac m = mac in
  (∃ vid m, NAME_TO_VLAN name = Some vid ∧ there vid m ∧ port = lm_port m) ∨
  port = name ∧ ∀ vid m, NAME_TO_VLAN name = Some vid → ¬ there vid m.
Definition gateway_of (learned : list plat_learned_mac_addr) (r : gnma_ip_prefix * gnma_nexthop) (mac : string)
    (a : plat_gw_address) : Prop :=
  gw_ip a = nh_gw r.2 ∧ gw_metric a = nh_metric r.2 ∧ gw_mac a = c_strncpy 18 mac ∧
  ∃ port, reached_by learned (nh_egress_port r.2) (c_strncpy 18 mac) port ∧ gw_port a = c_strncpy 32 port.

Lemma egress_reached learned name mac : reached_by learned name mac (egress_port learned name mac).
Proof.
  unfold reached_by, egress_port. destruct (NAME_TO_VLAN name) as [vid|]; [|by right].
  destruct (list_find _ learned) as [[i m]|] eqn:E.
  - left. apply list_find_Some in E as (Hi & Hm & _). exists vid, m. apply andb_true_iff in Hm as [Hv Hm].
    apply Z.eqb_eq in Hv. apply streq_eq in Hm. split_and!; try done. by eapply list_elem_of_lookup_2.
  - right. split; [done|]. intros v m [= <-] (Hin & Hv & Hm).
    apply list_find_None, Forall_forall with (x := m) in E; [|done]. apply E, andb_true_iff.
    by rewrite Hv, Hm, Z.eqb_refl, streq_refl.
Qed.

Lemma route_list_steady g docs root size have :
  steady g docs → docs route_path = Some root →
  let routes := get_item (Some root) "openconfig-network-instance:ipv4-entry" in
  is_array routes = true →
  let nexts := omap dyn_route_of (for_each_child routes) in
  size = 0 ∧ have = false ∨ size = Z.of_nat (length nexts) ∧ have = true →
  gnma_dyn_route_list_get size have g =
  Ok (if size <? Z.of_nat (length nexts) then GNMA_ERR_OVERFLOW else 0,
      (Z.of_nat (length nexts), if have then nexts else [])) g.
Proof.
  intros Hs Hd routes Ha nexts Hsize. unfold gnma_dyn_route_list_get, common_out.
  change "/openconfig-network-instance:network-instances/network-instance[name=default]/afts/ipv4-unicast/ipv4-entry"
    with route_path.
  unfold mbind, M_bind. rewrite (root_steady _ _ _ _ Hs Hd). fold routes. rewrite Ha. cbn [negb]. fold nexts.
  unfold ret. do 3 f_equal. destruct Hsize as [[-> ->]|[-> ->]]; [done|]. by rewrite Nat2Z.id, firstn_all.
Qed.

Lemma mac_steady docs r mac old (g : gnmi) :
  steady g docs → neighbour docs r mac →
  gnma_nei_addr_get (nh_egress_port r.2) (nh_gw r.2) 18 old g = Ok (0, c_strncpy 18 mac) g.
Proof.
  intros Hs (_ & Hm & j & Hj & Ej). unfold gnma_nei_addr_get, common_out.
  unfold mbind, M_bind. fold (neighbour_path (nh_egress_port r.2) (nh_gw r.2)).
  rewrite (leaf_steady _ _ _ _ _ Hs Hj), Ej. by destruct mac.
Qed.

Lemma stake_twice n s : stake n (stake n s) = stake n s.
Proof. unfold stake. revert s. induction n as [|n IH]; intros [|c s]; cbn; [done..|]. by rewrite IH. Qed.
Lemma gw_run docs learned r mac (p : plat) :
  steady (pl_gnma p) docs → neighbour docs r mac →
  ∃ a, gw_address learned r p = Ok a p ∧ gateway_of learned r mac a.
Proof.
  intros Hs Hn. eexists. split.
  - unfold gw_address. erewrite bind_run; [|unfold c_buf_str; rewrite (proj2 (Z.ltb_lt _ _) (proj1 Hn)); done].
    erewrite bind_run; [|apply ask_ok; cbn [run_query]; apply (mac_steady docs); done].
    cbv beta iota. by erewrite bind_run by exact (unless_run p).
  - unfold gateway_of. cbn [gw_ip gw_metric gw_mac gw_port]. split_and!; [done|done|apply stake_twice|].
    eexists. split; [apply egress_reached|done].
Qed.
Lemma gws_run docs learned rs macs (p : plat) : steady (pl_gnma p) docs → Forall2 (neighbour docs) rs macs →
  ∀ l, ∃ found, fold_m (λ l r, a ← gw_address learned r; ret (l ++ [a])) rs l p = Ok (l ++ found) p ∧
                Forall3 (gateway_of learned) rs macs found.
Proof.
  intros Hs. induction 1 as [|r mac rs macs Hr Hrs IH]; intros l.
  - exists []. rewrite app_nil_r. split; [done|constructor].
  - destruct (gw_run docs learned r mac p Hs Hr) as (a & Ea & Ha). destruct (IH (l ++ [a])) as (found & Ef & Hf).
    exists (a :: found). split; [|by constructor].
    cbn [fold_m]. rewrite (bind_run _ _ _ _ _ Ea). etrans; [exact Ef|]. by rewrite <- app_assoc.
Qed.

Lemma gateways_of_nexts docs root learned macs (p : plat) :
  steady (pl_gnma p) docs → pl_heap p = [] → docs route_path = Some root →
  let routes := get_item (Some root) "openconfig-network-instance:ipv4-entry" in
  is_array routes = true →
  let nexts := omap dyn_route_of (for_each_child routes) in
  Forall2 (neighbour docs) (List.filter is_default nexts) macs →
  ∃ found, plat_state_gw_ip_get learned p = Ok found p ∧
           Forall3 (gateway_of learned) (List.filter is_default nexts) macs found.
Proof.
  intros Hs Hh Hd routes Ha nexts Hm. unfold plat_state_gw_ip_get.
  pose proof (λ size have, route_list_steady _ docs root size have Hs Hd Ha) as Hq.
  fold routes in Hq. fold nexts in Hq. cbv zeta in Hq.
  erewrite bind_run; [|apply ask_ok; cbn [run_query]; apply Hq; auto]. cbv beta iota.
  erewrite bind_run by (destruct (0 <? _); exact (unless_run p)).
  destruct (Z.eqb_spec (Z.of_nat (length nexts)) 0) as [Hz|Hz].
  { assert (nexts = []) as Hnil by (by apply length_zero_iff_nil; lia). rewrite Hnil in *.
    cbn [List.filter] in *. apply Forall2_nil_inv_l in Hm as ->. eexists. split; [done|constructor]. }
  rewrite !(bind_run _ _ _ _ _ (alloc_run _ Hh)). cbn [negb orb]. erewrite bind_run by exact (unless_run p).
  erewrite bind_run; [|apply ask_ok; cbn [run_query]; apply Hq; auto]. cbv beta iota. rewrite Z.ltb_irrefl.
  erewrite bind_run by exact (unless_run p).
  erewrite bind_run by (by apply elements_run). rewrite (bind_run _ _ _ _ _ (alloc_or_fail_run _ Hh)).
  exact (gws_run docs learned _ _ p Hs Hm []).
Qed.
(** A default route whose gateway can be reported, with that gateway: its prefix
    is 0.0.0.0/0, and the first of its next hops is not directly connected and
    has an address and an interface; the route has a metric.  Whatever next
    hops follow the first, they are not looked at. *)
Definition gateway_route (route : json) (r : gnma_ip_prefix * gnma_nexthop) : Prop :=
  let text o s := string_value o = Some s in
  ∃ prefix hop state ip bits port metric,
    text (get_item (Some route) "prefix") prefix ∧ inet_net_pton prefix = (0, 0) ∧
    for_each_child (get_item (get_item (Some route) "openconfig-aft-deviation:next-hops") "next-hop") !! 0%nat = Some hop ∧
    get_item (Some hop) "state" = Some state ∧ is_true (get_item (Some state) "directly-connected") = false ∧
    text (get_item (Some state) "ip-address") ip ∧ inet_net_pton ip = (bits, nh_gw r.2) ∧ bits ≠ -1 ∧
    text (get_item (get_item (get_item (Some hop) "interface-ref") "state") "interface") port ∧
    nh_egress_port r.2 = c_strncpy (Z.to_nat GnmaGet.Query.GNMA_PORT_KEY_LEN) port ∧
    get_item (get_item (Some route) "state") "metric" = Some metric ∧
    nh_metric r.2 = d2u 32 (number_value (Some metric)) ∧
    r.1 = mk_gnma_ip_prefix false 0 0.
(** [hops] are the gateways of the routes that have one, in the order of the routes. *)
Inductive gateway_routes : list json → list (gnma_ip_prefix * gnma_nexthop) → Prop :=
  | gr_nil : gateway_routes [] []
  | gr_take route routes r hops : gateway_route route r → gateway_routes routes hops →
      gateway_routes (route :: routes) (r :: hops)
  | gr_skip route routes hops : (∀ r, ¬ gateway_route route r) → gateway_routes routes hops →
      gateway_routes (route :: routes) hops.

Lemma gateway_route_iff route r : gateway_route route r ↔ dyn_route_of route = Some r ∧ is_default r = true.
Proof.
  unfold gateway_route, dyn_route_of, array_item. split.
  - intros (prefix & hop & state & ip & bits & port & metric & H1 & H2 & H3 & H4 & H5 & H6 & H7 & H8 & H9 & H10 & H11 & H12 & H13).
    rewrite H1. cbn [mbind option_bind]. rewrite H2. cbv beta iota. change (0 =? -1) with false. cbv iota zeta.
    rewrite H3, H4. cbn [mbind option_bind]. rewrite H5, H6. cbn [mbind option_bind]. rewrite H7. cbv beta iota.
    rewrite (proj2 (Z.eqb_neq bits (-1))) by done. rewrite H9. cbn [mbind option_bind]. rewrite H11. cbn [mbind option_bind].
    destruct r as [pre nh]. cbn [fst snd] in *. subst pre. rewrite <- H10, <- H12. split; [|done]. by destruct nh.
  - intros [H Hd]. destruct (string_value (get_item (Some route) "prefix")) as [prefix|] eqn:H1; [|done].
    cbn [mbind option_bind] in H. destruct (inet_net_pton prefix) as [plen addr] eqn:H2.
    destruct (Z.eqb_spec plen (-1)); [done|]. destruct (for_each_child _ !! 0%nat) as [hop|] eqn:H3; [|done].
    destruct (get_item (Some hop) "state") as [state|] eqn:H4; [|done]. cbn [mbind option_bind] in H.
    destruct (is_true _) eqn:H5; [done|]. destruct (string_value (get_item (Some state) "ip-address")) as [ip|] eqn:H6; [|done].
    cbn [mbind option_bind] in H. destruct (inet_net_pton ip) as [bits gw] eqn:H7.
    destruct (Z.eqb_spec bits (-1)); [done|].
    destruct (string_value (get_item (get_item (get_item (Some hop) "interface-ref") "state") "interface")) as [port|] eqn:H8; [|done].
    cbn [mbind option_bind] in H. destruct (get_item (get_item (Some route) "state") "metric") as [metric|] eqn:H9; [|done].
    cbn [mbind option_bind] in H. injection H as <-. unfold is_default in Hd. cbn [fst snd gp_addr gp_len] in Hd.
    apply andb_true_iff in Hd as [Ha%Z.eqb_eq Hl%Z.eqb_eq]. subst addr plen.
    exists prefix, hop, state, ip, bits, port, metric. by split_and!.
Qed.
Lemma gateway_routes_filter routes hops :
  gateway_routes routes hops → List.filter is_default (omap dyn_route_of routes) = hops.
Proof.
  induction 1 as [|route routes r hops [Hr Hd]%gateway_route_iff _ IH|route routes hops Hno _ IH]; [done|..].
  - change (omap dyn_route_of (route :: routes))
      with (match dyn_route_of route with Some b => b :: omap dyn_route_of routes | None => omap dyn_route_of routes end).
    rewrite Hr. cbn [List.filter]. by rewrite Hd, IH.
  - change (omap dyn_route_of (route :: routes))
      with (match dyn_route_of route with Some b => b :: omap dyn_route_of routes | None => omap dyn_route_of routes end).
    destruct (dyn_route_of route) as [r|] eqn:Hr; [|done]. cbn [List.filter]. destruct (is_default r) eqn:Hd; [|done].
    destruct (Hno r). by apply gateway_route_iff.
Qed.

(** C17: over a device that answers alike each time, one gateway is reported for
    each default route whose first next hop can be read, in the order of the
    routes: with the address of that hop and the metric of the route, the MAC
    address the neighbour table has for it, and the port where that address was
    learned on the VLAN the hop is reached through, or the interface itself when
    it was learned nowhere on it.  Other next hops of a route are never
    reported. *)
Theorem gateways_exact docs root learned hops macs (p : plat) :
  steady (pl_gnma p) docs → pl_heap p = [] → docs route_path = Some root →
  let routes := get_item (Some root) "openconfig-network-instance:ipv4-entry" in
  is_array routes = true → gateway_routes (for_each_child routes) hops → Forall2 (neighbour docs) hops macs →
  ∃ found, plat_state_gw_ip_get learned p = Ok found p ∧ Forall3 (gateway_of learned) hops macs found.
Proof.
  intros Hs Hh Hd routes Ha Hr Hm. apply gateway_routes_filter in Hr as <-.
  by apply (gateways_of_nexts docs root).
Qed.
End tables.

(** ** A concrete switch *)
Definition table_doc : string :=
  "{'openconfig-network-instance:fdb':{'state':{'dynamic-count':2,'static-count':1},'mac-table':{'entries':{'entry':[{'state':{'mac-address':'a1','vlan':7,'entry-type':'DYNAMIC'},'interface':{'interface-ref':{'state':{'interface':'Ethernet3'}}}},{'state':{'mac-address':'b2','vlan':7,'entry-type':'STATIC'},'interface':{'interface-ref':{'state':{'interface':'Ethernet4'}}}}]}}}}".
Definition route_doc : string :=
  "{'openconfig-network-instance:ipv4-entry':[{'prefix':'0.0.0.0/0','state':{'metric':4},'openconfig-aft-deviation:next-hops':{'next-hop':[{'state':{'ip-address':'10.0.0.1'},'interface-ref':{'state':{'interface':'Vlan7'}}},{'state':{'ip-address':'10.0.0.1'},'interface-ref':{'state':{'interface':'Ethernet9'}}}]}}]}".
Definition neighbour_doc : string := "{'openconfig-if-ip:link-layer-address':'a1'}".
Definition report_libc : CLibc := {|
  inet_net_pton s := if streq s "0.0.0.0/0" then (0, 0) else if streq s "10.0.0.1" then (32, 16777226) else (-1, 0);
  inet_pton s := if streq s "10.0.0.1" then (1, 16777226) else (0, 0);
  inet_ntop _ := "10.0.0.1" |}.
Definition report_texts : list (string * string) :=
  [(fdb_path, table_doc); (route_path, route_doc);
   (@neighbour_path report_libc "Vlan7" 16777226, neighbour_doc)].
Definition report_docs (path : string) : option jtree :=
  (list_find (λ kv, kv.1 = path) report_texts) ≫= λ r, @cJSON_Parse jtree_cjson (quoted r.2.2).
Definition report_plat : @plat (@gnma_common jtree_cjson sample_gnmi report_libc amd64) :=
  @mk_plat (@gnma_common jtree_cjson sample_gnmi report_libc amd64) (sample_session [] report_texts) [] zero_plat_state
    (mk_features FEATSTS_NONE FEATSTS_NONE FEATSTS_NONE) log_ring_init [] ∅ [].

Lemma report_steady : @steady jtree_cjson sample_gnmi (pl_gnma report_plat) report_docs.
Proof.
  split; [by split_and!|]. intros path j. unfold report_docs. cbn [pl_gnma report_plat gdev_get sample_gnmi].
  destruct (list_find _ report_texts) as [[i [k text]]|] eqn:E; [|done]. intros Hj. exists (quoted text).
  split; [|exact Hj].
  change ((λ r, quoted r.2.2) <$> list_find (λ kv, kv.1 = path) report_texts = Some (quoted text)). by rewrite E.
Qed.

Lemma learned_macs_exact_witness :
  plat_learned_mac_addrs_get report_plat = Ok [mk_plat_learned_mac_addr "Ethernet3" 7 "a1"] report_plat.
Proof.
  refine (learned_macs_exact (J := jtree_cjson) (N := sample_gnmi) (L := report_libc) (T := amd64) report_docs _ 3 _
            [mk_gnma_fdb_entry "Ethernet3" GNMA_FDB_ENTRY_TYPE_DYNAMIC 7 "a1";
             mk_gnma_fdb_entry "Ethernet4" GNMA_FDB_ENTRY_TYPE_STATIC 7 "b2"] report_plat report_steady eq_refl
            _ _ eq_refl _ _).
  - vm_compute. reflexivity.
  - vm_compute. done.
  - eexists. split; [vm_compute; reflexivity|reflexivity].
  - repeat constructor; vm_compute; reflexivity.
Defined.

Definition report_next : gnma_ip_prefix * gnma_nexthop :=
  (mk_gnma_ip_prefix false 0 0, mk_gnma_nexthop 4 16777226 "Vlan7").
Definition route_root : jtree := default JNull (report_docs route_path).
(** Its one route has two next hops. *)
Definition report_route : jtree :=
  default JNull (head (@for_each_child jtree_cjson (@get_item jtree_cjson (Some route_root) "openconfig-network-instance:ipv4-entry"))).
Lemma report_routes :
  [report_route] = @for_each_child jtree_cjson (@get_item jtree_cjson (Some route_root) "openconfig-network-instance:ipv4-entry").
Proof. vm_compute. reflexivity. Qed.
Lemma gateways_exact_witness :
  ∃ found, plat_state_gw_ip_get [mk_plat_learned_mac_addr "Ethernet3" 7 "a1"] report_plat = Ok found report_plat ∧
           Forall3 (gateway_of [mk_plat_learned_mac_addr "Ethernet3" 7 "a1"]) [report_next] ["a1"] found.
Proof.
  refine (gateways_exact (J := jtree_cjson) (N := sample_gnmi) (L := report_libc) (T := amd64) report_docs route_root
            [mk_plat_learned_mac_addr "Ethernet3" 7 "a1"] [report_next] ["a1"] report_plat report_steady eq_refl _ _ _ _).
  - vm_compute. reflexivity.
  - vm_compute. reflexivity.
  - refine (eq_rect _ (λ l, gateway_routes (J := jtree_cjson) (L := report_libc) (T := amd64) l [report_next]) _ _ report_routes).
    refine (gr_take (J := jtree_cjson) (L := report_libc) (T := amd64) report_route [] report_next [] _ _); [|apply gr_nil].
    refine (proj2 (gateway_route_iff (J := jtree_cjson) (L := report_libc) (T := amd64) report_route report_next) _).
    split; vm_compute; reflexivity.
  - constructor; [|constructor]. split_and!; [done|done|]. eexists. split; vm_compute; reflexivity.
Defined.
Example gateways_example :
  match plat_state_gw_ip_get [mk_plat_learned_mac_addr "Ethernet3" 7 "a1"] report_plat with
  | Ok l _ => Some l
  | _ => None
  end = Some [mk_plat_gw_address 16777226 4 "Ethernet3" "a1"].
Proof. vm_compute. reflexivity. Qed.
